(* ===== verification/_CoqProject ===== *)
-Q . S2P
Prelude.v
Memory.v
Hardware.v
Machine.v
Utils.v
Screen.v
Preserves.v
Pmm.v
Kheap.v
Vmm.v
Cpu.v
Process.v
Ata.v
Buffers.v
Fat.v
FatTable.v
FatNames.v
FatDir.v
Frames.v
Elf.v
Shell.v
Exec.v
Load.v
Keyboard.v
Isr.v
Kernel.v
System.v
Serve.v
Boot.v
