(* ===== verification/Prelude.v ===== *)
(** * OS_eojin: a verification of the kernel

    OS_eojin is a small 64-bit kernel with a frame allocator over the E820 memory map, four-level
    paging, a linked-list heap, a FAT16 file system on an ATA disk, a keyboard-driven shell, an
    ELF loader and preemptive processes.  Everything runs in interrupts: the timer switches
    processes, the keyboard edits a line and runs the shell when Enter is pressed, and int 0x80
    serves two system calls.

    ** How the code is modelled

    A C function is a value of the monad [M] of Machine.v: it takes loop fuel and a [machine],
    and returns a value and a new machine ([Ret]), or is undefined ([Undef]: an access outside a
    declared array, a division by zero), runs out of fuel ([NoFuel]) or stops the processor
    ([Halt]).  A [machine] is physical memory (bytes by address), the devices, the control
    registers, and one record per C file for its global variables.  What the code keeps in
    memory it keeps in memory here too: the frame bitmap, page tables, heap headers, sector
    buffers, stacks and trap frames are bytes at their addresses.  Local and global arrays are
    lists of their declared length.  Integers are [Z] with the wrap-around of their width
    ([u8] to [u64]) written where the code can wrap.  Loops with a static bound recurse on it;
    loops without one take a unit of fuel per iteration, and the theorems about them name the
    fuel that is enough: the length of the heap's list, of a cluster chain, of a string, the
    number of program headers and of a segment's pages, the drive's longest delay.
    [wp m n s Q] is total correctness: [m] returns, and the result satisfies [Q].

    ** Files

    - Prelude: machine-width integers, bits, automation.  Memory: loads and stores of bytes.
    - Hardware: the devices as seen through their ports (class [PortDevice]): VGA and CRT
      controller, ATA drive with arbitrary delays and errors, interrupt controllers, timer.
    - Machine: includes/*.h structures, globals, the monad and its rules.
    - Preserves: preservation of state predicates, proved by walking through a program.
    - Utils: kernel/utils.c.  Screen: drivers/screen.c.
    - Pmm, Kheap, Vmm: kernel/pmm.c, kernel/kheap.c, kernel/vmm.c.
    - Cpu: kernel/ports.c, kernel/cpu/gdt.c, kernel/idt.c, kernel/pic.c, drivers/timer.c; the
      addresses the linker chooses are the class [Linker].
    - Process: kernel/process/process.c.  Ata: drivers/ata.c.
    - Buffers: what the heap promises to code that takes and returns buffers in nested order.
    - Fat: fs/fat.c; FatTable, FatNames, FatDir: its allocation table, names and paths, directories.
    - Frames: what paging and the frame allocator promise to loaders.  Elf: kernel/elf.c.
    - Shell: kernel/memory.c and [user_input] of kernel/kernel.c.  Exec: the part of exec
      behind its message, composed from paging, loader and processes.  Load: cat and exec on a
      file, from the command line to the screen and to 64 MiB.
    - Keyboard: drivers/keyboard.c.  Isr: kernel/isr.c.  Kernel: [main] of kernel/kernel.c.
    - System: what the shell and the interrupts can change (class [Quiet]) and the invariant of
      the running system.  Serve: which interrupts the handler returns from.  Boot: [main]
      establishes the invariant.

    ** What is proved

    - Memory: first fit of the frame allocator and the bitmap built from any E820 table; the
      heap refines first fit with splitting and coalescing on a list of blocks, and any
      sequence of calls keeps live regions disjoint; mapping a page changes one translation;
      the identity map; what user roots share with the kernel.
    - Processes: [schedule] refines round robin and is fair; trap frames of new processes;
      exit, timer and print through the interrupt dispatcher.
    - Storage: sector round trips through the port protocol, for a drive that is ready within
      the driver's limit of status reads; the allocation table as a map through heap buffers
      and sectors; cluster allocation and the release of chains; names; the search in a
      directory and that it finds what was created; changing the directory and back; cat
      shows a file's bytes on the terminal.
    - Programs: the image the loader builds; exec copies a file to 64 MiB and then writes past
      the array of its message, so no run of it within C's rules starts a process.  The part
      behind the message is specified on its own (Exec), for files in frames marked used.
    - Console: the screen driver refines a scrolling terminal, the keyboard a line editor.
    - System: [main] terminates with everything set up, and from there an invariant holds in
      every state reached by handlers that return and by programs that leave the kernel's
      variables alone; in each of these states the timer, the keys, the system calls and the
      lines of Serve are served and the invariant holds again.
    - Errors: what the code does when frames run out, the drive fails, names, lines or commands
      are too long, or every process is dead.

    ** Bounds

    Physical memory up to 512 GiB for [main] ([pmm_fits] elsewhere: the bitmap ends below
    32 MiB); 28-bit sector numbers; addresses of programs below 2^47; files within 2^63.

    ** Not modelled

    Assembly (boot sectors, mode switches, the stubs that save and restore registers around
    [isr_handler], [gdt_flush]), the user program user/hello.c (inline assembly for the two
    system calls), the translation buffer (a changed entry is in force at once), canonical
    addresses and page permissions, nested interrupts (gates clear the interrupt flag, so
    handlers run to completion), and the kernel image in memory: the kernel's variables and
    stack are not addresses of the modelled memory, so a wild store is visible as a store but
    does not change a variable.  That programs do not write the kernel's variables is assumed
    in System, although the kernel maps its memory writable from ring 3.  [load], [store],
    [memcpy] and [memset] act on physical memory, which is what a kernel pointer reaches as
    long as the active tables map it to itself: [memory_up] (Boot) has this for the first
    512 MiB after the start, and the loader, which maps pages in tables shared with the
    kernel, keeps it under the condition [off_kernel] ([kernel_pointers] in Frames and Elf).
    Deleting and listing files are modelled and their frame is proved (System), but they
    have no specification beyond their table and names.

    ** Next

    Specifications of deletion and of the listing, and the frame allocator's and the heap's
    invariants through whole commands. *)
From stdpp Require Export prelude gmap list strings.
From Stdlib Require Export ZArith Lia.
#[global] Open Scope Z_scope.

(** ** Machine-width integers *)

Definition u8 (x : Z) : Z := x mod 256.
Definition u16 (x : Z) : Z := x mod 65536.
Definition u32 (x : Z) : Z := x mod 4294967296.
Definition u64 (x : Z) : Z := x mod 18446744073709551616.

(** The value of a byte read through a [char], which is signed on this target. *)
Definition schar (x : Z) : Z := if decide (u8 x < 128) then u8 x else u8 x - 256.

(** A value read through a 32-bit [int]. *)
Definition i32 (x : Z) : Z := if decide (u32 x < 2147483648) then u32 x else u32 x - 4294967296.

Global Arguments u8 : simpl never.
Global Arguments u16 : simpl never.
Global Arguments u32 : simpl never.
Global Arguments u64 : simpl never.

(** ** Automation *)

Create HintDb osdb.
Create Rewrite HintDb osmem.

(** [lia] after turning every division and modulo by a constant into equations. *)
Ltac dlia := Z.to_euclidean_division_equations; lia.

(** Case analysis on every [decide] or boolean comparison of the goal. *)
Ltac cases_decide :=
  repeat first
    [ case_decide
    | case_bool_decide
    | match goal with
      | |- context [Z.eqb ?a ?b] => destruct (Z.eqb_spec a b)
      | |- context [Z.ltb ?a ?b] => destruct (Z.ltb_spec a b)
      | |- context [Z.leb ?a ?b] => destruct (Z.leb_spec a b)
      end ].

Ltac width := unfold u8, u16, u32, u64 in *.

Lemma u8_small x : 0 ≤ x < 256 → u8 x = x.
Proof. intros. by apply Z.mod_small. Qed.
Lemma u16_small x : 0 ≤ x < 65536 → u16 x = x.
Proof. intros. by apply Z.mod_small. Qed.
Lemma u32_small x : 0 ≤ x < 4294967296 → u32 x = x.
Proof. intros. by apply Z.mod_small. Qed.
Lemma u64_small x : 0 ≤ x < 18446744073709551616 → u64 x = x.
Proof. intros. by apply Z.mod_small. Qed.
Lemma u8_range x : 0 ≤ u8 x < 256.
Proof. by apply Z.mod_pos_bound. Qed.
Lemma u16_range x : 0 ≤ u16 x < 65536.
Proof. by apply Z.mod_pos_bound. Qed.
Lemma u32_range x : 0 ≤ u32 x < 4294967296.
Proof. by apply Z.mod_pos_bound. Qed.
Lemma u64_range x : 0 ≤ u64 x < 18446744073709551616.
Proof. by apply Z.mod_pos_bound. Qed.
#[export] Hint Resolve u8_range u16_range u32_range u64_range : osdb.

(** ** Bits *)

(** Masking with the low [n] ones is reduction modulo [2 ^ n]. *)
Lemma land_ones_mod x n m : 0 ≤ n → m = Z.ones n → Z.land x m = x mod 2 ^ n.
Proof. intros ? ->. by apply Z.land_ones. Qed.

Lemma testbit_setbit_eq x n k :
  0 ≤ n → Z.testbit (Z.lor x (Z.shiftl 1 n)) k = Z.testbit x k || bool_decide (n = k).
Proof.
  intros. rewrite Z.lor_spec, Z.shiftl_1_l. f_equal.
  destruct (decide (n = k)) as [->|].
  - rewrite Z.pow2_bits_true by done. by rewrite bool_decide_eq_true_2.
  - rewrite Z.pow2_bits_false by done. by rewrite bool_decide_eq_false_2.
Qed.

Lemma testbit_clearbit_eq x n k :
  0 ≤ n → 0 ≤ k →
  Z.testbit (Z.land x (Z.lnot (Z.shiftl 1 n))) k = Z.testbit x k && negb (bool_decide (n = k)).
Proof.
  intros. rewrite Z.land_spec, Z.lnot_spec, Z.shiftl_1_l by done. do 2 f_equal.
  destruct (decide (n = k)) as [->|].
  - rewrite Z.pow2_bits_true by done. by rewrite bool_decide_eq_true_2.
  - rewrite Z.pow2_bits_false by done. by rewrite bool_decide_eq_false_2.
Qed.

(** [x & (1 << n)] is non-zero exactly when bit [n] of [x] is set. *)
Lemma land_bit_zero x n : 0 ≤ n → Z.land x (Z.shiftl 1 n) = 0 ↔ Z.testbit x n = false.
Proof.
  intros Hn. split.
  - intros H. apply (f_equal (fun z => Z.testbit z n)) in H.
    rewrite Z.land_spec, Z.shiftl_1_l, Z.pow2_bits_true, andb_true_r, Z.bits_0 in H by done.
    done.
  - intros H. apply Z.bits_inj'. intros k Hk.
    rewrite Z.land_spec, Z.shiftl_1_l, Z.bits_0.
    destruct (decide (n = k)) as [->|].
    + by rewrite H.
    + rewrite Z.pow2_bits_false by done. apply andb_false_r.
Qed.

Lemma testbit_mod_pow2 x n k : 0 ≤ n → 0 ≤ k →
  Z.testbit (x mod 2 ^ n) k = bool_decide (k < n) && Z.testbit x k.
Proof.
  intros. destruct (decide (k < n)).
  - rewrite Z.mod_pow2_bits_low by lia. by rewrite bool_decide_eq_true_2.
  - rewrite Z.mod_pow2_bits_high by lia. by rewrite bool_decide_eq_false_2.
Qed.
