(* ===== verification/Memory.v ===== *)
(** Physical memory: a byte map with little-endian multi-byte access.

    The kernel runs with an identity mapping, so every pointer it dereferences is
    a physical address.  A cell that was never written holds 0, and a cell is read
    modulo 256, so that every state is a state of byte-sized cells. *)
From S2P Require Import Prelude.

Definition byte_at (m : gmap Z Z) (a : Z) : Z := u8 (default 0 (m !! a)).

(** [load n m a] is the little-endian value of the [n] bytes at [a]. *)
Fixpoint load (n : nat) (m : gmap Z Z) (a : Z) : Z :=
  match n with
  | O => 0
  | S k => byte_at m a + 256 * load k m (a + 1)
  end.

(** [store n a v m] writes the low [n] bytes of [v] at [a]. *)
Fixpoint store (n : nat) (a v : Z) (m : gmap Z Z) : gmap Z Z :=
  match n with
  | O => m
  | S k => store k (a + 1) (v / 256) (<[a := u8 v]> m)
  end.

(** [fill n a v m]: the [n] bytes at [a] become [v]. *)
Fixpoint fill (n : nat) (a v : Z) (m : gmap Z Z) : gmap Z Z :=
  match n with
  | O => m
  | S k => fill k (a + 1) v (<[a := u8 v]> m)
  end.

(** [copy n d s m]: a forward byte copy of [n] bytes from [s] to [d]. *)
Fixpoint copy (n : nat) (d s : Z) (m : gmap Z Z) : gmap Z Z :=
  match n with
  | O => m
  | S k => copy k (d + 1) (s + 1) (<[d := byte_at m s]> m)
  end.

(** The [n] bytes at [a] as a list. *)
Fixpoint bytes (n : nat) (m : gmap Z Z) (a : Z) : list Z :=
  match n with
  | O => []
  | S k => byte_at m a :: bytes k m (a + 1)
  end.

(** Write a list of bytes at [a]. *)
Fixpoint put_bytes (a : Z) (bs : list Z) (m : gmap Z Z) : gmap Z Z :=
  match bs with
  | [] => m
  | b :: bs => put_bytes (a + 1) bs (<[a := u8 b]> m)
  end.

(** Two memories agree on the address range [a, a + n). *)
Definition agree (m m' : gmap Z Z) (a n : Z) : Prop :=
  ∀ x, a ≤ x < a + n → byte_at m x = byte_at m' x.

(** Two memories agree outside the range [a, a + n). *)
Definition agree_out (m m' : gmap Z Z) (a n : Z) : Prop :=
  ∀ x, ¬ (a ≤ x < a + n) → byte_at m' x = byte_at m x.

Global Arguments load : simpl never.
Global Arguments store : simpl never.

Section memory.
Implicit Types m : gmap Z Z.

Lemma byte_at_range m a : 0 ≤ byte_at m a < 256.
Proof. apply u8_range. Qed.

Lemma byte_at_insert m a v x :
  byte_at (<[a := v]> m) x = if decide (a = x) then u8 v else byte_at m x.
Proof. unfold byte_at. rewrite lookup_insert. by case_decide. Qed.

Lemma load_0 m a : load 0 m a = 0.
Proof. done. Qed.
Lemma load_S k m a : load (S k) m a = byte_at m a + 256 * load k m (a + 1).
Proof. done. Qed.
Lemma store_S k a v m : store (S k) a v m = store k (a + 1) (v / 256) (<[a := u8 v]> m).
Proof. done. Qed.

Lemma load_range n m a : 0 ≤ load n m a < 256 ^ Z.of_nat n.
Proof.
  induction n as [|n IH] in a |- *; [by rewrite load_0|].
  rewrite load_S, Nat2Z.inj_succ, Z.pow_succ_r by lia.
  pose proof (byte_at_range m a). specialize (IH (a + 1)). lia.
Qed.

Lemma load_ext n m m' a : agree m m' a (Z.of_nat n) → load n m a = load n m' a.
Proof.
  unfold agree. induction n as [|n IH] in a |- *; [done|]. intros H.
  rewrite !load_S. rewrite (H a) by lia. f_equal. f_equal. apply IH.
  intros x Hx. apply H. lia.
Qed.

Lemma byte_store_out n a v m x :
  ¬ (a ≤ x < a + Z.of_nat n) → byte_at (store n a v m) x = byte_at m x.
Proof.
  induction n as [|n IH] in a, v, m |- *; [done|]. intros H.
  rewrite store_S, IH by lia. rewrite byte_at_insert. case_decide; [lia|done].
Qed.

Lemma byte_fill_out n a v m x :
  ¬ (a ≤ x < a + Z.of_nat n) → byte_at (fill n a v m) x = byte_at m x.
Proof.
  induction n as [|n IH] in a, m |- *; [done|]. intros H. simpl.
  rewrite IH by lia. rewrite byte_at_insert. case_decide; [lia|done].
Qed.

Lemma byte_fill_in n a v m x :
  a ≤ x < a + Z.of_nat n → byte_at (fill n a v m) x = u8 v.
Proof.
  induction n as [|n IH] in a, m |- *; [lia|]. intros H. simpl.
  destruct (decide (x = a)) as [->|].
  - rewrite byte_fill_out by lia. rewrite byte_at_insert, decide_True by done.
    width. by rewrite Z.mod_mod.
  - apply IH. lia.
Qed.

Lemma byte_put_out bs a m x :
  ¬ (a ≤ x < a + Z.of_nat (length bs)) → byte_at (put_bytes a bs m) x = byte_at m x.
Proof.
  induction bs as [|b bs IH] in a, m |- *; [done|]. intros H. simpl in *.
  rewrite IH by lia. rewrite byte_at_insert. case_decide; [lia|done].
Qed.

Lemma byte_put_in bs a m x :
  a ≤ x < a + Z.of_nat (length bs) →
  byte_at (put_bytes a bs m) x = u8 (default 0 (bs !! Z.to_nat (x - a))).
Proof.
  induction bs as [|b bs IH] in a, m |- *; simpl; [lia|]. intros H.
  destruct (decide (x = a)) as [->|].
  - rewrite byte_put_out by lia. rewrite byte_at_insert, decide_True by done.
    rewrite Z.sub_diag. simpl. width. by rewrite Z.mod_mod.
  - rewrite IH by lia.
    replace (Z.to_nat (x - a)) with (S (Z.to_nat (x - (a + 1)))) by lia. done.
Qed.

Lemma byte_copy_out n d s m x :
  ¬ (d ≤ x < d + Z.of_nat n) → byte_at (copy n d s m) x = byte_at m x.
Proof.
  induction n as [|n IH] in d, s, m |- *; [done|]. intros H. simpl.
  rewrite IH by lia. rewrite byte_at_insert. case_decide; [lia|done].
Qed.

(** A forward copy between disjoint ranges copies the source. *)
Lemma byte_copy_in n d s m x :
  (s + Z.of_nat n ≤ d ∨ d + Z.of_nat n ≤ s) →
  d ≤ x < d + Z.of_nat n → byte_at (copy n d s m) x = byte_at m (s + (x - d)).
Proof.
  induction n as [|n IH] in d, s, m |- *; [lia|]. intros Hd H. simpl.
  destruct (decide (x = d)) as [->|].
  - rewrite byte_copy_out by lia. rewrite byte_at_insert, decide_True by done.
    rewrite Z.sub_diag, Z.add_0_r. apply u8_small, byte_at_range.
  - rewrite IH by lia. rewrite byte_at_insert, decide_False by lia.
    f_equal. lia.
Qed.

Lemma load_store_eq n a v m : load n (store n a v m) a = v mod 256 ^ Z.of_nat n.
Proof.
  induction n as [|n IH] in a, v, m |- *.
  - by rewrite load_0, Z.mod_1_r.
  - rewrite load_S, store_S, IH, byte_store_out by lia.
    rewrite byte_at_insert, decide_True by done.
    rewrite Nat2Z.inj_succ, Z.pow_succ_r by lia.
    width. rewrite Z.mod_mod by done.
    rewrite Z.rem_mul_r; [lia|lia|]. apply Z.pow_pos_nonneg; lia.
Qed.

Lemma load_store_ne n k a b v m :
  (b + Z.of_nat k ≤ a ∨ a + Z.of_nat n ≤ b) → load k (store n a v m) b = load k m b.
Proof. intros H. apply load_ext. intros x Hx. apply byte_store_out. lia. Qed.

Lemma load_fill_ne n k a b v m :
  (b + Z.of_nat k ≤ a ∨ a + Z.of_nat n ≤ b) → load k (fill n a v m) b = load k m b.
Proof. intros H. apply load_ext. intros x Hx. apply byte_fill_out. lia. Qed.

Lemma load_fill_0 n k a b m :
  a ≤ b → b + Z.of_nat k ≤ a + Z.of_nat n → load k (fill n a 0 m) b = 0.
Proof.
  induction k as [|k IH] in b |- *; [done|]. intros. rewrite load_S.
  rewrite byte_fill_in by lia. rewrite IH by lia. done.
Qed.

Lemma load_put_ne bs k a b m :
  (b + Z.of_nat k ≤ a ∨ a + Z.of_nat (length bs) ≤ b) →
  load k (put_bytes a bs m) b = load k m b.
Proof. intros H. apply load_ext. intros x Hx. apply byte_put_out. lia. Qed.

(** Bit [i] of a loaded word is bit [i mod 8] of its byte [i / 8]. *)
Lemma load_testbit n m a i :
  0 ≤ i < 8 * Z.of_nat n →
  Z.testbit (load n m a) i = Z.testbit (byte_at m (a + i / 8)) (i mod 8).
Proof.
  induction n as [|n IH] in a, i |- *; [lia|]. intros Hi. rewrite load_S.
  pose proof (byte_at_range m a) as Hb.
  replace (byte_at m a + 256 * load n m (a + 1))
    with (Z.lor (byte_at m a) (Z.shiftl (load n m (a + 1)) 8)).
  2:{ rewrite Z.shiftl_mul_pow2 by lia. change (2 ^ 8) with 256.
      rewrite <- Z.lxor_lor, <- Z.add_nocarry_lxor; [lia| |].
      all: apply Z.bits_inj'; intros k Hk; rewrite Z.land_spec, Z.bits_0;
        change 256 with (2 ^ 8); destruct (decide (k < 8));
        [rewrite Z.mul_pow2_bits_low by lia; apply andb_false_r|
         replace (byte_at m a) with (byte_at m a mod 2 ^ 8) by (apply Z.mod_small; lia);
         rewrite Z.mod_pow2_bits_high by lia; done]. }
  rewrite Z.lor_spec, Z.shiftl_spec by lia.
  destruct (decide (i < 8)).
  - rewrite (Z.testbit_neg_r _ (i - 8)) by lia.
    rewrite orb_false_r, Z.div_small, Z.mod_small, Z.add_0_r by lia. done.
  - replace (byte_at m a) with (byte_at m a mod 2 ^ 8) by (apply Z.mod_small; lia).
    rewrite Z.mod_pow2_bits_high, orb_false_l by lia.
    rewrite IH by lia. f_equal; [f_equal|]; dlia.
Qed.

Lemma length_bytes n m a : length (bytes n m a) = n.
Proof. induction n as [|n IH] in a |- *; [done|]. simpl. by rewrite IH. Qed.

Lemma lookup_bytes n m a i :
  (i < n)%nat → bytes n m a !! i = Some (byte_at m (a + Z.of_nat i)).
Proof.
  induction n as [|n IH] in a, i |- *; [lia|]. intros Hi. destruct i as [|i]; simpl.
  - by rewrite Z.add_0_r.
  - rewrite IH by lia. do 2 f_equal. lia.
Qed.

Lemma bytes_ext n m m' a : agree m m' a (Z.of_nat n) → bytes n m a = bytes n m' a.
Proof.
  unfold agree. induction n as [|n IH] in a |- *; [done|]. intros H. simpl.
  rewrite (H a) by lia. f_equal. apply IH. intros x Hx. apply H. lia.
Qed.

End memory.

#[export] Hint Resolve byte_at_range : osdb.
#[export] Hint Rewrite load_store_eq : osmem.

Lemma load_store_64 a v m : 0 ≤ v < 2 ^ 64 → load 8 (store 8 a v m) a = v.
Proof. intros. rewrite load_store_eq. by apply Z.mod_small. Qed.
Lemma load_store_8 a v m : 0 ≤ v < 256 → load 1 (store 1 a v m) a = v.
Proof. intros. rewrite load_store_eq. by apply Z.mod_small. Qed.

(** Resolve loads through stores whose address ranges [lia] can compare. *)
Ltac mem_simpl :=
  repeat match goal with
    | |- context [load ?k (store ?n ?a ?v ?m) ?b] =>
        first [ rewrite (load_store_ne n k a b v m) by lia
              | rewrite (load_store_64 a v m) by lia
              | rewrite (load_store_8 a v m) by lia ]
    end.

Global Arguments fill : simpl never.
Global Arguments copy : simpl never.
Global Arguments bytes : simpl never.
Global Arguments put_bytes : simpl never.
