(* ===== verification/Hardware.v ===== *)
(** The devices the kernel drives, as the machine's I/O space.

    Devices are not part of the repository's code; the models below follow the
    protocols that docs/06, docs/09, docs/12 and docs/17 of the repository describe:
    the VGA text buffer with its CRT controller cursor registers, an ATA drive in
    PIO mode, a pair of 8259A interrupt controllers, the PIT and the PS/2 data port.
    [PortDevice] is the interface a driver sees: what one port access does to a device. *)
From S2P Require Import Prelude.

Class PortDevice (D : Type) := {
  port_out : Z → Z → D → D;       (* port, value written *)
  port_in : Z → D → Z * D;        (* port; the value read *)
}.

(** ** VGA text buffer and CRT controller *)

Record console := mkConsole {
  vga : gmap Z Z;          (* byte cells by offset from 0xb8000 *)
  crtc_index : Z;          (* selected register, port 0x3d4 *)
  crtc_hi : Z;             (* register 14: cursor position, high byte *)
  crtc_lo : Z;             (* register 15: cursor position, low byte *)
}.

Definition crtc_out (port v : Z) (c : console) : console :=
  if decide (port = 0x3d4) then mkConsole (vga c) (u8 v) (crtc_hi c) (crtc_lo c)
  else if decide (port = 0x3d5) then
    if decide (crtc_index c = 14) then mkConsole (vga c) (crtc_index c) (u8 v) (crtc_lo c)
    else if decide (crtc_index c = 15) then mkConsole (vga c) (crtc_index c) (crtc_hi c) (u8 v)
    else c
  else c.

Definition crtc_in (port : Z) (c : console) : Z * console :=
  if decide (port = 0x3d5) then
    if decide (crtc_index c = 14) then (u8 (crtc_hi c), c)
    else if decide (crtc_index c = 15) then (u8 (crtc_lo c), c)
    else (0, c)
  else (0, c).

#[export] Instance console_port : PortDevice console := {
  port_out := crtc_out;
  port_in := crtc_in;
}.

(** ** ATA drive, primary bus, PIO

    A command keeps the drive busy for a number of status reads; the drive's
    timing and the error it may report are given by [ata_script], one entry per
    command, so that theorems quantify over every timing. *)

Inductive ata_phase :=
| AtaIdle
| AtaDataIn (left : list Z)              (* bytes still to be read *)
| AtaDataOut (lba : Z) (got : list Z)    (* bytes received so far *)
| AtaError (status : Z).                 (* ERR or DF reported *)

Record ata_reply := mkReply { rp_busy : nat; rp_error : option Z }.

Record ata_dev := mkAta {
  ata_disk : gmap Z (list Z);
  ata_count : Z;
  ata_lba_low : Z;
  ata_lba_mid : Z;
  ata_lba_high : Z;
  ata_drive : Z;
  ata_nien : bool;                       (* interrupts disabled, port 0x3f6 *)
  ata_busy : nat;
  ata_ph : ata_phase;
  ata_script : list ata_reply;
}.

Definition blank_sector : list Z := replicate 512 0.

(** The 512 bytes of sector [lba]; a sector never written holds zeros. *)
Definition sector (d : ata_dev) (lba : Z) : list Z := default blank_sector (ata_disk d !! lba).

Definition ata_sel_lba (d : ata_dev) : Z :=
  ata_lba_low d + 256 * ata_lba_mid d + 65536 * ata_lba_high d
  + 16777216 * (ata_drive d mod 16).

Definition ata_start (d : ata_dev) (ph : ata_phase) : ata_dev :=
  let r := default (mkReply 0 None) (head (ata_script d)) in
  mkAta (ata_disk d) (ata_count d) (ata_lba_low d) (ata_lba_mid d) (ata_lba_high d)
    (ata_drive d) (ata_nien d) (rp_busy r)
    (match rp_error r with Some e => AtaError e | None => ph end) (tail (ata_script d)).

Definition ata_set_phase (d : ata_dev) (ph : ata_phase) : ata_dev :=
  mkAta (ata_disk d) (ata_count d) (ata_lba_low d) (ata_lba_mid d) (ata_lba_high d)
    (ata_drive d) (ata_nien d) (ata_busy d) ph (ata_script d).

Definition ata_set_disk (d : ata_dev) (k : gmap Z (list Z)) : ata_dev :=
  mkAta k (ata_count d) (ata_lba_low d) (ata_lba_mid d) (ata_lba_high d)
    (ata_drive d) (ata_nien d) (ata_busy d) (ata_ph d) (ata_script d).

Definition ata_set_busy (d : ata_dev) (b : nat) : ata_dev :=
  mkAta (ata_disk d) (ata_count d) (ata_lba_low d) (ata_lba_mid d) (ata_lba_high d)
    (ata_drive d) (ata_nien d) b (ata_ph d) (ata_script d).

Definition ata_out (port v : Z) (d : ata_dev) : ata_dev :=
  if decide (port = 0x1f0) then
    match ata_ph d with
    | AtaDataOut lba got =>
        let got' := got ++ [u8 v; u8 (v / 256)] in
        if decide (length got' = 512%nat)
        then ata_set_phase (ata_set_disk d (<[lba := got']> (ata_disk d))) AtaIdle
        else ata_set_phase d (AtaDataOut lba got')
    | _ => d
    end
  else if decide (port = 0x1f2) then
    mkAta (ata_disk d) (u8 v) (ata_lba_low d) (ata_lba_mid d) (ata_lba_high d)
      (ata_drive d) (ata_nien d) (ata_busy d) (ata_ph d) (ata_script d)
  else if decide (port = 0x1f3) then
    mkAta (ata_disk d) (ata_count d) (u8 v) (ata_lba_mid d) (ata_lba_high d)
      (ata_drive d) (ata_nien d) (ata_busy d) (ata_ph d) (ata_script d)
  else if decide (port = 0x1f4) then
    mkAta (ata_disk d) (ata_count d) (ata_lba_low d) (u8 v) (ata_lba_high d)
      (ata_drive d) (ata_nien d) (ata_busy d) (ata_ph d) (ata_script d)
  else if decide (port = 0x1f5) then
    mkAta (ata_disk d) (ata_count d) (ata_lba_low d) (ata_lba_mid d) (u8 v)
      (ata_drive d) (ata_nien d) (ata_busy d) (ata_ph d) (ata_script d)
  else if decide (port = 0x1f6) then
    mkAta (ata_disk d) (ata_count d) (ata_lba_low d) (ata_lba_mid d) (ata_lba_high d)
      (u8 v) (ata_nien d) (ata_busy d) (ata_ph d) (ata_script d)
  else if decide (port = 0x1f7) then
    if decide (u8 v = 0x20) then ata_start d (AtaDataIn (sector d (ata_sel_lba d)))
    else if decide (u8 v = 0x30) then ata_start d (AtaDataOut (ata_sel_lba d) [])
    else if decide (u8 v = 0xe7) then ata_start d AtaIdle
    else d
  else if decide (port = 0x3f6) then
    mkAta (ata_disk d) (ata_count d) (ata_lba_low d) (ata_lba_mid d) (ata_lba_high d)
      (ata_drive d) (Z.testbit v 1) (ata_busy d) (ata_ph d) (ata_script d)
  else d.

(** Status: BSY while the command runs; then ERR or DF, DRQ while data is due, or ready. *)
Definition ata_status (d : ata_dev) : Z :=
  match ata_busy d with
  | S _ => 0x80
  | O => match ata_ph d with
         | AtaIdle => 0x40
         | AtaDataIn [] => 0x40
         | AtaDataIn _ => 0x48
         | AtaDataOut _ _ => 0x48
         | AtaError e => e
         end
  end.

Definition ata_in (port : Z) (d : ata_dev) : Z * ata_dev :=
  if decide (port = 0x1f0) then
    match ata_ph d with
    | AtaDataIn (b0 :: b1 :: rest) => (u8 b0 + 256 * u8 b1, ata_set_phase d (AtaDataIn rest))
    | _ => (0xffff, d)
    end
  else if decide (port = 0x1f7) then (ata_status d, ata_set_busy d (pred (ata_busy d)))
  else (0, d).

#[export] Instance ata_port : PortDevice ata_dev := {
  port_out := ata_out;
  port_in := ata_in;
}.

(** ** 8259A interrupt controller *)

Record pic_chip := mkPic {
  pic_step : Z;            (* 0: operating; 1..3: expecting ICW2..ICW4 *)
  pic_offset : Z;          (* vector of the chip's first line (ICW2) *)
  pic_icw3 : Z;
  pic_icw4 : Z;
  pic_mask : Z;            (* interrupt mask register (OCW1) *)
  pic_eoi : nat;           (* EOI commands received *)
}.

Definition pic_cmd (v : Z) (p : pic_chip) : pic_chip :=
  if decide (Z.testbit v 4) then mkPic 1 (pic_offset p) (pic_icw3 p) (pic_icw4 p) 0 (pic_eoi p)
  else if decide (v = 0x20) then
    mkPic (pic_step p) (pic_offset p) (pic_icw3 p) (pic_icw4 p) (pic_mask p) (S (pic_eoi p))
  else p.

Definition pic_data (v : Z) (p : pic_chip) : pic_chip :=
  if decide (pic_step p = 1) then mkPic 2 (u8 v) (pic_icw3 p) (pic_icw4 p) (pic_mask p) (pic_eoi p)
  else if decide (pic_step p = 2) then mkPic 3 (pic_offset p) (u8 v) (pic_icw4 p) (pic_mask p) (pic_eoi p)
  else if decide (pic_step p = 3) then mkPic 0 (pic_offset p) (pic_icw3 p) (u8 v) (pic_mask p) (pic_eoi p)
  else mkPic 0 (pic_offset p) (pic_icw3 p) (pic_icw4 p) (u8 v) (pic_eoi p).

Record pic_pair := mkPics { pic_master : pic_chip; pic_slave : pic_chip }.

Definition pic_out (port v : Z) (p : pic_pair) : pic_pair :=
  if decide (port = 0x20) then mkPics (pic_cmd v (pic_master p)) (pic_slave p)
  else if decide (port = 0x21) then mkPics (pic_data v (pic_master p)) (pic_slave p)
  else if decide (port = 0xA0) then mkPics (pic_master p) (pic_cmd v (pic_slave p))
  else if decide (port = 0xA1) then mkPics (pic_master p) (pic_data v (pic_slave p))
  else p.

Definition pic_in (port : Z) (p : pic_pair) : Z * pic_pair :=
  if decide (port = 0x21) then (pic_mask (pic_master p), p)
  else if decide (port = 0xA1) then (pic_mask (pic_slave p), p)
  else (0, p).

#[export] Instance pic_port : PortDevice pic_pair := {
  port_out := pic_out;
  port_in := pic_in;
}.

(** ** Programmable interval timer, channel 0 *)

Record pit_dev := mkPit {
  pit_mode : Z;            (* control word *)
  pit_low_next : bool;     (* the next data byte is the low one *)
  pit_divisor : Z;
}.

Definition pit_out (port v : Z) (p : pit_dev) : pit_dev :=
  if decide (port = 0x43) then mkPit (u8 v) true (pit_divisor p)
  else if decide (port = 0x40) then
    if pit_low_next p then mkPit (pit_mode p) false (u8 v)
    else mkPit (pit_mode p) true (pit_divisor p mod 256 + 256 * u8 v)
  else p.

#[export] Instance pit_port : PortDevice pit_dev := {
  port_out := pit_out;
  port_in := λ _ p, (0, p);
}.
