(* ===== verification/Machine.v ===== *)
(** The machine the kernel runs on, the kernel's global variables, and the
    monad its functions are translated to.

    The structures of includes/*.h are Records here; the globals of each C file
    are one Record (or field) of [machine].  A C function is a value of [M A]: it
    takes the loop fuel and the machine, and returns a value and a new machine, or
    one of three other outcomes: undefined behaviour ([Undef], an access outside a
    declared array or a division by zero), exhausted fuel ([NoFuel]), or a processor
    stopped for good ([Halt]). *)
From S2P Require Import Prelude Memory Hardware.

(** ** Structures of includes/*.h *)

Inductive process_state_t :=
| PROCESS_READY
| PROCESS_RUNNING
| PROCESS_WAITING
| PROCESS_DEAD.

#[export] Instance process_state_eq_dec : EqDecision process_state_t.
Proof. solve_decision. Defined.

Record process_t := mkProcess {
  p_rsp : Z;
  p_pid : Z;
  p_state : process_state_t;
  p_stack_base : Z;
  p_kernel_stack_base : Z;
  p_kernel_stack_top : Z;
  p_pml4 : Z;
}.

Record gdt_entry_t := mkGdtEntry {
  g_limit_low : Z;
  g_base_low : Z;
  g_base_middle : Z;
  g_access : Z;
  g_granularity : Z;
  g_base_high : Z;
}.

(** The fields of the task state segment the kernel sets; the others stay 0. *)
Record tss_entry_t := mkTss { tss_rsp0 : Z; tss_iomap_base : Z }.

Record idt_gate_t := mkGate {
  i_low_offset : Z;
  i_sel : Z;
  i_ist : Z;
  i_flags : Z;
  i_mid_offset : Z;
  i_high_offset : Z;
  i_reserved : Z;
}.

Record fat_bpb_t := mkBpb {
  oem_name : list Z;
  bytes_per_sector : Z;
  sectors_per_cluster : Z;
  reserved_sectors : Z;
  fat_count : Z;
  root_dir_entries : Z;
  total_sectors_16 : Z;
  media_type : Z;
  fat_size_16 : Z;
  sectors_per_track : Z;
  head_count : Z;
  hidden_sectors : Z;
  total_sectors_32 : Z;
}.

(** ** Global variables of each file *)

Record cpu_state := mkCpu {
  cr3 : Z;
  cr2 : Z;
  idtr : Z * Z;            (* limit, base *)
  gdtr : Z * Z;
  iflag : bool;
}.

Record pmm_vars := mkPmm { bitmap : Z; total_blocks : Z; bitmap_size : Z }.

Record vmm_vars := mkVmm { current_pml4 : Z; kernel_pml4 : Z }.

Record gdt_vars := mkGdt {
  gdt_entries : list gdt_entry_t;
  gdt_ptr : Z * Z;
  tss_entry : tss_entry_t;
  task_reg : Z;                 (* the task register: selector of the task state segment *)
}.

Record idt_vars := mkIdt { idt_gates : list idt_gate_t; idt_reg : Z * Z }.

Record proc_vars := mkProc {
  processes : list process_t;
  current_pid : Z;
  process_count : Z;
}.

Record fat_vars := mkFat {
  fat_info : fat_bpb_t;
  fat_start_sector : Z;
  root_dir_sector : Z;
  data_start_sector : Z;
  current_dir_cluster : Z;
  current_path : list Z;          (* 256 chars *)
  is_fat_initialized : Z;
}.

Record kbd_vars := mkKbd { is_shift : Z; key_buffer : list Z; buffer_index : Z }.

Record machine := mkMachine {
  mem : gmap Z Z;               (* physical memory, identity mapped *)
  cons : console;               (* VGA text buffer and cursor *)
  ata : ata_dev;                (* hard disk *)
  pics : pic_pair;              (* interrupt controllers *)
  pit : pit_dev;                (* timer *)
  kbd_data : Z;                 (* scancode latched at port 0x60 *)
  port_log : list (Z * Z);      (* writes to ports with no modelled device, latest first *)
  cpu : cpu_state;              (* control registers *)
  pmm : pmm_vars;               (* pmm.c *)
  heap_head : Z;                (* kheap.c: head *)
  vmm : vmm_vars;               (* vmm.c *)
  gdt : gdt_vars;               (* cpu/gdt.c *)
  idt : idt_vars;               (* idt.c *)
  proc : proc_vars;             (* process/process.c *)
  fat : fat_vars;               (* fs/fat.c *)
  kbd : kbd_vars;               (* drivers/keyboard.c *)
  tick : Z;                     (* drivers/timer.c: tick *)
}.

Definition set_mem (v : gmap Z Z) (s : machine) : machine :=
  mkMachine v (cons s) (ata s) (pics s) (pit s) (kbd_data s) (port_log s) (cpu s) (pmm s) (heap_head s) (vmm s) (gdt s) (idt s) (proc s) (fat s) (kbd s) (tick s).
Definition set_cons (v : console) (s : machine) : machine :=
  mkMachine (mem s) v (ata s) (pics s) (pit s) (kbd_data s) (port_log s) (cpu s) (pmm s) (heap_head s) (vmm s) (gdt s) (idt s) (proc s) (fat s) (kbd s) (tick s).
Definition set_ata (v : ata_dev) (s : machine) : machine :=
  mkMachine (mem s) (cons s) v (pics s) (pit s) (kbd_data s) (port_log s) (cpu s) (pmm s) (heap_head s) (vmm s) (gdt s) (idt s) (proc s) (fat s) (kbd s) (tick s).
Definition set_pics (v : pic_pair) (s : machine) : machine :=
  mkMachine (mem s) (cons s) (ata s) v (pit s) (kbd_data s) (port_log s) (cpu s) (pmm s) (heap_head s) (vmm s) (gdt s) (idt s) (proc s) (fat s) (kbd s) (tick s).
Definition set_pit (v : pit_dev) (s : machine) : machine :=
  mkMachine (mem s) (cons s) (ata s) (pics s) v (kbd_data s) (port_log s) (cpu s) (pmm s) (heap_head s) (vmm s) (gdt s) (idt s) (proc s) (fat s) (kbd s) (tick s).
Definition set_kbd_data (v : Z) (s : machine) : machine :=
  mkMachine (mem s) (cons s) (ata s) (pics s) (pit s) v (port_log s) (cpu s) (pmm s) (heap_head s) (vmm s) (gdt s) (idt s) (proc s) (fat s) (kbd s) (tick s).
Definition set_port_log (v : list (Z * Z)) (s : machine) : machine :=
  mkMachine (mem s) (cons s) (ata s) (pics s) (pit s) (kbd_data s) v (cpu s) (pmm s) (heap_head s) (vmm s) (gdt s) (idt s) (proc s) (fat s) (kbd s) (tick s).
Definition set_cpu (v : cpu_state) (s : machine) : machine :=
  mkMachine (mem s) (cons s) (ata s) (pics s) (pit s) (kbd_data s) (port_log s) v (pmm s) (heap_head s) (vmm s) (gdt s) (idt s) (proc s) (fat s) (kbd s) (tick s).
Definition set_pmm (v : pmm_vars) (s : machine) : machine :=
  mkMachine (mem s) (cons s) (ata s) (pics s) (pit s) (kbd_data s) (port_log s) (cpu s) v (heap_head s) (vmm s) (gdt s) (idt s) (proc s) (fat s) (kbd s) (tick s).
Definition set_heap_head (v : Z) (s : machine) : machine :=
  mkMachine (mem s) (cons s) (ata s) (pics s) (pit s) (kbd_data s) (port_log s) (cpu s) (pmm s) v (vmm s) (gdt s) (idt s) (proc s) (fat s) (kbd s) (tick s).
Definition set_vmm (v : vmm_vars) (s : machine) : machine :=
  mkMachine (mem s) (cons s) (ata s) (pics s) (pit s) (kbd_data s) (port_log s) (cpu s) (pmm s) (heap_head s) v (gdt s) (idt s) (proc s) (fat s) (kbd s) (tick s).
Definition set_gdt (v : gdt_vars) (s : machine) : machine :=
  mkMachine (mem s) (cons s) (ata s) (pics s) (pit s) (kbd_data s) (port_log s) (cpu s) (pmm s) (heap_head s) (vmm s) v (idt s) (proc s) (fat s) (kbd s) (tick s).
Definition set_idt (v : idt_vars) (s : machine) : machine :=
  mkMachine (mem s) (cons s) (ata s) (pics s) (pit s) (kbd_data s) (port_log s) (cpu s) (pmm s) (heap_head s) (vmm s) (gdt s) v (proc s) (fat s) (kbd s) (tick s).
Definition set_proc (v : proc_vars) (s : machine) : machine :=
  mkMachine (mem s) (cons s) (ata s) (pics s) (pit s) (kbd_data s) (port_log s) (cpu s) (pmm s) (heap_head s) (vmm s) (gdt s) (idt s) v (fat s) (kbd s) (tick s).
Definition set_fat (v : fat_vars) (s : machine) : machine :=
  mkMachine (mem s) (cons s) (ata s) (pics s) (pit s) (kbd_data s) (port_log s) (cpu s) (pmm s) (heap_head s) (vmm s) (gdt s) (idt s) (proc s) v (kbd s) (tick s).
Definition set_kbd (v : kbd_vars) (s : machine) : machine :=
  mkMachine (mem s) (cons s) (ata s) (pics s) (pit s) (kbd_data s) (port_log s) (cpu s) (pmm s) (heap_head s) (vmm s) (gdt s) (idt s) (proc s) (fat s) v (tick s).
Definition set_tick (v : Z) (s : machine) : machine :=
  mkMachine (mem s) (cons s) (ata s) (pics s) (pit s) (kbd_data s) (port_log s) (cpu s) (pmm s) (heap_head s) (vmm s) (gdt s) (idt s) (proc s) (fat s) (kbd s) v.

(** ** The monad *)

Inductive outcome (A : Type) :=
| Ret (a : A) (s : machine)
| Undef
| NoFuel
| Halt (s : machine).
Global Arguments Ret {A}.
Global Arguments Undef {A}.
Global Arguments NoFuel {A}.
Global Arguments Halt {A}.

Definition M (A : Type) : Type := nat → machine → outcome A.

#[export] Instance M_ret : MRet M := λ A a _ s, Ret a s.
#[export] Instance M_bind : MBind M := λ A B k m n s,
  match m n s with
  | Ret a s' => k a n s'
  | Undef => Undef
  | NoFuel => NoFuel
  | Halt s' => Halt s'
  end.

Definition gets {A} (f : machine → A) : M A := λ _ s, Ret (f s) s.
Definition modify (f : machine → machine) : M unit := λ _ s, Ret tt (f s).
Definition undef {A} : M A := λ _ _, Undef.
Definition halt {A} : M A := λ _ s, Halt s.

(** An access that is undefined behaviour when it has no result. *)
Definition from_option_ub {A} (o : option A) : M A :=
  match o with Some a => mret a | None => undef end.

(** [for (i = i0; i < i0 + n; i++) body]: [Some r] leaves the loop with [r]. *)
Fixpoint for_loop {R} (n : nat) (i : Z) (body : Z → M (option R)) : M (option R) :=
  match n with
  | O => mret None
  | S k => r ← body i; match r with
                       | Some x => mret (Some x)
                       | None => for_loop k (i + 1) body
                       end
  end.

(** The same loop with local variables [st] that the body updates. *)
Fixpoint for_acc {St} (n : nat) (i : Z) (st : St) (body : Z → St → M St) : M St :=
  match n with
  | O => mret st
  | S k => st' ← body i st; for_acc k (i + 1) st' body
  end.

(** A counting loop with no local variables and no early exit. *)
Definition for_unit (n : nat) (i : Z) (body : Z → M unit) : M unit :=
  for_acc n i tt (λ j _, body j).

Fixpoint iter_fuel {St R} (k : nat) (body : St → M (St + R)) (st : St) : M R :=
  match k with
  | O => λ _ _, NoFuel
  | S k' => r ← body st; match r with
                         | inl st' => iter_fuel k' body st'
                         | inr x => mret x
                         end
  end.

(** A loop with no static bound: each of its iterations uses one unit of fuel. *)
Definition while_loop {St R} (body : St → M (St + R)) (st : St) : M R :=
  λ n s, iter_fuel n body st n s.

(** Memory access. *)
Definition load8 (a : Z) : M Z := gets (λ s, load 1 (mem s) a).
Definition load16 (a : Z) : M Z := gets (λ s, load 2 (mem s) a).
Definition load32 (a : Z) : M Z := gets (λ s, load 4 (mem s) a).
Definition load64 (a : Z) : M Z := gets (λ s, load 8 (mem s) a).
Definition store_mem (n : nat) (a v : Z) : M unit := modify (λ s, set_mem (store n a v (mem s)) s).
Definition store8 := store_mem 1.
Definition store16 := store_mem 2.
Definition store32 := store_mem 4.
Definition store64 := store_mem 8.

(** ** Total correctness: [m] runs to a value and a state that satisfy [Q] *)

Definition wp {A : Type} (m : M A) (n : nat) (s : machine) (Q : A → machine → Prop) : Prop :=
  match m n s with Ret a s' => Q a s' | _ => False end.

Section wp_rules.
Context {A B : Type}.
Implicit Types (m : M A) (s : machine) (n : nat).

Lemma wp_ret (a : A) n s Q : Q a s → wp (mret a) n s Q.
Proof. done. Qed.

Lemma wp_bind m (k : A → M B) n s Q :
  wp m n s (λ a s', wp (k a) n s' Q) → wp (m ≫= k) n s Q.
Proof. unfold wp, mbind, M_bind. by destruct (m n s). Qed.

Lemma wp_mono m n s (P Q : A → machine → Prop) :
  wp m n s P → (∀ a s', P a s' → Q a s') → wp m n s Q.
Proof. unfold wp. destruct (m n s); naive_solver. Qed.

Lemma wp_eq m n s Q a s' : m n s = Ret a s' → Q a s' → wp m n s Q.
Proof. unfold wp. by intros ->. Qed.

Lemma wp_run m n s (P : A → machine → Prop) :
  wp m n s P → ∃ a s', m n s = Ret a s' ∧ P a s'.
Proof. unfold wp. destruct (m n s); naive_solver. Qed.

Lemma wp_gets (f : machine → A) n s Q : Q (f s) s → wp (gets f) n s Q.
Proof. done. Qed.

Lemma wp_modify (f : machine → machine) n s Q : Q tt (f s) → wp (modify f) n s Q.
Proof. done. Qed.

Lemma wp_some (a : A) n s Q : Q a s → wp (from_option_ub (Some a)) n s Q.
Proof. done. Qed.

End wp_rules.

(** Counting loop: [I i s] holds before iteration [i]; an early exit gives [Q]. *)
Lemma wp_for {R} (I : Z → machine → Prop) (Q : option R → machine → Prop)
    (body : Z → M (option R)) k i n s :
  I i s →
  (∀ j s', i ≤ j < i + Z.of_nat k → I j s' →
     wp (body j) n s' (λ r s'', match r with Some x => Q (Some x) s'' | None => I (j + 1) s'' end)) →
  (∀ s', I (i + Z.of_nat k) s' → Q None s') →
  wp (for_loop k i body) n s Q.
Proof.
  induction k as [|k IH] in i, s |- *; intros HI Hstep Hend; simpl.
  - apply wp_ret, Hend. by rewrite Z.add_0_r.
  - apply wp_bind. eapply wp_mono; [apply Hstep; [lia|done]|].
    intros [x|] s' H; [by apply wp_ret|]. apply IH.
    + done.
    + intros j s'' Hj. apply Hstep. lia.
    + intros s'' H'. apply Hend. by replace (i + Z.of_nat (S k)) with (i + 1 + Z.of_nat k) by lia.
Qed.

Lemma wp_for_acc {St} (I : Z → St → machine → Prop) (Q : St → machine → Prop)
    (body : Z → St → M St) k i st n s :
  I i st s →
  (∀ j st' s', i ≤ j < i + Z.of_nat k → I j st' s' → wp (body j st') n s' (I (j + 1))) →
  (∀ st' s', I (i + Z.of_nat k) st' s' → Q st' s') →
  wp (for_acc k i st body) n s Q.
Proof.
  induction k as [|k IH] in i, st, s |- *; intros HI Hstep Hend; simpl.
  - apply wp_ret, Hend. by rewrite Z.add_0_r.
  - apply wp_bind. eapply wp_mono; [apply Hstep; [lia|done]|].
    intros st' s' H. apply IH; [done| |].
    + intros j st'' s'' Hj. apply Hstep. lia.
    + intros st'' s'' H'. apply Hend.
      by replace (i + Z.of_nat (S k)) with (i + 1 + Z.of_nat k) by lia.
Qed.

Lemma wp_for_unit (I : Z → machine → Prop) (Q : unit → machine → Prop)
    (body : Z → M unit) k i n s :
  I i s →
  (∀ j s', i ≤ j < i + Z.of_nat k → I j s' → wp (body j) n s' (λ _, I (j + 1))) →
  (∀ s', I (i + Z.of_nat k) s' → Q tt s') →
  wp (for_unit k i body) n s Q.
Proof.
  intros HI Hstep Hend. unfold for_unit. apply (wp_for_acc (λ j _, I j)); [done| |].
  - intros j _ s' Hj H. by apply Hstep.
  - intros [] s' H. by apply Hend.
Qed.

(** Loop on fuel: the measure [V] decreases, so [V + 1] units of fuel are enough. *)
Lemma wp_iter {St R} (I : St → machine → Prop) (V : St → machine → nat)
    (Q : R → machine → Prop) (body : St → M (St + R)) k n st s :
  I st s → (V st s < k)%nat →
  (∀ st s, I st s →
     wp (body st) n s (λ r s', match r with
                               | inl st' => I st' s' ∧ (V st' s' < V st s)%nat
                               | inr x => Q x s'
                               end)) →
  wp (iter_fuel k body st) n s Q.
Proof.
  intros HI HV Hstep. induction k as [|k IH] in st, s, HI, HV |- *; [lia|]. simpl.
  apply wp_bind. eapply wp_mono; [by apply Hstep|].
  intros [st'|x] s' H; [|by apply wp_ret]. destruct H. apply IH; [done|lia].
Qed.

Lemma wp_while {St R} (I : St → machine → Prop) (V : St → machine → nat)
    (Q : R → machine → Prop) (body : St → M (St + R)) n st s :
  I st s → (V st s < n)%nat →
  (∀ st s, I st s →
     wp (body st) n s (λ r s', match r with
                               | inl st' => I st' s' ∧ (V st' s' < V st s)%nat
                               | inr x => Q x s'
                               end)) →
  wp (while_loop body st) n s Q.
Proof. intros. by eapply (wp_iter I V Q). Qed.

(** The same rule with the measure as an index of the invariant. *)
Lemma wp_while_idx {St R} (I : nat → St → machine → Prop)
    (Q : R → machine → Prop) (body : St → M (St + R)) k n st s :
  I k st s → (k < n)%nat →
  (∀ k st s, I k st s →
     wp (body st) n s (λ r s', match r with
                               | inl st' => ∃ k', (k' < k)%nat ∧ I k' st' s'
                               | inr x => Q x s'
                               end)) →
  wp (while_loop body st) n s Q.
Proof.
  intros HI Hk Hstep. unfold while_loop, wp. fold (wp (iter_fuel n body st) n s Q).
  assert (∀ f, (k < f)%nat → wp (iter_fuel f body st) n s Q) as H; [|by apply H].
  clear Hk. intros f. induction f as [|f IH] in k, st, s, HI |- *; intros Hk; [lia|]. simpl.
  apply wp_bind. eapply wp_mono; [by apply (Hstep k)|].
  intros [st'|x] s' H; [|by apply wp_ret]. destruct H as (k' & Hlt & H'). apply (IH k'); [done|lia].
Qed.

Lemma load8_byte (m : gmap Z Z) a : load 1 m a = byte_at m a.
Proof. rewrite load_S, load_0. lia. Qed.

(** One symbolic step of a straight-line body. *)
Ltac wp_step :=
  lazymatch goal with
  | |- wp (mret _) _ _ _ => apply wp_ret
  | |- wp (_ ≫= _) _ _ _ => apply wp_bind
  | |- wp (gets _) _ _ _ => apply wp_gets
  | |- wp (modify _) _ _ _ => apply wp_modify
  | |- wp (load8 _) _ _ _ => apply wp_gets
  | |- wp (load16 _) _ _ _ => apply wp_gets
  | |- wp (load32 _) _ _ _ => apply wp_gets
  | |- wp (load64 _) _ _ _ => apply wp_gets
  | |- wp (store_mem _ _ _) _ _ _ => apply wp_modify
  | |- wp (store8 _ _) _ _ _ => apply wp_modify
  | |- wp (store16 _ _) _ _ _ => apply wp_modify
  | |- wp (store32 _ _) _ _ _ => apply wp_modify
  | |- wp (store64 _ _) _ _ _ => apply wp_modify
  | |- wp (from_option_ub (Some _)) _ _ _ => apply wp_some
  end.
Ltac wp_steps := repeat (wp_step; cbn beta).

(** Case analysis on the condition of the statement to run. *)
Ltac wp_decide H :=
  lazymatch goal with |- wp (if decide ?P then _ else _) _ _ _ => destruct (decide P) as [H|H] end.

(** ** The machine as the boot loader leaves it: zeroed globals, an idle drive *)

Definition boot_pic : pic_chip := mkPic 0 8 0 0 0 0.

Definition boot_machine : machine :=
  mkMachine ∅ (mkConsole ∅ 0 0 0) (mkAta ∅ 0 0 0 0 0 false 0 AtaIdle [])
    (mkPics boot_pic boot_pic) (mkPit 0 true 0) 0 []
    (mkCpu 0 0 (0, 0) (0, 0) false)
    (mkPmm 0 0 0) 0 (mkVmm 0 0)
    (mkGdt (replicate 7 (mkGdtEntry 0 0 0 0 0 0)) (0, 0) (mkTss 0 0) 0)
    (mkIdt (replicate 256 (mkGate 0 0 0 0 0 0 0)) (0, 0))
    (mkProc (replicate 16 (mkProcess 0 0 PROCESS_READY 0 0 0 0)) (-1) 0)
    (mkFat (mkBpb [] 0 0 0 0 0 0 0 0 0 0 0 0) 0 0 0 0 (47 :: replicate 255 0) 0)
    (mkKbd 0 (replicate 256 0) 0) 0.
