(* ===== verification/Utils.v ===== *)
(** src/kernel/utils.c: C strings, memory copies, hexadecimal output and the
    shell's tokenizer.

    A [char] array is the list of its cells, its length the declared size; an access
    outside it has no result.  A string is the cells before the first 0. *)
From S2P Require Import Prelude Memory Hardware Machine.

Definition arr_get (l : list Z) (i : Z) : option Z :=
  if decide (0 ≤ i) then l !! Z.to_nat i else None.

Definition arr_set (l : list Z) (i v : Z) : option (list Z) :=
  if decide (0 ≤ i < Z.of_nat (length l)) then Some (<[Z.to_nat i := u8 v]> l) else None.

(** A literal of the source as the list of its character codes, without the 0. *)
Fixpoint str (s : string) : list Z :=
  match s with
  | EmptyString => []
  | String a s => Z.of_N (Ascii.N_of_ascii a) :: str s
  end.

Definition newline : list Z := [10].
Definition cstr (s : list Z) : list Z := s ++ [0].

(** [strcmp]: the first difference decides; [None] reads past an array. *)
Fixpoint strcmp (s1 s2 : list Z) : option Z :=
  match s1, s2 with
  | c1 :: t1, c2 :: t2 =>
      if decide (c1 = c2) then (if decide (c1 = 0) then Some 0 else strcmp t1 t2)
      else Some (schar c1 - schar c2)
  | _, _ => None
  end.

Fixpoint strlen (s : list Z) : option Z :=
  match s with
  | [] => None
  | c :: t => if decide (c = 0) then Some 0 else n ← strlen t; Some (n + 1)
  end.

Definition memcpy (dest source nbytes : Z) : M unit :=
  modify (λ s, set_mem (copy (Z.to_nat nbytes) dest source (mem s)) s).

Definition memset (dest val count : Z) : M unit :=
  modify (λ s, set_mem (fill (Z.to_nat count) dest val (mem s)) s).

Definition hex_table : list Z := str "0123456789abcdef".

(** The loop of [hex_to_ascii]: [k] digits are left, the next one goes to [str[17 - i]]. *)
Fixpoint hex_loop (k : nat) (i n : Z) (buf : list Z) : option (list Z) :=
  match k with
  | O => Some buf
  | S k' =>
      d ← arr_get hex_table (Z.land n 0xf);
      buf' ← arr_set buf (17 - i) d;
      hex_loop k' (i + 1) (Z.shiftr n 4) buf'
  end.

Definition hex_to_ascii (n : Z) (buf : list Z) : option (list Z) :=
  b0 ← arr_set buf 0 48;
  b1 ← arr_set b0 1 120;
  b2 ← hex_loop 16 0 n b1;
  arr_set b2 18 0.

Fixpoint skip_spaces (rest : list Z) (i : Z) : option Z :=
  match rest with
  | [] => None
  | c :: t => if decide (c = 32) then skip_spaces t (i + 1) else Some i
  end.

Fixpoint copy_token (rest buffer : list Z) (i j : Z) : option (list Z * Z * Z) :=
  match rest with
  | [] => None
  | c :: t =>
      if decide (c ≠ 32 ∧ c ≠ 0) then b ← arr_set buffer j c; copy_token t b (i + 1) (j + 1)
      else Some (buffer, i, j)
  end.

(** Result, buffer and offset after [get_next_token(input, buffer, &offset)]. *)
Definition get_next_token (input buffer : list Z) (offset : Z) : option (Z * list Z * Z) :=
  i ← skip_spaces (drop (Z.to_nat offset) input) offset;
  c ← arr_get input i;
  if decide (c = 0) then Some (0, buffer, i)
  else
    '(b, i', j) ← copy_token (drop (Z.to_nat i) input) buffer i 0;
    b' ← arr_set b j 0;
    Some (1, b', i').

(** The cells of [src] up to and with its 0, as [strcpy] copies them. *)
Fixpoint until_nul (src : list Z) : option (list Z) :=
  match src with
  | [] => None
  | c :: t => if decide (c = 0) then Some [0] else l ← until_nul t; Some (c :: l)
  end.

Definition strcpy (dest : Z) (src : list Z) : M unit :=
  l ← from_option_ub (until_nul src);
  modify (λ s, set_mem (put_bytes dest l (mem s)) s).

(** The string at address [a], read up to its 0; one unit of fuel per character. *)
Fixpoint cstr_at (k : nat) (m : gmap Z Z) (a : Z) : option (list Z) :=
  match k with
  | O => None
  | S k' => if decide (byte_at m a = 0) then Some []
            else l ← cstr_at k' m (a + 1); Some (byte_at m a :: l)
  end.

(** The string held by a char array. *)
Fixpoint string_of (l : list Z) : list Z :=
  match l with
  | [] => []
  | c :: t => if decide (c = 0) then [] else c :: string_of t
  end.

(** ** Specification of the tokenizer *)

Definition is_text (t : list Z) : Prop := Forall (λ c, 0 < c < 256) t.

Fixpoint strip (t : list Z) : list Z :=
  match t with
  | [] => []
  | c :: u => if decide (c = 32) then strip u else t
  end.

Fixpoint word (t : list Z) : list Z :=
  match t with
  | [] => []
  | c :: u => if decide (c = 32) then [] else c :: word u
  end.

(** ** Lemmas *)

Section utils.

Lemma arr_set_Some l i v :
  0 ≤ i < Z.of_nat (length l) → arr_set l i v = Some (<[Z.to_nat i := u8 v]> l).
Proof. intros. unfold arr_set. by rewrite decide_True. Qed.

Lemma arr_set_None l i v : ¬ (0 ≤ i < Z.of_nat (length l)) → arr_set l i v = None.
Proof. intros. unfold arr_set. by rewrite decide_False. Qed.

Lemma arr_set_length l l' i v : arr_set l i v = Some l' → length l' = length l.
Proof. unfold arr_set. case_decide; [|done]. intros [= <-]. apply length_insert. Qed.

Lemma strcmp_text a b tl : is_text a → is_text b →
  ∃ z, strcmp (a ++ 0 :: tl) (cstr b) = Some z ∧ (z = 0 ↔ a = b).
Proof.
  intros Ha. induction Ha as [|x a Hx Ha IH] in b |- *; intros Hb.
  - destruct Hb as [|y b Hy Hb]; simpl.
    + by exists 0.
    + rewrite decide_False by lia. eexists; split; [done|]. split; [|done].
      unfold schar. rewrite !u8_small by lia. cases_decide; lia.
  - destruct Hb as [|y b Hy Hb]; simpl.
    + rewrite decide_False by lia. eexists; split; [done|]. split; [|done].
      unfold schar. rewrite !u8_small by lia. cases_decide; lia.
    + destruct (decide (x = y)) as [->|Hne].
      * rewrite (decide_False (P := y = 0)) by lia.
        destruct (IH b Hb) as (z & Hz & Hiff). exists z. split; [done|].
        rewrite Hiff. split; [by intros ->|congruence].
      * eexists; split; [done|]. split; [|congruence].
        unfold schar. rewrite !u8_small by lia. cases_decide; lia.
Qed.

Lemma skip_spaces_text t tl i : is_text t →
  skip_spaces (t ++ 0 :: tl) i = Some (i + Z.of_nat (length t) - Z.of_nat (length (strip t))).
Proof.
  intros Ht. induction Ht as [|c t Hc Ht IH] in i |- *; simpl.
  - f_equal. lia.
  - case_decide; [|f_equal; simpl; lia]. rewrite IH. f_equal. lia.
Qed.

Lemma strip_length t : (length (strip t) ≤ length t)%nat.
Proof. induction t as [|c t IH]; [done|]. simpl. case_decide; simpl; lia. Qed.

Lemma drop_strip t : drop (length t - length (strip t)) t = strip t.
Proof.
  induction t as [|c t IH]; [done|]. simpl. case_decide; [|by rewrite Nat.sub_diag].
  pose proof (strip_length t).
  by replace (S (length t) - length (strip t))%nat
    with (S (length t - length (strip t)))%nat by lia.
Qed.

Lemma word_length t : (length (word t) ≤ length t)%nat.
Proof. induction t as [|c t IH]; [done|]. simpl. case_decide; simpl; lia. Qed.

(** Writing the characters of [w] at index [j] of [b], one cell at a time. *)
Definition overlay (b : list Z) (j : nat) (w : list Z) : list Z :=
  take j b ++ w ++ drop (j + length w) b.

Lemma overlay_length b j w :
  (j + length w ≤ length b)%nat → length (overlay b j w) = length b.
Proof. intros. unfold overlay. rewrite !length_app, length_take, length_drop. lia. Qed.

Lemma overlay_cons b j c w : (j < length b)%nat →
  overlay (<[j := c]> b) (S j) w = overlay b j (c :: w).
Proof.
  intros Hj. unfold overlay.
  rewrite (take_S_r _ _ c) by (by apply list_lookup_insert_eq).
  rewrite take_insert_ge by lia. rewrite drop_insert_lt by lia.
  rewrite <- app_assoc. simpl. do 3 f_equal. f_equal. lia.
Qed.

Lemma overlay_nil b j : overlay b j [] = b.
Proof. unfold overlay. simpl. by rewrite Nat.add_0_r, take_drop. Qed.

Lemma copy_token_text t tl b i (j : nat) : is_text t → (j ≤ length b)%nat →
  copy_token (t ++ 0 :: tl) b i (Z.of_nat j) =
  if decide (j + length (word t) ≤ length b)%nat
  then Some (overlay b j (word t), i + Z.of_nat (length (word t)),
             Z.of_nat (j + length (word t)))
  else None.
Proof.
  intros Ht. induction Ht as [|c t Hc Ht IH] in b, i, j |- *; intros Hj; simpl.
  - rewrite (decide_True (P := (j + 0 ≤ _)%nat)) by lia.
    rewrite overlay_nil. by rewrite Z.add_0_r, Nat.add_0_r.
  - destruct (decide (c = 32)) as [->|Hne].
    + rewrite (decide_True (P := (j + _ ≤ _)%nat)) by (simpl; lia). simpl.
      rewrite overlay_nil. by rewrite Z.add_0_r, Nat.add_0_r.
    + rewrite (decide_True (P := c ≠ 32 ∧ c ≠ 0)) by lia. simpl.
      destruct (decide (j < length b)%nat) as [Hj'|Hj'].
      * rewrite arr_set_Some by lia. simpl. rewrite Nat2Z.id, u8_small by lia.
        replace (Z.of_nat j + 1) with (Z.of_nat (S j)) by lia.
        rewrite IH by (rewrite length_insert; lia). rewrite length_insert.
        destruct (decide (S j + length (word t) ≤ length b)%nat).
        -- rewrite decide_True by lia. rewrite overlay_cons by lia.
           f_equal. f_equal; [f_equal|]; lia.
        -- by rewrite decide_False by lia.
      * rewrite arr_set_None by lia. by rewrite decide_False by lia.
Qed.

Lemma overlay_snoc b j c w : (j + length w < length b)%nat →
  overlay (<[(j + length w)%nat := c]> b) j w = overlay b j (w ++ [c]).
Proof.
  intros Hj. unfold overlay. rewrite take_insert_ge by lia. rewrite length_app. simpl.
  rewrite <- !app_assoc. do 2 f_equal.
  rewrite (drop_S _ c) by (by apply list_lookup_insert_eq). simpl. f_equal.
  rewrite drop_insert_lt by lia. f_equal. lia.
Qed.

Lemma overlay_insert_end b j c w : (j + length w < length b)%nat →
  <[(j + length w)%nat := c]> (overlay b j w) = overlay b j (w ++ [c]).
Proof.
  intros Hj. unfold overlay. rewrite app_assoc.
  rewrite insert_app_r_alt; rewrite length_app, length_take; [|lia].
  replace (_ - _)%nat with 0%nat by lia.
  destruct (drop (j + length w) b) as [|d l] eqn:E.
  { apply (f_equal length) in E. rewrite length_drop in E. simpl in E. lia. }
  simpl. rewrite length_app. simpl.
  rewrite <- !app_assoc. do 3 f_equal. simpl. f_equal.
  replace (j + (length w + 1))%nat with (j + length w + 1)%nat by lia.
  rewrite <- drop_drop, E. done.
Qed.

Lemma overlay_overlay b w w' : (length w + length w' ≤ length b)%nat →
  overlay (overlay b 0 w) (length w) w' = overlay b 0 (w ++ w').
Proof.
  intros H. unfold overlay. simpl. rewrite take_app_length.
  rewrite drop_app_ge by lia. rewrite drop_drop, length_app, <- app_assoc.
  do 3 f_equal. lia.
Qed.

Lemma arr_set_overlay b w c : (length w < length b)%nat →
  arr_set (overlay b 0 w) (Z.of_nat (length w)) c = Some (overlay b 0 (w ++ [u8 c])).
Proof.
  intros H. rewrite arr_set_Some by (rewrite overlay_length; lia).
  rewrite Nat2Z.id. f_equal. by apply (overlay_insert_end b 0).
Qed.

End utils.

(** ** Hexadecimal digits, most significant first *)

Definition hex_digit (d : Z) : Z := default 0 (hex_table !! Z.to_nat d).
Definition hex_val (c : Z) : Z := if decide (c < 58) then c - 48 else c - 87.

Fixpoint hex_digits (k : nat) (n : Z) : list Z :=
  match k with
  | O => []
  | S k' => hex_digits k' (n / 16) ++ [hex_digit (n mod 16)]
  end.

Definition hex_parse (l : list Z) : Z := foldl (λ acc c, 16 * acc + hex_val c) 0 l.

Section hex.

Lemma hex_val_digit d : 0 ≤ d < 16 → hex_val (hex_digit d) = d.
Proof.
  intros Hd. assert (Forall (λ d, hex_val (hex_digit d) = d) (seqZ 0 16)) as H
    by (vm_compute; repeat constructor).
  rewrite Forall_forall in H. apply H, elem_of_seqZ. lia.
Qed.

Lemma hex_digit_range d : 0 ≤ hex_digit d < 256.
Proof.
  unfold hex_digit. destruct (hex_table !! Z.to_nat d) as [c|] eqn:E; simpl; [|lia].
  assert (Forall (λ c, 0 ≤ c < 256) hex_table) as H
    by (vm_compute; repeat constructor; done).
  rewrite Forall_forall in H. apply list_elem_of_lookup_2 in E. by apply H.
Qed.

Lemma length_hex_digits k n : length (hex_digits k n) = k.
Proof. induction k as [|k IH] in n |- *; [done|]. simpl. rewrite length_app, IH. simpl. lia. Qed.

Lemma hex_parse_digits k n : 0 ≤ n → hex_parse (hex_digits k n) = n mod 16 ^ Z.of_nat k.
Proof.
  unfold hex_parse. induction k as [|k IH] in n |- *; intros Hn.
  - simpl. by rewrite Z.mod_1_r.
  - simpl hex_digits. rewrite foldl_app. simpl.
    rewrite IH by (apply Z.div_pos; lia). rewrite hex_val_digit by (apply Z.mod_pos_bound; lia).
    rewrite Nat2Z.inj_succ, Z.pow_succ_r by lia.
    rewrite (Z.rem_mul_r n 16) by (try lia; apply Z.pow_pos_nonneg; lia). lia.
Qed.

Lemma hex_loop_overlay k i n buf : 0 ≤ n → 0 ≤ i →
  (Z.to_nat i + k ≤ 18)%nat → (18 ≤ length buf)%nat →
  hex_loop k i n buf = Some (overlay buf (18 - Z.to_nat i - k) (hex_digits k n)).
Proof.
  induction k as [|k IH] in i, n, buf |- *; intros Hn Hi Hk Hlen.
  - simpl. by rewrite overlay_nil.
  - simpl. rewrite (land_ones_mod _ 4) by done. change (2 ^ 4) with 16.
    pose proof (Z.mod_pos_bound n 16 ltac:(lia)) as Hd.
    unfold arr_get. rewrite decide_True by lia.
    assert (is_Some (hex_table !! Z.to_nat (n mod 16))) as [d Ed]
      by (apply lookup_lt_is_Some; change (length hex_table) with 16%nat; lia).
    rewrite Ed. simpl. rewrite arr_set_Some by lia. simpl.
    rewrite IH; [|apply Z.shiftr_nonneg; lia|lia|lia|rewrite length_insert; lia].
    f_equal. rewrite Z.shiftr_div_pow2 by lia. change (2 ^ 4) with 16.
    assert (hex_digit (n mod 16) = d) as Hdd by (unfold hex_digit; by rewrite Ed).
    rewrite u8_small by (rewrite <- Hdd; apply hex_digit_range).
    rewrite Hdd. replace (18 - Z.to_nat (i + 1) - k)%nat with (18 - Z.to_nat i - S k)%nat by lia.
    replace (Z.to_nat (17 - i))
      with (18 - Z.to_nat i - S k + length (hex_digits k (n / 16)))%nat
      by (rewrite length_hex_digits; lia).
    rewrite overlay_snoc by (rewrite length_hex_digits; lia). done.
Qed.

End hex.

Lemma hex_to_ascii_eq n buf : 0 ≤ n → (19 ≤ length buf)%nat →
  hex_to_ascii n buf = Some (str "0x" ++ hex_digits 16 n ++ 0 :: drop 19 buf).
Proof.
  intros Hn Hlen. unfold hex_to_ascii.
  pose proof (length_hex_digits 16 n) as Hd.
  rewrite <- (overlay_nil buf 0) at 1.
  rewrite (arr_set_overlay _ []) by (simpl; lia). cbn [mbind option_bind].
  rewrite (arr_set_overlay _ [u8 48]) by (simpl; lia). cbn [mbind option_bind].
  rewrite hex_loop_overlay by (try rewrite overlay_length; simpl; lia). cbn [mbind option_bind].
  change (overlay (overlay buf 0 (str "0x")) (length (str "0x")) (hex_digits 16 n)) with
    (overlay (overlay buf 0 (([u8 48] ++ [u8 120]))) (18 - Z.to_nat 0 - 16) (hex_digits 16 n)).
  rewrite (overlay_overlay buf (str "0x")) by (simpl; lia).
  replace 18 with (Z.of_nat (length (str "0x" ++ hex_digits 16 n)))
    by (rewrite length_app, Hd; done).
  rewrite arr_set_overlay by (rewrite length_app, Hd; simpl; lia).
  unfold overlay. rewrite take_0, app_nil_l, !length_app, Hd, <- !app_assoc. done.
Qed.

(** The next token of a line. *)
Lemma next_token t tl b (off : nat) :
  is_text t → (off ≤ length t)%nat →
  get_next_token (t ++ 0 :: tl) b (Z.of_nat off) =
  let rest := strip (drop off t) in
  if decide (rest = []) then Some (0, b, Z.of_nat (length t))
  else if decide (length (word rest) < length b)%nat
  then Some (1, overlay b 0 (word rest ++ [0]),
             Z.of_nat (length t - length rest + length (word rest)))
  else None.
Proof.
  intros Ht Hoff. unfold get_next_token. rewrite Nat2Z.id.
  rewrite drop_app_le by lia.
  assert (is_text (drop off t)) as Hd by (by apply Forall_drop).
  rewrite skip_spaces_text by done. simpl.
  set (rest := strip (drop off t)). pose proof (strip_length (drop off t)) as Hle.
  fold rest in Hle. rewrite length_drop in *.
  replace (Z.of_nat off + _ - _) with (Z.of_nat (length t - length rest)) by lia.
  assert (Hrest : drop (length t - length rest) t = rest).
  { transitivity (drop (length (drop off t) - length rest) (drop off t));
      [rewrite drop_drop, length_drop; f_equal; lia|apply drop_strip]. }
  unfold arr_get. rewrite decide_True by lia. rewrite Nat2Z.id.
  rewrite drop_app_le by lia. rewrite Hrest.
  destruct (decide (rest = [])) as [Hnil|Hnil].
  - rewrite Hnil in *. simpl. rewrite Nat.sub_0_r.
    rewrite lookup_app_r by lia. by rewrite Nat.sub_diag.
  - destruct rest as [|c rest'] eqn:Er; [done|].
    assert (t !! (length t - length (c :: rest'))%nat = Some c) as Hc.
    { rewrite <- (Nat.add_0_r (_ - _)), <- lookup_drop, Hrest. done. }
    rewrite lookup_app_l by (apply lookup_lt_Some in Hc; done). rewrite Hc.
    cbn [mbind option_bind].
    assert (is_text (c :: rest')) as Hr.
    { rewrite <- Hrest. by apply Forall_drop. }
    rewrite decide_False by (apply Forall_cons in Hr; lia).
    rewrite (copy_token_text (c :: rest') tl b _ 0 Hr ltac:(lia)).
    change (0 + length (word (c :: rest')))%nat with (length (word (c :: rest'))).
    destruct (decide (length (word (c :: rest')) ≤ length b)%nat); cbn [mbind option_bind].
    + destruct (decide (length (word (c :: rest')) < length b)%nat).
      * rewrite arr_set_overlay by lia. cbn [mbind option_bind].
        repeat f_equal; lia.
      * rewrite arr_set_None by (rewrite overlay_length; lia). done.
    + by rewrite decide_False by lia.
Qed.

(** ** Properties *)

(** C28. [get_next_token] on a line [t] held by the input array: after the spaces at
    the offset it copies the next word and its 0 into the buffer and stops behind the
    word; at the end of the line it reports no token; and the copy is out of bounds
    exactly when the word does not fit the buffer with its 0. *)
Theorem get_next_token_spec t tl b (off : nat) :
  is_text t → (off ≤ length t)%nat →
  get_next_token (t ++ 0 :: tl) b (Z.of_nat off) =
  let rest := strip (drop off t) in
  if decide (rest = []) then Some (0, b, Z.of_nat (length t))
  else if decide (length (word rest) < length b)%nat
  then Some (1, overlay b 0 (word rest ++ [0]),
             Z.of_nat (length t - length rest + length (word rest)))
  else None.
Proof. apply next_token. Qed.

(** [hex_to_ascii] writes, into any buffer of at least 19 characters, 0x followed by
    the sixteen digits of its argument and a 0: reading the digits back gives the number. *)
Theorem hex_to_ascii_roundtrip n buf :
  0 ≤ n < 2 ^ 64 → (19 ≤ length buf)%nat →
  ∃ out, hex_to_ascii n buf = Some out ∧ length out = length buf ∧
    take 2 out = str "0x" ∧ hex_parse (take 16 (drop 2 out)) = n ∧ out !! 18%nat = Some 0.
Proof.
  intros Hn Hlen. rewrite hex_to_ascii_eq by lia.
  pose proof (length_hex_digits 16 n) as Hd. eexists; split; [done|]. repeat split.
  - rewrite !length_app, Hd. simpl. rewrite length_drop. lia.
  - change (drop 2 (str "0x" ++ ?l)) with l. rewrite take_app_le by lia.
    rewrite take_ge by lia. rewrite hex_parse_digits by lia. by apply Z.mod_small.
Qed.

Lemma get_next_token_spec_witness :
  get_next_token (str "  ls /bin" ++ 0 :: []) (replicate 4 7) (Z.of_nat 1)
  = Some (1, str "ls" ++ [0; 7], 4).
Proof.
  refine (eq_trans (get_next_token_spec (str "  ls /bin") [] (replicate 4 7) 1 _ _) _).
  - unfold is_text. repeat constructor; lia.
  - simpl. lia.
  - reflexivity.
Defined.

Lemma hex_to_ascii_roundtrip_witness :
  ∃ out, hex_to_ascii 0xb8000 (replicate 32 0) = Some out ∧ length out = 32%nat ∧
    take 2 out = str "0x" ∧ hex_parse (take 16 (drop 2 out)) = 0xb8000 ∧ out !! 18%nat = Some 0.
Proof. apply (hex_to_ascii_roundtrip 0xb8000 (replicate 32 0)); [lia|simpl; lia]. Defined.
