(* ===== verification/Screen.v ===== *)
(** src/drivers/screen.c: the VGA text console.

    The driver's whole state is the device, so its functions are state transformers
    on [console]; [kprint] lifts the result to the machine.  The specification is an
    abstract terminal of 25 rows of 80 cells with a cursor, which the byte-level code
    and its two cursor registers implement. *)
From S2P Require Import Prelude Memory Hardware Machine Utils.

Definition MAX_ROWS : Z := 25.
Definition MAX_COLS : Z := 80.
Definition WHITE_ON_BLACK : Z := 0x0f.
Definition REG_SCREEN_CTRL : Z := 0x3d4.
Definition REG_SCREEN_DATA : Z := 0x3d5.

Definition get_cursor_offset (c : console) : Z * console :=
  let c1 := port_out REG_SCREEN_CTRL 14 c in
  let '(hi, c2) := port_in REG_SCREEN_DATA c1 in
  let c3 := port_out REG_SCREEN_CTRL 15 c2 in
  let '(lo, c4) := port_in REG_SCREEN_DATA c3 in
  ((Z.shiftl hi 8 + lo) * 2, c4).

Definition set_cursor_offset (offset : Z) (c : console) : console :=
  let offset := Z.quot offset 2 in
  let c1 := port_out REG_SCREEN_CTRL 14 c in
  let c2 := port_out REG_SCREEN_DATA (Z.shiftr offset 8) c1 in
  let c3 := port_out REG_SCREEN_CTRL 15 c2 in
  port_out REG_SCREEN_DATA (Z.land offset 0xff) c3.

Definition set_vga (v : gmap Z Z) (c : console) : console :=
  mkConsole v (crtc_index c) (crtc_hi c) (crtc_lo c).

(** The [memcpy] of one row of [scroll_rows]: row [i] over row [i - 1]. *)
Definition copy_row (i : Z) (v : gmap Z Z) : gmap Z Z :=
  copy (Z.to_nat (MAX_COLS * 2)) ((i - 1) * MAX_COLS * 2) (i * MAX_COLS * 2) v.

(** [for (i = i0; i < i0 + k; i++) row(i);] *)
Fixpoint for_rows (row : Z → gmap Z Z → gmap Z Z) (k : nat) (i : Z) (v : gmap Z Z) : gmap Z Z :=
  match k with
  | O => v
  | S k' => for_rows row k' (i + 1) (row i v)
  end.

Definition scroll_rows (k : nat) (i : Z) (v : gmap Z Z) : gmap Z Z := for_rows copy_row k i v.

(** [for (i = 0; i < n * 2; i += 2)] a blank cell at [base + i]. *)
Fixpoint blank_cells (n : nat) (base attribute_byte : Z) (v : gmap Z Z) : gmap Z Z :=
  match n with
  | O => v
  | S n' => blank_cells n' (base + 2) attribute_byte
              (<[base + 1 := u8 attribute_byte]> (<[base := 32]> v))
  end.

Definition print_char (ch col row attribute_byte : Z) (c : console) : console :=
  let attribute_byte := if decide (attribute_byte = 0) then WHITE_ON_BLACK else attribute_byte in
  let '(offset, c) :=
    if decide (col >= 0 ∧ row >= 0) then ((row * MAX_COLS + col) * 2, c)
    else get_cursor_offset c in
  let '(offset, c) :=
    if decide (ch = 10) then
      let '(offset, c) := get_cursor_offset c in
      let rows := Z.quot offset (2 * MAX_COLS) in
      ((rows + 1) * (2 * MAX_COLS), c)
    else
      (offset + 2,
       set_vga (<[offset + 1 := u8 attribute_byte]> (<[offset := u8 ch]> (vga c))) c) in
  let '(offset, c) :=
    if decide (offset >= MAX_ROWS * MAX_COLS * 2) then
      let v := scroll_rows (Z.to_nat (MAX_ROWS - 1)) 1 (vga c) in
      let v := blank_cells (Z.to_nat MAX_COLS) ((MAX_ROWS - 1) * MAX_COLS * 2) attribute_byte v in
      (offset - 2 * MAX_COLS, set_vga v c)
    else (offset, c) in
  set_cursor_offset offset c.

Fixpoint print_message (message : list Z) (col row : Z) (c : console) : console :=
  match message with
  | [] => c
  | ch :: rest =>
      print_message rest (if decide (col >= 0) then col + 1 else col) row
        (print_char ch col row WHITE_ON_BLACK c)
  end.

(** [message] is the string's characters, without its 0. *)
Definition kprint_at (message : list Z) (col row : Z) (c : console) : console :=
  let c := if decide (col > 0 ∧ row >= 0)
           then set_cursor_offset ((row * MAX_COLS + col) * 2) c else c in
  print_message message col row c.

Definition kprint_backspace (c : console) : console :=
  let '(offset, c) := get_cursor_offset c in
  let offset := offset - 2 in
  let offset := if decide (offset < 0) then 0 else offset in
  let c := set_cursor_offset offset c in
  set_vga (<[offset + 1 := 0x0f]> (<[offset := 32]> (vga c))) c.

Definition clear_screen (c : console) : console :=
  let v := blank_cells (Z.to_nat (MAX_COLS * MAX_ROWS)) 0 WHITE_ON_BLACK (vga c) in
  set_cursor_offset 0 (set_vga v c).

(** ** The calls as the rest of the kernel makes them *)

Definition on_console (f : console → console) : M unit :=
  modify (λ s, set_cons (f (cons s)) s).
Definition kprint (message : list Z) : M unit := on_console (kprint_at message (-1) (-1)).

(** Printing a number through a local buffer: [hex_to_ascii(n, buf); kprint(buf);]. *)
Definition kprint_hex (size : nat) (n : Z) : M unit :=
  b ← from_option_ub (hex_to_ascii n (replicate size 0));
  kprint (string_of b).

(** ** The abstract terminal *)

Record terminal := mkTerminal {
  cells : Z → Z * Z;        (* character and attribute of cells 0 .. 1999 *)
  cursor : Z;               (* 0 .. 1999 *)
}.

Definition term_scroll (attr : Z) (cells : Z → Z * Z) : Z → Z * Z :=
  λ i, if decide (i < 1920) then cells (i + 80) else (32, attr).

(** One character at the cursor: a newline moves to the next row, and passing the last
    row shifts the screen up by one row. *)
Definition term_put (ch : Z) (t : terminal) : terminal :=
  let '(cs, pos) :=
    if decide (ch = 10) then (cells t, (cursor t / 80 + 1) * 80)
    else (λ i, if decide (i = cursor t) then (u8 ch, WHITE_ON_BLACK) else cells t i, cursor t + 1) in
  if decide (pos >= 2000) then mkTerminal (term_scroll WHITE_ON_BLACK cs) (pos - 80)
  else mkTerminal cs pos.

Definition term_print (msg : list Z) (t : terminal) : terminal := foldl (λ t ch, term_put ch t) t msg.

(** The position the cursor registers hold. *)
Definition cursor_pos (c : console) : Z := u8 (crtc_hi c) * 256 + u8 (crtc_lo c).

(** The console shows the terminal [t]. *)
Definition shows (c : console) (t : terminal) : Prop :=
  0 ≤ cursor t < 2000 ∧ cursor_pos c = cursor t ∧
  ∀ i, 0 ≤ i < 2000 → (byte_at (vga c) (2 * i), byte_at (vga c) (2 * i + 1)) = cells t i.

(** ** Lemmas *)

Section screen.
Implicit Types c : console.

Lemma get_cursor_offset_eq c :
  get_cursor_offset c
  = (cursor_pos c * 2, mkConsole (vga c) 15 (crtc_hi c) (crtc_lo c)).
Proof.
  unfold get_cursor_offset, port_out, port_in, console_port, crtc_out, crtc_in, cursor_pos. simpl.
  rewrite Z.shiftl_mul_pow2 by lia. done.
Qed.

Lemma set_cursor_offset_eq c p : 0 ≤ p < 65536 →
  set_cursor_offset (p * 2) c = mkConsole (vga c) 15 (p / 256) (p mod 256).
Proof.
  intros Hp. unfold set_cursor_offset, port_out, console_port, crtc_out. simpl.
  rewrite Z.quot_mul by lia. rewrite (land_ones_mod _ 8) by done.
  rewrite Z.shiftr_div_pow2 by lia. change (2 ^ 8) with 256.
  f_equal; apply u8_small; dlia.
Qed.

Lemma cursor_pos_set v k p : 0 ≤ p < 65536 →
  cursor_pos (mkConsole v k (p / 256) (p mod 256)) = p.
Proof. intros. unfold cursor_pos. simpl. rewrite !u8_small; dlia. Qed.

Lemma copy_row_spec i v x : 1 ≤ i →
  byte_at (copy_row i v) x =
  if decide ((i - 1) * 160 ≤ x < i * 160) then byte_at v (x + 160) else byte_at v x.
Proof.
  intros Hi. unfold copy_row, MAX_COLS. case_decide.
  - rewrite byte_copy_in by lia. f_equal. lia.
  - by rewrite byte_copy_out by lia.
Qed.

Lemma for_rows_spec row k i v x :
  (∀ i v x, 1 ≤ i → byte_at (row i v) x =
     if decide ((i - 1) * 160 ≤ x < i * 160) then byte_at v (x + 160) else byte_at v x) →
  1 ≤ i →
  byte_at (for_rows row k i v) x =
  if decide ((i - 1) * 160 ≤ x < (i - 1 + Z.of_nat k) * 160)
  then byte_at v (x + 160) else byte_at v x.
Proof.
  intros Hrow. induction k as [|k IH] in i, v |- *; intros Hi; simpl.
  - by rewrite decide_False by lia.
  - rewrite IH by lia. rewrite !Hrow by lia.
    repeat case_decide; first [done | lia].
Qed.

Lemma scroll_rows_spec k i v x : 1 ≤ i →
  byte_at (scroll_rows k i v) x =
  if decide ((i - 1) * 160 ≤ x < (i - 1 + Z.of_nat k) * 160)
  then byte_at v (x + 160) else byte_at v x.
Proof. apply for_rows_spec. intros. by apply copy_row_spec. Qed.

#[local] Opaque scroll_rows.

Lemma blank_cells_out n base a v x : ¬ (base ≤ x < base + 2 * Z.of_nat n) →
  byte_at (blank_cells n base a v) x = byte_at v x.
Proof.
  induction n as [|n IH] in base, v |- *; intros Hx; simpl; [done|].
  rewrite IH by lia. rewrite !byte_at_insert. by rewrite !decide_False by lia.
Qed.

Lemma blank_cells_in n base a v i : 0 ≤ i < Z.of_nat n →
  byte_at (blank_cells n base a v) (base + 2 * i) = 32 ∧
  byte_at (blank_cells n base a v) (base + 2 * i + 1) = u8 a.
Proof.
  induction n as [|n IH] in base, v, i |- *; intros Hx; simpl; [lia|].
  destruct (decide (i = 0)) as [->|].
  - rewrite !blank_cells_out by lia. rewrite !byte_at_insert.
    rewrite (decide_False (P := base + 1 = _)) by lia. rewrite !decide_True by lia.
    split; [done|]. width. by rewrite Z.mod_mod.
  - specialize (IH (base + 2) (<[base + 1:=u8 a]> (<[base:=32]> v)) (i - 1) ltac:(lia)).
    by replace (base + 2 + 2 * (i - 1)) with (base + 2 * i) in IH by lia.
Qed.

#[local] Opaque blank_cells.

(** The whole scroll: rows move up and the last one is blank. *)
Lemma scroll_shows v cs :
  (∀ i, 0 ≤ i < 2000 → (byte_at v (2 * i), byte_at v (2 * i + 1)) = cs i) →
  ∀ i, 0 ≤ i < 2000 →
  let v' := blank_cells (Z.to_nat 80) ((25 - 1) * 80 * 2) WHITE_ON_BLACK
              (scroll_rows (Z.to_nat (25 - 1)) 1 v) in
  (byte_at v' (2 * i), byte_at v' (2 * i + 1)) = term_scroll WHITE_ON_BLACK cs i.
Proof.
  intros Hcs i Hi. cbv zeta. unfold term_scroll. case_decide.
  - rewrite !blank_cells_out by lia. rewrite !scroll_rows_spec by lia.
    rewrite !decide_True by lia. rewrite <- Hcs by lia. f_equal; f_equal; lia.
  - destruct (blank_cells_in (Z.to_nat 80) ((25 - 1) * 80 * 2) WHITE_ON_BLACK
      (scroll_rows (Z.to_nat (25 - 1)) 1 v) (i - 1920)) as [H1 H2]; [lia|].
    replace (2 * i) with ((25 - 1) * 80 * 2 + 2 * (i - 1920)) by lia. by rewrite H1, H2.
Qed.

(** The tail of [print_char]: scroll when the cursor left the screen, then move it. *)
Lemma finish_shows c cs pos :
  0 ≤ pos ≤ 2000 →
  (∀ i, 0 ≤ i < 2000 → (byte_at (vga c) (2 * i), byte_at (vga c) (2 * i + 1)) = cs i) →
  shows
    (let '(offset, c) :=
       if decide (pos * 2 >= MAX_ROWS * MAX_COLS * 2) then
         let v := scroll_rows (Z.to_nat (MAX_ROWS - 1)) 1 (vga c) in
         let v := blank_cells (Z.to_nat MAX_COLS) ((MAX_ROWS - 1) * MAX_COLS * 2) WHITE_ON_BLACK v in
         (pos * 2 - 2 * MAX_COLS, set_vga v c)
       else (pos * 2, c) in
     set_cursor_offset offset c)
    (if decide (pos >= 2000) then mkTerminal (term_scroll WHITE_ON_BLACK cs) (pos - 80)
     else mkTerminal cs pos).
Proof.
  intros Hpos Hcs. unfold MAX_ROWS, MAX_COLS. destruct (decide (pos >= 2000)).
  - rewrite decide_True by lia.
    replace (pos * 2 - 2 * 80) with ((pos - 80) * 2) by lia.
    rewrite set_cursor_offset_eq by lia. split; [cbn; lia|]. split.
    + apply cursor_pos_set. cbn. lia.
    + intros i Hi. by apply scroll_shows.
  - rewrite decide_False by lia. rewrite set_cursor_offset_eq by lia.
    split; [cbn; lia|]. split; [|done]. apply cursor_pos_set. cbn. lia.
Qed.

Lemma print_char_shows ch c t :
  shows c t → shows (print_char ch (-1) (-1) WHITE_ON_BLACK c) (term_put ch t).
Proof.
  intros (Hcur & Hpos & Hcells). unfold print_char, term_put.
  rewrite (decide_False (P := WHITE_ON_BLACK = 0)) by done.
  rewrite (decide_False (P := -1 >= 0 ∧ -1 >= 0)) by lia.
  rewrite get_cursor_offset_eq, Hpos. destruct (decide (ch = 10)) as [->|Hch].
  - rewrite get_cursor_offset_eq. change (cursor_pos (mkConsole _ _ _ _)) with (cursor_pos c).
    rewrite Hpos.
    replace (Z.quot (cursor t * 2) (2 * MAX_COLS)) with (cursor t / 80)
      by (rewrite Z.quot_div_nonneg by (unfold MAX_COLS; lia); unfold MAX_COLS; dlia).
    replace ((cursor t / 80 + 1) * (2 * MAX_COLS)) with ((cursor t / 80 + 1) * 80 * 2)
      by (unfold MAX_COLS; lia).
    apply finish_shows; [dlia|done].
  - replace (cursor t * 2 + 2) with ((cursor t + 1) * 2) by lia.
    apply finish_shows; [lia|]. cbn. intros i Hi. rewrite !byte_at_insert.
    destruct (decide (i = cursor t)) as [->|].
    + repeat case_decide; try lia. width. by rewrite !Z.mod_mod.
    + repeat case_decide; try lia. by apply Hcells.
Qed.

Lemma print_message_shows msg c t :
  shows c t → shows (print_message msg (-1) (-1) c) (term_print msg t).
Proof.
  unfold term_print. induction msg as [|ch msg IH] in c, t |- *; intros H; simpl; [done|].
  apply IH. by apply print_char_shows.
Qed.

End screen.

(** ** Printing changes the console only *)

Definition console_only (s s' : machine) : Prop := s' = set_cons (cons s') s.

Lemma set_cons_id s : set_cons (cons s) s = s.
Proof. by destruct s. Qed.

#[export] Instance console_only_preorder : PreOrder console_only.
Proof.
  split.
  - intros s. symmetry. apply set_cons_id.
  - intros x y z Hy Hz. transitivity (set_cons (cons z) (set_cons (cons y) x)); [|done].
    unfold console_only in *. congruence.
Qed.

#[export] Instance console_only_sym : Symmetric console_only.
Proof.
  unfold console_only. intros x y Hy.
  assert (set_cons (cons x) (set_cons (cons y) x) = x) as E by apply (set_cons_id x).
  congruence.
Qed.

Lemma wp_kprint msg n s (Q : unit → machine → Prop) :
  (∀ s', console_only s s' → Q tt s') → wp (kprint msg) n s Q.
Proof. intros H. apply wp_modify, H. done. Qed.

Lemma wp_kprint_hex size x n s (Q : unit → machine → Prop) :
  0 ≤ x → (19 ≤ size)%nat → (∀ s', console_only s s' → Q tt s') →
  wp (kprint_hex size x) n s Q.
Proof.
  intros Hx Hs H. unfold kprint_hex. apply wp_bind.
  rewrite hex_to_ascii_eq by (rewrite ?length_replicate; done || lia).
  apply wp_some. by apply wp_kprint.
Qed.

(** What a [console_only] step keeps. *)
Lemma console_only_eq {A} (f : machine → A) s s' :
  (∀ c s, f (set_cons c s) = f s) → console_only s s' → f s' = f s.
Proof. intros Hf ->. apply Hf. Qed.

(** Discharge a chain of prints. *)
Ltac wp_print :=
  repeat (cbn beta; lazymatch goal with
    | |- wp (_ ≫= _) _ _ _ => apply wp_bind
    | |- wp (kprint _) _ _ _ =>
        apply wp_kprint; let s' := fresh "s'" in let H := fresh "Hc" in intros s' H
    | |- wp (kprint_hex _ _) _ _ _ =>
        apply wp_kprint_hex;
          [try (cbn; lia)|lia|let s' := fresh "s'" in let H := fresh "Hc" in intros s' H]
    end).

(** Printing on a screen that shows [t]. *)
Lemma kprint_shows msg s t n (Q : unit → machine → Prop) : shows (cons s) t →
  (∀ s', console_only s s' → shows (cons s') (term_print msg t) → Q tt s') → wp (kprint msg) n s Q.
Proof.
  intros H HQ. unfold kprint, on_console. apply wp_modify, HQ; [done|].
  unfold kprint_at. cbn [set_cons cons]. rewrite decide_False by lia. by apply print_message_shows.
Qed.

(** ** Properties *)

(** C12. [kprint] refines the abstract terminal: whatever the screen shows with the cursor on
    it, printing a message through the byte-level driver and the cursor registers shows the
    terminal after each of the characters, newlines and scrolls included, and leaves the
    cursor on the screen. *)
Theorem kprint_refines_terminal msg s t n :
  shows (cons s) t →
  wp (kprint msg) n s (λ _ s', shows (cons s') (term_print msg t) ∧ s' = set_cons (cons s') s).
Proof.
  intros H. by apply (kprint_shows msg s t).
Qed.

Lemma kprint_refines_terminal_witness :
  wp (kprint (str "ok" ++ newline)) 0 boot_machine
    (λ _ s', shows (cons s') (term_print (str "ok" ++ newline) (mkTerminal (λ _, (0, 0)) 0)) ∧
       s' = set_cons (cons s') boot_machine).
Proof.
  apply (kprint_refines_terminal _ boot_machine (mkTerminal (λ _, (0, 0)) 0)).
  split; [cbn; lia|]. split; [done|]. intros i Hi. done.
Defined.
