(* ===== verification/Preserves.v ===== *)
(** Preservation of state predicates by programs of the monad.

    [preserves I m] says that [m], whenever it returns, keeps [I].  The rules follow the
    program's structure, so the tactic [preserve] proves frame properties of long programs
    by walking through them; lemmas of the hint database [keep] close the calls of operations
    already treated. *)
From S2P Require Import Prelude Memory Hardware Machine Utils Screen.

Definition preserves {A} (I : machine → Prop) (m : M A) : Prop :=
  ∀ n s a s', I s → m n s = Ret a s' → I s'.

Create HintDb keep.

Section rules.
Context (I : machine → Prop).
Implicit Types (s : machine) (n : nat).

Lemma preserves_ret {A} (a : A) : preserves I (mret a).
Proof. intros n s b s' H [= <- <-]. done. Qed.

Lemma preserves_gets {A} (f : machine → A) : preserves I (gets f).
Proof. intros n s b s' H [= <- <-]. done. Qed.

Lemma preserves_modify f : (∀ s, I s → I (f s)) → preserves I (modify f).
Proof. intros Hf n s b s' H [= <- <-]. by apply Hf. Qed.

Lemma preserves_undef {A} : preserves I (undef (A := A)).
Proof. by intros n s b s' H E. Qed.

Lemma preserves_halt {A} : preserves I (halt (A := A)).
Proof. by intros n s b s' H E. Qed.

Lemma preserves_option {A} (o : option A) : preserves I (from_option_ub o).
Proof. destruct o; [apply preserves_ret|apply preserves_undef]. Qed.

Lemma preserves_bind {A B} (m : M A) (k : A → M B) :
  preserves I m → (∀ a, preserves I (k a)) → preserves I (m ≫= k).
Proof.
  intros Hm Hk n s b s' H. unfold mbind, M_bind. destruct (m n s) as [a s1| | |] eqn:E; try done.
  intros E'. eapply Hk; [|exact E']. by eapply Hm.
Qed.

Lemma preserves_for_loop {R} k i (body : Z → M (option R)) :
  (∀ j, preserves I (body j)) → preserves I (for_loop k i body).
Proof.
  intros Hb. induction k as [|k IH] in i |- *; simpl; [apply preserves_ret|].
  apply preserves_bind; [done|]. intros [x|]; [apply preserves_ret|apply IH].
Qed.

Lemma preserves_for_acc {St} k i (st : St) (body : Z → St → M St) :
  (∀ j st, preserves I (body j st)) → preserves I (for_acc k i st body).
Proof.
  intros Hb. induction k as [|k IH] in i, st |- *; simpl; [apply preserves_ret|].
  apply preserves_bind; [done|]. intros st'. apply IH.
Qed.

Lemma preserves_for_unit k i (body : Z → M unit) :
  (∀ j, preserves I (body j)) → preserves I (for_unit k i body).
Proof. intros Hb. by apply preserves_for_acc. Qed.

Lemma preserves_while {St R} (body : St → M (St + R)) st :
  (∀ st, preserves I (body st)) → preserves I (while_loop body st).
Proof.
  intros Hb n s a s' H. unfold while_loop. generalize n at 1. intros f.
  induction f as [|f IH] in st, s, H |- *; simpl; [done|].
  unfold mbind, M_bind. destruct (body st n s) as [r s1| | |] eqn:E; try done.
  pose proof (Hb _ _ _ _ _ H E) as H1. destruct r as [st'|x]; [by apply IH|]. by intros [= <- <-].
Qed.

(** A predicate on a component that [m] does not change. *)
Lemma preserves_of_keeps {A X} (f : machine → X) (P : X → Prop) (m : M A) :
  (∀ x, preserves (λ s, f s = x) m) → preserves (λ s, P (f s)) m.
Proof. intros Hm n s a s' H E. by rewrite (Hm (f s) n s a s' eq_refl E). Qed.

(** Total and partial correctness together. *)
Lemma wp_preserves {A} (m : M A) n s (Q : A → machine → Prop) :
  preserves I m → I s → wp m n s Q → wp m n s (λ a s', I s' ∧ Q a s').
Proof. unfold wp. intros Hm H. destruct (m n s) eqn:E; try done. intros HQ. split; [by eapply Hm|done]. Qed.

End rules.

Ltac head_of t := lazymatch t with ?f _ => head_of f | _ => t end.

Ltac preserve_step :=
  lazymatch goal with
  | |- preserves _ (mret _) => apply preserves_ret
  | |- preserves _ (gets _) => apply preserves_gets
  | |- preserves _ (modify _) => apply preserves_modify; intros ? ?; cbn beta in *; try done
  | |- preserves _ undef => apply preserves_undef
  | |- preserves _ halt => apply preserves_halt
  | |- preserves _ (from_option_ub _) => apply preserves_option
  | |- preserves _ (for_loop _ _ _) => apply preserves_for_loop; intros ?
  | |- preserves _ (for_acc _ _ _ _) => apply preserves_for_acc; intros ? ?
  | |- preserves _ (for_unit _ _ _) => apply preserves_for_unit; intros ?
  | |- preserves _ (while_loop _ _) => apply preserves_while; intros ?
  | |- preserves _ (_ ≫= _) => first [solve [auto with keep nocore] | apply preserves_bind; [|intros ?]]
  | |- preserves _ (let _ := _ in _) => cbv zeta
  | |- preserves _ (match ?x with _ => _ end) => destruct x
  | |- preserves _ ?m =>
      first [ solve [auto with keep nocore]
            | let h := head_of m in unfold h ]
  end.

(** Walk through the program; what is left are state changes the predicate depends on. *)
Ltac preserve := repeat (cbn beta; preserve_step).
