(* ===== verification/Pmm.v ===== *)
(** src/kernel/pmm.c: the bitmap allocator of 4 KiB physical frames.

    The bitmap is an array of 32-bit words in physical memory at 0x200000; a set bit
    marks a used frame.  The E820 map the boot loader left at 0x5000 is read from
    memory, as the code does. *)
From S2P Require Import Prelude Memory Hardware Machine Utils Screen.

Definition BLOCK_SIZE : Z := 4096.

(** ** The bit macros *)

Definition bit_word (base idx : Z) : Z := base + 4 * (idx / 32).

Definition SET_BIT (idx : Z) : M unit :=
  base ← gets (bitmap ∘ pmm);
  w ← load32 (bit_word base idx);
  store32 (bit_word base idx) (Z.lor w (Z.shiftl 1 (idx mod 32))).

Definition CLEAR_BIT (idx : Z) : M unit :=
  base ← gets (bitmap ∘ pmm);
  w ← load32 (bit_word base idx);
  store32 (bit_word base idx) (Z.land w (Z.lnot (Z.shiftl 1 (idx mod 32)))).

Definition TEST_BIT (idx : Z) : M Z :=
  base ← gets (bitmap ∘ pmm);
  w ← load32 (bit_word base idx);
  mret (Z.land w (Z.shiftl 1 (idx mod 32))).

(** ** The E820 table: [memory_map_entry_t], 24 bytes each, at 0x5004 *)

Definition entry_addr (i : Z) : Z := 0x5004 + 24 * i.
Definition e_base (m : gmap Z Z) (i : Z) : Z := load 8 m (entry_addr i).
Definition e_length (m : gmap Z Z) (i : Z) : Z := load 8 m (entry_addr i + 8).
Definition e_type (m : gmap Z Z) (i : Z) : Z := load 4 m (entry_addr i + 16).
Definition entry_count (m : gmap Z Z) : Z := load 2 m 0x5000.

(** First loop of [init_pmm]: the end of the highest usable range. *)
Definition find_max_addr (count : Z) : M Z :=
  for_acc (Z.to_nat count) 0 0 (λ i max_addr,
    t ← gets (λ s, e_type (mem s) i);
    if decide (t = 1) then
      b ← gets (λ s, e_base (mem s) i);
      l ← gets (λ s, e_length (mem s) i);
      let e := u64 (b + l) in
      mret (if decide (e > max_addr) then e else max_addr)
    else mret max_addr).

(** Second loop: the blocks of the usable ranges become free. *)
Definition free_usable (count : Z) : M unit :=
  for_unit (Z.to_nat count) 0 (λ i,
    t ← gets (λ s, e_type (mem s) i);
    if decide (t = 1) then
      b ← gets (λ s, e_base (mem s) i);
      l ← gets (λ s, e_length (mem s) i);
      let start_block := b / BLOCK_SIZE in
      let num_blocks := l / BLOCK_SIZE in
      for_unit (Z.to_nat num_blocks) 0 (λ j, CLEAR_BIT (u64 (start_block + j)))
    else mret tt).

Definition reserve_low : M unit :=
  let reserved_blocks := 0x2000000 / BLOCK_SIZE in
  for_unit (Z.to_nat reserved_blocks) 0 SET_BIT.

Definition init_pmm : M unit :=
  count ← gets (entry_count ∘ mem);
  max_addr ← find_max_addr count;
  let total := max_addr / BLOCK_SIZE in
  let size := total / 8 in
  modify (set_pmm (mkPmm 0x200000 total size));;
  memset 0x200000 0xff size;;
  free_usable count;;
  reserve_low;;
  kprint (str "PMM Initialized. Total Memory: ");;
  kprint_hex 32 max_addr;;
  kprint newline.

(** Block allocation; 0 when every block is used. *)
Definition pmm_alloc_block : M Z :=
  total ← gets (total_blocks ∘ pmm);
  r ← for_loop (Z.to_nat total) 0 (λ i,
        t ← TEST_BIT i;
        if decide (t = 0) then SET_BIT i;; mret (Some (u64 (i * BLOCK_SIZE)))
        else mret None);
  match r with
  | Some p => mret p
  | None =>
      kprint (str "PMM Alloc Failed. Total: ");;
      kprint_hex 32 total;;
      kprint newline;;
      mret 0
  end.

Definition pmm_free_block (p : Z) : M unit :=
  let idx := p / BLOCK_SIZE in
  CLEAR_BIT idx.

(** ** The abstract view: one used flag per block *)

Definition bit_at (m : gmap Z Z) (base i : Z) : bool :=
  Z.testbit (load 4 m (bit_word base i)) (i mod 32).

Definition used (s : machine) (i : Z) : bool := bit_at (mem s) (bitmap (pmm s)) i.

(** Block [i] is one the code counts to a range of type 1: it divides base and length by the
    block size separately, so for a base inside a block the first block counts as a whole. *)
Definition usable (m : gmap Z Z) (i : Z) : Prop :=
  ∃ k, 0 ≤ k < entry_count m ∧ e_type m k = 1 ∧
    e_base m k / 4096 ≤ i < e_base m k / 4096 + e_length m k / 4096.

(** Every address computed from a block index fits 64 bits, and the low 32 MiB are used. *)
Record pmm_wf (s : machine) : Prop := {
  wf_total : 0 ≤ total_blocks (pmm s) < 2 ^ 52;
  wf_bitmap : bitmap (pmm s) = 0x200000;
  wf_reserved : ∀ i, 0 ≤ i < 8192 → used s i = true;
}.

(** ** Lemmas on the bit operations *)

Section bits.

Lemma bit_at_agree m m' base i :
  agree m m' (bit_word base i) 4 → bit_at m base i = bit_at m' base i.
Proof. intros H. unfold bit_at. f_equal. by apply load_ext. Qed.

Lemma bit_word_ne base i j : i / 32 ≠ j / 32 →
  bit_word base j + 4 ≤ bit_word base i ∨ bit_word base i + 4 ≤ bit_word base j.
Proof. unfold bit_word. lia. Qed.

Lemma bit_at_store_eq m base i w j : 0 ≤ w → i / 32 = j / 32 →
  bit_at (store 4 (bit_word base i) w m) base j = Z.testbit w (j mod 32).
Proof.
  intros Hw Hij. unfold bit_at. replace (bit_word base j) with (bit_word base i)
    by (unfold bit_word; lia).
  rewrite load_store_eq. change (256 ^ Z.of_nat 4) with (2 ^ 32).
  apply Z.mod_pow2_bits_low. apply Z.mod_pos_bound. lia.
Qed.

Lemma bit_at_set m base i j : 0 ≤ i → 0 ≤ j →
  bit_at (store 4 (bit_word base i)
    (Z.lor (load 4 m (bit_word base i)) (Z.shiftl 1 (i mod 32))) m) base j
  = bit_at m base j || bool_decide (j = i).
Proof.
  intros Hi Hj. pose proof (Z.mod_pos_bound i 32 ltac:(lia)) as Hm.
  destruct (decide (i / 32 = j / 32)) as [E|E].
  - rewrite bit_at_store_eq; [|apply Z.lor_nonneg; split;
      [apply load_range|apply Z.shiftl_nonneg; lia]|done].
    rewrite testbit_setbit_eq by lia. unfold bit_at.
    replace (bit_word base j) with (bit_word base i) by (unfold bit_word; lia).
    f_equal. apply bool_decide_ext. split; intros; dlia.
  - rewrite bool_decide_eq_false_2, orb_false_r by (intros ->; done).
    unfold bit_at. f_equal. apply load_store_ne. destruct (bit_word_ne base i j E); lia.
Qed.

Lemma bit_at_clear m base i j : 0 ≤ i → 0 ≤ j →
  bit_at (store 4 (bit_word base i)
    (Z.land (load 4 m (bit_word base i)) (Z.lnot (Z.shiftl 1 (i mod 32)))) m) base j
  = bit_at m base j && negb (bool_decide (j = i)).
Proof.
  intros Hi Hj. pose proof (Z.mod_pos_bound i 32 ltac:(lia)) as Hm.
  pose proof (Z.mod_pos_bound j 32 ltac:(lia)) as Hm'.
  destruct (decide (i / 32 = j / 32)) as [E|E].
  - rewrite bit_at_store_eq; [|apply Z.land_nonneg; left; apply load_range|done].
    rewrite testbit_clearbit_eq by lia. unfold bit_at.
    replace (bit_word base j) with (bit_word base i) by (unfold bit_word; lia).
    do 2 f_equal. apply bool_decide_ext. split; intros; dlia.
  - rewrite bool_decide_eq_false_2, andb_true_r by (intros ->; done).
    unfold bit_at. f_equal. apply load_store_ne. destruct (bit_word_ne base i j E); lia.
Qed.

(** The bitmap by bytes: what [memset] sees. *)
Lemma bit_at_byte m base i : 0 ≤ i →
  bit_at m base i = Z.testbit (byte_at m (base + i / 8)) (i mod 8).
Proof.
  intros Hi. unfold bit_at. pose proof (Z.mod_pos_bound i 32 ltac:(lia)).
  rewrite load_testbit by lia. f_equal; [f_equal; unfold bit_word|]; dlia.
Qed.

End bits.

(** ** Specifications of the operations *)

Section ops.
Implicit Types (s : machine) (n : nat).

(** [s'] is [s] with the flags of the blocks of [upd] changed by [f], in the bitmap only. *)
Definition bitmap_step s s' (f : Z → bool → bool) : Prop :=
  s' = set_mem (mem s') s ∧
  (∀ j, 0 ≤ j → used s' j = f j (used s j)).

Lemma set_bit_wp i n s Q : 0 ≤ i →
  (∀ s', bitmap_step s s' (λ j b, b || bool_decide (j = i)) →
     agree_out (mem s) (mem s') (bit_word (bitmap (pmm s)) i) 4 → Q tt s') →
  wp (SET_BIT i) n s Q.
Proof.
  intros Hi HQ. unfold SET_BIT. wp_steps. apply HQ.
  - split; [done|]. intros j Hj. unfold used. cbn. by apply bit_at_set.
  - intros x Hx. cbn. apply byte_store_out. lia.
Qed.

Lemma clear_bit_wp i n s Q : 0 ≤ i →
  (∀ s', bitmap_step s s' (λ j b, b && negb (bool_decide (j = i))) →
     agree_out (mem s) (mem s') (bit_word (bitmap (pmm s)) i) 4 → Q tt s') →
  wp (CLEAR_BIT i) n s Q.
Proof.
  intros Hi HQ. unfold CLEAR_BIT. wp_steps. apply HQ.
  - split; [done|]. intros j Hj. unfold used. cbn. by apply bit_at_clear.
  - intros x Hx. cbn. apply byte_store_out. lia.
Qed.

Lemma test_bit_wp i n s Q : 0 ≤ i →
  (∀ t, (t = 0 ↔ used s i = false) → Q t s) → wp (TEST_BIT i) n s Q.
Proof.
  intros Hi HQ. unfold TEST_BIT. wp_steps. apply HQ.
  apply land_bit_zero. apply Z.mod_pos_bound. lia.
Qed.

(** First-fit allocation: the lowest free block is taken and nothing else changes; with no
    free block the result is 0 and only the message is printed. *)
Lemma pmm_alloc_block_wp n s Q :
  0 ≤ total_blocks (pmm s) < 2 ^ 52 →
  (∀ i s', 0 ≤ i < total_blocks (pmm s) → used s i = false →
     (∀ j, 0 ≤ j < i → used s j = true) →
     bitmap_step s s' (λ j b, b || bool_decide (j = i)) →
     agree_out (mem s) (mem s') (bit_word (bitmap (pmm s)) i) 4 →
     Q (i * 4096) s') →
  (∀ s', (∀ j, 0 ≤ j < total_blocks (pmm s) → used s j = true) →
     console_only s s' → Q 0 s') →
  wp pmm_alloc_block n s Q.
Proof.
  intros Ht Hok Hfail. unfold pmm_alloc_block. apply wp_bind, wp_gets, wp_bind.
  eapply (wp_for (λ i s', s' = s ∧ ∀ j, 0 ≤ j < i → used s j = true)).
  - split; [done|lia].
  - intros i s' Hi [-> Hused]. apply wp_bind. apply test_bit_wp; [lia|]. intros t Ht'.
    case_decide as Hz.
    + apply wp_bind. apply set_bit_wp; [lia|]. intros s' Hstep Hag. apply wp_ret. cbv beta iota.
      apply wp_ret. unfold BLOCK_SIZE. rewrite u64_small by (cbn in *; lia).
      eapply Hok; eauto. { cbn in *; lia. } by apply Ht'.
    + apply wp_ret. split; [done|]. intros j Hj. destruct (decide (j = i)) as [->|].
      * destruct (used s i) eqn:E; [done|]. by destruct Hz; apply Ht'.
      * apply Hused. lia.
  - intros s' [-> Hall]. cbn in Hall. wp_print. apply wp_ret. apply Hfail.
    + intros j Hj. apply Hall. lia.
    + by repeat (etrans; [eassumption|]).
Qed.

End ops.

(** ** Initialisation *)

Section init.
Implicit Types (s : machine) (n : nat) (m : gmap Z Z).

(** Memory below the bitmap, where the E820 table lies, is the same. *)
Definition low_agree m m' : Prop := ∀ x, x < 0x200000 → byte_at m' x = byte_at m x.

Lemma low_agree_load k m m' a :
  low_agree m m' → a + Z.of_nat k ≤ 0x200000 → load k m' a = load k m a.
Proof. intros H Ha. apply load_ext. intros x Hx. apply H. lia. Qed.

Lemma low_agree_bit m m' m'' i : 0 ≤ i →
  low_agree m m' → agree_out m' m'' (bit_word 0x200000 i) 4 → low_agree m m''.
Proof.
  intros Hi H1 H2 x Hx. rewrite H2; [by apply H1|]. unfold bit_word.
  pose proof (Z.div_pos i 32). lia.
Qed.

Lemma entry_count_range m : 0 ≤ entry_count m < 65536.
Proof. apply (load_range 2). Qed.

Lemma e_base_range m i : 0 ≤ e_base m i < 2 ^ 64.
Proof. apply (load_range 8). Qed.
Lemma e_length_range m i : 0 ≤ e_length m i < 2 ^ 64.
Proof. apply (load_range 8). Qed.

Lemma entry_agree m m' i : low_agree m m' → 0 ≤ i < 65536 →
  e_type m' i = e_type m i ∧ e_base m' i = e_base m i ∧ e_length m' i = e_length m i.
Proof.
  intros H Hi. unfold e_type, e_base, e_length, entry_addr.
  repeat split; apply low_agree_load; (done || lia).
Qed.

(** Block [i] lies in one of the first [k] usable entries. *)
Definition usable_upto m (k i : Z) : Prop :=
  ∃ e, 0 ≤ e < k ∧ e_type m e = 1 ∧
    e_base m e / 4096 ≤ i < e_base m e / 4096 + e_length m e / 4096.

#[export] Instance usable_dec m i : Decision (usable m i).
Proof.
  destruct (decide (Exists (λ k, e_type m k = 1 ∧
    e_base m k / 4096 ≤ i < e_base m k / 4096 + e_length m k / 4096) (seqZ 0 (entry_count m))))
    as [H|H].
  - left. apply Exists_exists in H as (k & Hk & Hr). apply elem_of_seqZ in Hk.
    exists k. split; [lia|done].
  - right. intros (k & Hk & Hr). apply H, Exists_exists. exists k.
    rewrite elem_of_seqZ. split; [lia|done].
Defined.

(** The end of a range, as the loops compute it. *)
Definition range_end (m : gmap Z Z) (e : Z) : Z := u64 (e_base m e + e_length m e).

(** [b] bounds the ends of the usable ranges among the first [k]. *)
Definition ends_below (m : gmap Z Z) (k b : Z) : Prop :=
  ∀ e, 0 ≤ e < k → e_type m e = 1 → range_end m e ≤ b.

Lemma find_max_addr_wp n s Q :
  (∀ max_addr, 0 ≤ max_addr < 2 ^ 64 → ends_below (mem s) (entry_count (mem s)) max_addr →
     (∀ b, 0 ≤ b → ends_below (mem s) (entry_count (mem s)) b → max_addr ≤ b) → Q max_addr s) →
  wp (find_max_addr (entry_count (mem s))) n s Q.
Proof.
  intros HQ. unfold find_max_addr. pose proof (entry_count_range (mem s)).
  apply (wp_for_acc (λ i mx s', s' = s ∧ 0 ≤ mx < 2 ^ 64 ∧ ends_below (mem s) i mx ∧
    ∀ b, 0 ≤ b → ends_below (mem s) i b → mx ≤ b)).
  - split; [done|]. split; [lia|]. split; [intros e He; lia|done].
  - intros i mx s' Hi (-> & Hmx & Hall & Hleast). wp_steps.
    assert (∀ b, ends_below (mem s) (i + 1) b → ends_below (mem s) i b) as Hsub.
    { intros b Hb e He. apply Hb. lia. }
    case_decide as Ht; wp_steps.
    + fold (range_end (mem s) i). pose proof (u64_range (e_base (mem s) i + e_length (mem s) i)) as Hr.
      fold (range_end (mem s) i) in Hr. split; [done|]. split; [case_decide; lia|]. split.
      * intros e He Hte. destruct (decide (e = i)) as [->|]; [case_decide; lia|].
        specialize (Hall e ltac:(lia) Hte). case_decide; lia.
      * intros b Hb Hend. case_decide; [by apply Hend; [lia|]|]. by apply Hleast; [|apply Hsub].
    + split; [done|]. split; [done|]. split; [|intros b Hb Hend; by apply Hleast; [|apply Hsub]].
      intros e He Hte. destruct (decide (e = i)) as [->|]; [done|]. apply Hall; [lia|done].
  - rewrite Z2Nat.id, Z.add_0_l by lia. intros mx s' (-> & Hmx & Hall & Hleast). by apply HQ.
Qed.

(** Clearing [k] blocks from [start]. *)
Lemma clear_range_wp (k : nat) start n s Q :
  bitmap (pmm s) = 0x200000 → 0 ≤ start → start + Z.of_nat k < 2 ^ 60 →
  (∀ s', s' = set_mem (mem s') s → low_agree (mem s) (mem s') →
     (∀ j, 0 ≤ j → used s' j = true ↔ used s j = true ∧ ¬ (start ≤ j < start + Z.of_nat k)) →
     Q tt s') →
  wp (for_unit k 0 (λ j, CLEAR_BIT (u64 (start + j)))) n s Q.
Proof.
  intros Hb Hs Hk HQ.
  apply (wp_for_unit (λ i s', s' = set_mem (mem s') s ∧ low_agree (mem s) (mem s') ∧
    ∀ j, 0 ≤ j → used s' j = true ↔ used s j = true ∧ ¬ (start ≤ j < start + i))).
  - split; [by destruct s|]. split; [done|]. intros j Hj. split; [split; [done|lia]|tauto].
  - intros i s' Hi (Hm & Hlow & Hu). rewrite u64_small by lia.
    apply clear_bit_wp; [lia|]. intros s'' [Hm' Hst] Hag.
    assert (bitmap (pmm s') = 0x200000) as Hb' by (rewrite Hm; done).
    rewrite Hb' in Hag. repeat split.
    + rewrite Hm', Hm. done.
    + eapply low_agree_bit; [|done..]. lia.
    + rewrite Hst in H0 by done. rewrite andb_true_iff in H0. apply Hu; tauto.
    + rewrite Hst, andb_true_iff, negb_true_iff, bool_decide_eq_false, Hu in H0 by done. lia.
    + intros [H1 H2]. rewrite Hst, andb_true_iff, negb_true_iff, bool_decide_eq_false, Hu by done.
      split; [split; [done|lia]|lia].
  - intros s' (Hm & Hlow & Hu). by apply HQ.
Qed.

Lemma free_usable_wp n s Q :
  bitmap (pmm s) = 0x200000 →
  (∀ s', s' = set_mem (mem s') s → low_agree (mem s) (mem s') →
     (∀ j, 0 ≤ j → used s' j = true ↔ used s j = true ∧ ¬ usable (mem s) j) →
     Q tt s') →
  wp (free_usable (entry_count (mem s))) n s Q.
Proof.
  intros Hb HQ. unfold free_usable. pose proof (entry_count_range (mem s)) as Hc.
  apply (wp_for_unit (λ i s', s' = set_mem (mem s') s ∧ low_agree (mem s) (mem s') ∧
    ∀ j, 0 ≤ j → used s' j = true ↔ used s j = true ∧ ¬ usable_upto (mem s) i j)).
  - split; [by destruct s|]. split; [done|]. intros j Hj.
    split; [intros; split; [done|intros (e & He & _); lia]|tauto].
  - intros i s' Hi (Hm & Hlow & Hu).
    destruct (entry_agree _ _ i Hlow ltac:(lia)) as (Et & Eb & El).
    assert (∀ j, usable_upto (mem s) (i + 1) j ↔ usable_upto (mem s) i j ∨
      (e_type (mem s) i = 1 ∧ e_base (mem s) i / 4096 ≤ j <
         e_base (mem s) i / 4096 + e_length (mem s) i / 4096)) as Hup.
    { intros j. split.
      - intros (e & He & Hr). destruct (decide (e = i)) as [->|]; [by right|].
        left. exists e. split; [lia|done].
      - intros [(e & He & Hr)|Hr]; [exists e|exists i]; (split; [lia|done]). }
    wp_steps. rewrite Et. case_decide as Ht; wp_steps.
    + rewrite Eb, El. pose proof (e_base_range (mem s) i). pose proof (e_length_range (mem s) i).
      unfold BLOCK_SIZE. apply clear_range_wp; [by rewrite Hm|dlia|dlia|].
      intros s'' Hm' Hlow' Hu'. split; [rewrite Hm', Hm; done|]. split.
      { intros x Hx. rewrite Hlow' by done. by apply Hlow. }
      intros j Hj. rewrite Hu', Hu, Hup by done.
      rewrite Z2Nat.id by dlia. tauto.
    + split; [done|]. split; [done|]. intros j Hj. rewrite Hu, Hup by done. tauto.
  - intros s' (Hm & Hlow & Hu). rewrite Z.add_0_l, Z2Nat.id in Hu by lia. by apply HQ.
Qed.

Lemma reserve_low_wp n s Q :
  bitmap (pmm s) = 0x200000 →
  (∀ s', s' = set_mem (mem s') s → low_agree (mem s) (mem s') →
     (∀ j, 0 ≤ j → used s' j = true ↔ j < 8192 ∨ used s j = true) →
     Q tt s') →
  wp reserve_low n s Q.
Proof.
  intros Hb HQ. unfold reserve_low, BLOCK_SIZE. change (0x2000000 / 4096) with 8192.
  apply (wp_for_unit (λ i s', s' = set_mem (mem s') s ∧ low_agree (mem s) (mem s') ∧
    ∀ j, 0 ≤ j → used s' j = true ↔ j < i ∨ used s j = true)).
  - split; [by destruct s|]. split; [done|]. intros j Hj. split; [tauto|intros [?|?]; [lia|done]].
  - intros i s' Hi (Hm & Hlow & Hu). apply set_bit_wp; [lia|]. intros s'' [Hm' Hst] Hag.
    assert (bitmap (pmm s') = 0x200000) as Hb' by (rewrite Hm; done).
    rewrite Hb' in Hag. split; [rewrite Hm', Hm; done|]. split.
    { eapply low_agree_bit; [|done..]. lia. }
    intros j Hj. rewrite Hst, orb_true_iff, bool_decide_eq_true, Hu by done.
    assert (j < i + 1 ↔ j < i ∨ j = i) as -> by lia. tauto.
  - intros s' (Hm & Hlow & Hu). rewrite Z.add_0_l, Z2Nat.id in Hu by lia. by apply HQ.
Qed.

End init.

(** ** The interface the other components use *)

(** The bytes the bitmap's words occupy. *)
Definition bitmap_span (s : machine) : Z := 4 * ((total_blocks (pmm s) + 31) / 32).

(** The bitmap ends below the 32 MiB boundary, so that no frame handed out overlaps it:
    true of any machine with less than about 960 GiB of memory. *)
Definition pmm_fits (s : machine) : Prop := 0x200000 + bitmap_span s ≤ 0x2000000.

(** Outcome of a successful allocation of block [i]. *)
Record allocated (s s' : machine) (i : Z) : Prop := {
  al_range : 8192 ≤ i < total_blocks (pmm s);
  al_free : used s i = false;
  al_first : ∀ j, 0 ≤ j < i → used s j = true;
  al_used : ∀ j, 0 ≤ j → used s' j = used s j || bool_decide (j = i);
  al_frame : s' = set_mem (mem s') s;
  al_mem : agree_out (mem s) (mem s') 0x200000 (bitmap_span s);
}.

Section interface.
Implicit Types (s : machine) (n : nat).

Lemma allocated_wf s s' i : pmm_wf s → allocated s s' i → pmm_wf s'.
Proof.
  intros [Ht Hb Hr] [Hi _ _ Hu Hf _]. split.
  - by rewrite Hf.
  - by rewrite Hf.
  - intros j Hj. rewrite Hu, Hr by lia. done.
Qed.

Lemma used_console_only s s' i : console_only s s' → used s' i = used s i.
Proof. by intros ->. Qed.

Lemma pmm_wf_console_only s s' : console_only s s' → pmm_wf s → pmm_wf s'.
Proof. intros -> [H1 H2 H3]. by split. Qed.

Lemma pmm_fits_total s : pmm_fits s → total_blocks (pmm s) < 2 ^ 28.
Proof. unfold pmm_fits, bitmap_span. intros. dlia. Qed.

Lemma allocated_fits s s' i : pmm_fits s → allocated s s' i → pmm_fits s'.
Proof. unfold pmm_fits, bitmap_span. intros H Hal. by rewrite (al_frame _ _ _ Hal). Qed.

(** A block just allocated is disjoint from the bitmap and the rest of low memory. *)
Lemma allocated_high s s' i x : pmm_fits s → allocated s s' i →
  0x2000000 ≤ x → byte_at (mem s') x = byte_at (mem s) x.
Proof. intros Hf Hal Hx. apply (al_mem _ _ _ Hal). unfold pmm_fits in Hf. lia. Qed.

(** A step that leaves the allocator's variables and all memory below 32 MiB alone. *)
Definition low_same s s' : Prop :=
  pmm s' = pmm s ∧ ∀ x, x < 0x2000000 → byte_at (mem s') x = byte_at (mem s) x.

Lemma low_same_used s s' i : pmm_wf s → pmm_fits s → low_same s s' →
  0 ≤ i → i < 8192 ∨ i < total_blocks (pmm s) → used s' i = used s i.
Proof.
  intros Hwf Hf [Hp Hl] Hi Hi2. unfold used. rewrite Hp, (wf_bitmap s Hwf).
  apply bit_at_agree. intros x Hx. apply Hl.
  unfold pmm_fits, bitmap_span, bit_word in *. dlia.
Qed.

Lemma low_same_wf s s' : pmm_wf s → pmm_fits s → low_same s s' → pmm_wf s' ∧ pmm_fits s'.
Proof.
  intros Hwf Hf Hs. pose proof Hs as [Hp _]. split.
  - split; [rewrite Hp; apply Hwf..|]. intros i Hi.
    rewrite (low_same_used s s') by (done || lia). by apply Hwf.
  - unfold pmm_fits, bitmap_span in *. by rewrite Hp.
Qed.

#[export] Instance low_same_preorder : PreOrder low_same.
Proof.
  split; [by intros s|]. intros s1 s2 s3 [H1 H2] [H3 H4]. split; [congruence|].
  intros x Hx. by rewrite H4, H2.
Qed.

Lemma alloc_frame_wp n s Q : pmm_wf s →
  (∀ i s', allocated s s' i → Q (i * 4096) s') →
  (∀ s', (∀ j, 0 ≤ j < total_blocks (pmm s) → used s j = true) → console_only s s' → Q 0 s') →
  wp pmm_alloc_block n s Q.
Proof.
  intros Hwf Hok Hfail. pose proof (wf_total s Hwf) as Ht.
  apply pmm_alloc_block_wp; [done| |done]. intros i s' Hi Hfree Hfirst [Hf Hu] Hag.
  apply Hok. rewrite (wf_bitmap s Hwf) in Hag. split; try done.
  - split; [|lia]. destruct (decide (8192 ≤ i)); [done|].
    rewrite (wf_reserved s Hwf) in Hfree by lia. done.
  - intros x Hx. apply Hag. unfold bit_word, bitmap_span in *. dlia.
Qed.

End interface.

(** A machine with 34 MiB of memory and nothing allocated: a state for the witnesses. *)
Definition pmm_demo : machine :=
  set_pmm (mkPmm 0x200000 8704 1088) (set_mem (fill 1024 0x200000 0xff ∅) boot_machine).

Lemma pmm_demo_wf : pmm_wf pmm_demo.
Proof.
  split; [cbn; lia|done|]. intros i Hi. unfold used. rewrite bit_at_byte by lia.
  unfold pmm_demo. cbn [mem set_pmm set_mem pmm bitmap]. rewrite byte_fill_in by dlia.
  change (u8 0xff) with (Z.ones 8). apply Z.ones_spec_low. dlia.
Qed.

Lemma pmm_demo_free : used pmm_demo 8192 = false.
Proof. by vm_compute. Qed.

(** ** [init_pmm] *)

(** The usable blocks depend on low memory only. *)
Lemma usable_agree m m' j : low_agree m m' → usable m' j ↔ usable m j.
Proof.
  intros Hlow. unfold usable. pose proof (entry_count_range m).
  assert (entry_count m' = entry_count m) as -> by (apply low_agree_load; [done|lia]).
  apply exist_proper. intros e. split; intros (He & Hr); (split; [done|]);
    destruct (entry_agree _ _ e Hlow ltac:(lia)) as (E1 & E2 & E3);
    rewrite E1, E2, E3 in *; done.
Qed.

(** The bits of a bitmap whose first [size] bytes were set to 0xff. *)
Lemma bit_at_fill m base size j : 0 ≤ j → 
  bit_at (fill (Z.to_nat size) base 0xff m) base j = true ↔ j < 8 * size ∨ bit_at m base j = true.
Proof.
  intros Hj. rewrite !bit_at_byte by done. destruct (decide (j < 8 * size)).
  - rewrite byte_fill_in by dlia. change (u8 255) with (Z.ones 8).
    rewrite Z.ones_spec_low by dlia. tauto.
  - rewrite byte_fill_out by dlia. split; [by right|intros [?|?]; [lia|done]].
Qed.

Lemma init_pmm_wp n s :
  wp init_pmm n s (λ _ s',
    pmm_wf s' ∧ bitmap_size (pmm s') = total_blocks (pmm s') / 8 ∧
    (∀ i, 0 ≤ i → used s' i = true ↔
       i < 8192 ∨
       ((i < 8 * bitmap_size (pmm s') ∨ bit_at (mem s) 0x200000 i = true) ∧ ¬ usable (mem s) i)) ∧
    ((∀ e, 0 ≤ e < entry_count (mem s) → e_type (mem s) e = 1 →
        e_base (mem s) e + e_length (mem s) e < 2 ^ 64) →
     ∀ i, usable (mem s) i → i < total_blocks (pmm s')) ∧
    (∀ b, 0 ≤ b → ends_below (mem s) (entry_count (mem s)) b → total_blocks (pmm s') ≤ b / 4096) ∧
    low_agree (mem s) (mem s')).
Proof.
  unfold init_pmm. apply wp_bind, wp_gets, wp_bind. apply find_max_addr_wp.
  intros mx Hmx Hmax Hleast. unfold BLOCK_SIZE.
  set (total := mx / 4096). set (size := total / 8). set (v := mkPmm 0x200000 total size).
  apply wp_bind, wp_modify, wp_bind, wp_modify.
  set (s1 := set_mem _ _).
  assert (low_agree (mem s) (mem s1)) as Hlow1.
  { intros x Hx. unfold s1. cbn. apply byte_fill_out. lia. }
  assert (entry_count (mem s1) = entry_count (mem s)) as Ec
    by (apply low_agree_load; [done|lia]).
  assert (∀ j, usable (mem s1) j ↔ usable (mem s) j) as Hus.
  { intros j. by apply usable_agree. }
  assert (∀ j, 0 ≤ j → used s1 j = true ↔
    j < 8 * size ∨ bit_at (mem s) 0x200000 j = true) as Hu1.
  { intros j Hj. by apply bit_at_fill. }
  apply wp_bind. change ((entry_count ∘ mem) s) with (entry_count (mem s)).
  replace (free_usable (entry_count (mem s))) with (free_usable (entry_count (mem s1)))
    by (by rewrite Ec).
  apply free_usable_wp; [done|].
  intros s2 Hm2 Hlow2 Hu2. apply wp_bind. apply reserve_low_wp; [by rewrite Hm2|].
  intros s3 Hm3 Hlow3 Hu3. wp_print. rename s' into s4, s'0 into s5, s'1 into s6.
  assert (console_only s3 s6) as Hc6 by (by repeat (etrans; [eassumption|])).
  assert (pmm s6 = v) as Hp by (rewrite Hc6, Hm3, Hm2; done).
  assert (low_agree (mem s) (mem s3)) as Hlow.
  { intros x Hx. rewrite Hlow3, Hlow2, Hlow1; done. }
  assert (∀ i, 0 ≤ i → used s6 i = true ↔ i < 8192 ∨
    ((i < 8 * size ∨ bit_at (mem s) 0x200000 i = true) ∧ ¬ usable (mem s) i)) as Hfin.
  { intros i Hi. rewrite (used_console_only s3 s6), Hu3, Hu2, Hu1, Hus by done. done. }
  repeat apply conj.
  - split; rewrite ?Hp; [unfold v, total; cbn; dlia|done|].
    intros i Hi. apply Hfin; lia.
  - by rewrite Hp.
  - by rewrite Hp.
  - rewrite Hp. cbn. intros Hno i (e & He & Hty & Hr).
    specialize (Hmax e He Hty). specialize (Hno e He Hty).
    pose proof (e_base_range (mem s) e). pose proof (e_length_range (mem s) e).
    unfold range_end in Hmax. rewrite u64_small in Hmax by lia. unfold total. dlia.
  - rewrite Hp. intros b Hb Hend. specialize (Hleast b Hb Hend). cbn. unfold total. dlia.
  - rewrite Hc6. done.
Qed.

(** ** Properties *)

(** C21. [init_pmm] builds exactly this bitmap, from any memory and any E820 table: a block is
    used when it is below 32 MiB, or when no usable range of the table contains it and the
    bitmap bytes that [memset] filled, or the byte left over from before, say so.  The
    allocator is well formed, and as long as no usable range wraps around the address space
    every usable block is within the blocks the allocator scans; it scans no block above the
    end of the highest usable range. *)
Theorem init_pmm_spec n s :
  wp init_pmm n s (λ _ s',
    pmm_wf s' ∧ bitmap_size (pmm s') = total_blocks (pmm s') / 8 ∧
    (∀ i, 0 ≤ i → used s' i = true ↔
       i < 8192 ∨
       ((i < 8 * bitmap_size (pmm s') ∨ bit_at (mem s) 0x200000 i = true) ∧ ¬ usable (mem s) i)) ∧
    ((∀ e, 0 ≤ e < entry_count (mem s) → e_type (mem s) e = 1 →
        e_base (mem s) e + e_length (mem s) e < 2 ^ 64) →
     ∀ i, usable (mem s) i → i < total_blocks (pmm s')) ∧
    (∀ b, 0 ≤ b → ends_below (mem s) (entry_count (mem s)) b → total_blocks (pmm s') ≤ b / 4096) ∧
    low_agree (mem s) (mem s')).
Proof. apply init_pmm_wp. Qed.

(** C8. [pmm_alloc_block] is first fit: it returns the address of the lowest free block, above
    the reserved 32 MiB, marks that block and no other, and touches only the bitmap; when
    every block is used it returns 0 and only prints.  The allocator stays well formed. *)
Theorem pmm_alloc_first_fit n s :
  pmm_wf s →
  wp pmm_alloc_block n s (λ r s', pmm_wf s' ∧
    ((∃ i, allocated s s' i ∧ r = i * 4096 ∧ 0x2000000 ≤ r) ∨
     (r = 0 ∧ (∀ j, 0 ≤ j < total_blocks (pmm s) → used s j = true) ∧ console_only s s'))).
Proof.
  intros Hwf. apply alloc_frame_wp; [done| |].
  - intros i s' Hal. split; [by eapply allocated_wf|]. left. exists i.
    pose proof (al_range _ _ _ Hal). split; [done|]. lia.
  - intros s' Hall Hc. split; [by eapply pmm_wf_console_only|]. by right.
Qed.

Lemma pmm_alloc_first_fit_witness :
  wp pmm_alloc_block 0 pmm_demo (λ r s', pmm_wf s' ∧
    ((∃ i, allocated pmm_demo s' i ∧ r = i * 4096 ∧ 0x2000000 ≤ r) ∨
     (r = 0 ∧ (∀ j, 0 ≤ j < total_blocks (pmm pmm_demo) → used pmm_demo j = true) ∧
      console_only pmm_demo s'))).
Proof. exact (pmm_alloc_first_fit 0 pmm_demo pmm_demo_wf). Defined.

(** Freeing a block that was allocated last brings the bitmap back: after
    [pmm_free_block] of the address just returned, every block has the flag it had before
    the allocation, and the next allocation returns the same address. *)
Theorem pmm_alloc_free_roundtrip n s :
  pmm_wf s → (∃ i, 0 ≤ i < total_blocks (pmm s) ∧ used s i = false) →
  wp (p ← pmm_alloc_block; pmm_free_block p;; q ← pmm_alloc_block; mret (p, q)) n s
    (λ '(p, q) s', p = q ∧ ∃ i, p = i * 4096 ∧ used s i = false ∧
       ∀ j, 0 ≤ j → used s' j = used s j || bool_decide (j = i)).
Proof.
  intros Hwf (i0 & Hi0 & Hf0). apply wp_bind. apply alloc_frame_wp; [done| |].
  2:{ intros s' Hall. rewrite Hall in Hf0 by done. done. }
  intros i s1 Hal. pose proof (allocated_wf _ _ _ Hwf Hal) as Hwf1.
  destruct Hal as [Hi Hfree Hfirst Hu1 Hfr1 _]. apply wp_bind. unfold pmm_free_block, BLOCK_SIZE.
  rewrite Z.div_mul by done. apply clear_bit_wp; [lia|]. intros s2 [Hfr2 Hu2] _.
  assert (∀ j, 0 ≤ j → used s2 j = used s j) as E.
  { intros j Hj. rewrite Hu2, Hu1 by done. case_bool_decide as Hj'; [subst j; rewrite Hfree; done|].
    by rewrite orb_false_r, andb_true_r. }
  assert (pmm s2 = pmm s) as Ep by (rewrite Hfr2, Hfr1; done).
  assert (pmm_wf s2) as Hwf2.
  { destruct Hwf as [H1 H2 H3]. split; rewrite ?Ep; [done|done|]. intros j Hj.
    rewrite E by lia. by apply H3. }
  apply wp_bind. apply alloc_frame_wp; [done| |].
  2:{ intros s' Hall. rewrite Ep in Hall. rewrite <- E, Hall in Hf0 by lia. done. }
  intros i' s3 [Hi' Hfree' Hfirst' Hu3 _ _]. rewrite Ep in Hi'. apply wp_ret.
  assert (i' = i) as ->.
  { destruct (decide (i' < i)); [rewrite E, Hfirst in Hfree' by lia; done|].
    destruct (decide (i < i')); [|lia]. rewrite <- E, Hfirst' in Hfree by lia. done. }
  split; [done|]. exists i. split; [done|]. split; [done|]. intros j Hj. by rewrite Hu3, E.
Qed.

Lemma pmm_alloc_free_roundtrip_witness :
  wp (p ← pmm_alloc_block; pmm_free_block p;; q ← pmm_alloc_block; mret (p, q)) 0 pmm_demo
    (λ '(p, q) s', p = q ∧ ∃ i, p = i * 4096 ∧ used pmm_demo i = false ∧
       ∀ j, 0 ≤ j → used s' j = used pmm_demo j || bool_decide (j = i)).
Proof.
  apply (pmm_alloc_free_roundtrip 0 pmm_demo pmm_demo_wf).
  exists 8192. split; [cbn; lia|exact pmm_demo_free].
Defined.





(** With a base that is no multiple of the page size the block of the base is handed out
    although its first bytes are outside the range: here 2 KiB of block 8192. *)
Definition e820_unaligned : gmap Z Z :=
  store 2 0x5000 1 (store 8 0x5004 0x2000800 (store 8 0x500c 0x1000 (store 4 0x5014 1 ∅))).

Lemma unaligned_base_counted :
  usable e820_unaligned 8192 ∧
  ∀ k, 0 ≤ k < entry_count e820_unaligned → 8192 * 4096 < e_base e820_unaligned k.
Proof.
  assert (entry_count e820_unaligned = 1 ∧ e_type e820_unaligned 0 = 1 ∧ e_base e820_unaligned 0 = 0x2000800 ∧
    e_length e820_unaligned 0 = 0x1000) as (Ec & Et & Eb & El) by (by vm_compute).
  split.
  - exists 0. rewrite Ec, Et, Eb, El. split; [lia|]. split; [done|]. by vm_compute.
  - rewrite Ec. intros k Hk. assert (k = 0) as -> by lia. rewrite Eb. lia.
Qed.
