(* ===== verification/Kheap.v ===== *)
(** src/kernel/kheap.c: the kernel heap, a linked list of blocks with headers in memory.

    The code works on [block_header_t] structures in physical memory (24 bytes: next,
    size, is_free).  The specification is a list of blocks: [malloc_list] is first fit
    with splitting, [grow] the extension by one page, [coalesce] the merge of
    neighbours; the theorems show that the pointer code computes these functions. *)
From S2P Require Import Prelude Memory Hardware Machine Utils Screen Pmm.

(** ** [block_header_t] *)

Definition sizeof_header : Z := 24.
Definition get_next (a : Z) : M Z := load64 a.
Definition get_size (a : Z) : M Z := load64 (a + 8).
Definition get_is_free (a : Z) : M Z := load8 (a + 16).
Definition put_next (a v : Z) : M unit := store64 a v.
Definition put_size (a v : Z) : M unit := store64 (a + 8) v.
Definition put_is_free (a v : Z) : M unit := store8 (a + 16) v.

Definition init_kheap : M unit :=
  heap_start ← pmm_alloc_block;
  if decide (heap_start = 0) then kprint (str "KHEAP: Init failed (OOM)" ++ newline)
  else
    modify (set_heap_head heap_start);;
    put_next heap_start 0;;
    put_size heap_start (BLOCK_SIZE - sizeof_header);;
    put_is_free heap_start 1;;
    kprint (str "HEAP Initialized." ++ newline).

(** The body of the first-fit loop: the variables are [curr] and [last]; it ends with the
    pointer to return, or with [last] when the list is exhausted. *)
Definition kmalloc_step (size : Z) (st : Z * Z) : M ((Z * Z) + (Z + Z)) :=
  let '(curr, last) := st in
  if decide (curr = 0) then mret (inr (inr last))
  else
    free ← get_is_free curr;
    csize ← get_size curr;
    if decide (free ≠ 0 ∧ csize >= size) then
      (if decide (csize > u64 (size + sizeof_header + 8)) then
         let new_block := u64 (curr + sizeof_header + size) in
         put_size new_block (u64 (csize - size - sizeof_header));;
         put_is_free new_block 1;;
         nx ← get_next curr;
         put_next new_block nx;;
         put_size curr size;;
         put_next curr new_block
       else mret tt);;
      put_is_free curr 0;;
      mret (inr (inl (u64 (curr + sizeof_header))))
    else
      nx ← get_next curr;
      mret (inl (nx, curr)).

(** The new page becomes a free block behind [last]; it is merged into [last] when that
    block is free and ends where the page starts. *)
Definition link_page (last new_page : Z) : M Z :=
  put_size new_page (BLOCK_SIZE - sizeof_header);;
  put_is_free new_page 1;;
  put_next new_page 0;;
  (if decide (last ≠ 0) then put_next last new_page else modify (set_heap_head new_page));;
  lsize ← get_size last;
  let last_end := u64 (last + sizeof_header + lsize) in
  lfree ← get_is_free last;
  (if decide (last ≠ 0 ∧ lfree ≠ 0 ∧ last_end = new_page) then
     nsize ← get_size new_page;
     put_size last (u64 (lsize + (sizeof_header + nsize)));;
     nx ← get_next new_page;
     put_next last nx
   else if decide (last ≠ 0) then put_next last new_page
   else mret tt);;
  mret 0.

(** After a failed search: one more page from the frame allocator, linked behind [last]. *)
Definition kmalloc_expand (last : Z) : M Z :=
  new_page ← pmm_alloc_block;
  if decide (new_page = 0) then
    kprint (str "KHEAP: PMM OOM! Cannot expand heap." ++ newline);;
    mret 0
  else link_page last new_page.

Definition kmalloc (size : Z) : M Z :=
  if decide (size = 0) then mret 0
  else
    head ← gets heap_head;
    r ← while_loop (kmalloc_step size) (head, head);
    match r with
    | inl p => mret p
    | inr last => kmalloc_expand last
    end.

(** The body of the merge loop of [kfree]. *)
Definition kfree_step (curr : Z) : M (Z + unit) :=
  if decide (curr = 0) then mret (inr tt)
  else
    nx ← get_next curr;
    if decide (nx = 0) then mret (inr tt)
    else
      free ← get_is_free curr;
      nfree ← get_is_free nx;
      if decide (free ≠ 0 ∧ nfree ≠ 0) then
        csize ← get_size curr;
        nsize ← get_size nx;
        put_size curr (u64 (csize + (sizeof_header + nsize)));;
        nnx ← get_next nx;
        put_next curr nnx;;
        mret (inl curr)
      else mret (inl nx).

Definition kfree (ptr : Z) : M unit :=
  if decide (ptr = 0) then mret tt
  else
    let header := u64 (ptr - sizeof_header) in
    put_is_free header 1;;
    head ← gets heap_head;
    while_loop kfree_step head.

(** ** The heap as a list of blocks *)

Record blk := mkBlk { b_addr : Z; b_size : Z; b_free : bool }.

#[export] Instance blk_eq_dec : EqDecision blk.
Proof. solve_decision. Defined.

(** The address behind a block. *)
Definition b_end (b : blk) : Z := b_addr b + 24 + b_size b.

(** The header of [b] in memory, with its link. *)
Definition node (m : gmap Z Z) (b : blk) (nx : Z) : Prop :=
  load 8 m (b_addr b) = nx ∧ load 8 m (b_addr b + 8) = b_size b ∧
  load 1 m (b_addr b + 16) = Z.b2z (b_free b).

(** The list segment of the blocks [bs] from pointer [a] to pointer [c]. *)
Fixpoint seg (m : gmap Z Z) (a : Z) (bs : list blk) (c : Z) : Prop :=
  match bs with
  | [] => a = c
  | b :: r => a = b_addr b ∧ ∃ nx, node m b nx ∧ seg m nx r c
  end.

(** Blocks in address order from [lo] to [hi], without overlap. *)
Fixpoint lay (lo : Z) (bs : list blk) (hi : Z) : Prop :=
  match bs with
  | [] => lo ≤ hi
  | b :: r => lo ≤ b_addr b ∧ 0 ≤ b_size b ∧ lay (b_end b) r hi
  end.

(** First fit with splitting: the returned address and the new list. *)
Fixpoint malloc_list (size : Z) (bs : list blk) : option (Z * list blk) :=
  match bs with
  | [] => None
  | b :: r =>
      if decide (b_free b = true ∧ size ≤ b_size b) then
        Some (b_addr b + 24,
              if decide (size + 32 < b_size b)
              then mkBlk (b_addr b) size false
                   :: mkBlk (b_addr b + 24 + size) (b_size b - size - 24) true :: r
              else mkBlk (b_addr b) (b_size b) false :: r)
      else
        '(p, r') ← malloc_list size r; Some (p, b :: r')
  end.

(** The list after a page at [page] was added. *)
Fixpoint grow (page : Z) (bs : list blk) : list blk :=
  match bs with
  | [] => [mkBlk page 4072 true]
  | [b] => if decide (b_free b = true ∧ b_end b = page)
           then [mkBlk (b_addr b) (b_size b + 4096) true]
           else [b; mkBlk page 4072 true]
  | b :: r => b :: grow page r
  end.

(** Free the block whose data starts at [p]. *)
Definition mark_free (p : Z) (bs : list blk) : list blk :=
  (λ b, if decide (b_addr b + 24 = p) then mkBlk (b_addr b) (b_size b) true else b) <$> bs.

(** Merge every run of free list neighbours into its first block. *)
Fixpoint coalesce_from (b : blk) (r : list blk) : list blk :=
  match r with
  | [] => [b]
  | c :: r' =>
      if decide (b_free b = true ∧ b_free c = true)
      then coalesce_from (mkBlk (b_addr b) (b_size b + (24 + b_size c)) true) r'
      else b :: coalesce_from c r'
  end.

Definition coalesce (bs : list blk) : list blk :=
  match bs with [] => [] | b :: r => coalesce_from b r end.

(** The heap of [s] is [bs]: the list in memory, in address order above 32 MiB, and every
    frame below its end is used, so that a new page lies above all blocks. *)
Record heap_inv (s : machine) (bs : list blk) (hi : Z) : Prop := {
  hi_seg : seg (mem s) (heap_head s) bs 0;
  hi_lay : lay 0x2000000 bs hi;
  hi_top : hi ≤ total_blocks (pmm s) * 4096;
  hi_below : ∀ i, 0 ≤ i → i * 4096 < hi → used s i = true;
  hi_pmm : pmm_wf s;
  hi_fits : pmm_fits s;
}.

(** ** Lemmas on the list representation *)

Section lists.
Implicit Types (m : gmap Z Z) (bs : list blk).

Lemma lay_le lo bs hi : lay lo bs hi → lo ≤ hi.
Proof.
  induction bs as [|b bs IH] in lo |- *; simpl; [done|].
  intros (H1 & H2 & H3). apply IH in H3. unfold b_end in H3. lia.
Qed.

Lemma lay_app lo bs1 bs2 hi : lay lo (bs1 ++ bs2) hi ↔ ∃ mid, lay lo bs1 mid ∧ lay mid bs2 hi.
Proof.
  induction bs1 as [|b bs IH] in lo |- *; simpl.
  - split; [intros H; exists lo; split; [lia|done]|].
    intros (mid & H1 & H2). destruct bs2 as [|c bs2]; simpl in *; [lia|].
    destruct H2 as (? & ? & ?). repeat split; [lia|done|done].
  - rewrite IH. naive_solver.
Qed.

Lemma lay_weaken lo lo' bs hi hi' : lo' ≤ lo → hi ≤ hi' → lay lo bs hi → lay lo' bs hi'.
Proof.
  intros Hlo Hhi. induction bs as [|b bs IH] in lo, lo', Hlo |- *; simpl; [lia|].
  intros (H1 & H2 & H3). split; [lia|]. split; [done|]. by eapply IH; [|done].
Qed.

Lemma lay_elem lo bs hi b : lay lo bs hi → b ∈ bs → lo ≤ b_addr b ∧ 0 ≤ b_size b ∧ b_end b ≤ hi.
Proof.
  intros H Hin. apply list_elem_of_split in Hin as (l1 & l2 & ->).
  apply lay_app in H as (mid & H1 & H2 & H3 & H4). apply lay_le in H1, H4. lia.
Qed.

Lemma node_frame m m' b nx : agree m m' (b_addr b) 24 → node m b nx → node m' b nx.
Proof.
  intros Ha (H1 & H2 & H3). unfold node.
  rewrite <- !(load_ext _ m m'); [done|..]; intros x Hx; apply Ha; lia.
Qed.

Lemma seg_frame m m' a bs c lo hi :
  lay lo bs hi → agree m m' lo (hi - lo) → seg m a bs c → seg m' a bs c.
Proof.
  induction bs as [|b bs IH] in a, lo |- *; simpl; [done|].
  intros (H1 & H2 & H3) Ha (-> & nx & Hn & Hs). pose proof (lay_le _ _ _ H3).
  unfold b_end in *. split; [done|]. exists nx. split.
  - eapply node_frame; [|done]. intros x Hx. apply Ha. lia.
  - eapply IH; [done| |done]. intros x Hx. apply Ha. lia.
Qed.

Lemma seg_app m a bs1 bs2 c :
  seg m a (bs1 ++ bs2) c ↔ ∃ d, seg m a bs1 d ∧ seg m d bs2 c.
Proof.
  induction bs1 as [|b bs IH] in a |- *; simpl; [naive_solver|].
  setoid_rewrite IH. naive_solver.
Qed.

(** The last block's address, 0 for no block. *)
Definition last_addr bs : Z := from_option b_addr 0 (last bs).

Lemma malloc_list_app size bs1 bs2 : malloc_list size bs1 = None →
  malloc_list size (bs1 ++ bs2) = '(p, r) ← malloc_list size bs2; Some (p, bs1 ++ r).
Proof.
  induction bs1 as [|b bs IH]; simpl.
  - intros _. by destruct (malloc_list size bs2) as [[p r]|].
  - case_decide; [done|]. destruct (malloc_list size bs) as [[p r]|] eqn:E; [done|].
    intros _. rewrite IH by done. by destruct (malloc_list size bs2) as [[p r]|].
Qed.

Lemma malloc_list_app_none size bs1 b : malloc_list size bs1 = None →
  ¬ (b_free b = true ∧ size ≤ b_size b) → malloc_list size (bs1 ++ [b]) = None.
Proof.
  intros H1 H2. rewrite malloc_list_app by done. simpl. by rewrite decide_False by done.
Qed.

End lists.

Ltac unfold_hdr :=
  unfold get_next, get_size, get_is_free, put_next, put_size, put_is_free in *.

(** ** [kmalloc]: the search *)

Section kmalloc.
Implicit Types (s : machine) (bs : list blk).

(** What a successful search does: it returns the data address of a free block [b], and
    changes memory only inside that block. *)
Definition took s s' (p : Z) (b : blk) : Prop :=
  b_free b = true ∧ p = b_addr b + 24 ∧ s' = set_mem (mem s') s ∧
  agree_out (mem s) (mem s') (b_addr b) (24 + b_size b).

(** The blocks that replace [b] when [size] bytes are taken from it. *)
Definition split_block (size : Z) (b : blk) : list blk :=
  if decide (size + 32 < b_size b)
  then [mkBlk (b_addr b) size false; mkBlk (b_addr b + 24 + size) (b_size b - size - 24) true]
  else [mkBlk (b_addr b) (b_size b) false].

Lemma split_block_lay size b : 0 ≤ size → 0 ≤ b_size b →
  lay (b_addr b) (split_block size b) (b_end b).
Proof.
  unfold split_block. intros Hs Hb. case_decide; simpl; unfold b_end; simpl; lia.
Qed.

(** Taking a fitting block: the header writes realise [split_block]. *)
Lemma take_block_wp size b nx n s (Q : ((Z * Z) + (Z + Z)) → machine → Prop) last :
  0 < b_addr b → 0 ≤ b_size b → b_end b ≤ 2 ^ 40 → 0 < size →
  node (mem s) b nx → b_free b = true → size ≤ b_size b →
  (∀ s', took s s' (b_addr b + 24) b → seg (mem s') (b_addr b) (split_block size b) nx →
     Q (inr (inl (b_addr b + 24))) s') →
  wp (kmalloc_step size (b_addr b, last)) n s Q.
Proof.
  intros Ha Hsz Hend Hsize (Hn & Hs & Hf) Hfree Hfit HQ.
  unfold b_end in Hend. rewrite Hfree in Hf. cbn in Hf.
  assert (0 ≤ nx < 2 ^ 64) as Hnx by (rewrite <- Hn; apply (load_range 8)).
  unfold kmalloc_step, sizeof_header. rewrite (decide_False (P := b_addr b = 0)) by lia.
  unfold_hdr. wp_steps. rewrite Hf, Hs.
  rewrite (decide_True (P := 1 ≠ 0 ∧ b_size b >= size)) by lia.
  rewrite (u64_small (size + 24 + 8)), (u64_small (b_addr b + 24)) by lia. wp_steps.
  unfold split_block in HQ. destruct (decide (size + 32 < b_size b)).
  - rewrite decide_True by lia.
    rewrite (u64_small (b_addr b + 24 + size)), (u64_small (b_size b - size - 24)) by lia.
    wp_steps. cbn [mem set_mem]. apply HQ.
    + repeat split; [done|]. intros x Hx. cbn [mem set_mem].
      rewrite !byte_store_out by lia. done.
    + cbn [mem set_mem]. simpl seg. split; [done|]. exists (b_addr b + 24 + size). split.
      { unfold node. cbn. by mem_simpl. }
      split; [done|]. exists nx. split; [|done]. unfold node. cbn.
      repeat split; mem_simpl; rewrite ?Hn; mem_simpl; done.
  - rewrite decide_False by lia. wp_steps. apply HQ.
    + repeat split; [done|]. intros x Hx. cbn [mem set_mem].
      rewrite !byte_store_out by lia. done.
    + cbn [mem set_mem]. simpl seg. split; [done|]. exists nx. split; [|done].
      unfold node. cbn. by mem_simpl.
Qed.

(** A step past a block that does not fit. *)
Lemma skip_block_wp size b nx n s (Q : ((Z * Z) + (Z + Z)) → machine → Prop) last :
  0 < b_addr b → node (mem s) b nx → ¬ (b_free b = true ∧ size ≤ b_size b) →
  Q (inl (nx, b_addr b)) s → wp (kmalloc_step size (b_addr b, last)) n s Q.
Proof.
  intros Ha (Hn & Hs & Hf) Hno HQ. unfold kmalloc_step.
  rewrite (decide_False (P := b_addr b = 0)) by lia. unfold_hdr. wp_steps.
  rewrite Hf, Hs. rewrite decide_False.
  2:{ intros [H1 H2]. destruct Hno. split; [by destruct (b_free b)|lia]. }
  wp_steps. by rewrite Hn.
Qed.

(** Replacing blocks of the heap by blocks that occupy the same space. *)
Lemma heap_inv_replace s s' bs1 old new bs2 hi mid1 mid2 a nx :
  heap_inv s (bs1 ++ old ++ bs2) hi → s' = set_mem (mem s') s →
  lay 0x2000000 bs1 mid1 → lay mid1 new mid2 → lay mid2 bs2 hi →
  agree_out (mem s) (mem s') mid1 (mid2 - mid1) →
  seg (mem s) (heap_head s) bs1 a → seg (mem s') a new nx → seg (mem s) nx bs2 0 →
  heap_inv s' (bs1 ++ new ++ bs2) hi.
Proof.
  intros [Hseg Hlay Htop Hbelow Hp Hfit] Hfr Hl1 Hln Hl2 Hag H1 Hnew H2.
  pose proof (lay_le _ _ _ Hl1) as Hlow. pose proof (lay_le _ _ _ Hln).
  assert (low_same s s') as Hsame.
  { split; [by rewrite Hfr|]. intros x Hx. apply Hag. lia. }
  destruct (low_same_wf _ _ Hp Hfit Hsame) as [Hp' Hfit'].
  split; try done.
  - apply seg_app. exists a. rewrite Hfr. cbn [heap_head set_mem mem]. split.
    + eapply seg_frame; [exact Hl1| |exact H1]. intros x Hx. symmetry. apply Hag. lia.
    + apply seg_app. exists nx. split; [done|].
      eapply seg_frame; [exact Hl2| |exact H2]. intros x Hx. symmetry. apply Hag. lia.
  - apply lay_app. exists mid1. split; [done|]. apply lay_app. eauto.
  - by rewrite Hfr.
  - intros i Hi Hlt. rewrite (low_same_used s) by (done || lia). by apply Hbelow.
Qed.

Lemma search_wp size n s bs hi (Q : (Z + Z) → machine → Prop) :
  heap_inv s bs hi → 0 < size → (length bs < n)%nat →
  (∀ p bs' b s', malloc_list size bs = Some (p, bs') → b ∈ bs → took s s' p b →
     heap_inv s' bs' hi → Q (inl p) s') →
  (malloc_list size bs = None → Q (inr (last_addr bs)) s) →
  wp (while_loop (kmalloc_step size) (heap_head s, heap_head s)) n s Q.
Proof.
  intros Hinv Hsize Hfuel Hok Hnone.
  apply (wp_while_idx (λ k '(curr, last) s', s' = s ∧ ∃ pre rest, bs = pre ++ rest ∧
    k = length rest ∧ seg (mem s) (heap_head s) pre curr ∧ seg (mem s) curr rest 0 ∧
    last = (if decide (pre = []) then heap_head s else last_addr pre) ∧
    malloc_list size pre = None) _ _ (length bs)); [|done|].
  { split; [done|]. exists [], bs. repeat split; try done. by destruct Hinv. }
  intros k [curr last] s' (-> & pre & rest & -> & -> & Hpre & Hrest & -> & Hno).
  pose proof (hi_lay _ _ _ Hinv) as Hlay. apply lay_app in Hlay as (mid & Hl1 & Hl2).
  destruct rest as [|b r]; simpl in Hrest.
  - subst curr. unfold kmalloc_step. rewrite decide_True by done. apply wp_ret.
    rewrite app_nil_r in *. case_decide as Hp; [|by apply Hnone].
    subst pre. simpl in Hpre. rewrite Hpre. by apply Hnone.
  - destruct Hrest as (-> & nx & Hnode & Hr).
    assert (0x2000000 ≤ b_addr b) as Hlow by (apply lay_le in Hl1; destruct Hl2; lia).
    destruct (decide (b_free b = true ∧ size ≤ b_size b)) as [[Hfree Hfit]|Hnf].
    + destruct Hl2 as (Hb1 & Hb2 & Hl2). pose proof (lay_le _ _ _ Hl2).
      pose proof (hi_top _ _ _ Hinv). pose proof (pmm_fits_total _ (hi_fits _ _ _ Hinv)).
      apply (take_block_wp _ _ nx); try done; try lia. intros s' Htook Hseg.
      pose proof Htook as (_ & _ & Hfr & Hag).
      apply (Hok _ (pre ++ split_block size b ++ r) b).
      * rewrite malloc_list_app by done. simpl. rewrite decide_True by done.
        unfold split_block. by case_decide.
      * set_solver.
      * done.
      * eapply (heap_inv_replace s s' pre [b] _ r hi (b_addr b) (b_end b)); try done.
        -- by eapply lay_weaken; [..|exact Hl1].
        -- apply split_block_lay; lia.
        -- intros x Hx. apply Hag. unfold b_end in Hx. lia.
    + apply (skip_block_wp _ _ nx); try done; [lia|]. exists (length r). split; [simpl; lia|].
      split; [done|]. exists (pre ++ [b]), r. rewrite <- app_assoc. repeat split; try done.
      * apply seg_app. exists (b_addr b). split; [done|]. simpl. eauto.
      * rewrite decide_False by (by destruct pre). unfold last_addr. by rewrite last_snoc.
      * by apply malloc_list_app_none.
Qed.

End kmalloc.

(** ** [kmalloc]: the extension by one page *)

Section expand.
Implicit Types (s : machine) (bs : list blk).

Lemma grow_snoc page bs b :
  grow page (bs ++ [b]) = bs ++ (if decide (b_free b = true ∧ b_end b = page)
    then [mkBlk (b_addr b) (b_size b + 4096) true] else [b; mkBlk page 4072 true]).
Proof.
  induction bs as [|c bs IH]; [done|]. cbn [app grow].
  destruct (bs ++ [b]) as [|d l] eqn:E; [by destruct bs|]. by rewrite IH.
Qed.

(** The bytes that linking a page at [page] behind [bs] may change: the new header and the
    header of the last block. *)
Definition link_frame (m m' : gmap Z Z) (page : Z) bs : Prop :=
  ∀ x, ¬ (page ≤ x < page + 24) → (∀ b, last bs = Some b → ¬ (b_addr b ≤ x < b_addr b + 24)) →
    byte_at m' x = byte_at m x.

Lemma link_first_wp page n s (Q : Z → machine → Prop) :
  0x2000000 ≤ page ≤ 2 ^ 41 →
  (∀ s', s' = set_mem (mem s') (set_heap_head page s) →
     seg (mem s') page [mkBlk page 4072 true] 0 → link_frame (mem s) (mem s') page [] → Q 0 s') →
  wp (link_page 0 page) n s Q.
Proof.
  intros Hp HQ. unfold link_page, BLOCK_SIZE, sizeof_header.
  rewrite !(decide_False (P := 0 ≠ 0)) by lia.
  unfold_hdr. wp_steps. rewrite decide_False by lia. wp_steps.
  apply HQ; [done| |].
  - simpl. split; [done|]. exists 0. split; [|done]. unfold node. cbn [b_addr b_size b_free].
    repeat split; mem_simpl; done.
  - intros x Hx _. cbn [mem set_mem set_heap_head]. rewrite !byte_store_out by lia. done.
Qed.

Lemma link_last_wp page bs b n s (Q : Z → machine → Prop) :
  0x2000000 ≤ page ≤ 2 ^ 41 → lay 0x2000000 (bs ++ [b]) page →
  seg (mem s) (heap_head s) (bs ++ [b]) 0 →
  (∀ s', s' = set_mem (mem s') s →
     seg (mem s') (heap_head s) (grow page (bs ++ [b])) 0 →
     link_frame (mem s) (mem s') page (bs ++ [b]) → Q 0 s') →
  wp (link_page (b_addr b) page) n s Q.
Proof.
  intros Hp Hlay Hseg HQ.
  apply lay_app in Hlay as (mid & Hl1 & Hb1 & Hb2 & Hl2). pose proof (lay_le _ _ _ Hl1).
  simpl in Hl2. unfold b_end in Hl2.
  apply seg_app in Hseg as (d & Hs1 & Hs2). simpl in Hs2. destruct Hs2 as (-> & nx & Hn & ->).
  pose proof Hn as (Hn1 & Hn2 & Hn3).
  assert (∀ m', (∀ x, ¬ (page ≤ x < page + 24) → ¬ (b_addr b ≤ x < b_addr b + 24) →
    byte_at m' x = byte_at (mem s) x) → seg m' (heap_head s) bs (b_addr b)) as Hpre.
  { intros m' Hm'. eapply seg_frame; [exact Hl1| |exact Hs1]. intros x Hx. symmetry.
    apply Hm'; lia. }
  unfold link_page, BLOCK_SIZE, sizeof_header.
  rewrite !(decide_True (P := b_addr b ≠ 0)) by lia.
  unfold_hdr. wp_steps. cbn [mem set_mem]. mem_simpl. rewrite Hn2, Hn3.
  rewrite (u64_small (b_addr b + 24 + b_size b)) by lia. rewrite grow_snoc in HQ. unfold b_end in HQ.
  destruct (decide (b_free b = true ∧ b_addr b + 24 + b_size b = page)) as [[Hf He]|Hne].
  - rewrite Hf. rewrite decide_True by (cbn; lia). wp_steps. cbn [mem set_mem]. mem_simpl.
    rewrite (u64_small (b_size b + _)) by lia. apply HQ; [done| |].
    + apply seg_app. exists (b_addr b). cbn [mem set_mem]. split.
      { apply Hpre. intros x H1 H2. rewrite !byte_store_out by lia. done. }
      simpl. split; [done|]. exists 0. split; [|done]. unfold node. cbn [b_addr b_size b_free].
      repeat split; mem_simpl; [done|lia|]. by rewrite Hn3, Hf.
    + intros x H1 H2. cbn [mem set_mem]. specialize (H2 b ltac:(by rewrite last_snoc)).
      rewrite !byte_store_out by lia. done.
  - rewrite decide_False.
    2:{ intros (H1 & H2 & H3). apply Hne. split; [by destruct (b_free b)|done]. }
    wp_steps. cbn [mem set_mem]. apply HQ; [done| |].
    + apply seg_app. exists (b_addr b). cbn [mem set_mem]. split.
      { apply Hpre. intros x H1 H2. rewrite !byte_store_out by lia. done. }
      simpl. split; [done|]. exists page. split.
      { unfold node. repeat split; mem_simpl; done. }
      split; [done|]. exists 0. split; [|done]. unfold node. cbn [b_addr b_size b_free].
      repeat split; mem_simpl; done.
    + intros x H1 H2. cbn [mem set_mem]. specialize (H2 b ltac:(by rewrite last_snoc)).
      rewrite !byte_store_out by lia. done.
Qed.

(** The heap invariant of the extended list, from the list part alone. *)
Lemma heap_inv_grown s s1 s' bs bs' hi i :
  heap_inv s bs hi → allocated s s1 i → low_same s1 s' →
  seg (mem s') (heap_head s') bs' 0 → lay 0x2000000 bs' (i * 4096 + 4096) →
  heap_inv s' bs' (i * 4096 + 4096).
Proof.
  intros Hinv Hal Hsame Hseg Hlay.
  pose proof (allocated_wf _ _ _ (hi_pmm _ _ _ Hinv) Hal) as Hwf1.
  pose proof (allocated_fits _ _ _ (hi_fits _ _ _ Hinv) Hal) as Hfit1.
  destruct (low_same_wf _ _ Hwf1 Hfit1 Hsame) as [Hwf Hfit].
  assert (pmm s' = pmm s) as Hp
    by (destruct Hsame as [-> _]; by rewrite (al_frame _ _ _ Hal)).
  pose proof (al_range _ _ _ Hal).
  split; try done.
  - rewrite Hp. lia.
  - intros j Hj Hlt. rewrite (low_same_used s1) by
      (done || (rewrite (al_frame _ _ _ Hal); cbn; lia)).
    rewrite (al_used _ _ _ Hal) by done.
    destruct (decide (j = i)) as [->|]; [by rewrite bool_decide_eq_true_2, orb_true_r|].
    by rewrite (al_first _ _ _ Hal) by lia.
Qed.

Lemma lay_grow page bs hi : lay 0x2000000 bs hi → hi ≤ page → 0x2000000 ≤ page →
  lay 0x2000000 (grow page bs) (page + 4096).
Proof.
  intros Hlay Hhi Hp. induction bs as [|b bs _] using rev_ind.
  - simpl. unfold b_end. simpl. lia.
  - rewrite grow_snoc. apply lay_app in Hlay as (mid & H1 & H2 & H3 & H4). simpl in H4.
    apply lay_app. exists mid. split; [done|]. unfold b_end in *.
    case_decide; simpl; unfold b_end; simpl; lia.
Qed.

Lemma expand_wp n s bs hi Q :
  heap_inv s bs hi →
  (∀ i s1 s', allocated s s1 i → hi ≤ i * 4096 →
     heap_inv s' (grow (i * 4096) bs) (i * 4096 + 4096) →
     s' = set_mem (mem s') (set_heap_head (heap_head s') s) →
     link_frame (mem s1) (mem s') (i * 4096) bs → Q 0 s') →
  (∀ s', (∀ j, 0 ≤ j < total_blocks (pmm s) → used s j = true) → console_only s s' → Q 0 s') →
  wp (kmalloc_expand (last_addr bs)) n s Q.
Proof.
  intros Hinv Hok Hoom. unfold kmalloc_expand. apply wp_bind.
  apply alloc_frame_wp; [by destruct Hinv| |].
  2:{ intros s' Hall Hc. rewrite decide_True by done. wp_print. apply wp_ret. apply Hoom; [done|].
      by etrans. }
  intros i s1 Hal. pose proof (al_range _ _ _ Hal) as Hi.
  pose proof (pmm_fits_total _ (hi_fits _ _ _ Hinv)) as Htot.
  assert (hi ≤ i * 4096) as Hhi.
  { destruct (decide (i * 4096 < hi)) as [Hlt|]; [|lia].
    pose proof (al_free _ _ _ Hal) as Hf. rewrite (hi_below _ _ _ Hinv) in Hf by lia. done. }
  rewrite decide_False by lia.
  assert (heap_head s1 = heap_head s) as Hh by (by rewrite (al_frame _ _ _ Hal)).
  assert (seg (mem s1) (heap_head s1) bs 0) as Hseg.
  { rewrite Hh. eapply seg_frame; [by apply Hinv| |by apply Hinv].
    intros x Hx. symmetry. eapply allocated_high; [apply Hinv|done|lia]. }
  pose proof (hi_lay _ _ _ Hinv) as Hlay.
  pose proof (lay_grow (i * 4096) bs hi Hlay Hhi ltac:(lia)) as Hlay'.
  assert (∀ s', link_frame (mem s1) (mem s') (i * 4096) bs → pmm s' = pmm s1 → low_same s1 s') as Hls.
  { intros s' Hlf Hp. split; [done|]. intros x Hx. apply Hlf; [lia|]. intros b Hb.
    apply last_Some_elem_of in Hb. pose proof (lay_elem _ _ _ _ Hlay Hb). lia. }
  destruct bs as [|b bs _] using rev_ind.
  - change (last_addr []) with 0. apply link_first_wp; [lia|]. intros s' Hfr Hs' Hlf.
    assert (pmm s' = pmm s1) as Hp by (by rewrite Hfr).
    apply (Hok i s1); try done.
    + eapply heap_inv_grown; try done; [by apply Hls|]. by rewrite Hfr.
    + rewrite Hfr. cbn. by rewrite (al_frame _ _ _ Hal).
  - unfold last_addr. rewrite last_snoc. cbn [from_option].
    apply (link_last_wp _ bs); [lia| |done|].
    { by eapply lay_weaken; [..|exact Hlay]. }
    intros s' Hfr Hs' Hlf. assert (pmm s' = pmm s1) as Hp by (by rewrite Hfr).
    assert (heap_head s' = heap_head s1) as Hh' by (by rewrite Hfr).
    apply (Hok i s1); try done.
    + eapply heap_inv_grown; try done; [by apply Hls|]. by rewrite Hh'.
    + rewrite Hh', Hh, Hfr. cbn. rewrite (al_frame _ _ _ Hal). by destruct s.
Qed.

End expand.

(** ** [kfree] *)

Section kfree.
Implicit Types (s : machine) (bs : list blk).

(** Memory outside the headers of the blocks is the same. *)
Definition hdr_frame bs (m m' : gmap Z Z) : Prop :=
  ∀ x, (∀ b, b ∈ bs → ¬ (b_addr b ≤ x < b_addr b + 24)) → byte_at m' x = byte_at m x.

Lemma mark_free_split lo bs1 b bs2 hi : lay lo (bs1 ++ b :: bs2) hi →
  mark_free (b_addr b + 24) (bs1 ++ b :: bs2)
  = bs1 ++ mkBlk (b_addr b) (b_size b) true :: bs2.
Proof.
  intros H. apply lay_app in H as (mid & H1 & H2 & H3 & H4).
  assert (∀ l lo hi, lay lo l hi → hi ≤ b_addr b ∨ b_addr b < lo →
    mark_free (b_addr b + 24) l = l) as Hid.
  { clear. intros l lo hi Hl Hd. unfold mark_free. rewrite <- (list_fmap_id l) at 2.
    apply list_fmap_ext. intros i c Hc. apply list_elem_of_lookup_2 in Hc.
    pose proof (lay_elem _ _ _ _ Hl Hc). unfold b_end in *.
    rewrite decide_False by lia. done. }
  unfold mark_free in *. rewrite fmap_app. cbn [fmap list_fmap].
  rewrite decide_True by done. f_equal; [by eapply Hid; [|left]|]. f_equal.
  eapply Hid; [done|]. right. unfold b_end. lia.
Qed.

Lemma kfree_mark_wp bs1 b bs2 hi n s (Q : unit → machine → Prop) :
  heap_inv s (bs1 ++ b :: bs2) hi →
  (∀ s', s' = set_mem (mem s') s →
     heap_inv s' (bs1 ++ mkBlk (b_addr b) (b_size b) true :: bs2) hi →
     agree_out (mem s) (mem s') (b_addr b) 24 → Q tt s') →
  wp (put_is_free (b_addr b) 1) n s Q.
Proof.
  intros Hinv HQ. unfold_hdr. wp_steps.
  pose proof (hi_lay _ _ _ Hinv) as Hl. apply lay_app in Hl as (mid & Hl1 & Hb1 & Hb2 & Hl2).
  pose proof (hi_seg _ _ _ Hinv) as Hs. apply seg_app in Hs as (d & Hs1 & -> & nx & Hn & Hs2).
  assert (agree_out (mem s) (store 1 (b_addr b + 16) 1 (mem s)) (b_addr b) 24) as Hag.
  { intros x Hx. apply byte_store_out. lia. }
  apply HQ; [done| |done].
  change (mkBlk (b_addr b) (b_size b) true :: bs2) with ([mkBlk (b_addr b) (b_size b) true] ++ bs2).
  eapply (heap_inv_replace s _ bs1 [b] _ bs2 hi (b_addr b) (b_end b)); try done.
  - by eapply lay_weaken; [..|exact Hl1].
  - simpl. unfold b_end. simpl. lia.
  - intros x Hx. apply Hag. unfold b_end in Hx. lia.
  - simpl. split; [done|]. exists nx. split; [|done]. destruct Hn as (Hn1 & Hn2 & Hn3).
    unfold node. cbn [b_addr b_size b_free mem set_mem]. by mem_simpl.
Qed.

(** Merging [c] into its list predecessor [b]. *)
Lemma kfree_merge_wp bs1 b c bs2 hi n s (Q : Z + unit → machine → Prop) :
  heap_inv s (bs1 ++ b :: c :: bs2) hi → b_free b = true → b_free c = true →
  (∀ s', s' = set_mem (mem s') s →
     heap_inv s' (bs1 ++ mkBlk (b_addr b) (b_size b + (24 + b_size c)) true :: bs2) hi →
     agree_out (mem s) (mem s') (b_addr b) 24 → Q (inl (b_addr b)) s') →
  wp (kfree_step (b_addr b)) n s Q.
Proof.
  intros Hinv Hfb Hfc HQ.
  pose proof (hi_lay _ _ _ Hinv) as Hl.
  apply lay_app in Hl as (mid & Hl1 & Hb1 & Hb2 & Hc1 & Hc2 & Hl2).
  pose proof (hi_seg _ _ _ Hinv) as Hs.
  apply seg_app in Hs as (d & Hs1 & -> & nx & (N1 & N2 & N3) & -> & nx' & (C1 & C2 & C3) & Hs2).
  pose proof (lay_le _ _ _ Hl1). pose proof (lay_le _ _ _ Hl2).
  pose proof (hi_top _ _ _ Hinv). pose proof (pmm_fits_total _ (hi_fits _ _ _ Hinv)).
  assert (0 ≤ nx' < 2 ^ 64) by (rewrite <- C1; apply (load_range 8)).
  unfold b_end in *. rewrite Hfb in N3. rewrite Hfc in C3. cbn in N3, C3.
  unfold kfree_step, sizeof_header. rewrite (decide_False (P := b_addr b = 0)) by lia.
  unfold_hdr. wp_steps. rewrite N1. rewrite (decide_False (P := b_addr c = 0)) by lia.
  wp_steps. rewrite N3, C3. rewrite decide_True by lia. wp_steps. rewrite N2, C2.
  rewrite u64_small by lia. cbn [mem set_mem]. mem_simpl. rewrite C1.
  match goal with |- Q _ (set_mem ?m _) => set (m' := m) end.
  assert (agree_out (mem s) m' (b_addr b) 24) as Hag.
  { intros x Hx. unfold m'. rewrite !byte_store_out by lia. done. }
  apply HQ; [done| |done].
  change (?x :: bs2) with ([x] ++ bs2).
  eapply (heap_inv_replace s _ bs1 [b; c] _ bs2 hi (b_addr b) (b_end c)); unfold b_end; try done.
  - by eapply lay_weaken; [..|exact Hl1].
  - simpl. unfold b_end. simpl. lia.
  - intros x Hx. apply Hag. lia.
  - simpl. split; [done|]. exists nx'. split; [|done]. unfold node, m'.
    cbn [b_addr b_size b_free]. mem_simpl. by rewrite N3.
Qed.

Lemma kfree_loop_wp bs hi n s (Q : unit → machine → Prop) :
  heap_inv s bs hi → (length bs < n)%nat →
  (∀ s', s' = set_mem (mem s') s → heap_inv s' (coalesce bs) hi →
     hdr_frame bs (mem s) (mem s') → Q tt s') →
  wp (while_loop kfree_step (heap_head s)) n s Q.
Proof.
  intros Hinv Hfuel HQ. destruct bs as [|b0 r0].
  { pose proof (hi_seg _ _ _ Hinv) as Hs. simpl in Hs.
    apply (wp_while_idx (λ _ curr s', curr = 0 ∧ s' = s) _ _ 0%nat); [done|lia|].
    intros k curr s' [-> ->]. unfold kfree_step. rewrite decide_True by done. apply wp_ret.
    apply HQ; [by destruct s|done|done]. }
  apply (wp_while_idx (λ k curr s', s' = set_mem (mem s') s ∧
    hdr_frame (b0 :: r0) (mem s) (mem s') ∧
    ∃ pre b r, curr = b_addr b ∧ k = length r ∧ heap_inv s' (pre ++ b :: r) hi ∧
      coalesce (b0 :: r0) = pre ++ coalesce_from b r ∧
      ∃ b', b' ∈ b0 :: r0 ∧ b_addr b' = b_addr b ∧ ∀ c, c ∈ r → c ∈ b0 :: r0) _ _ (length r0)).
  { split; [by destruct s|]. split; [done|]. exists [], b0, r0.
    pose proof (hi_seg _ _ _ Hinv) as Hs. destruct Hs as (Hs & _).
    split_and!; try done. exists b0. set_solver. }
  { simpl in Hfuel. lia. }
  intros k curr s' (Hfr & Hhf & pre & b & r & -> & -> & Hinv' & Hco & b' & Hb' & Eb & Hr).
  pose proof (hi_lay _ _ _ Hinv') as Hl. pose proof (hi_seg _ _ _ Hinv') as Hs.
  apply lay_app in Hl as (mid & Hl1 & Hb1 & Hb2 & Hl2). pose proof (lay_le _ _ _ Hl1).
  apply seg_app in Hs as (d & Hs1 & -> & nx & (N1 & N2 & N3) & Hs2).
  destruct r as [|c r].
  - simpl in Hs2. subst nx. unfold kfree_step.
    rewrite (decide_False (P := b_addr b = 0)) by lia. unfold_hdr. wp_steps. rewrite Hs2.
    rewrite decide_True by done. apply wp_ret. apply HQ; [done| |done].
    rewrite Hco. done.
  - destruct (decide (b_free b = true ∧ b_free c = true)) as [[Hfb Hfc]|Hnf].
    + eapply kfree_merge_wp; [done..|]. intros s'' Hfr' Hinv'' Hag.
      exists (length r). split; [simpl; lia|]. split; [rewrite Hfr', Hfr; done|]. split.
      { intros x Hx. rewrite Hag; [by apply Hhf|]. rewrite <- Eb. by apply Hx. }
      eexists pre, _, r. split; [|split; [done|split; [exact Hinv''|split]]]; [done| |].
      { rewrite Hco. simpl. by rewrite decide_True by done. }
      exists b'. split; [done|]. split; [done|]. intros e He. apply Hr. set_solver.
    + destruct Hs2 as (-> & nx' & (C1 & C2 & C3) & Hs2). destruct Hl2 as (Hc1 & Hc2 & Hl2).
      unfold b_end in Hc1. unfold kfree_step.
      rewrite (decide_False (P := b_addr b = 0)) by lia. unfold_hdr. wp_steps. rewrite N1.
      rewrite (decide_False (P := b_addr c = 0)) by lia. wp_steps. rewrite N3, C3.
      rewrite decide_False.
      2:{ intros [H1 H2]. apply Hnf. by destruct (b_free b), (b_free c). }
      wp_steps. exists (length r). split; [simpl; lia|]. split; [done|]. split; [done|].
      exists (pre ++ [b]), c, r. rewrite <- !app_assoc. split_and!; try done.
      { rewrite Hco. simpl. by rewrite decide_False by done. }
      exists c. split; [apply Hr; set_solver|]. split; [done|]. intros e He. apply Hr. set_solver.
Qed.

Lemma kfree_wp bs hi b n s (Q : unit → machine → Prop) :
  heap_inv s bs hi → b ∈ bs → (length bs < n)%nat →
  (∀ s', s' = set_mem (mem s') s →
     heap_inv s' (coalesce (mark_free (b_addr b + 24) bs)) hi →
     hdr_frame bs (mem s) (mem s') → Q tt s') →
  wp (kfree (b_addr b + 24)) n s Q.
Proof.
  intros Hinv Hb Hfuel HQ. pose proof (hi_lay _ _ _ Hinv) as Hl.
  pose proof (lay_elem _ _ _ _ Hl Hb) as Hbd. unfold b_end in Hbd.
  pose proof (hi_top _ _ _ Hinv). pose proof (pmm_fits_total _ (hi_fits _ _ _ Hinv)).
  unfold kfree, sizeof_header. rewrite decide_False by lia. rewrite u64_small by lia.
  replace (b_addr b + 24 - 24) with (b_addr b) by lia.
  apply list_elem_of_split in Hb as (bs1 & bs2 & ->).
  rewrite (mark_free_split _ _ _ _ _ Hl) in HQ.
  apply wp_bind. eapply kfree_mark_wp; [done|]. intros s1 Hfr1 Hinv1 Hag1.
  wp_steps. eapply kfree_loop_wp; [done| |].
  { rewrite length_app in *. simpl in *. lia. }
  intros s2 Hfr2 Hinv2 Hhf2. apply HQ; [rewrite Hfr2, Hfr1; done|done|].
  intros x Hx. rewrite Hhf2.
  - apply Hag1. apply Hx. set_solver.
  - intros c Hc. rewrite elem_of_app, elem_of_cons in Hc. destruct Hc as [Hc|[->|Hc]].
    + apply Hx. set_solver.
    + cbn. apply Hx. set_solver.
    + apply Hx. set_solver.
Qed.

End kfree.

(** ** Facts about the list functions *)

Section facts.
Implicit Types (bs : list blk).

(** Where the allocated block of a successful [malloc_list] sits: it was cut from the free
    block [b], whose list neighbours are untouched. *)
Lemma malloc_list_Some size bs p bs' : malloc_list size bs = Some (p, bs') →
  ∃ bs1 b bs2, bs = bs1 ++ b :: bs2 ∧ b_free b = true ∧ size ≤ b_size b ∧
    p = b_addr b + 24 ∧ bs' = bs1 ++ split_block size b ++ bs2.
Proof.
  induction bs as [|b bs IH] in bs' |- *; [done|]. simpl. case_decide as Hd.
  - intros [= <- <-]. exists [], b, bs. destruct Hd. repeat split; try done.
    unfold split_block. by case_decide.
  - destruct (malloc_list size bs) as [[q r]|] eqn:E; simpl; [|done]. intros [= <- <-].
    destruct (IH r eq_refl) as (bs1 & b' & bs2 & -> & Hf & Hs & -> & ->).
    by exists (b :: bs1), b', bs2.
Qed.

Lemma malloc_list_None size bs b : malloc_list size bs = None → b ∈ bs →
  b_free b = true → b_size b < size.
Proof.
  induction bs as [|c bs IH]; [set_solver|]. simpl. case_decide as Hd; [done|].
  destruct (malloc_list size bs) as [[q r]|] eqn:E; [done|]. intros _ Hb Hf.
  apply elem_of_cons in Hb as [->|Hb]; [|by apply IH].
  destruct (decide (size ≤ b_size c)); [|lia]. by destruct Hd.
Qed.

(** After growth a request that fits a page succeeds. *)
Lemma malloc_list_grow size page bs : size ≤ 4072 → Forall (λ b, 0 ≤ b_size b) bs →
  is_Some (malloc_list size (grow page bs)).
Proof.
  intros Hs Hbs. destruct (malloc_list size (grow page bs)) as [r|] eqn:E; [by eexists|].
  assert (∃ b, b ∈ grow page bs ∧ b_free b = true ∧ 4072 ≤ b_size b) as (b & Hb & Hf & Hsz).
  { clear E. destruct bs as [|b bs _] using rev_ind.
    - exists (mkBlk page 4072 true). split; [by apply list_elem_of_singleton|done].
    - rewrite grow_snoc. apply Forall_app in Hbs as [_ Hb]. apply Forall_cons in Hb as [Hb _].
      cbn beta in Hb. case_decide.
      + eexists. split; [apply elem_of_app; right; by apply list_elem_of_singleton|]. cbn. split; [done|lia].
      + exists (mkBlk page 4072 true). split; [set_solver|]. done. }
  pose proof (malloc_list_None _ _ _ E Hb Hf). lia.
Qed.

(** No two list neighbours are free. *)
Fixpoint no_adjacent_free bs : Prop :=
  match bs with
  | b :: ((c :: _) as r) => ¬ (b_free b = true ∧ b_free c = true) ∧ no_adjacent_free r
  | _ => True
  end.

Lemma coalesce_from_head b r : ∃ c l, coalesce_from b r = c :: l ∧ b_free c = b_free b.
Proof.
  induction r as [|d r IH] in b |- *; simpl; [eauto|]. case_decide as Hd; [|eauto].
  destruct (IH (mkBlk (b_addr b) (b_size b + (24 + b_size d)) true)) as (c & l & -> & Hc).
  exists c, l. split; [done|]. rewrite Hc. cbn. by destruct Hd as [-> _].
Qed.

Lemma coalesce_no_adjacent bs : no_adjacent_free (coalesce bs).
Proof.
  destruct bs as [|b bs]; [done|]. simpl. induction bs as [|c bs IH] in b |- *; simpl; [done|].
  case_decide as Hd; [apply IH|]. destruct (coalesce_from_head c bs) as (d & l & E & Ef).
  specialize (IH c). rewrite E in *. split; [by rewrite Ef|done].
Qed.

(** Coalescing keeps every allocated block as it is. *)
Definition in_use bs : list blk := filter (λ b, b_free b = false) bs.

Lemma coalesce_in_use bs : in_use (coalesce bs) = in_use bs.
Proof.
  destruct bs as [|b bs]; [done|]. simpl. unfold in_use.
  induction bs as [|c bs IH] in b |- *; simpl; [done|]. case_decide as Hd.
  - rewrite IH. destruct Hd as [Hb Hc]. rewrite !filter_cons. cbn [b_free].
    rewrite !decide_False by congruence. done.
  - rewrite filter_cons, IH. rewrite (filter_cons _ b (c :: bs)). done.
Qed.

(** The addresses the blocks of a list occupy, headers included. *)
Definition covers bs (x : Z) : Prop := ∃ b, b ∈ bs ∧ b_addr b ≤ x < b_end b.

(** Every block ends where the next one starts. *)
Fixpoint contiguous bs : Prop :=
  match bs with
  | b :: ((c :: _) as r) => b_end b = b_addr c ∧ contiguous r
  | _ => True
  end.

Lemma covers_cons b bs x : covers (b :: bs) x ↔ b_addr b ≤ x < b_end b ∨ covers bs x.
Proof.
  unfold covers. split.
  - intros (c & Hc & Hx). apply elem_of_cons in Hc as [->|Hc]; [by left|right; eauto].
  - intros [Hx|(c & Hc & Hx)]; [exists b|exists c]; (split; [set_solver|done]).
Qed.

Lemma coalesce_covers bs x : Forall (λ b, 0 ≤ b_size b) bs → contiguous bs →
  covers (coalesce bs) x ↔ covers bs x.
Proof.
  destruct bs as [|b bs]; [done|]. cbn [coalesce].
  induction bs as [|c bs IH] in b |- *; intros Hf Hc; [done|].
  cbn [coalesce_from]. destruct Hc as [He Hc].
  apply Forall_cons in Hf as [Hb Hf]. pose proof Hf as Hf'. apply Forall_cons in Hf' as [Hcs Hf'].
  unfold b_end in *. case_decide.
  - rewrite IH.
    + rewrite !covers_cons. unfold b_end. cbn [b_addr b_size]. assert (∀ P Q R : Prop,
        (P ↔ Q ∨ R) → ∀ S, P ∨ S ↔ Q ∨ R ∨ S) as Hor by tauto. apply Hor. lia.
    + constructor; [cbn; lia|done].
    + destruct bs as [|d bs]; [done|]. destruct Hc as [Hd Hc]. split; [|done].
      unfold b_end in *. cbn. lia.
  - rewrite (covers_cons b), IH by done. by rewrite (covers_cons b).
Qed.

Lemma mark_free_sizes p bs : Forall (λ b, 0 ≤ b_size b) bs → Forall (λ b, 0 ≤ b_size b) (mark_free p bs).
Proof. intros H. apply Forall_fmap. eapply Forall_impl; [done|]. intros b Hb. cbn. by case_decide. Qed.

Lemma mark_free_contiguous p bs : contiguous bs → contiguous (mark_free p bs).
Proof.
  induction bs as [|b bs IH]; [done|]. destruct bs as [|c bs]; [done|].
  intros [He Hc]. specialize (IH Hc). split; [|done].
  unfold b_end in *. by repeat case_decide.
Qed.

Lemma mark_free_covers p bs x : covers (mark_free p bs) x ↔ covers bs x.
Proof.
  induction bs as [|b bs IH]; [done|]. change (mark_free p (b :: bs)) with
    ((if decide (b_addr b + 24 = p) then mkBlk (b_addr b) (b_size b) true else b) :: mark_free p bs).
  rewrite !covers_cons, IH. by case_decide.
Qed.

Lemma lay_sizes lo bs hi : lay lo bs hi → Forall (λ b, 0 ≤ b_size b) bs.
Proof. intros H. apply Forall_forall. intros b Hb. by destruct (lay_elem _ _ _ _ H Hb) as (_ & ? & _). Qed.

End facts.

(** ** The operations against the list functions *)

Section client.
Implicit Types (s : machine) (bs : list blk).

Lemma heap_inv_console_only s s' bs hi : heap_inv s bs hi → console_only s s' → heap_inv s' bs hi.
Proof.
  intros [H1 H2 H3 H4 H5 H6] Hc.
  destruct (low_same_wf s s') as [Hp Hf]; [done..|split; [by rewrite Hc|intros x _; by rewrite Hc]|].
  revert Hp Hf. rewrite Hc. intros Hp Hf. by split.
Qed.

(** The two outcomes of a failed search. *)
Definition grew s s' bs hi : Prop :=
  ∃ i, hi ≤ i * 4096 ∧ used s i = false ∧
    heap_inv s' (grow (i * 4096) bs) (i * 4096 + 4096) ∧
    ∀ b x, b ∈ bs → b_addr b + 24 ≤ x < b_end b → byte_at (mem s') x = byte_at (mem s) x.

Definition exhausted s s' : Prop :=
  (∀ j, 0 ≤ j < total_blocks (pmm s) → used s j = true) ∧ console_only s s'.

Lemma expand_grew s s1 s' bs hi i : heap_inv s bs hi → allocated s s1 i → hi ≤ i * 4096 →
  heap_inv s' (grow (i * 4096) bs) (i * 4096 + 4096) →
  link_frame (mem s1) (mem s') (i * 4096) bs → grew s s' bs hi.
Proof.
  intros Hinv Hal Hhi Hinv' Hlf. exists i. split_and!; try done; [by apply Hal|].
  intros b x Hb Hx. pose proof (hi_lay _ _ _ Hinv) as Hl.
  pose proof (lay_elem _ _ _ _ Hl Hb) as Hbd.
  rewrite Hlf; [eapply allocated_high; [apply Hinv|done|lia]|lia|].
  intros c Hc. apply last_Some in Hc as [l ->].
  apply lay_app in Hl as (mid & Hl1 & Hc1 & Hc2 & _).
  apply elem_of_app in Hb as [Hb|Hb].
  - pose proof (lay_elem _ _ _ _ Hl1 Hb). unfold b_end in *. lia.
  - apply list_elem_of_singleton in Hb as ->. lia.
Qed.

Lemma kmalloc_wp size n s bs hi (Q : Z → machine → Prop) :
  heap_inv s bs hi → 0 < size → (length bs < n)%nat →
  (∀ p bs' b s', malloc_list size bs = Some (p, bs') → b ∈ bs → took s s' p b →
     heap_inv s' bs' hi → Q p s') →
  (∀ s', malloc_list size bs = None → grew s s' bs hi ∨ exhausted s s' → Q 0 s') →
  wp (kmalloc size) n s Q.
Proof.
  intros Hinv Hsize Hfuel Hok Hno. unfold kmalloc. rewrite decide_False by lia. wp_steps.
  apply (search_wp _ _ _ bs hi); [done..| |].
  - intros p bs' b s' ????. apply wp_ret. by eapply Hok.
  - intros Hn. apply (expand_wp _ _ _ hi); [done| |].
    + intros i s1 s' ?????. apply Hno; [done|]. left. by eapply expand_grew.
    + intros s' ??. apply Hno; [done|]. by right.
Qed.

(** Blocks in use stay in use, and a new one does not meet them. *)
Lemma malloc_list_in_use size bs p bs' c : malloc_list size bs = Some (p, bs') →
  c ∈ bs → b_free c = false → c ∈ bs'.
Proof.
  intros H Hc Hf. destruct (malloc_list_Some _ _ _ _ H) as (l1 & b & l2 & -> & Hb & _ & _ & ->).
  apply elem_of_app in Hc as [Hc|Hc]; [set_solver|].
  apply elem_of_cons in Hc as [->|Hc]; [congruence|set_solver].
Qed.

Lemma malloc_list_new size bs p bs' : 0 ≤ size → malloc_list size bs = Some (p, bs') →
  ∃ b, b ∈ bs' ∧ b_addr b + 24 = p ∧ b_free b = false ∧ size ≤ b_size b.
Proof.
  intros Hs H. destruct (malloc_list_Some _ _ _ _ H) as (l1 & b & l2 & -> & Hb & Hsz & -> & ->).
  unfold split_block. case_decide; [exists (mkBlk (b_addr b) size false)
    |exists (mkBlk (b_addr b) (b_size b) false)]; (split; [set_solver|]); cbn; lia.
Qed.

(** Distinct blocks of a laid-out list are disjoint. *)
Lemma lay_disjoint lo bs hi b c : lay lo bs hi → b ∈ bs → c ∈ bs →
  b = c ∨ b_end b ≤ b_addr c ∨ b_end c ≤ b_addr b.
Proof.
  intros H Hb Hc. apply list_elem_of_split in Hb as (l1 & l2 & ->).
  apply lay_app in H as (mid & H1 & H2 & H3 & H4).
  apply elem_of_app in Hc as [Hc|Hc].
  - pose proof (lay_elem _ _ _ _ H1 Hc). lia.
  - apply elem_of_cons in Hc as [->|Hc]; [by left|].
    pose proof (lay_elem _ _ _ _ H4 Hc). lia.
Qed.

Lemma took_keeps s s' p b c bs hi x : heap_inv s bs hi → took s s' p b → b ∈ bs → c ∈ bs →
  b_free c = false → b_addr c ≤ x < b_end c → byte_at (mem s') x = byte_at (mem s) x.
Proof.
  intros Hinv (Hf & _ & _ & Hag) Hb Hc Hcf Hx. apply Hag.
  destruct (lay_disjoint _ _ _ b c (hi_lay _ _ _ Hinv) Hb Hc) as [->|]; [congruence|].
  unfold b_end in *. lia.
Qed.

Lemma grow_in_use page bs c : c ∈ bs → b_free c = false → c ∈ grow page bs.
Proof.
  destruct bs as [|b bs _] using rev_ind; [set_solver|]. rewrite grow_snoc.
  intros Hc Hf. apply elem_of_app in Hc as [Hc|Hc]; [set_solver|].
  apply list_elem_of_singleton in Hc as ->. rewrite decide_False by (intros [? _]; congruence).
  set_solver.
Qed.

Lemma mark_free_in_use p bs c : c ∈ bs → b_addr c + 24 ≠ p → c ∈ mark_free p bs.
Proof.
  intros Hc Hp. apply list_elem_of_fmap. exists c. split; [by rewrite decide_False|done].
Qed.

Lemma in_use_elem bs c : c ∈ in_use bs ↔ b_free c = false ∧ c ∈ bs.
Proof. unfold in_use. by rewrite list_elem_of_filter. Qed.

Lemma coalesce_keeps bs c : c ∈ bs → b_free c = false → c ∈ coalesce bs.
Proof.
  intros Hc Hf. assert (c ∈ in_use (coalesce bs)) as H.
  { rewrite coalesce_in_use. by apply in_use_elem. }
  by apply in_use_elem in H as [_ ?].
Qed.

Lemma coalesce_length bs : (length (coalesce bs) ≤ length bs)%nat.
Proof.
  destruct bs as [|b bs]; [done|]. simpl.
  induction bs as [|c bs IH] in b |- *; simpl; [done|].
  case_decide; simpl; [etrans; [apply IH|]; lia|]. specialize (IH c). lia.
Qed.

Lemma malloc_list_length size bs p bs' : malloc_list size bs = Some (p, bs') →
  (length bs' ≤ S (length bs))%nat.
Proof.
  intros H. destruct (malloc_list_Some _ _ _ _ H) as (l1 & b & l2 & -> & _ & _ & _ & ->).
  rewrite !length_app. unfold split_block. case_decide; simpl; lia.
Qed.

Lemma grow_length page bs : (length (grow page bs) ≤ S (length bs))%nat.
Proof.
  destruct bs as [|b bs _] using rev_ind; [done|]. rewrite grow_snoc, !length_app.
  case_decide; simpl; lia.
Qed.

Lemma mark_free_length p bs : length (mark_free p bs) = length bs.
Proof. apply length_fmap. Qed.

End client.

(** ** A client's sequence of heap calls *)

Inductive heap_op :=
| OpMalloc (size : Z)
| OpFree (k : nat).

(** The client keeps the pointers it was given, with the sizes it asked for, and frees its
    [k]-th one. *)
Definition heap_call (op : heap_op) (live : list (Z * Z)) : M (list (Z * Z)) :=
  match op with
  | OpMalloc size =>
      p ← kmalloc size;
      mret (if decide (p = 0) then live else (p, size) :: live)
  | OpFree k =>
      match live !! k with
      | Some (p, _) => kfree p;; mret (delete k live)
      | None => mret live
      end
  end.

Fixpoint heap_calls (ops : list heap_op) (live : list (Z * Z)) : M (list (Z * Z)) :=
  match ops with
  | [] => mret live
  | op :: r => live' ← heap_call op live; heap_calls r live'
  end.

Definition op_ok (op : heap_op) : Prop :=
  match op with OpMalloc size => 0 < size | OpFree _ => True end.

(** The regions the client holds are data areas of distinct blocks in use. *)
Definition live_in (bs : list blk) (live : list (Z * Z)) : Prop :=
  NoDup live.*1 ∧ ∀ p size, (p, size) ∈ live →
    ∃ b, b ∈ bs ∧ b_addr b + 24 = p ∧ b_free b = false ∧ 0 < size ≤ b_size b.

Definition regions_disjoint (live : list (Z * Z)) : Prop :=
  ∀ i j p q sp sq, i ≠ j → live !! i = Some (p, sp) → live !! j = Some (q, sq) →
    p + sp ≤ q ∨ q + sq ≤ p.

Section calls.
Implicit Types (s : machine) (bs : list blk) (live : list (Z * Z)).

Lemma live_in_disjoint lo bs hi live : lay lo bs hi → live_in bs live → regions_disjoint live.
Proof.
  intros Hlay [Hnd Hl] i j p q sp sq Hij Hi Hj.
  destruct (Hl p sp) as (b & Hb & Eb & _ & Hsp); [by eapply list_elem_of_lookup_2|].
  destruct (Hl q sq) as (c & Hc & Ec & _ & Hsq); [by eapply list_elem_of_lookup_2|].
  destruct (lay_disjoint _ _ _ _ _ Hlay Hb Hc) as [->|Hd]; [|unfold b_end in *; lia].
  destruct Hij. apply (NoDup_lookup live.*1 i j p Hnd); rewrite list_lookup_fmap.
  - by rewrite Hi.
  - rewrite Hj. simpl. f_equal. lia.
Qed.

Lemma live_in_mono bs bs' live :
  (∀ c, c ∈ bs → b_free c = false → c ∈ bs') → live_in bs live → live_in bs' live.
Proof.
  intros H [Hnd Hl]. split; [done|]. intros p size Hp.
  destruct (Hl p size Hp) as (b & Hb & ? & ? & ?). exists b. auto.
Qed.

Lemma live_in_free bs live k p size : live_in bs live → live !! k = Some (p, size) →
  live_in (coalesce (mark_free p bs)) (delete k live).
Proof.
  intros [Hnd Hl] Hk. apply list_elem_of_split_length in Hk as (l1 & l2 & -> & ->).
  rewrite delete_middle. rewrite fmap_app in Hnd. cbn in Hnd.
  apply NoDup_app in Hnd as (N1 & N2 & N3). apply NoDup_cons in N3 as [N3 N4].
  split.
  { rewrite fmap_app. apply NoDup_app. split_and!; [done| |done].
    intros x Hx Hx2. apply (N2 x Hx). set_solver. }
  intros q sq Hq. destruct (Hl q sq) as (b & Hb & <- & Hf & Hs); [set_solver|].
  exists b. split_and!; try done; try lia. apply coalesce_keeps; [|done].
  apply mark_free_in_use; [done|]. intros E.
  assert ((p, sq) ∈ l1 ∨ (p, sq) ∈ l2) as [H|H] by (rewrite <- E; set_solver).
  - apply (N2 p); [|by left]. apply list_elem_of_fmap. by exists (p, sq).
  - apply N3. apply list_elem_of_fmap. by exists (p, sq).
Qed.

Lemma heap_call_wp op live n s bs hi (Q : list (Z * Z) → machine → Prop) :
  heap_inv s bs hi → live_in bs live → op_ok op → (length bs < n)%nat →
  (∀ live' bs' hi' s', heap_inv s' bs' hi' → live_in bs' live' →
     (length bs' ≤ S (length bs))%nat → Q live' s') →
  wp (heap_call op live) n s Q.
Proof.
  intros Hinv Hlive Hop Hn HQ. destruct op as [size|k]; simpl.
  - apply wp_bind, (kmalloc_wp _ _ _ bs hi); [done..| |].
    + intros p bs' b s' Hm Hb Htook Hinv'. apply wp_ret.
      pose proof Htook as (Hfb & -> & _ & _).
      pose proof (lay_elem _ _ _ _ (hi_lay _ _ _ Hinv) Hb). rewrite decide_False by lia.
      apply (HQ _ bs' hi); [done| |by eapply malloc_list_length].
      destruct (live_in_mono bs bs' live) as [Hnd Hl]; [|done|].
      { intros c Hc Hcf. by eapply malloc_list_in_use. }
      split; [|].
      * simpl. apply NoDup_cons. split; [|done]. intros Hx.
        apply list_elem_of_fmap in Hx as ([q sq] & Eq & Hq). simpl in Eq. subst q.
        destruct Hlive as [_ Hl0]. destruct (Hl0 _ _ Hq) as (c & Hc & Ec & Hcf & Hsc).
        destruct (lay_disjoint _ _ _ b c (hi_lay _ _ _ Hinv) Hb Hc) as [->|]; [congruence|].
        pose proof (lay_elem _ _ _ _ (hi_lay _ _ _ Hinv) Hc).
        unfold b_end in *. lia.
      * intros q sq Hq. apply elem_of_cons in Hq as [[= -> ->]|Hq]; [|by apply Hl].
        destruct (malloc_list_new size bs _ bs' (Z.lt_le_incl _ _ Hop) Hm) as (c & ? & ? & ? & ?).
        exists c. by split_and!.
    + intros s' _ Hno. apply wp_ret. rewrite decide_True by done.
      destruct Hno as [(i & _ & _ & Hinv' & _)|[_ Hc]].
      * apply (HQ _ _ _ _ Hinv'); [|apply grow_length].
        eapply live_in_mono; [|done]. intros c. apply grow_in_use.
      * apply (HQ _ bs hi); [by eapply heap_inv_console_only|done|lia].
  - destruct (live !! k) as [[p size]|] eqn:Hk; [|apply wp_ret, (HQ _ bs hi); by auto with lia].
    destruct Hlive as [Hnd Hl].
    destruct (Hl p size) as (b & Hb & <- & _ & _); [by eapply list_elem_of_lookup_2|].
    apply wp_bind, (kfree_wp bs hi); [done..|]. intros s' _ Hinv' _. apply wp_ret.
    apply (HQ _ _ _ _ Hinv'); [by eapply live_in_free|].
    etrans; [apply coalesce_length|]. rewrite mark_free_length. lia.
Qed.

Lemma heap_calls_wp ops live n s bs hi (Q : list (Z * Z) → machine → Prop) :
  heap_inv s bs hi → live_in bs live → Forall op_ok ops → (length bs + length ops < n)%nat →
  (∀ live' bs' hi' s', heap_inv s' bs' hi' → live_in bs' live' → Q live' s') →
  wp (heap_calls ops live) n s Q.
Proof.
  induction ops as [|op ops IH] in live, s, bs, hi |- *; intros Hinv Hlive Hops Hn HQ; simpl.
  - apply wp_ret. by eapply HQ.
  - apply Forall_cons in Hops as [Hop Hops]. simpl in Hn.
    apply wp_bind, (heap_call_wp _ _ _ _ bs hi); [done..|lia|].
    intros live' bs' hi' s' Hinv' Hlive' Hlen. eapply IH; [done..|lia|done].
Qed.

End calls.

(** ** [init_kheap] and a heap to evaluate on *)

Lemma init_kheap_wp n s (Q : unit → machine → Prop) :
  pmm_wf s → pmm_fits s →
  (∀ i s', used s i = false → (∀ j, 0 ≤ j < i → used s j = true) →
     heap_inv s' [mkBlk (i * 4096) 4072 true] (i * 4096 + 4096) → Q tt s') →
  (∀ s', (∀ j, 0 ≤ j < total_blocks (pmm s) → used s j = true) → console_only s s' → Q tt s') →
  wp init_kheap n s Q.
Proof.
  intros Hwf Hfit Hok Hoom. unfold init_kheap. apply wp_bind. apply alloc_frame_wp; [done| |].
  2:{ intros s' Hall Hc. rewrite decide_True by done. wp_print. apply Hoom; [done|]. by etrans. }
  intros i s1 Hal. pose proof (al_range _ _ _ Hal) as Hi. pose proof (pmm_fits_total _ Hfit).
  rewrite decide_False by lia. unfold BLOCK_SIZE, sizeof_header. unfold_hdr. wp_steps.
  match goal with |- wp _ _ ?x _ => set (s2 := x) end.
  assert (low_same s1 s2) as Hls.
  { split; [done|]. intros x Hx. subst s2. cbn [mem set_mem set_heap_head].
    rewrite !byte_store_out by lia. done. }
  wp_print. apply (Hok i); [by apply Hal..|]. eapply heap_inv_console_only; [|done].
  pose proof (allocated_wf _ _ _ Hwf Hal) as Hwf1. pose proof (allocated_fits _ _ _ Hfit Hal) as Hfit1.
  destruct (low_same_wf s1 s2) as [Hwf2 Hfit2]; [done..|].
  assert (pmm s2 = pmm s) as Hp by (destruct Hls as [-> _]; by rewrite (al_frame _ _ _ Hal)).
  split; try done.
  - subst s2. cbn [mem set_mem set_heap_head heap_head seg]. split; [done|]. exists 0. split; [|done].
    unfold node. cbn [b_addr b_size b_free]. by mem_simpl.
  - simpl. unfold b_end. simpl. lia.
  - rewrite Hp. lia.
  - intros j Hj Hlt. rewrite (low_same_used s1) by
      (done || (rewrite (al_frame _ _ _ Hal); cbn; lia)).
    rewrite (al_used _ _ _ Hal) by done.
    destruct (decide (j = i)) as [->|]; [by rewrite bool_decide_eq_true_2, orb_true_r|].
    by rewrite (al_first _ _ _ Hal) by lia.
Qed.

Definition run {A} (m : M A) (n : nat) (s : machine) : machine :=
  match m n s with Ret _ s' => s' | _ => s end.

Definition heap_demo : machine := run init_kheap 0 pmm_demo.

Lemma heap_demo_inv : heap_inv heap_demo [mkBlk 0x2000000 4072 true] 0x2001000.
Proof.
  assert (wp init_kheap 0 pmm_demo (λ _ s', heap_inv s' [mkBlk 0x2000000 4072 true] 0x2001000)) as H.
  { apply init_kheap_wp; [apply pmm_demo_wf|by vm_compute| |].
    - intros i s' Hu Hf Hinv. assert (i = 8192) as ->; [|done].
      pose proof (hi_lay _ _ _ Hinv) as (Hi & _). cbn [b_addr] in Hi.
      destruct (decide (8192 < i)); [|lia]. pose proof pmm_demo_free as H0.
      rewrite Hf in H0 by lia. done.
    - intros s' Hall. pose proof pmm_demo_free as H0. rewrite Hall in H0; [done|cbn; lia]. }
  unfold heap_demo, run. apply wp_run in H as ([] & s' & -> & H). done.
Qed.

(** ** Properties *)

(** [init_kheap] turns the lowest free frame into a heap of one free block of 4072 bytes,
    with the allocator invariant; with no free frame it only prints. *)
Theorem init_kheap_spec n s :
  pmm_wf s → pmm_fits s →
  wp init_kheap n s (λ _ s',
    (∃ i, used s i = false ∧ (∀ j, 0 ≤ j < i → used s j = true) ∧
       heap_inv s' [mkBlk (i * 4096) 4072 true] (i * 4096 + 4096)) ∨ exhausted s s').
Proof.
  intros Hwf Hfit. apply init_kheap_wp; [done..| |].
  - intros i s' ???. left. eauto.
  - intros s' ??. by right.
Qed.

Lemma init_kheap_spec_witness :
  wp init_kheap 0 pmm_demo (λ _ s',
    (∃ i, used pmm_demo i = false ∧ (∀ j, 0 ≤ j < i → used pmm_demo j = true) ∧
       heap_inv s' [mkBlk (i * 4096) 4072 true] (i * 4096 + 4096)) ∨ exhausted pmm_demo s').
Proof. apply (init_kheap_spec 0 pmm_demo pmm_demo_wf). by vm_compute. Defined.

(** C6. [kmalloc] refines first fit on the block list.  When a free block fits, it returns that
    block's data address and the heap becomes the list with the block split; when none fits
    it returns 0, after adding one page to the list (if a frame was left) without touching
    any block's data.  Fuel above the number of blocks suffices. *)
Theorem kmalloc_refines n s bs hi size :
  heap_inv s bs hi → 0 < size → (length bs < n)%nat →
  wp (kmalloc size) n s (λ p s',
    match malloc_list size bs with
    | Some (q, bs') => p = q ∧ heap_inv s' bs' hi
    | None => p = 0 ∧ (grew s s' bs hi ∨ exhausted s s')
    end).
Proof.
  intros Hinv Hs Hn. apply (kmalloc_wp _ _ _ bs hi); [done..| |].
  - intros p bs' b s' -> _ _ ?. done.
  - intros s' -> ?. done.
Qed.

Lemma kmalloc_refines_witness :
  wp (kmalloc 100) 2 heap_demo (λ p s',
    p = 0x2000018 ∧
    heap_inv s' [mkBlk 0x2000000 100 false; mkBlk 0x200007c 3948 true] 0x2001000).
Proof. apply (kmalloc_refines 2 heap_demo _ _ 100 heap_demo_inv); [done|simpl; lia]. Defined.

(** What a successful [kmalloc] hands out is nobody else's: the region lies inside the
    heap, meets no block that was in use, and every block in use keeps its header and its
    contents. *)
Theorem kmalloc_fresh n s bs hi size :
  heap_inv s bs hi → 0 < size → (length bs < n)%nat →
  wp (kmalloc size) n s (λ p s', p ≠ 0 →
    0x2000018 ≤ p ∧ p + size ≤ hi ∧
    ∀ b, b ∈ in_use bs → (b_end b ≤ p - 24 ∨ p + size ≤ b_addr b) ∧
      ∀ x, b_addr b ≤ x < b_end b → byte_at (mem s') x = byte_at (mem s) x).
Proof.
  intros Hinv Hs Hn. apply (kmalloc_wp _ _ _ bs hi); [done..| |by intros].
  intros p bs' b s' Hm Hb Htook _ _. pose proof Htook as (Hfb & -> & _ & _).
  pose proof (hi_lay _ _ _ Hinv) as Hl. pose proof (lay_elem _ _ _ _ Hl Hb) as Hbd.
  assert (size ≤ b_size b) as Hfit.
  { destruct (malloc_list_Some _ _ _ _ Hm) as (l1 & c & l2 & -> & Hc & Hsz & Ep & _).
    destruct (lay_disjoint _ _ _ b c Hl Hb) as [->|Hd]; [set_solver|done|].
    pose proof (lay_elem _ _ _ c Hl ltac:(set_solver)). unfold b_end in *. lia. }
  unfold b_end in Hbd. split; [lia|]. split; [lia|]. intros c Hc.
  apply in_use_elem in Hc as [Hcf Hc]. split; [|intros x Hx; by eapply took_keeps].
  destruct (lay_disjoint _ _ _ b c Hl Hb Hc) as [->|Hd]; [congruence|]. unfold b_end in *. lia.
Qed.

Lemma kmalloc_fresh_witness :
  wp (kmalloc 100) 2 heap_demo (λ p s', p ≠ 0 →
    0x2000018 ≤ p ∧ p + 100 ≤ 0x2001000 ∧
    ∀ b, b ∈ in_use [mkBlk 0x2000000 4072 true] → (b_end b ≤ p - 24 ∨ p + 100 ≤ b_addr b) ∧
      ∀ x, b_addr b ≤ x < b_end b → byte_at (mem s') x = byte_at (mem heap_demo) x).
Proof. apply (kmalloc_fresh 2 heap_demo _ _ 100 heap_demo_inv); [done|simpl; lia]. Defined.

(** C33. A [kmalloc] that finds no block reports failure even when it obtained a page that
    would satisfy the request: the first call returns 0 and the same call made again
    succeeds. *)
Theorem kmalloc_fails_after_growth n s bs hi size :
  heap_inv s bs hi → 0 < size ≤ 4072 → (S (length bs) < n)%nat →
  malloc_list size bs = None → (∃ i, 0 ≤ i < total_blocks (pmm s) ∧ used s i = false) →
  wp (p ← kmalloc size; q ← kmalloc size; mret (p, q)) n s
    (λ '(p, q) s', p = 0 ∧ q ≠ 0).
Proof.
  intros Hinv Hs Hn Hno (i0 & Hi0 & Hf0).
  apply wp_bind, (kmalloc_wp _ _ _ bs hi); [done|lia|lia| |].
  { intros p bs' b s' Hm. congruence. }
  intros s' _ [(i & _ & _ & Hinv' & _)|[Hall _]]; [|rewrite Hall in Hf0 by done; done].
  apply wp_bind, (kmalloc_wp _ _ _ _ _ _ Hinv'); [lia| | |].
  - pose proof (grow_length (i * 4096) bs). lia.
  - intros p bs' b s'' _ Hb (_ & -> & _) _. apply wp_ret. split; [done|].
    pose proof (lay_elem _ _ _ _ (hi_lay _ _ _ Hinv') Hb). lia.
  - intros s'' Hnone. destruct (malloc_list_grow size (i * 4096) bs) as [r Hr]; [lia| |congruence].
    eapply lay_sizes, hi_lay, Hinv.
Qed.

(** The heap of one page, all of it allocated. *)
Definition heap_full : machine := run (kmalloc 4072) 2 heap_demo.

Lemma heap_full_inv : heap_inv heap_full [mkBlk 0x2000000 4072 false] 0x2001000.
Proof.
  assert (wp (kmalloc 4072) 2 heap_demo
    (λ _ s', heap_inv s' [mkBlk 0x2000000 4072 false] 0x2001000)) as H.
  { apply (kmalloc_wp _ _ _ _ _ _ heap_demo_inv); [done|simpl; lia| |done].
    intros p bs' b s' [= <- <-] _ _ H. done. }
  unfold heap_full, run. apply wp_run in H as (p & s' & -> & H). done.
Qed.

Lemma kmalloc_fails_after_growth_witness :
  wp (p ← kmalloc 64; q ← kmalloc 64; mret (p, q)) 3 heap_full (λ '(p, q) s', p = 0 ∧ q ≠ 0).
Proof.
  apply (kmalloc_fails_after_growth 3 heap_full _ _ 64 heap_full_inv);
    [done|simpl; lia|done|]. exists 8193. split; [vm_compute; done|by vm_compute].
Defined.

(** C7. [kfree] of a block of the heap marks it free and merges every run of free list
    neighbours: the new heap is [coalesce] of the marked list, it has no two free
    neighbours, the other blocks in use are exactly the ones before, and nothing outside
    block headers changes.  Fuel above the number of blocks suffices. *)
Theorem kfree_refines n s bs hi b :
  heap_inv s bs hi → b ∈ in_use bs → (length bs < n)%nat →
  wp (kfree (b_addr b + 24)) n s (λ _ s',
    let bs' := coalesce (mark_free (b_addr b + 24) bs) in
    heap_inv s' bs' hi ∧ no_adjacent_free bs' ∧
    (∀ c, c ∈ in_use bs' ↔ c ∈ in_use bs ∧ c ≠ b) ∧
    hdr_frame bs (mem s) (mem s')).
Proof.
  intros Hinv Hb Hn. apply in_use_elem in Hb as [Hbf Hb].
  apply (kfree_wp bs hi); [done..|]. intros s' _ Hinv' Hf. cbv zeta.
  split_and!; [done|apply coalesce_no_adjacent| |done]. intros c.
  rewrite coalesce_in_use, !in_use_elem. split.
  - intros [Hcf Hc]. apply list_elem_of_fmap in Hc as (d & -> & Hd). revert Hcf.
    case_decide as E; [done|]. intros Hcf. split; [done|]. congruence.
  - intros [[Hcf Hc] Hcb]. split; [done|]. apply mark_free_in_use; [done|]. intros E.
    destruct (lay_disjoint _ _ _ b c (hi_lay _ _ _ Hinv) Hb Hc) as [->|Hd]; [done|].
    pose proof (lay_elem _ _ _ _ (hi_lay _ _ _ Hinv) Hb).
    pose proof (lay_elem _ _ _ _ (hi_lay _ _ _ Hinv) Hc). unfold b_end in *. lia.
Qed.

Lemma kfree_refines_witness :
  wp (kfree (0x2000000 + 24)) 2 heap_full (λ _ s',
    heap_inv s' [mkBlk 0x2000000 4072 true] 0x2001000 ∧ True ∧
    (∀ c, c ∈ in_use [mkBlk 0x2000000 4072 true] ↔
          c ∈ in_use [mkBlk 0x2000000 4072 false] ∧ c ≠ mkBlk 0x2000000 4072 false) ∧
    hdr_frame [mkBlk 0x2000000 4072 false] (mem heap_full) (mem s')).
Proof.
  apply (kfree_refines 2 heap_full _ _ (mkBlk 0x2000000 4072 false) heap_full_inv).
  - by apply list_elem_of_singleton.
  - simpl. lia.
Defined.

(** On a heap whose blocks are physically contiguous, [kfree] neither loses nor invents
    memory: the blocks of the new heap cover exactly the addresses the old ones covered. *)
Theorem kfree_covers n s bs hi b :
  heap_inv s bs hi → contiguous bs → b ∈ bs → (length bs < n)%nat →
  wp (kfree (b_addr b + 24)) n s (λ _ s', ∃ bs', heap_inv s' bs' hi ∧
    ∀ x, covers bs' x ↔ covers bs x).
Proof.
  intros Hinv Hc Hb Hn. apply (kfree_wp bs hi); [done..|]. intros s' _ Hinv' _.
  eexists. split; [done|]. intros x. pose proof (lay_sizes _ _ _ (hi_lay _ _ _ Hinv)).
  rewrite coalesce_covers by (by apply mark_free_sizes || by apply mark_free_contiguous).
  apply mark_free_covers.
Qed.

Lemma kfree_covers_witness :
  wp (kfree (0x2000000 + 24)) 2 heap_full (λ _ s', ∃ bs', heap_inv s' bs' 0x2001000 ∧
    ∀ x, covers bs' x ↔ covers [mkBlk 0x2000000 4072 false] x).
Proof.
  apply (kfree_covers 2 heap_full _ _ (mkBlk 0x2000000 4072 false) heap_full_inv);
    [done|by apply list_elem_of_singleton|simpl; lia].
Defined.

(** C2. Any sequence of heap calls is safe: from a heap in order, with the client freeing only
    pointers it holds, every call returns, the heap stays in order, and the regions the
    client holds at the end are pairwise disjoint data areas of blocks in use. *)
Theorem heap_calls_safe n s bs hi ops :
  heap_inv s bs hi → Forall op_ok ops → (length bs + length ops < n)%nat →
  wp (heap_calls ops []) n s (λ live s',
    regions_disjoint live ∧ ∃ bs' hi', heap_inv s' bs' hi' ∧ live_in bs' live).
Proof.
  intros Hinv Hops Hn. apply (heap_calls_wp _ _ _ _ bs hi); [done| |done..|].
  - split; [constructor|]. intros p size Hp. by apply not_elem_of_nil in Hp.
  - intros live bs' hi' s' Hinv' Hlive. split; [|eauto].
    eapply live_in_disjoint; [apply Hinv'|done].
Qed.

Lemma heap_calls_safe_witness :
  wp (heap_calls [OpMalloc 100; OpMalloc 200; OpFree 1; OpMalloc 5000; OpMalloc 50] []) 10 heap_demo
    (λ live s', regions_disjoint live ∧ ∃ bs' hi', heap_inv s' bs' hi' ∧ live_in bs' live).
Proof.
  apply (heap_calls_safe 10 heap_demo _ _ _ heap_demo_inv).
  - repeat constructor.
  - simpl. lia.
Defined.








(** Another client takes the frame behind the full page, and the heap grows behind it. *)
#[local] Abbreviation heap_gap := (run (pmm_alloc_block;; kmalloc 4072) 3 heap_full).




