(* ===== verification/Vmm.v ===== *)
(** src/kernel/vmm.c: four-level page tables in physical memory.

    The code walks and extends tables of 512 entries that live in frames of the frame
    allocator.  The specification is the processor's translation of an address, [walk] and
    [translate]; the invariant [tree] says that the tables reachable from a root are
    distinct frames in use, so that a write to one entry changes one translation. *)
From S2P Require Import Prelude Memory Hardware Machine Utils Screen Pmm Kheap.

(** ** includes/vmm.h and the index macros *)

Definition PAGE_SIZE : Z := 4096.
Definition PAGING_FLAG_PRESENT : Z := 0x01.
Definition PAGING_FLAG_WRITABLE : Z := 0x02.
Definition PAGING_FLAG_USER : Z := 0x04.

Definition PML4_INDEX (addr : Z) : Z := Z.land (Z.shiftr addr 39) 0x1ff.
Definition PDPT_INDEX (addr : Z) : Z := Z.land (Z.shiftr addr 30) 0x1ff.
Definition PD_INDEX (addr : Z) : Z := Z.land (Z.shiftr addr 21) 0x1ff.
Definition PT_INDEX (addr : Z) : Z := Z.land (Z.shiftr addr 12) 0x1ff.

(** [table->entries[i]], read and written. *)
Definition get_entry (table i : Z) : M Z := load64 (table + 8 * i).
Definition put_entry (table i v : Z) : M unit := store64 (table + 8 * i) v.

(** The flags of an entry that points to a lower table. *)
Definition table_flags : Z :=
  Z.lor (Z.lor PAGING_FLAG_PRESENT PAGING_FLAG_WRITABLE) PAGING_FLAG_USER.

(** The address field of an entry. *)
Definition frame_of (e : Z) : Z := Z.land e 0xFFFFFFFFFF000.

(** One level of [vmm_map_page]: the table below [table] at [idx], created when the entry is
    not present; [None] is the early return when no frame is left. *)
Definition next_table (table idx : Z) : M (option Z) :=
  e ← get_entry table idx;
  ok ← (if decide (Z.land e PAGING_FLAG_PRESENT = 0) then
          t ← pmm_alloc_block;
          if decide (t = 0) then mret false
          else
            memset t 0 PAGE_SIZE;;
            put_entry table idx (Z.lor t table_flags);;
            mret true
        else mret true);
  if (ok : bool) then
    e' ← get_entry table idx;
    mret (Some (frame_of e'))
  else mret None.

Definition vmm_map_page (pml4 vaddr paddr flags : Z) : M unit :=
  let pml4_idx := PML4_INDEX vaddr in
  let pdpt_idx := PDPT_INDEX vaddr in
  let pd_idx := PD_INDEX vaddr in
  let pt_idx := PT_INDEX vaddr in
  pdpt ← next_table pml4 pml4_idx;
  match pdpt with
  | None => mret tt
  | Some pdpt =>
      pd ← next_table pdpt pdpt_idx;
      match pd with
      | None => mret tt
      | Some pd =>
          pt ← next_table pd pd_idx;
          match pt with
          | None => mret tt
          | Some pt => put_entry pt pt_idx (Z.lor (frame_of paddr) flags)
          end
      end
  end.

(** [vmm_switch_pml4]: the global and the register. *)
Definition vmm_switch_pml4 (pml4 : Z) : M unit :=
  modify (λ s, set_vmm (mkVmm pml4 (kernel_pml4 (vmm s))) s);;
  modify (λ s, set_cpu (mkCpu pml4 (cr2 (cpu s)) (idtr (cpu s)) (gdtr (cpu s)) (iflag (cpu s))) s).

Definition identity_map_end : Z := 0x20000000.

Definition vmm_init : M unit :=
  p ← pmm_alloc_block;
  modify (λ s, set_vmm (mkVmm (current_pml4 (vmm s)) p) s);;
  memset p 0 PAGE_SIZE;;
  for_unit (Z.to_nat (identity_map_end / PAGE_SIZE)) 0 (λ i,
    let addr := i * PAGE_SIZE in
    k ← gets (λ s, kernel_pml4 (vmm s));
    vmm_map_page k addr addr table_flags);;
  k ← gets (λ s, kernel_pml4 (vmm s));
  vmm_switch_pml4 k;;
  kprint (str "VMM Initialized." ++ newline).

Definition vmm_create_user_pml4 : M Z :=
  pml4 ← pmm_alloc_block;
  if decide (pml4 = 0) then mret 0
  else
    memset pml4 0 PAGE_SIZE;;
    k ← gets (λ s, kernel_pml4 (vmm s));
    e ← get_entry k 0;
    put_entry pml4 0 e;;
    mret pml4.

(** ** The processor's walk *)

Definition entry (m : gmap Z Z) (t i : Z) : Z := load 8 m (t + 8 * i).
Definition present (e : Z) : bool := bool_decide (Z.land e 1 ≠ 0).

(** The table at the end of a path of indices from table [t]. *)
Fixpoint walk_path (m : gmap Z Z) (t : Z) (p : list Z) : option Z :=
  match p with
  | [] => Some t
  | i :: r => if present (entry m t i) then walk_path m (frame_of (entry m t i)) r else None
  end.

(** The path to the page table of an address, and the last-level entry it selects. *)
Definition path_of (va : Z) : list Z := [PML4_INDEX va; PDPT_INDEX va; PD_INDEX va].

Definition leaf (m : gmap Z Z) (root : Z) (p : list Z) (i : Z) : option Z :=
  pt ← walk_path m root p;
  if present (entry m pt i) then Some (entry m pt i) else None.

Definition walk (m : gmap Z Z) (root va : Z) : option Z := leaf m root (path_of va) (PT_INDEX va).

(** Virtual to physical. *)
Definition translate (m : gmap Z Z) (root va : Z) : option Z :=
  e ← walk m root va; Some (frame_of e + va mod 4096).

(** Indices of a table. *)
Definition idx_ok (i : Z) : Prop := 0 ≤ i < 512.

(** A frame that holds a table: aligned, above the reserved 32 MiB, and in use. *)
Definition table_frame (s : machine) (t : Z) : Prop :=
  ∃ i, t = i * 4096 ∧ 8192 ≤ i < total_blocks (pmm s) ∧ used s i = true.

(** The tables below [root] are frames in use, and no two paths lead to the same one. *)
Record tree (s : machine) (root : Z) : Prop := {
  tr_pmm : pmm_wf s;
  tr_fits : pmm_fits s;
  tr_frame : ∀ p t, (length p ≤ 3)%nat → Forall idx_ok p →
    walk_path (mem s) root p = Some t → table_frame s t;
  tr_inj : ∀ p q t, (length p ≤ 3)%nat → (length q ≤ 3)%nat → Forall idx_ok p → Forall idx_ok q →
    walk_path (mem s) root p = Some t → walk_path (mem s) root q = Some t → p = q;
}.

(** [vmm_unmap_page] has an empty body; [vmm_flush_tlb] reloads CR3 with its own value. *)
Definition vmm_unmap_page (pml4 vaddr : Z) : M unit := mret tt.

Definition vmm_flush_tlb : M unit :=
  c ← gets (λ s, cr3 (cpu s));
  modify (λ s, set_cpu (mkCpu c (cr2 (cpu s)) (idtr (cpu s)) (gdtr (cpu s)) (iflag (cpu s))) s).

(** Filled pages stay folded in the proofs that follow. *)
#[local] Opaque fill.

(** ** Entries *)

Lemma lor_low_add t f : t mod 4096 = 0 → 0 ≤ f < 4096 → Z.lor t f = t + f.
Proof.
  intros Ht Hf. assert (Z.land t f = 0) as Hl.
  { apply Z.bits_inj'. intros k Hk. rewrite Z.land_spec, Z.bits_0. destruct (decide (k < 12)).
    - replace t with (t / 4096 * 2 ^ 12) by dlia. by rewrite Z.mul_pow2_bits_low by lia.
    - replace f with (f mod 2 ^ 12) by (apply Z.mod_small; lia).
      rewrite Z.mod_pow2_bits_high by lia. apply andb_false_r. }
  pose proof (Z.add_lor_land t f). lia.
Qed.

Lemma frame_of_div e : frame_of e = e / 4096 mod 2 ^ 40 * 4096.
Proof.
  unfold frame_of. change 0xFFFFFFFFFF000 with (Z.shiftl (Z.ones 40) 12).
  rewrite <- Z.land_ones by lia. change (e / 4096) with (e / 2 ^ 12).
  rewrite <- Z.shiftr_div_pow2 by lia. change 4096 with (2 ^ 12).
  rewrite <- Z.shiftl_mul_pow2 by lia.
  apply Z.bits_inj'. intros k Hk. rewrite Z.land_spec, !Z.shiftl_spec, Z.land_spec by lia.
  destruct (decide (k < 12)).
  - rewrite !(Z.testbit_neg_r _ (k - 12)) by lia. rewrite andb_false_r. done.
  - rewrite Z.shiftr_spec by lia. do 2 f_equal. lia.
Qed.

Lemma table_entry t : t mod 4096 = 0 → 0 ≤ t < 2 ^ 52 →
  frame_of (Z.lor t table_flags) = t ∧ present (Z.lor t table_flags) = true ∧
  0 ≤ Z.lor t table_flags < 2 ^ 64.
Proof.
  intros Ht Hr. change table_flags with 7. rewrite lor_low_add by lia. split_and!; [|..|lia|lia].
  - rewrite frame_of_div. dlia.
  - unfold present. apply bool_decide_eq_true_2. rewrite (land_ones_mod _ 1) by done. dlia.
Qed.

Lemma present_0 : present 0 = false.
Proof. done. Qed.

(** Index computations stay inside a table, and two addresses with the same four indices
    are on the same page. *)
Lemma index_div a k : 0 ≤ k → Z.land (Z.shiftr a k) 0x1ff = a / 2 ^ k mod 512.
Proof. intros. rewrite (land_ones_mod _ 9) by done. by rewrite Z.shiftr_div_pow2. Qed.

Lemma indices_div a :
  PML4_INDEX a = a / 2 ^ 39 mod 512 ∧ PDPT_INDEX a = a / 2 ^ 30 mod 512 ∧
  PD_INDEX a = a / 2 ^ 21 mod 512 ∧ PT_INDEX a = a / 2 ^ 12 mod 512.
Proof. unfold PML4_INDEX, PDPT_INDEX, PD_INDEX, PT_INDEX. by rewrite !index_div. Qed.

Lemma indices_ok a :
  idx_ok (PML4_INDEX a) ∧ idx_ok (PDPT_INDEX a) ∧ idx_ok (PD_INDEX a) ∧ idx_ok (PT_INDEX a).
Proof.
  destruct (indices_div a) as (-> & -> & -> & ->). unfold idx_ok.
  split_and!; apply Z.mod_pos_bound; lia.
Qed.

Lemma path_of_ok a : Forall idx_ok (path_of a).
Proof. destruct (indices_ok a) as (? & ? & ? & ?). unfold path_of. auto using Forall_cons_2, Forall_nil_2. Qed.

(** The page of an address of the 48-bit space. *)
Definition page (a : Z) : Z := a / 4096 mod 2 ^ 36.

Lemma indices_page a b :
  path_of a = path_of b ∧ PT_INDEX a = PT_INDEX b ↔ page a = page b.
Proof.
  unfold path_of, page. destruct (indices_div a) as (-> & -> & -> & ->).
  destruct (indices_div b) as (-> & -> & -> & ->). split.
  - intros [[= H1 H2 H3] H4]. dlia.
  - intros H. split; [f_equal; [|f_equal; [|f_equal]]|]; dlia.
Qed.

(** ** Walks and memory changes *)

Section walks.
Implicit Types (m : gmap Z Z) (s : machine).

Lemma walk_path_snoc m t p i :
  walk_path m t (p ++ [i]) = u ← walk_path m t p;
    if present (entry m u i) then Some (frame_of (entry m u i)) else None.
Proof.
  induction p as [|j p IH] in t |- *; [done|]. cbn [app walk_path].
  case_match; [apply IH|done].
Qed.

(** A change of memory that keeps the walked part of every table: [keep] lists the tables. *)
Lemma walk_path_same m m' root p :
  Forall idx_ok p →
  (∀ q u i, (length q < length p)%nat → Forall idx_ok q → idx_ok i →
     walk_path m root q = Some u → entry m' u i = entry m u i) →
  walk_path m' root p = walk_path m root p.
Proof.
  induction p as [|i p IH] using rev_ind; [done|]. intros Hp Hk.
  apply Forall_app in Hp as [Hp Hi]. apply Forall_cons in Hi as [Hi _].
  rewrite length_app in Hk. simpl in Hk.
  rewrite !walk_path_snoc, IH; [|done|intros q u j ????; apply (Hk q); by auto with lia].
  destruct (walk_path m root p) as [u|] eqn:E; [|done]. cbn [mbind option_bind].
  rewrite (Hk p u i); [done|lia|done..].
Qed.

(** Distinct tables do not share bytes. *)
Lemma table_frame_disjoint s t u : table_frame s t → table_frame s u → t ≠ u →
  t + 4096 ≤ u ∨ u + 4096 ≤ t.
Proof. intros (i & -> & _ & _) (j & -> & _ & _) Hne. lia. Qed.

Lemma entry_store_same m t i v : idx_ok i → 0 ≤ v < 2 ^ 64 → entry (store 8 (t + 8 * i) v m) t i = v.
Proof. intros. unfold entry. by rewrite load_store_64. Qed.

(** A store to entry [i] of table [t] leaves the other entries of all tables. *)
Lemma entry_store_other s m t u i j v : table_frame s t → table_frame s u → idx_ok i → idx_ok j →
  (t, i) ≠ (u, j) → entry (store 8 (t + 8 * i) v m) u j = entry m u j.
Proof.
  intros Ht Hu Hi Hj Hne. unfold entry, idx_ok in *. apply load_store_ne.
  destruct (decide (t = u)) as [->|Htu].
  - assert (i ≠ j) by congruence. lia.
  - pose proof (table_frame_disjoint s t u Ht Hu Htu). lia.
Qed.

(** The invariant reads memory and the allocator's variables only. *)
Lemma tree_same s s' root : mem s' = mem s → pmm s' = pmm s → tree s root → tree s' root.
Proof.
  intros Em Ep [[A1 A2 A3] B C D].
  assert (∀ i, used s' i = used s i) as Eu by (intros i; unfold used; by rewrite Em, Ep).
  split.
  - split; rewrite ?Ep; [done..|]. intros i Hi. rewrite Eu. by apply A3.
  - unfold pmm_fits, bitmap_span in *. by rewrite Ep.
  - rewrite Em. intros p t Hp Hpi Hw. destruct (C p t Hp Hpi Hw) as (k & -> & Hk & Hu).
    exists k. rewrite Eu, Ep. done.
  - by rewrite Em.
Qed.

Lemma tree_root_frame s root : tree s root → table_frame s root.
Proof. intros H. apply (tr_frame _ _ H []); [simpl; lia|constructor|done]. Qed.

End walks.

(** ** Adding a table *)

(** [s'] is [s] with a fresh zeroed frame [f] linked at entry [i] of table [t]. *)
Record linked (s s' : machine) (t i f : Z) : Prop := {
  lk_range : 8192 ≤ f < total_blocks (pmm s);
  lk_free : used s f = false;
  lk_used : ∀ j, 0 ≤ j < total_blocks (pmm s) → used s' j = used s j || bool_decide (j = f);
  lk_frame : s' = set_mem (mem s') s;
  lk_entry : entry (mem s') t i = Z.lor (f * 4096) table_flags;
  lk_zero : ∀ j, idx_ok j → entry (mem s') (f * 4096) j = 0;
  lk_other : ∀ u j, table_frame s u → idx_ok j → (t, i) ≠ (u, j) →
    entry (mem s') u j = entry (mem s) u j;
  lk_mem : ∀ x, 0x2000000 ≤ x → ¬ (t ≤ x < t + 4096) → ¬ (f * 4096 ≤ x < f * 4096 + 4096) →
    byte_at (mem s') x = byte_at (mem s) x;
}.

Section link.
Implicit Types (s : machine).

Lemma table_frame_fresh s u f : table_frame s u → used s f = false →
  u + 4096 ≤ f * 4096 ∨ f * 4096 + 4096 ≤ u.
Proof.
  intros (k & -> & Hk & Hu) Hf. assert (k ≠ f) by congruence. lia.
Qed.

Lemma link_intro s s1 t i f : pmm_wf s → pmm_fits s → table_frame s t → idx_ok i →
  allocated s s1 f →
  let m' := store 8 (t + 8 * i) (Z.lor (f * 4096) table_flags) (fill 4096 (f * 4096) 0 (mem s1)) in
  linked s (set_mem m' s1) t i f.
Proof.
  intros Hwf Hfit Ht Hi Hal m'. pose proof (al_range _ _ _ Hal) as Hr.
  pose proof (al_free _ _ _ Hal) as Hf. pose proof (pmm_fits_total _ Hfit).
  pose proof (table_frame_fresh _ _ _ Ht Hf) as Hd. pose proof Ht as (k & Ek & Hk & _).
  destruct (table_entry (f * 4096)) as (_ & _ & He); [dlia|lia|].
  unfold idx_ok in *.
  assert (∀ x, ¬ (t + 8 * i ≤ x < t + 8 * i + 8) → ¬ (f * 4096 ≤ x < f * 4096 + 4096) →
    byte_at m' x = byte_at (mem s1) x) as Hout.
  { intros x H1 H2. unfold m'. rewrite byte_store_out, byte_fill_out by lia. done. }
  assert (pmm s1 = pmm s) as Hp by (by rewrite (al_frame _ _ _ Hal)).
  split; cbn [mem set_mem]; try done.
  - intros j Hj. rewrite <- (al_used _ _ _ Hal) by lia. apply (low_same_used s1).
    + by eapply allocated_wf.
    + by eapply allocated_fits.
    + split; [done|]. intros x Hx. apply Hout; lia.
    + lia.
    + rewrite Hp. lia.
  - by rewrite (al_frame _ _ _ Hal).
  - unfold m'. by rewrite entry_store_same.
  - intros j Hj. unfold entry, m', idx_ok in *. rewrite load_store_ne by lia. by rewrite load_fill_0 by lia.
  - intros u j Hu Hj Hne. unfold m'. rewrite (entry_store_other s) by done.
    pose proof (table_frame_fresh _ _ _ Hu Hf). destruct Hu as (k' & -> & Hk' & _).
    unfold entry, idx_ok in *. rewrite load_fill_ne by lia. symmetry. apply load_ext. intros x Hx. symmetry.
    eapply allocated_high; [done..|lia].
  - intros x Hx H1 H2. rewrite Hout by lia. by eapply allocated_high.
Qed.

Lemma linked_pmm s s' t i f : linked s s' t i f → pmm s' = pmm s.
Proof. intros H. by rewrite (lk_frame _ _ _ _ _ H). Qed.

Lemma linked_wf s s' t i f : pmm_wf s → linked s s' t i f → pmm_wf s'.
Proof.
  intros [H1 H2 H3] Hl. pose proof (lk_range _ _ _ _ _ Hl).
  split; rewrite ?(linked_pmm _ _ _ _ _ Hl); [done..|].
  intros j Hj. rewrite (lk_used _ _ _ _ _ Hl), H3 by lia. done.
Qed.

Lemma linked_table s s' t i f u : linked s s' t i f → table_frame s u → table_frame s' u.
Proof.
  intros Hl (k & -> & Hk & Hu). exists k. rewrite (linked_pmm _ _ _ _ _ Hl).
  split_and!; try done; try lia. by rewrite (lk_used _ _ _ _ _ Hl), Hu by lia.
Qed.

Lemma linked_new_table s s' t i f : linked s s' t i f → table_frame s' (f * 4096).
Proof.
  intros Hl. exists f. pose proof (lk_range _ _ _ _ _ Hl). rewrite (linked_pmm _ _ _ _ _ Hl).
  split_and!; try done; try lia. rewrite (lk_used _ _ _ _ _ Hl) by lia.
  by rewrite bool_decide_eq_true_2, orb_true_r.
Qed.

(** Every walk gives the table it gave before, and the new path gives the new frame. *)
Lemma linked_walk s s' root p t i f q :
  tree s root → (length p ≤ 2)%nat → Forall idx_ok p → idx_ok i →
  walk_path (mem s) root p = Some t → present (entry (mem s) t i) = false →
  linked s s' t i f → (length q ≤ 3)%nat → Forall idx_ok q →
  walk_path (mem s') root q
  = if decide (q = p ++ [i]) then Some (f * 4096) else walk_path (mem s) root q.
Proof.
  intros Ht Hp Hpi Hi Hw Hno Hl.
  pose proof (lk_range _ _ _ _ _ Hl). pose proof (pmm_fits_total _ (tr_fits _ _ Ht)).
  induction q as [|j q IH] using rev_ind; intros Hq Hqi.
  { by rewrite decide_False by (by destruct p). }
  rewrite length_app in Hq. simpl in Hq. apply Forall_app in Hqi as [Hqi Hj].
  apply Forall_cons in Hj as [Hj _]. rewrite !walk_path_snoc, IH by (lia || done).
  destruct (decide (q = p ++ [i])) as [->|Hqp].
  - cbn [mbind option_bind]. rewrite (lk_zero _ _ _ _ _ Hl) by done. rewrite present_0.
    rewrite walk_path_snoc, Hw. cbn [mbind option_bind]. rewrite Hno. cbn [mbind option_bind].
    rewrite decide_False; [done|]. intros E%app_inj_tail. destruct E as [E _].
    apply (f_equal length) in E. rewrite length_app in E. simpl in E. lia.
  - destruct (walk_path (mem s) root q) as [u|] eqn:Hu; cbn [mbind option_bind].
    2:{ rewrite decide_False; [done|]. intros [-> _]%app_inj_tail. congruence. }
    destruct (decide (q ++ [j] = p ++ [i])) as [E|E].
    + apply app_inj_tail in E as [-> ->]. assert (u = t) as -> by congruence.
      rewrite (lk_entry _ _ _ _ _ Hl).
      destruct (table_entry (f * 4096)) as (-> & -> & _); [dlia|lia|done].
    + rewrite (lk_other _ _ _ _ _ Hl); [done|by eapply (tr_frame _ _ Ht q); [lia|..]|done|].
      intros [= -> ->]. apply E. f_equal. eapply (tr_inj _ _ Ht); [lia|lia|done..].
Qed.

(** The invariant and the translations survive the addition of a table. *)
Lemma linked_tree s s' root p t i f :
  tree s root → (length p ≤ 2)%nat → Forall idx_ok p → idx_ok i →
  walk_path (mem s) root p = Some t → present (entry (mem s) t i) = false →
  linked s s' t i f → tree s' root.
Proof.
  intros Ht Hp Hpi Hi Hw Hno Hl. pose proof (linked_pmm _ _ _ _ _ Hl) as Epmm.
  assert (∀ q, (length q ≤ 3)%nat → Forall idx_ok q → walk_path (mem s') root q
    = if decide (q = p ++ [i]) then Some (f * 4096) else walk_path (mem s) root q) as Hwalk
    by (intros q; by apply (linked_walk s s' root p t i f)).
  assert (∀ q u, (length q ≤ 3)%nat → Forall idx_ok q →
    walk_path (mem s) root q = Some u → u ≠ f * 4096) as Hnew.
  { intros q u Hq Hqi Hu ->. pose proof (tr_frame _ _ Ht _ _ Hq Hqi Hu) as Hfr.
    pose proof (table_frame_fresh _ _ _ Hfr (lk_free _ _ _ _ _ Hl)). lia. }
  split.
  - eapply linked_wf; [apply Ht|done].
  - unfold pmm_fits, bitmap_span. rewrite Epmm. apply Ht.
  - intros q u Hq Hqi. rewrite Hwalk by done. case_decide.
    + intros [= <-]. by eapply linked_new_table.
    + intros Hu. eapply linked_table; [done|]. by eapply (tr_frame _ _ Ht).
  - intros q1 q2 u L1 L2 I1 I2. rewrite !Hwalk by done. repeat case_decide; [congruence|..].
    + intros [= <-] H2. by destruct (Hnew _ _ L2 I2 H2).
    + intros H2 [= <-]. by destruct (Hnew _ _ L1 I1 H2).
    + by apply (tr_inj _ _ Ht).
Qed.

Lemma linked_leaf s s' root p t i f q j :
  tree s root → (length p ≤ 2)%nat → Forall idx_ok p → idx_ok i →
  walk_path (mem s) root p = Some t → present (entry (mem s) t i) = false →
  linked s s' t i f → (length q = 3)%nat → Forall idx_ok q → idx_ok j →
  leaf (mem s') root q j = leaf (mem s) root q j.
Proof.
  intros Ht Hp Hpi Hi Hw Hno Hl Hq Hqi Hj. unfold leaf.
  rewrite (linked_walk s s' root p t i f) by (done || lia). case_decide as E.
  - cbn [mbind option_bind]. rewrite (lk_zero _ _ _ _ _ Hl) by done. rewrite present_0.
    subst q. by rewrite walk_path_snoc, Hw; cbn [mbind option_bind]; rewrite Hno.
  - destruct (walk_path (mem s) root q) as [u|] eqn:Hu; [|done]. cbn [mbind option_bind].
    rewrite (lk_other _ _ _ _ _ Hl); [done|by eapply (tr_frame _ _ Ht q); [lia|..]|done|].
    intros [= -> ->]. assert (p = q) by (eapply (tr_inj _ _ Ht); [lia|lia|done..]).
    subst q. lia.
Qed.

End link.

(** ** The steps of [vmm_map_page] *)

(** [s'] has the tables of [s] below [root] and perhaps more; every translation is the same,
    and memory of frames in use that are not tables of [root] is untouched. *)
Record extends (s s' : machine) (root : Z) : Prop := {
  ex_tree : tree s' root;
  ex_leaf : ∀ q j, length q = 3%nat → Forall idx_ok q → idx_ok j →
    leaf (mem s') root q j = leaf (mem s) root q j;
  ex_path : ∀ q u, (length q ≤ 3)%nat → Forall idx_ok q →
    walk_path (mem s) root q = Some u → walk_path (mem s') root q = Some u;
  ex_new : ∀ q u, (length q ≤ 3)%nat → Forall idx_ok q → walk_path (mem s') root q = Some u →
    walk_path (mem s) root q = Some u ∨ used s (u / 4096) = false;
  ex_used : ∀ j, 0 ≤ j < total_blocks (pmm s) → used s j = true → used s' j = true;
  ex_frame : s' = set_cons (cons s') (set_mem (mem s') s);
  ex_mem : ∀ x, 0x2000000 ≤ x → x / 4096 < total_blocks (pmm s) → used s (x / 4096) = true →
    (∀ q u, (length q ≤ 3)%nat → Forall idx_ok q → walk_path (mem s) root q = Some u →
       u ≠ x / 4096 * 4096) →
    byte_at (mem s') x = byte_at (mem s) x;
}.

(** Every frame is taken. *)
Definition full (s : machine) : Prop := ∀ j, 0 ≤ j < total_blocks (pmm s) → used s j = true.

Section map.
Implicit Types (s : machine) (root : Z).

Lemma extends_pmm s s' root : extends s s' root → pmm s' = pmm s.
Proof. intros H. by rewrite (ex_frame _ _ _ H). Qed.

Lemma extends_refl s root : tree s root → extends s s root.
Proof. intros H. split; try done; [intros; by left|by destruct s]. Qed.

Lemma extends_console s s' root : tree s root → console_only s s' → extends s s' root.
Proof.
  intros H Hc. assert (tree s' root) as Ht.
  { apply (tree_same s); [by rewrite Hc..|done]. }
  assert (mem s' = mem s) as Em by (by rewrite Hc).
  split; rewrite ?Em; try done.
  - intros; by left.
  - intros j Hj Hu. unfold used in *. by rewrite Hc.
Qed.

(** A table is fresh for a state when it is fresh for a state that extends it. *)
Lemma fresh_table_trans s1 s2 s3 root q u : extends s1 s2 root → tree s3 root → pmm s3 = pmm s2 →
  (length q ≤ 3)%nat → Forall idx_ok q → walk_path (mem s3) root q = Some u →
  walk_path (mem s2) root q = Some u ∨ used s2 (u / 4096) = false →
  walk_path (mem s1) root q = Some u ∨ used s1 (u / 4096) = false.
Proof.
  intros A Ht Ep Hq Hqi Hu HB.
  pose proof (tr_frame _ _ Ht q u Hq Hqi Hu) as (k & -> & Hk & _).
  rewrite Z.div_mul in * by done. rewrite Ep, (extends_pmm _ _ _ A) in Hk.
  destruct HB as [H|H].
  - pose proof (ex_new _ _ _ A q _ Hq Hqi H) as H'. by rewrite Z.div_mul in H' by done.
  - right. destruct (used s1 k) eqn:E; [|done]. rewrite (ex_used _ _ _ A) in H by (done || lia). done.
Qed.

Lemma extends_trans s1 s2 s3 root : extends s1 s2 root → extends s2 s3 root → extends s1 s3 root.
Proof.
  intros A B. pose proof (extends_pmm _ _ _ A) as EA. split.
  - apply B.
  - intros. by rewrite (ex_leaf _ _ _ B), (ex_leaf _ _ _ A).
  - intros q u ???. apply (ex_path _ _ _ B); [done..|]. by apply (ex_path _ _ _ A).
  - intros q u Hq Hqi Hu. eapply fresh_table_trans; [exact A|apply B|by eapply extends_pmm|done..|].
    by apply (ex_new _ _ _ B).
  - intros j Hj Hu. apply (ex_used _ _ _ B); [by rewrite EA|]. by apply (ex_used _ _ _ A).
  - rewrite (ex_frame _ _ _ B) at 1. rewrite (ex_frame _ _ _ A). done.
  - intros x Hx Hx2 Hu Hnt. rewrite (ex_mem _ _ _ B), (ex_mem _ _ _ A); try done.
    + by rewrite EA.
    + apply (ex_used _ _ _ A); [dlia|done].
    + intros q u Hq Hqi Hw. destruct (ex_new _ _ _ A q u Hq Hqi Hw) as [H|H].
      * by apply (Hnt q).
      * intros ->. rewrite Z.div_mul in H by done. congruence.
Qed.

Lemma linked_extends s s' root p t i f :
  tree s root → (length p ≤ 2)%nat → Forall idx_ok p → idx_ok i →
  walk_path (mem s) root p = Some t → present (entry (mem s) t i) = false →
  linked s s' t i f →
  extends s s' root ∧ walk_path (mem s') root (p ++ [i]) = Some (f * 4096).
Proof.
  intros Ht Hp Hpi Hi Hw Hno Hl.
  assert (walk_path (mem s) root (p ++ [i]) = None) as Hnone.
  { rewrite walk_path_snoc, Hw. cbn [mbind option_bind]. by rewrite Hno. }
  pose proof (lk_range _ _ _ _ _ Hl).
  split; [split|].
  - by eapply (linked_tree s).
  - intros q j ???. by apply (linked_leaf s s' root p t i f).
  - intros q u Hq Hqi Hu. rewrite (linked_walk s s' root p t i f) by done.
    by rewrite decide_False by congruence.
  - intros q u Hq Hqi. rewrite (linked_walk s s' root p t i f) by done.
    case_decide; [|by left]. intros [= <-]. right. rewrite Z.div_mul by done. apply Hl.
  - intros j Hj Hu. by rewrite (lk_used _ _ _ _ _ Hl), Hu.
  - rewrite (lk_frame _ _ _ _ _ Hl). by destruct s.
  - intros x Hx Hx2 Hu Hnt. apply (lk_mem _ _ _ _ _ Hl); [done|..].
    + pose proof (Hnt p t ltac:(lia) Hpi Hw) as Hne.
      destruct (tr_frame _ _ Ht p t ltac:(lia) Hpi Hw) as (k & -> & _ & _). intros Hin.
      apply Hne. dlia.
    + intros Hin. pose proof (lk_free _ _ _ _ _ Hl) as Hf.
      replace (x / 4096) with f in Hu by dlia. congruence.
  - rewrite (linked_walk s s' root p t i f); [by rewrite decide_True|done..| |].
    + rewrite length_app. simpl. lia.
    + by apply Forall_app_2; [|constructor].
Qed.

Lemma next_table_wp n s root p t i (Q : option Z → machine → Prop) :
  tree s root → (length p ≤ 2)%nat → Forall idx_ok p → idx_ok i →
  walk_path (mem s) root p = Some t →
  (∀ t' s', extends s s' root → walk_path (mem s') root (p ++ [i]) = Some t' → Q (Some t') s') →
  (∀ s', extends s s' root → full s' → Q None s') →
  wp (next_table t i) n s Q.
Proof.
  intros Ht Hp Hpi Hi Hw Hok Hfull. unfold next_table, get_entry, put_entry. wp_steps.
  change (load 8 (mem s) (t + 8 * i)) with (entry (mem s) t i).
  pose proof (tr_frame _ _ Ht p t ltac:(lia) Hpi Hw) as Htf.
  case_decide as Hno.
  - apply wp_bind, alloc_frame_wp; [apply Ht| |].
    + intros f s1 Hal. pose proof (al_range _ _ _ Hal).
      pose proof (pmm_fits_total _ (tr_fits _ _ Ht)). rewrite decide_False by lia.
      unfold memset. wp_steps. cbn [mem set_mem].
      pose proof (link_intro s s1 t i f (tr_pmm _ _ Ht) (tr_fits _ _ Ht) Htf Hi Hal) as Hl.
      cbv zeta in Hl. change (Z.to_nat PAGE_SIZE) with 4096%nat in *.
      destruct (table_entry (f * 4096)) as (Ef & _ & He); [dlia|lia|].
      assert (present (entry (mem s) t i) = false) as Hno'
        by (apply bool_decide_eq_false_2; intros Hx; by apply Hx).
      destruct (linked_extends _ _ _ _ _ _ _ Ht Hp Hpi Hi Hw Hno' Hl) as [Hex Hw'].
      rewrite load_store_64 by done. rewrite Ef. by apply Hok.
    + intros s' Hall Hc. rewrite decide_True by done. wp_steps.
      apply Hfull; [by apply extends_console|]. unfold full, used in *. rewrite Hc. done.
  - wp_steps. change (load 8 (mem s) (t + 8 * i)) with (entry (mem s) t i).
    apply Hok; [by apply extends_refl|]. rewrite walk_path_snoc, Hw. cbn [mbind option_bind].
    unfold present. by rewrite bool_decide_eq_true_2.
Qed.

(** [s'] is [s] with the page of [va] mapped by the entry [e]. *)
Record mapped (s s' : machine) (root va e : Z) : Prop := {
  mp_tree : tree s' root;
  mp_walk : ∀ va', walk (mem s') root va'
    = if decide (page va' = page va) then Some e else walk (mem s) root va';
  mp_path : ∀ q u, (length q ≤ 3)%nat → Forall idx_ok q →
    walk_path (mem s) root q = Some u → walk_path (mem s') root q = Some u;
  mp_new : ∀ q u, (length q ≤ 3)%nat → Forall idx_ok q → walk_path (mem s') root q = Some u →
    walk_path (mem s) root q = Some u ∨ used s (u / 4096) = false;
  mp_used : ∀ j, 0 ≤ j < total_blocks (pmm s) → used s j = true → used s' j = true;
  mp_frame : s' = set_cons (cons s') (set_mem (mem s') s);
  mp_mem : ∀ x, 0x2000000 ≤ x → x / 4096 < total_blocks (pmm s) → used s (x / 4096) = true →
    (∀ q u, (length q ≤ 3)%nat → Forall idx_ok q → walk_path (mem s) root q = Some u →
       u ≠ x / 4096 * 4096) →
    byte_at (mem s') x = byte_at (mem s) x;
}.

(** The write of a last-level entry. *)
Lemma leaf_store_paths s root p pt i v q :
  tree s root → length p = 3%nat → Forall idx_ok p → idx_ok i →
  walk_path (mem s) root p = Some pt → (length q ≤ 3)%nat → Forall idx_ok q →
  walk_path (store 8 (pt + 8 * i) v (mem s)) root q = walk_path (mem s) root q.
Proof.
  intros Ht Hp Hpi Hi Hw Hq Hqi. apply walk_path_same; [done|]. intros r u j Hr Hri Hj Hu.
  apply (entry_store_other s); try done.
  - by eapply (tr_frame _ _ Ht p); [lia|..].
  - by eapply (tr_frame _ _ Ht r); [lia|..].
  - intros [= -> ->]. assert (p = r) by (eapply (tr_inj _ _ Ht); [lia|lia|done..]). subst. lia.
Qed.

Lemma leaf_store s root va pt e :
  tree s root → walk_path (mem s) root (path_of va) = Some pt → 0 ≤ e < 2 ^ 64 → present e = true →
  mapped s (set_mem (store 8 (pt + 8 * PT_INDEX va) e (mem s)) s) root va e.
Proof.
  intros Ht Hw He Hpe. pose proof (indices_ok va) as (_ & _ & _ & Hi).
  pose proof (tr_frame _ _ Ht (path_of va) pt ltac:(simpl; lia) (path_of_ok va) Hw) as Hpt.
  pose proof Hpt as (k & Ek & Hk & Hku). unfold idx_ok in Hi. pose proof (path_of_ok va).
  set (m' := store 8 (pt + 8 * PT_INDEX va) e (mem s)).
  assert (∀ q, (length q ≤ 3)%nat → Forall idx_ok q → walk_path m' root q = walk_path (mem s) root q)
    as Hpaths by (intros q ??; by apply (leaf_store_paths s root (path_of va))).
  assert (low_same s (set_mem m' s)) as Hls.
  { split; [done|]. intros x Hx. apply byte_store_out. lia. }
  destruct (low_same_wf _ _ (tr_pmm _ _ Ht) (tr_fits _ _ Ht) Hls) as [Hwf Hfit].
  assert (∀ j, 0 ≤ j < total_blocks (pmm s) → used (set_mem m' s) j = used s j) as Hused.
  { intros j Hj. apply low_same_used; [apply Ht..|done|lia|lia]. }
  split; change (mem (set_mem m' s)) with m'.
  - split; change (mem (set_mem m' s)) with m'; [done..| |].
    + intros q u Hq Hqi. rewrite Hpaths by done. intros Hu.
      destruct (tr_frame _ _ Ht q u Hq Hqi Hu) as (l & -> & Hl & Hlu).
      exists l. split; [done|]. split; [exact Hl|]. by rewrite Hused by lia.
    + intros q r u Hq Hr Hqi Hri. rewrite !Hpaths by done. by apply (tr_inj _ _ Ht).
  - intros va'. unfold walk, leaf. rewrite Hpaths by (apply path_of_ok || (simpl; lia)).
    pose proof (indices_ok va') as (_ & _ & _ & Hi').
    case_decide as E.
    + apply indices_page in E as [-> ->]. rewrite Hw. cbn [mbind option_bind]. unfold m'.
      by rewrite entry_store_same, Hpe by done.
    + destruct (walk_path (mem s) root (path_of va')) as [u|] eqn:Hu; [|done].
      cbn [mbind option_bind]. unfold m'. rewrite (entry_store_other s); try done.
      * by eapply (tr_frame _ _ Ht (path_of va')); [simpl; lia|apply path_of_ok|].
      * intros [= -> HI]. apply E. apply indices_page. split; [|done].
        eapply (tr_inj _ _ Ht); [simpl; lia|simpl; lia|apply path_of_ok|apply path_of_ok|done..].
  - intros q u Hq Hqi Hu. by rewrite Hpaths.
  - intros q u Hq Hqi. rewrite Hpaths by done. by left.
  - intros j Hj Hu. by rewrite Hused.
  - by destruct s.
  - intros x Hx Hx2 Hu Hnt. apply byte_store_out. intros Hin.
    apply (Hnt (path_of va) pt); [simpl; lia|apply path_of_ok|done|]. subst pt. dlia.
Qed.

Lemma extends_mapped s1 s2 s3 root va e :
  extends s1 s2 root → mapped s2 s3 root va e → mapped s1 s3 root va e.
Proof.
  intros A B. pose proof (extends_pmm _ _ _ A) as EA. split.
  - apply B.
  - intros va'. rewrite (mp_walk _ _ _ _ _ B). case_decide; [done|].
    apply (ex_leaf _ _ _ A); [done|apply path_of_ok|apply indices_ok].
  - intros q u Hq Hqi Hu. apply (mp_path _ _ _ _ _ B); [done..|]. by apply (ex_path _ _ _ A).
  - intros q u Hq Hqi Hu. eapply fresh_table_trans; [exact A|apply B| |done..|by apply (mp_new _ _ _ _ _ B)].
    by rewrite (mp_frame _ _ _ _ _ B).
  - intros j Hj Hu. apply (mp_used _ _ _ _ _ B); [by rewrite EA|]. by apply (ex_used _ _ _ A).
  - rewrite (mp_frame _ _ _ _ _ B) at 1. rewrite (ex_frame _ _ _ A). done.
  - intros x Hx Hx2 Hu Hnt. rewrite (mp_mem _ _ _ _ _ B), (ex_mem _ _ _ A); try done.
    + by rewrite EA.
    + apply (ex_used _ _ _ A); [dlia|done].
    + intros q u Hq Hqi Hw. destruct (ex_new _ _ _ A q u Hq Hqi Hw) as [H|H].
      * by apply (Hnt q).
      * intros ->. rewrite Z.div_mul in H by done. congruence.
Qed.

(** Flags a leaf entry may carry: present, and nothing in the address field. *)
Definition flags_ok (f : Z) : Prop := 0 ≤ f < 2 ^ 64 ∧ frame_of f = 0 ∧ present f = true.

Lemma leaf_entry pa f : flags_ok f → let e := Z.lor (frame_of pa) f in
  0 ≤ e < 2 ^ 64 ∧ present e = true ∧ frame_of e = frame_of pa.
Proof.
  intros (Hf & Hff & Hp) e. pose proof (frame_of_div pa) as Hd.
  assert (0 ≤ frame_of pa < 2 ^ 64) as Hr by (rewrite Hd; dlia).
  split_and!.
  - apply Z.lor_nonneg. lia.
  - destruct (decide (e = 0)) as [->|He]; [done|].
    assert (0 ≤ e) by (apply Z.lor_nonneg; lia). apply Z.log2_lt_pow2; [lia|].
    unfold e. rewrite Z.log2_lor by lia. apply Z.max_lub_lt.
    + destruct (decide (frame_of pa = 0)) as [->|]; [done|]. apply Z.log2_lt_pow2; lia.
    + destruct (decide (f = 0)) as [->|]; [done|]. apply Z.log2_lt_pow2; lia.
  - apply bool_decide_eq_true in Hp. apply bool_decide_eq_true_2. unfold e.
    intros E. apply Hp. rewrite Z.land_lor_distr_l in E. by apply Z.lor_eq_0_iff in E as [_ ?].
  - unfold e, frame_of. rewrite Z.land_lor_distr_l. fold (frame_of f). rewrite Hff, Z.lor_0_r.
    rewrite <- Z.land_assoc. done.
Qed.

Lemma vmm_map_page_wp n s root va pa flags (Q : unit → machine → Prop) :
  tree s root → flags_ok flags →
  (∀ s', mapped s s' root va (Z.lor (frame_of pa) flags) → Q tt s') →
  (∀ s', extends s s' root → full s' → Q tt s') →
  wp (vmm_map_page root va pa flags) n s Q.
Proof.
  intros Ht Hfl Hok Hfull. pose proof (indices_ok va) as (I4 & I3 & I2 & I1).
  unfold vmm_map_page.
  apply wp_bind, (next_table_wp _ _ root []); [done|simpl; lia|done|done|done| |].
  2:{ intros s' Hex Hfu. apply wp_ret. by apply Hfull. }
  intros pdpt s1 Hx1 Hw1. cbn [app] in Hw1.
  apply wp_bind, (next_table_wp _ _ root [PML4_INDEX va]);
    [apply Hx1|simpl; lia|by constructor|done|done| |].
  2:{ intros s' Hex Hfu. apply wp_ret. apply Hfull; [by eapply extends_trans|done]. }
  intros pd s2 Hx2 Hw2. cbn [app] in Hw2.
  apply wp_bind, (next_table_wp _ _ root [PML4_INDEX va; PDPT_INDEX va]);
    [apply Hx2|simpl; lia|by repeat (constructor; [done|])|done|done| |].
  2:{ intros s' Hex Hfu. apply wp_ret. apply Hfull; [|done].
      eapply extends_trans; [done|]. by eapply extends_trans. }
  intros pt s3 Hx3 Hw3. cbn [app] in Hw3. unfold put_entry. apply wp_modify, Hok.
  destruct (leaf_entry pa flags Hfl) as (He & Hpe & _).
  eapply extends_mapped; [exact Hx1|]. eapply extends_mapped; [exact Hx2|].
  eapply extends_mapped; [exact Hx3|]. apply leaf_store; [apply Hx3|done..].
Qed.

End map.

(** ** New roots *)

(** [s'] is [s] with the frame [f] allocated and zeroed. *)
Record zeroed (s s' : machine) (f : Z) : Prop := {
  ze_range : 8192 ≤ f < total_blocks (pmm s);
  ze_free : used s f = false;
  ze_used : ∀ j, 0 ≤ j < total_blocks (pmm s) → used s' j = used s j || bool_decide (j = f);
  ze_wf : pmm_wf s';
  ze_fits : pmm_fits s';
  ze_frame : s' = set_mem (mem s') s;
  ze_zero : ∀ j, idx_ok j → entry (mem s') (f * 4096) j = 0;
  ze_mem : ∀ x, 0x2000000 ≤ x → ¬ (f * 4096 ≤ x < f * 4096 + 4096) →
    byte_at (mem s') x = byte_at (mem s) x;
}.

Section roots.
Implicit Types (s : machine).

Lemma zeroed_intro s s1 f : pmm_wf s → pmm_fits s → allocated s s1 f →
  zeroed s (set_mem (fill 4096 (f * 4096) 0 (mem s1)) s1) f.
Proof.
  intros Hwf Hfit Hal. pose proof (al_range _ _ _ Hal) as Hr.
  set (m' := fill 4096 (f * 4096) 0 (mem s1)).
  assert (pmm s1 = pmm s) as Hp by (by rewrite (al_frame _ _ _ Hal)).
  assert (low_same s1 (set_mem m' s1)) as Hls.
  { split; [done|]. intros x Hx. apply byte_fill_out. lia. }
  pose proof (allocated_wf _ _ _ Hwf Hal) as Hwf1. pose proof (allocated_fits _ _ _ Hfit Hal) as Hfit1.
  destruct (low_same_wf _ _ Hwf1 Hfit1 Hls) as [Hwf2 Hfit2].
  split; try done; change (mem (set_mem m' s1)) with m'.
  - apply Hal.
  - intros j Hj. rewrite (low_same_used s1), (al_used _ _ _ Hal); try done; try lia. rewrite Hp. lia.
  - by rewrite (al_frame _ _ _ Hal).
  - intros j Hj. unfold entry, m', idx_ok in *. by rewrite load_fill_0 by lia.
  - intros x Hx Hx2. unfold m'. rewrite byte_fill_out by lia. by eapply allocated_high.
Qed.

Lemma zeroed_entry s s' f u j : zeroed s s' f → table_frame s u → idx_ok j →
  entry (mem s') u j = entry (mem s) u j.
Proof.
  intros Hz Hu Hj. pose proof (table_frame_fresh _ _ _ Hu (ze_free _ _ _ Hz)).
  destruct Hu as (k & -> & Hk & _). unfold idx_ok in Hj. symmetry. apply load_ext. intros x Hx.
  symmetry. apply (ze_mem _ _ _ Hz); lia.
Qed.

Lemma zeroed_table s s' f u : zeroed s s' f → table_frame s u → table_frame s' u.
Proof.
  intros Hz (k & -> & Hk & Hu). exists k.
  assert (pmm s' = pmm s) as -> by (by rewrite (ze_frame _ _ _ Hz)).
  split; [done|]. split; [done|]. by rewrite (ze_used _ _ _ Hz), Hu by lia.
Qed.

Lemma zeroed_new_table s s' f : zeroed s s' f → table_frame s' (f * 4096).
Proof.
  intros Hz. exists f. pose proof (ze_range _ _ _ Hz).
  assert (pmm s' = pmm s) as -> by (by rewrite (ze_frame _ _ _ Hz)).
  split; [done|]. split; [done|]. rewrite (ze_used _ _ _ Hz) by lia.
  by rewrite bool_decide_eq_true_2, orb_true_r.
Qed.

(** A zeroed root translates nothing. *)
Lemma zeroed_walk s s' f i p : zeroed s s' f → idx_ok i →
  walk_path (mem s') (f * 4096) (i :: p) = None.
Proof. intros Hz Hi. cbn [walk_path]. by rewrite (ze_zero _ _ _ Hz). Qed.

Lemma zeroed_tree s s' f : zeroed s s' f → tree s' (f * 4096).
Proof.
  intros Hz. split; [apply Hz..| |].
  - intros [|i p] t Hp Hpi; [intros [= <-]; by eapply zeroed_new_table|].
    apply Forall_cons in Hpi as [Hi _]. by rewrite (zeroed_walk s) by done.
  - intros [|i p] [|j q] t _ _ Hp Hq; [done|..].
    + apply Forall_cons in Hq as [Hj _]. by rewrite (zeroed_walk s _ _ j) by done.
    + apply Forall_cons in Hp as [Hi _]. by rewrite (zeroed_walk s _ _ i) by done.
    + apply Forall_cons in Hp as [Hi _]. by rewrite (zeroed_walk s _ _ i) by done.
Qed.

(** Trees of other roots survive. *)
Lemma zeroed_path s s' f root p : zeroed s s' f → tree s root → (length p ≤ 3)%nat →
  Forall idx_ok p → walk_path (mem s') root p = walk_path (mem s) root p.
Proof.
  intros Hz Ht Hp Hpi. apply walk_path_same; [done|]. intros q u i Hq Hqi Hi Hu.
  eapply zeroed_entry; [done| |done]. by eapply (tr_frame _ _ Ht q); [lia|..].
Qed.

(** ** The user root: entry 0 of the kernel's root, nothing else *)

(** [p] is a root that shares entry 0 with [k]. *)
Record shares (s : machine) (k p : Z) : Prop := {
  sh_kernel : tree s k;
  sh_user : tree s p;
  sh_entry : entry (mem s) p 0 = entry (mem s) k 0;
  sh_present : present (entry (mem s) k 0) = true;
  sh_apart : ∀ q, (length q ≤ 3)%nat → Forall idx_ok q → walk_path (mem s) p q ≠ Some k;
}.

Lemma shares_walk s k p va : shares s k p → PML4_INDEX va = 0 →
  walk (mem s) p va = walk (mem s) k va.
Proof.
  intros Hs Hi. unfold walk, leaf, path_of. rewrite Hi. cbn [walk_path].
  by rewrite (sh_entry _ _ _ Hs).
Qed.

Lemma walk_0_user m p k i r : entry m p 0 = entry m k 0 →
  (∀ j, idx_ok j → j ≠ 0 → entry m p j = 0) → idx_ok i →
  walk_path m p (i :: r) = if decide (i = 0) then walk_path m k (0 :: r) else None.
Proof.
  intros H0 Hz Hi. cbn [walk_path]. case_decide as E; [by subst i; rewrite H0|].
  by rewrite Hz.
Qed.

(** The memory of the new root [f]: the kernel's entry 0 in a zeroed frame. *)
Definition root_mem s s1 f k : gmap Z Z := store 8 (f * 4096 + 8 * 0) (entry (mem s) k 0) (mem s1).

(** Its entries are the kernel's entry 0 and zeros; the other tables are untouched. *)
Lemma user_root_entries s s1 f k : tree s k → zeroed s s1 f →
  (∀ u j, table_frame s u → idx_ok j → entry (root_mem s s1 f k) u j = entry (mem s) u j) ∧
  entry (root_mem s s1 f k) (f * 4096) 0 = entry (mem s) k 0 ∧
  (∀ j, idx_ok j → j ≠ 0 → entry (root_mem s s1 f k) (f * 4096) j = 0).
Proof.
  intros Ht Hz. assert (idx_ok 0) as H0 by (unfold idx_ok; lia).
  assert (0 ≤ entry (mem s) k 0 < 2 ^ 64) as He by apply (load_range 8).
  pose proof (zeroed_new_table _ _ _ Hz) as Hnew. unfold root_mem. split_and!.
  - intros u j Hu Hj. rewrite (entry_store_other s1); try done.
    + by eapply zeroed_entry.
    + by eapply zeroed_table.
    + pose proof (table_frame_fresh _ _ _ Hu (ze_free _ _ _ Hz)). intros [= <- _]. lia.
  - by rewrite entry_store_same.
  - intros j Hj Hj0. rewrite (entry_store_other s1); try done; [|congruence]. by apply (ze_zero _ _ _ Hz).
Qed.

(** Its paths are the empty one and the kernel's through entry 0. *)
Lemma user_root_walks s s1 f k : tree s k → zeroed s s1 f →
  (∀ q, (length q ≤ 3)%nat → Forall idx_ok q → walk_path (root_mem s s1 f k) k q = walk_path (mem s) k q) ∧
  (∀ q u, (length q ≤ 3)%nat → Forall idx_ok q → walk_path (root_mem s s1 f k) (f * 4096) q = Some u →
     q = [] ∧ u = f * 4096 ∨ ∃ r, q = 0 :: r ∧ walk_path (mem s) k q = Some u).
Proof.
  intros Ht Hz. destruct (user_root_entries s s1 f k Ht Hz) as (Hent & E0 & Ez).
  assert (∀ q, (length q ≤ 3)%nat → Forall idx_ok q →
    walk_path (root_mem s s1 f k) k q = walk_path (mem s) k q) as Hk.
  { intros q Hq Hqi. apply walk_path_same; [done|]. intros r u j Hr Hri Hj Hu.
    apply Hent; [|done]. by eapply (tr_frame _ _ Ht r); [lia|..]. }
  split; [done|]. intros [|i r] u Hl Hi; [intros [= <-]; by left|].
  pose proof (Forall_inv Hi) as Hi0. rewrite (walk_0_user _ _ k); [|..|done].
  - case_decide; [|done]. subst i. rewrite Hk by done. intros. right. eauto.
  - rewrite E0. symmetry. apply Hent; [by apply tree_root_frame|unfold idx_ok; lia].
  - exact Ez.
Qed.

Lemma user_root_shares s s1 f k : tree s k → present (entry (mem s) k 0) = true →
  zeroed s s1 f → shares (set_mem (root_mem s s1 f k) s1) k (f * 4096).
Proof.
  intros Ht Hpr Hz. pose proof (ze_range _ _ _ Hz) as Hf. assert (idx_ok 0) as H0 by (unfold idx_ok; lia).
  destruct (user_root_entries s s1 f k Ht Hz) as (Hent & E0 & _).
  destruct (user_root_walks s s1 f k Ht Hz) as (Hk & Hcases).
  pose proof (zeroed_new_table _ _ _ Hz) as Hnew. pose proof (tree_root_frame _ _ Ht) as Hkf.
  assert (low_same s1 (set_mem (root_mem s s1 f k) s1)) as Hls.
  { split; [done|]. intros x Hx. apply byte_store_out. lia. }
  destruct (low_same_wf _ _ (ze_wf _ _ _ Hz) (ze_fits _ _ _ Hz) Hls) as [Hwf Hfit].
  assert (pmm s1 = pmm s) as Hp by (by rewrite (ze_frame _ _ _ Hz)).
  assert (∀ u, table_frame s1 u → table_frame (set_mem (root_mem s s1 f k) s1) u) as Htf.
  { intros u (l & -> & Hl & Hu). exists l. split; [done|]. split; [exact Hl|].
    rewrite (low_same_used s1) by (done || apply Hz || lia). done. }
  assert (∀ q u, (length q ≤ 3)%nat → Forall idx_ok q → walk_path (mem s) k q = Some u →
    table_frame (set_mem (root_mem s s1 f k) s1) u ∧ u ≠ f * 4096) as Hnf.
  { intros q u Hq Hqi Hw. pose proof (tr_frame _ _ Ht _ _ Hq Hqi Hw) as Hfr.
    pose proof (table_frame_fresh _ _ _ Hfr (ze_free _ _ _ Hz)).
    split; [by eapply Htf, zeroed_table|lia]. }
  split; cbn [mem set_mem].
  - split; cbn [mem set_mem]; [done..| |]; intros q; intros; rewrite !Hk in * by done;
      [by eapply Hnf|by eapply (tr_inj _ _ Ht)].
  - split; cbn [mem set_mem]; [done..| |].
    + intros q u Hq Hqi Hw. destruct (Hcases q u Hq Hqi Hw) as [[_ ->]|(r & _ & Hw')];
        [by apply Htf|by eapply Hnf].
    + intros q r u Hq Hr Hqi Hri W1 W2.
      destruct (Hcases q u Hq Hqi W1) as [[-> ->]|(q' & -> & W1')];
        destruct (Hcases r _ Hr Hri W2) as [[-> E]|(r' & -> & W2')]; try done.
      * by destruct (Hnf _ _ Hr Hri W2').
      * subst u. by destruct (Hnf _ _ Hq Hqi W1').
      * by eapply (tr_inj _ _ Ht).
  - rewrite E0. symmetry. by apply Hent.
  - by rewrite Hent.
  - intros q Hq Hqi Hw. destruct (Hcases q k Hq Hqi Hw) as [[_ E]|(r & -> & Hw')].
    + pose proof (table_frame_fresh _ _ _ Hkf (ze_free _ _ _ Hz)). lia.
    + assert (0 :: r = []) by (eapply (tr_inj _ _ Ht); [done|simpl; lia|done|constructor|done..]).
      done.
Qed.

End roots.

(** Mapping through the user root keeps the two roots joined at entry 0. *)
Lemma shares_mapped s s' k p va e va' : shares s k p → mapped s s' p va e →
  PML4_INDEX va' = 0 → walk (mem s') p va' = walk (mem s') k va'.
Proof.
  intros Hs Hm Hi. assert (idx_ok 0) as H0 by (unfold idx_ok; lia).
  set (u := frame_of (entry (mem s) k 0)).
  assert (walk_path (mem s') p [0] = Some u) as Hp.
  { apply (mp_path _ _ _ _ _ Hm); [simpl; lia|by constructor|]. cbn [walk_path].
    by rewrite (sh_entry _ _ _ Hs), (sh_present _ _ _ Hs). }
  assert (entry (mem s') k 0 = entry (mem s) k 0) as Hk.
  { pose proof (tree_root_frame _ _ (sh_kernel _ _ _ Hs)) as (i & -> & Hi' & Hu).
    symmetry. apply load_ext. intros x Hx. symmetry.
    assert (x / 4096 = i) as E by dlia.
    apply (mp_mem _ _ _ _ _ Hm); rewrite ?E; [lia|lia|done|].
    intros q t Hq Hqi Hw ->. by apply (sh_apart _ _ _ Hs q). }
  unfold walk, leaf, path_of. rewrite Hi. cbn [walk_path] in *. rewrite Hk, (sh_present _ _ _ Hs).
  destruct (present (entry (mem s') p 0)); [|done]. injection Hp as ->. done.
Qed.

(** ** [vmm_create_user_pml4] and [vmm_init] *)

Lemma create_user_wp n s k (Q : Z → machine → Prop) :
  tree s k → kernel_pml4 (vmm s) = k → present (entry (mem s) k 0) = true →
  (∀ p s', shares s' k p → p ≠ 0 → kernel_pml4 (vmm s') = k →
     (∀ va, PML4_INDEX va ≠ 0 → walk (mem s') p va = None) →
     (∀ va, walk (mem s') k va = walk (mem s) k va) → Q p s') →
  (∀ s', full s' → Q 0 s') →
  wp vmm_create_user_pml4 n s Q.
Proof.
  intros Ht Hk Hpr Hok Hfull. unfold vmm_create_user_pml4, get_entry, put_entry, memset.
  apply wp_bind, alloc_frame_wp; [apply Ht| |].
  2:{ intros s' Hall Hc. rewrite decide_True by done. apply wp_ret, Hfull.
      unfold full, used in *. rewrite Hc. done. }
  intros f s1 Hal. pose proof (al_range _ _ _ Hal). rewrite decide_False by lia. wp_steps.
  pose proof (zeroed_intro _ _ _ (tr_pmm _ _ Ht) (tr_fits _ _ Ht) Hal) as Hz.
  change (Z.to_nat PAGE_SIZE) with 4096%nat. set (s2 := set_mem _ s1) in *. clearbody s2.
  assert (vmm s2 = vmm s) as Ev by (by rewrite (ze_frame _ _ _ Hz)). rewrite Ev, Hk.
  assert (idx_ok 0) as H0 by (unfold idx_ok; lia).
  change (load 8 (mem s2) (k + 8 * 0)) with (entry (mem s2) k 0).
  pose proof (tree_root_frame _ _ Ht) as Hkf. rewrite (zeroed_entry _ _ _ _ _ Hz Hkf H0).
  pose proof (user_root_shares s s2 f k Ht Hpr Hz) as Hsh.
  assert (∀ u j, table_frame s u → idx_ok j →
    entry (store 8 (f * 4096 + 8 * 0) (entry (mem s) k 0) (mem s2)) u j = entry (mem s) u j) as Hent.
  { intros u j Hu Hj. rewrite (entry_store_other s2); try done.
    - by eapply zeroed_entry.
    - by eapply zeroed_new_table.
    - by eapply zeroed_table.
    - pose proof (table_frame_fresh _ _ _ Hu (ze_free _ _ _ Hz)). intros [= <- _]. lia. }
  apply Hok; [exact Hsh|lia|rewrite <- Hk; exact (f_equal kernel_pml4 Ev)| |].
  - intros va Hva. pose proof (indices_ok va) as (Hi & _). unfold walk, leaf, path_of.
    cbn [walk_path mem set_mem]. rewrite (entry_store_other s2); [|by eapply zeroed_new_table..|done|done|congruence].
    by rewrite (ze_zero _ _ _ Hz).
  - intros va. unfold walk, leaf. cbn [mem set_mem]. pose proof (path_of_ok va) as Hpo.
    rewrite (walk_path_same (mem s)); [|done|].
    + destruct (walk_path (mem s) k (path_of va)) as [u|] eqn:Hu; [|done]. cbn [mbind option_bind].
      rewrite Hent; [done| |apply indices_ok]. by eapply (tr_frame _ _ Ht (path_of va)); [simpl; lia|..].
    + intros q u j Hq Hqi Hj Hu. apply Hent; [|done]. simpl in Hq.
      by eapply (tr_frame _ _ Ht q); [lia|..].
Qed.

(** The entry the identity map has for an address. *)
Definition identity_entry (va : Z) : Z := Z.lor (frame_of (va / 4096 * 4096)) table_flags.

Definition init_progress (root : Z) (i : Z) (s : machine) : Prop :=
  tree s root ∧ kernel_pml4 (vmm s) = root ∧
  (full s ∨ ∀ va, 0 ≤ va < 2 ^ 48 →
     walk (mem s) root va = if decide (va / 4096 < i) then Some (identity_entry va) else None).

Lemma init_progress_step n root i s : 0 ≤ i < 131072 → init_progress root i s →
  wp (k ← gets (λ s, kernel_pml4 (vmm s)); vmm_map_page k (i * PAGE_SIZE) (i * PAGE_SIZE) table_flags)
    n s (λ _, init_progress root (i + 1)).
Proof.
  intros Hi (Ht & Hk & Hw). wp_steps. rewrite Hk. unfold PAGE_SIZE.
  apply vmm_map_page_wp; [done|by vm_compute|..]; intros s' H.
  - split; [apply H|]. split; [by rewrite (mp_frame _ _ _ _ _ H)|].
    destruct Hw as [Hw|Hw].
    + left. intros j. rewrite (mp_frame _ _ _ _ _ H) at 1. intros Hj.
      apply (mp_used _ _ _ _ _ H); [done|by apply Hw].
    + right. intros va Hva. rewrite (mp_walk _ _ _ _ _ H). unfold page.
      destruct (decide (va / 4096 = i)) as [E|E].
      * rewrite !decide_True by dlia. unfold identity_entry. by rewrite E.
      * rewrite decide_False by dlia. rewrite Hw by done.
        destruct (decide (va / 4096 < i)); [by rewrite decide_True by lia|by rewrite decide_False by lia].
  - intros Hf. split; [apply H|]. split; [by rewrite (ex_frame _ _ _ H)|by left].
Qed.

Lemma map_pages : Z.of_nat (Z.to_nat (identity_map_end / PAGE_SIZE)) = 131072.
Proof. by rewrite Z2Nat.id. Qed.

Lemma vmm_init_wp n s (Q : unit → machine → Prop) :
  pmm_wf s → pmm_fits s → (∃ j, 0 ≤ j < total_blocks (pmm s) ∧ used s j = false) →
  (∀ s', init_progress (kernel_pml4 (vmm s')) 131072 s' → current_pml4 (vmm s') = kernel_pml4 (vmm s') →
     cr3 (cpu s') = kernel_pml4 (vmm s') → Q tt s') →
  wp vmm_init n s Q.
Proof.
  intros Hwf Hfit (j & Hj & Hfree) HQ. unfold vmm_init.
  apply wp_bind, alloc_frame_wp; [done| |].
  2:{ intros s' Hall. exfalso. rewrite Hall in Hfree by exact Hj. discriminate. }
  intros f s1 Hal. pose proof (al_range _ _ _ Hal). unfold memset. wp_steps. cbn [mem set_vmm].
  change (Z.to_nat PAGE_SIZE) with 4096%nat.
  pose proof (zeroed_intro _ _ _ Hwf Hfit Hal) as Hz.
  set (m2 := fill 4096 (f * 4096) 0 (mem s1)) in *.
  set (s2 := set_mem m2 (set_vmm _ s1)).
  assert (tree s2 (f * 4096)) as Ht2.
  { eapply tree_same; [..|exact (zeroed_tree _ _ _ Hz)]; reflexivity. }
  apply (wp_for_unit (init_progress (f * 4096))).
  - split; [done|]. split; [done|]. right. intros va Hva.
    rewrite decide_False by dlia. unfold walk, leaf, path_of.
    pose proof (indices_ok va) as (Hi & _). by rewrite (zeroed_walk _ _ _ _ _ Hz Hi).
  - intros i s3 Hi H3. apply init_progress_step; [|done].
    rewrite map_pages in Hi. lia.
  - intros s3. rewrite map_pages.
    intros (Ht3 & Hk3 & Hw3). unfold vmm_switch_pml4. wp_steps. wp_print.
    match goal with H : console_only ?x ?y |- _ => assert (mem y = mem s3 ∧ pmm y = pmm s3 ∧
      vmm y = mkVmm (f * 4096) (f * 4096) ∧ cr3 (cpu y) = f * 4096) as (Em & Ep & Ev & Ec) end.
    { rewrite Hc, <- Hk3. done. }
    apply HQ; rewrite Ev; try done. split; [by apply (tree_same s3)|]. split; [by rewrite Ev|].
    rewrite Em. unfold full, used in *. rewrite Em, Ep. done.
Qed.

#[local] Transparent fill.

(** ** States to evaluate on *)

(** A machine whose kernel root is one empty table at 32 MiB, and the same with one page. *)
Definition vmm_demo : machine :=
  run (p ← pmm_alloc_block; memset p 0 PAGE_SIZE;;
       modify (λ s, set_vmm (mkVmm p p) s)) 0 pmm_demo.

Definition vmm_demo1 : machine := run (vmm_map_page 0x2000000 0x1000 0x1000 7) 0 vmm_demo.

Lemma vmm_demo_tree : tree vmm_demo 0x2000000.
Proof.
  assert (wp (p ← pmm_alloc_block; memset p 0 PAGE_SIZE;;
    modify (λ s, set_vmm (mkVmm p p) s)) 0 pmm_demo (λ _ s', tree s' 0x2000000)) as H.
  { apply wp_bind, alloc_frame_wp; [apply pmm_demo_wf| |].
    - intros i s1 Hal. assert (i = 8192) as ->.
      { pose proof (al_range _ _ _ Hal). destruct (decide (8192 < i)); [|lia].
        pose proof pmm_demo_free as H0. rewrite (al_first _ _ _ Hal) in H0 by lia. done. }
      assert (pmm_fits pmm_demo) as Hfit by (by vm_compute).
      pose proof (zeroed_tree _ _ _ (zeroed_intro _ _ _ pmm_demo_wf Hfit Hal)) as Ht.
      unfold memset. wp_steps. eapply tree_same; [..|exact Ht]; reflexivity.
    - intros s' Hall. exfalso. pose proof pmm_demo_free as H0. rewrite Hall in H0; [done|cbn; lia]. }
  unfold vmm_demo, run. apply wp_run in H as ([] & s' & -> & H). done.
Qed.

Lemma flags_7 : flags_ok 7.
Proof. by vm_compute. Qed.

Lemma vmm_demo1_tree : tree vmm_demo1 0x2000000.
Proof.
  assert (wp (vmm_map_page 0x2000000 0x1000 0x1000 7) 0 vmm_demo (λ _ s', tree s' 0x2000000)) as H.
  { apply vmm_map_page_wp; [apply vmm_demo_tree|apply flags_7|..]; intros s' H; [|intros _]; apply H. }
  unfold vmm_demo1, run. apply wp_run in H as ([] & s' & -> & H). done.
Qed.

(** ** Properties *)

Lemma walk_translate m m' root root' va : walk m' root' va = walk m root va →
  translate m' root' va = translate m root va.
Proof. unfold translate. by intros ->. Qed.

(** C4. [vmm_map_page] changes one translation: afterwards the addresses of the page of [va]
    translate to the frame [pa], and every other virtual address translates as before.  When
    the allocator has no frame for a missing table, no translation changes.  The tables stay
    a tree, and memory of frames in use that are no tables of this root is not touched. *)
Theorem vmm_map_page_spec n s root va pa flags :
  tree s root → flags_ok flags →
  wp (vmm_map_page root va pa flags) n s (λ _ s', tree s' root ∧
    ((∀ va', translate (mem s') root va'
       = if decide (page va' = page va) then Some (frame_of pa + va' mod 4096)
         else translate (mem s) root va') ∨
     (full s' ∧ ∀ va', translate (mem s') root va' = translate (mem s) root va')) ∧
    ∀ x, 0x2000000 ≤ x → x / 4096 < total_blocks (pmm s) → used s (x / 4096) = true →
      (∀ q u, (length q ≤ 3)%nat → Forall idx_ok q → walk_path (mem s) root q = Some u →
         u ≠ x / 4096 * 4096) →
      byte_at (mem s') x = byte_at (mem s) x).
Proof.
  intros Ht Hf. apply vmm_map_page_wp; [done..| |].
  - intros s' H. split; [apply H|]. split; [left|apply H]. intros va'. unfold translate.
    rewrite (mp_walk _ _ _ _ _ H). case_decide; [|done]. cbn [mbind option_bind].
    destruct (leaf_entry pa flags Hf) as (_ & _ & ->). done.
  - intros s' H Hfu. split; [apply H|]. split; [right; split; [done|]|apply H]. intros va'.
    apply walk_translate, (ex_leaf _ _ _ H); [done|apply path_of_ok|apply indices_ok].
Qed.

Lemma vmm_map_page_spec_witness :
  wp (vmm_map_page 0x2000000 0x400123 0x2005000 7) 0 vmm_demo (λ _ s', tree s' 0x2000000 ∧
    ((∀ va', translate (mem s') 0x2000000 va'
       = if decide (page va' = page 0x400123) then Some (frame_of 0x2005000 + va' mod 4096)
         else translate (mem vmm_demo) 0x2000000 va') ∨
     (full s' ∧ ∀ va', translate (mem s') 0x2000000 va' = translate (mem vmm_demo) 0x2000000 va')) ∧
    ∀ x, 0x2000000 ≤ x → x / 4096 < total_blocks (pmm vmm_demo) → used vmm_demo (x / 4096) = true →
      (∀ q u, (length q ≤ 3)%nat → Forall idx_ok q → walk_path (mem vmm_demo) 0x2000000 q = Some u →
         u ≠ x / 4096 * 4096) →
      byte_at (mem s') x = byte_at (mem vmm_demo) x).
Proof. exact (vmm_map_page_spec 0 vmm_demo _ _ _ _ vmm_demo_tree flags_7). Defined.

(** C22. [vmm_init] builds the identity map: if a frame is still free afterwards, exactly the
    addresses below 512 MiB are mapped, each to itself, and CR3 holds the new root. *)
Theorem vmm_init_identity n s :
  pmm_wf s → pmm_fits s → (∃ j, 0 ≤ j < total_blocks (pmm s) ∧ used s j = false) →
  wp vmm_init n s (λ _ s', let root := kernel_pml4 (vmm s') in
    tree s' root ∧ cr3 (cpu s') = root ∧ current_pml4 (vmm s') = root ∧
    ((∃ j, 0 ≤ j < total_blocks (pmm s') ∧ used s' j = false) →
     ∀ va, 0 ≤ va < 2 ^ 48 →
       translate (mem s') root va = if decide (va < 0x20000000) then Some va else None)).
Proof.
  intros Hwf Hfit Hfree. apply vmm_init_wp; [done..|]. intros s' (Ht & _ & Hw) Hcur Hcr.
  cbv zeta. split_and!; [done..|]. intros (j & Hj & Hu) va Hva.
  destruct Hw as [Hw|Hw]; [exfalso; rewrite Hw in Hu by done; discriminate|].
  unfold translate. rewrite Hw by done. destruct (decide (va < 0x20000000)).
  - rewrite decide_True by dlia. cbn [mbind option_bind]. unfold identity_entry.
    destruct (leaf_entry (va / 4096 * 4096) table_flags) as (_ & _ & ->); [apply flags_7|].
    rewrite frame_of_div. f_equal. dlia.
  - by rewrite decide_False by dlia.
Qed.

Lemma vmm_init_identity_witness :
  wp vmm_init 0 pmm_demo (λ _ s', let root := kernel_pml4 (vmm s') in
    tree s' root ∧ cr3 (cpu s') = root ∧ current_pml4 (vmm s') = root ∧
    ((∃ j, 0 ≤ j < total_blocks (pmm s') ∧ used s' j = false) →
     ∀ va, 0 ≤ va < 2 ^ 48 →
       translate (mem s') root va = if decide (va < 0x20000000) then Some va else None)).
Proof.
  refine (vmm_init_identity 0 pmm_demo pmm_demo_wf _ _); [by vm_compute|].
  exists 8192. split; [by vm_compute|exact pmm_demo_free].
Defined.

(** C23. A new user address space holds the kernel's entry 0 and nothing else: it translates
    the low 512 GiB exactly as the kernel does and no other address; the kernel's own
    translations are unchanged. *)
Theorem vmm_create_user_pml4_spec n s k :
  tree s k → kernel_pml4 (vmm s) = k → present (entry (mem s) k 0) = true →
  wp vmm_create_user_pml4 n s (λ p s',
    (p = 0 ∧ full s') ∨
    (p ≠ 0 ∧ tree s' p ∧ tree s' k ∧
     (∀ va, translate (mem s') p va
        = if decide (PML4_INDEX va = 0) then translate (mem s) k va else None) ∧
     ∀ va, translate (mem s') k va = translate (mem s) k va)).
Proof.
  intros Ht Hk Hp. apply (create_user_wp _ _ k); [done..| |by left].
  intros p s' Hs Hp0 _ Hno Hsame. right. split_and!; [done|apply Hs..| |].
  - intros va. case_decide as E.
    + apply walk_translate. rewrite (shares_walk _ k) by done. apply Hsame.
    + unfold translate. by rewrite Hno.
  - intros va. apply walk_translate, Hsame.
Qed.

Lemma vmm_create_user_pml4_spec_witness :
  wp vmm_create_user_pml4 0 vmm_demo1 (λ p s',
    (p = 0 ∧ full s') ∨
    (p ≠ 0 ∧ tree s' p ∧ tree s' 0x2000000 ∧
     (∀ va, translate (mem s') p va
        = if decide (PML4_INDEX va = 0) then translate (mem vmm_demo1) 0x2000000 va else None) ∧
     ∀ va, translate (mem s') 0x2000000 va = translate (mem vmm_demo1) 0x2000000 va)).
Proof. apply (vmm_create_user_pml4_spec 0 _ 0x2000000 vmm_demo1_tree); by vm_compute. Defined.

(** C35. User address spaces are not isolated: a page mapped below 512 GiB in a new user space
    is mapped in the kernel's space too, because the two share the tables below entry 0;
    the two spaces agree on every address there. *)
Theorem user_mapping_reaches_kernel n s k va pa flags :
  tree s k → kernel_pml4 (vmm s) = k → present (entry (mem s) k 0) = true →
  flags_ok flags → PML4_INDEX va = 0 →
  wp (p ← vmm_create_user_pml4;
      (if decide (p = 0) then mret tt else vmm_map_page p va pa flags);; mret p) n s (λ p s',
    full s' ∨
    (p ≠ 0 ∧ translate (mem s') k va = Some (frame_of pa + va mod 4096) ∧
     ∀ va', PML4_INDEX va' = 0 → translate (mem s') k va' = translate (mem s') p va')).
Proof.
  intros Ht Hk Hp Hf Hva. apply wp_bind, (create_user_wp _ _ k); [done..| |].
  2:{ intros s' Hfu. wp_steps. rewrite decide_True by done. wp_steps. by left. }
  intros p s1 Hs Hp0 _ _ _. rewrite decide_False by done. apply wp_bind.
  apply vmm_map_page_wp; [apply Hs|done|..]; intros s2 H; [|intros Hfu; apply wp_ret; by left].
  apply wp_ret. right. split; [done|]. split.
  - rewrite (walk_translate (mem s2) _ p).
    + unfold translate. rewrite (mp_walk _ _ _ _ _ H), decide_True by done. cbn [mbind option_bind].
      destruct (leaf_entry pa flags Hf) as (_ & _ & ->). done.
    + symmetry. by eapply shares_mapped.
  - intros va' Hva'. apply walk_translate. symmetry. by eapply shares_mapped.
Qed.

Lemma user_mapping_reaches_kernel_witness :
  wp (p ← vmm_create_user_pml4;
      (if decide (p = 0) then mret tt else vmm_map_page p 0x400000 0x2005000 7);; mret p) 0 vmm_demo1
    (λ p s', full s' ∨
    (p ≠ 0 ∧ translate (mem s') 0x2000000 0x400000 = Some (frame_of 0x2005000 + 0x400000 mod 4096) ∧
     ∀ va', PML4_INDEX va' = 0 → translate (mem s') 0x2000000 va' = translate (mem s') p va')).
Proof.
  apply (user_mapping_reaches_kernel 0 _ 0x2000000 _ _ _ vmm_demo1_tree);
    [by vm_compute|by vm_compute|apply flags_7|done].
Defined.
