(* ===== verification/Cpu.v ===== *)
(** Ports, descriptor tables, interrupt controllers and timer:
    src/kernel/ports.c, src/kernel/cpu/gdt.c, src/kernel/idt.c, src/kernel/pic.c and
    src/drivers/timer.c.

    A port access is routed to the device that decodes the port.  The addresses the linker
    gives to the tables and to the assembly stubs are the class [Linker]. *)
From S2P Require Import Prelude Memory Hardware Machine Utils Screen.

(** Addresses of objects and assembly routines, chosen by the linker. *)
Class Linker := {
  addr_gdt_entries : Z;
  addr_tss_entry : Z;
  addr_idt : Z;
  addr_isr : Z → Z;                (* the stub of an interrupt vector *)
  linker_gdt : 0 ≤ addr_gdt_entries < 2 ^ 64;
  linker_tss : 0 ≤ addr_tss_entry < 2 ^ 64;
  linker_idt : 0 ≤ addr_idt < 2 ^ 64;
  linker_isr : ∀ v, 0 ≤ addr_isr v < 2 ^ 64;
}.

(** ** ports.c *)

Definition is_ata_port (port : Z) : bool :=
  bool_decide (0x1f0 ≤ port ≤ 0x1f7 ∨ port = 0x3f6).
Definition is_pic_port (port : Z) : bool :=
  bool_decide (port = 0x20 ∨ port = 0x21 ∨ port = 0xA0 ∨ port = 0xA1).
Definition is_crtc_port (port : Z) : bool := bool_decide (port = 0x3d4 ∨ port = 0x3d5).
Definition is_pit_port (port : Z) : bool := bool_decide (port = 0x40 ∨ port = 0x43).

(** What one [out] instruction does to the machine. *)
Definition io_out (port v : Z) (s : machine) : machine :=
  if is_ata_port port then set_ata (port_out port v (ata s)) s
  else if is_pic_port port then set_pics (port_out port v (pics s)) s
  else if is_crtc_port port then set_cons (port_out port v (cons s)) s
  else if is_pit_port port then set_pit (port_out port v (pit s)) s
  else set_port_log ((port, v) :: port_log s) s.

Definition io_in (port : Z) (s : machine) : Z * machine :=
  if is_ata_port port then let '(v, d) := port_in port (ata s) in (v, set_ata d s)
  else if is_pic_port port then let '(v, d) := port_in port (pics s) in (v, set_pics d s)
  else if is_crtc_port port then let '(v, d) := port_in port (cons s) in (v, set_cons d s)
  else if decide (port = 0x60) then (kbd_data s, s)
  else (0xff, s).

Definition io_read (port : Z) : M Z := λ _ s, let '(v, s') := io_in port s in Ret v s'.

Definition outb (port data : Z) : M unit := modify (io_out port (u8 data)).
Definition inb (port : Z) : M Z := v ← io_read port; mret (u8 v).
Definition outw (port data : Z) : M unit := modify (io_out port (u16 data)).
Definition inw (port : Z) : M Z := v ← io_read port; mret (u16 v).

(** ** Arrays of structures *)

Definition tbl_get {A} (l : list A) (i : Z) : option A :=
  if decide (0 ≤ i) then l !! Z.to_nat i else None.
Definition tbl_set {A} (l : list A) (i : Z) (x : A) : option (list A) :=
  if decide (0 ≤ i < Z.of_nat (length l)) then Some (<[Z.to_nat i := x]> l) else None.

(** ** cpu/gdt.c *)

Definition put_gdt_entry (i : Z) (e : gdt_entry_t) : M unit :=
  g ← gets gdt;
  l ← from_option_ub (tbl_set (gdt_entries g) i e);
  modify (set_gdt (mkGdt l (gdt_ptr g) (tss_entry g) (task_reg g))).

Definition set_gdt_gate (num base limit access gran : Z) : M unit :=
  let granularity := Z.land (Z.shiftr limit 16) 0x0F in
  put_gdt_entry num (mkGdtEntry
    (Z.land limit 0xFFFF) (Z.land base 0xFFFF) (Z.land (Z.shiftr base 16) 0xFF)
    access (Z.lor granularity (Z.land gran 0xF0)) (Z.land (Z.shiftr base 24) 0xFF)).

Definition set_tss_gate (num base limit : Z) : M unit :=
  set_gdt_gate num base limit 0x89 0x00;;
  let upper_base := Z.shiftr base 32 in
  put_gdt_entry (num + 1) (mkGdtEntry
    (Z.land upper_base 0xFFFF) (Z.land (Z.shiftr upper_base 16) 0xFFFF)
    (Z.land (Z.shiftr upper_base 32) 0xFF) 0 0 0).

Definition sizeof_gdt_entry : Z := 8.
Definition sizeof_tss : Z := 104.

(** [gdt_flush] loads the register from the structure it is given. *)
Definition gdt_flush (ptr : Z * Z) : M unit :=
  modify (λ s, set_cpu (mkCpu (cr3 (cpu s)) (cr2 (cpu s)) (idtr (cpu s)) ptr (iflag (cpu s))) s).

(** [tss_flush] loads the task register with the selector of descriptor 5. *)
Definition tss_flush : M unit :=
  modify (λ s, set_gdt (mkGdt (gdt_entries (gdt s)) (gdt_ptr (gdt s)) (tss_entry (gdt s)) 0x28) s).

Definition init_gdt `{Linker} : M unit :=
  modify (λ s, set_gdt (mkGdt (gdt_entries (gdt s))
    (sizeof_gdt_entry * 7 - 1, addr_gdt_entries) (tss_entry (gdt s)) (task_reg (gdt s))) s);;
  set_gdt_gate 0 0 0 0 0;;
  set_gdt_gate 1 0 0xFFFFF 0x9A 0x20;;
  set_gdt_gate 2 0 0xFFFFF 0x92 0x00;;
  set_gdt_gate 3 0 0xFFFFF 0xF2 0x00;;
  set_gdt_gate 4 0 0xFFFFF 0xFA 0x20;;
  modify (λ s, set_gdt (mkGdt (gdt_entries (gdt s)) (gdt_ptr (gdt s)) (mkTss 0 sizeof_tss)
    (task_reg (gdt s))) s);;
  set_tss_gate 5 addr_tss_entry (sizeof_tss - 1);;
  g ← gets gdt;
  gdt_flush (gdt_ptr g);;
  tss_flush.

Definition set_tss_rsp0 (rsp : Z) : M unit :=
  modify (λ s, set_gdt (mkGdt (gdt_entries (gdt s)) (gdt_ptr (gdt s))
    (mkTss rsp (tss_iomap_base (tss_entry (gdt s)))) (task_reg (gdt s))) s).

(** ** idt.c *)

Definition set_idt_gate (n handler flags : Z) : M unit :=
  t ← gets idt;
  l ← from_option_ub (tbl_set (idt_gates t) n (mkGate (u16 handler) 0x08 0 flags
        (u16 (Z.shiftr handler 16)) (u32 (Z.shiftr handler 32)) 0));
  modify (set_idt (mkIdt l (idt_reg t))).

Definition IDT_ENTRIES : Z := 256.
Definition sizeof_idt_gate : Z := 16.

(** [set_idt] of the source. *)
Definition load_idt `{Linker} : M unit :=
  let reg := (IDT_ENTRIES * sizeof_idt_gate - 1, addr_idt) in
  modify (λ s, set_idt (mkIdt (idt_gates (idt s)) reg) s);;
  modify (λ s, set_cpu (mkCpu (cr3 (cpu s)) (cr2 (cpu s)) reg (gdtr (cpu s)) (iflag (cpu s))) s).

(** ** pic.c *)

Definition pic_remap : M unit :=
  _ ← inb 0x21;
  _ ← inb 0xA1;
  outb 0x20 0x11;;
  outb 0xA0 0x11;;
  outb 0x21 0x20;;
  outb 0xA1 0x28;;
  outb 0x21 0x04;;
  outb 0xA1 0x02;;
  outb 0x21 0x01;;
  outb 0xA1 0x01;;
  outb 0x21 0xff;;
  outb 0xA1 0xff.

(** ** timer.c *)

Definition init_timer (freq : Z) : M unit :=
  if decide (freq = 0) then undef
  else
    let divisor := 1193180 / freq in
    let low := Z.land divisor 0xff in
    let high := Z.land (Z.shiftr divisor 8) 0xff in
    outb 0x43 0x36;;
    outb 0x40 low;;
    outb 0x40 high;;
    kprint (str "Timer initialized." ++ newline).

Definition timer_handler : M unit := modify (λ s, set_tick (u32 (tick s + 1)) s).

(** ** What the processor reads from the tables *)

Definition desc_base (e : gdt_entry_t) : Z :=
  g_base_low e + 2 ^ 16 * g_base_middle e + 2 ^ 24 * g_base_high e.
Definition desc_limit (e : gdt_entry_t) : Z := g_limit_low e + 2 ^ 16 * (g_granularity e mod 16).
Definition desc_flags (e : gdt_entry_t) : Z := g_granularity e / 16.

(** Base, limit, access byte and flags (G, D/B, L, AVL) of a segment. *)
Definition segment (e : gdt_entry_t) : Z * Z * Z * Z :=
  (desc_base e, desc_limit e, g_access e, desc_flags e).

(** The base of a system descriptor of two slots: bytes 8 to 11 are its upper half. *)
Definition system_base (lo hi : gdt_entry_t) : Z :=
  desc_base lo + 2 ^ 32 * (g_limit_low hi + 2 ^ 16 * g_base_low hi).

(** The handler address and the attributes of a gate. *)
Definition gate_handler (g : idt_gate_t) : Z :=
  i_low_offset g + 2 ^ 16 * i_mid_offset g + 2 ^ 32 * i_high_offset g.

Section tables.
Implicit Types (s : machine).

Lemma land_low x n k : 0 ≤ n → k = Z.ones n → Z.land x k = x mod 2 ^ n.
Proof. apply land_ones_mod. Qed.

(** The entry [set_gdt_gate] writes. *)
Definition gate_entry (base limit access gran : Z) : gdt_entry_t :=
  mkGdtEntry (Z.land limit 0xFFFF) (Z.land base 0xFFFF) (Z.land (Z.shiftr base 16) 0xFF)
    access (Z.lor (Z.land (Z.shiftr limit 16) 0x0F) (Z.land gran 0xF0))
    (Z.land (Z.shiftr base 24) 0xFF).

Lemma gran_byte x y : 0 ≤ x < 16 → Z.lor x (Z.land y 0xF0) = x + 16 * (y / 16 mod 16).
Proof.
  intros Hx. change 0xF0 with (Z.shiftl (Z.ones 4) 4).
  assert (Z.land y (Z.shiftl (Z.ones 4) 4) = Z.shiftl (y / 16 mod 16) 4) as ->.
  { apply Z.bits_inj'. intros k Hk. change 16 with (2 ^ 4).
    rewrite <- Z.land_ones, <- Z.shiftr_div_pow2, Z.land_spec, !Z.shiftl_spec, Z.land_spec by lia.
    destruct (decide (k < 4)).
    - rewrite !(Z.testbit_neg_r _ (k - 4)) by lia. by rewrite andb_false_r.
    - rewrite Z.shiftr_spec by lia. do 2 f_equal. lia. }
  rewrite Z.shiftl_mul_pow2 by lia. change (2 ^ 4) with 16.
  assert (Z.land x (y / 16 mod 16 * 16) = 0) as Hl.
  { apply Z.bits_inj'. intros k Hk. rewrite Z.land_spec, Z.bits_0. change 16 with (2 ^ 4).
    destruct (decide (k < 4)); [by rewrite Z.mul_pow2_bits_low, andb_false_r by lia|].
    replace x with (x mod 2 ^ 4) by (apply Z.mod_small; lia).
    by rewrite Z.mod_pow2_bits_high by lia. }
  pose proof (Z.add_lor_land x (y / 16 mod 16 * 16)). lia.
Qed.

Lemma gate_entry_segment base limit access gran :
  0 ≤ base → 0 ≤ limit < 2 ^ 20 → 0 ≤ gran < 256 →
  segment (gate_entry base limit access gran) = (base mod 2 ^ 32, limit, access, gran / 16).
Proof.
  intros Hb Hl Hg. unfold segment, desc_base, desc_limit, desc_flags, gate_entry.
  cbn [g_base_low g_base_middle g_base_high g_limit_low g_granularity g_access].
  rewrite !(land_low _ 16 0xFFFF), !(land_low _ 8 0xFF), (land_low _ 4 0x0F), !Z.shiftr_div_pow2 by done.
  rewrite gran_byte by dlia. apply pair_equal_spec; split; [|dlia]. rewrite !pair_equal_spec. split_and!; [dlia|dlia|done].
Qed.

Lemma tbl_set_Some {A} (l : list A) i x : 0 ≤ i < Z.of_nat (length l) →
  tbl_set l i x = Some (<[Z.to_nat i := x]> l).
Proof. intros. unfold tbl_set. by rewrite decide_True. Qed.

Lemma tbl_set_None {A} (l : list A) i x : ¬ (0 ≤ i < Z.of_nat (length l)) → tbl_set l i x = None.
Proof. intros. unfold tbl_set. by rewrite decide_False. Qed.

Lemma put_gdt_entry_wp i e n s (Q : unit → machine → Prop) :
  0 ≤ i < Z.of_nat (length (gdt_entries (gdt s))) →
  (∀ s', s' = set_gdt (gdt s') s →
     gdt s' = mkGdt (<[Z.to_nat i := e]> (gdt_entries (gdt s))) (gdt_ptr (gdt s)) (tss_entry (gdt s)) (task_reg (gdt s)) →
     Q tt s') →
  wp (put_gdt_entry i e) n s Q.
Proof.
  intros Hi HQ. unfold put_gdt_entry. wp_steps. rewrite tbl_set_Some by done. wp_steps.
  by apply HQ.
Qed.

Lemma set_gdt_gate_wp num base limit access gran n s (Q : unit → machine → Prop) :
  0 ≤ num < Z.of_nat (length (gdt_entries (gdt s))) →
  (∀ s', s' = set_gdt (gdt s') s →
     gdt s' = mkGdt (<[Z.to_nat num := gate_entry base limit access gran]> (gdt_entries (gdt s)))
       (gdt_ptr (gdt s)) (tss_entry (gdt s)) (task_reg (gdt s)) → Q tt s') →
  wp (set_gdt_gate num base limit access gran) n s Q.
Proof. intros Hi HQ. by apply put_gdt_entry_wp. Qed.

Definition tss_upper (base : Z) : gdt_entry_t :=
  mkGdtEntry (Z.land (Z.shiftr base 32) 0xFFFF) (Z.land (Z.shiftr (Z.shiftr base 32) 16) 0xFFFF)
    (Z.land (Z.shiftr (Z.shiftr base 32) 32) 0xFF) 0 0 0.

Lemma system_base_tss base : 0 ≤ base < 2 ^ 64 →
  system_base (gate_entry base (sizeof_tss - 1) 0x89 0x00) (tss_upper base) = base.
Proof.
  intros Hb. unfold system_base, desc_base, gate_entry, tss_upper.
  cbn [g_base_low g_base_middle g_base_high g_limit_low].
  rewrite !(land_low _ 16 0xFFFF), !(land_low _ 8 0xFF), !Z.shiftr_div_pow2 by done. dlia.
Qed.

(** The table [init_gdt] builds. *)
Definition gdt_table (tss : Z) : list gdt_entry_t :=
  [gate_entry 0 0 0 0; gate_entry 0 0xFFFFF 0x9A 0x20; gate_entry 0 0xFFFFF 0x92 0x00;
   gate_entry 0 0xFFFFF 0xF2 0x00; gate_entry 0 0xFFFFF 0xFA 0x20;
   gate_entry tss (sizeof_tss - 1) 0x89 0x00; tss_upper tss].

Lemma init_gdt_wp `{Linker} n s (Q : unit → machine → Prop) :
  length (gdt_entries (gdt s)) = 7%nat →
  (∀ s', gdt s' = mkGdt (gdt_table addr_tss_entry) (55, addr_gdt_entries) (mkTss 0 sizeof_tss) 0x28 →
     gdtr (cpu s') = (55, addr_gdt_entries) → Q tt s') →
  wp init_gdt n s Q.
Proof.
  intros Hlen HQ. destruct (gdt s) as [l gp ts tr] eqn:Eg. cbn in Hlen.
  do 7 (destruct l as [|? l]; [discriminate|]). destruct l as [|? l]; [|discriminate]. clear Hlen.
  unfold init_gdt. wp_steps. rewrite Eg.
  match goal with |- wp _ _ ?x _ => set (s0 := x);
    assert (gdt s0 = mkGdt _ _ _ _) as E0 by reflexivity; clearbody s0 end.
  cbn [gdt_entries tss_entry gdt_ptr task_reg] in E0.
  apply set_gdt_gate_wp; [rewrite E0; simpl; lia|]. intros s1 _ E1. rewrite E0 in E1. wp_step.
  apply set_gdt_gate_wp; [rewrite E1; simpl; lia|]. intros s2 _ E2. rewrite E1 in E2. wp_step.
  apply set_gdt_gate_wp; [rewrite E2; simpl; lia|]. intros s3 _ E3. rewrite E2 in E3. wp_step.
  apply set_gdt_gate_wp; [rewrite E3; simpl; lia|]. intros s4 _ E4. rewrite E3 in E4. wp_step.
  apply set_gdt_gate_wp; [rewrite E4; simpl; lia|]. intros s5 _ E5. rewrite E4 in E5. wp_step.
  wp_step. rewrite E5.
  match goal with |- wp _ _ ?x _ => set (s6 := x);
    assert (gdt s6 = mkGdt _ _ _ _) as E6 by reflexivity; clearbody s6 end.
  cbn [gdt_entries tss_entry gdt_ptr task_reg] in E6. wp_step. unfold set_tss_gate. wp_step.
  apply set_gdt_gate_wp; [rewrite E6; simpl; lia|]. intros s7 _ E7. rewrite E6 in E7.
  apply put_gdt_entry_wp; [rewrite E7; simpl; lia|]. intros s8 _ E8. rewrite E7 in E8.
  wp_step. wp_step. unfold gdt_flush, tss_flush. wp_steps. rewrite E8. apply HQ.
  - cbn [gdt set_cpu set_gdt]. rewrite E8. reflexivity.
  - reflexivity.
Qed.

End tables.

(** ** Properties *)

(** A linker map for the witnesses. *)
Definition demo_linker : Linker.
Proof.
  refine {| addr_gdt_entries := 0x11000; addr_tss_entry := 0x123456789a0; addr_idt := 0x12000;
            addr_isr := λ v, 0x9000 + 16 * (v mod 256) |}; try lia. intros v. dlia.
Defined.

(** C29. The descriptor table [init_gdt] loads is the one the processor needs: null, kernel
    code and data at ring 0, user data and code at ring 3, all flat with a 20-bit limit,
    long mode on the code segments, and a 64-bit task state descriptor whose base is the
    address of [tss_entry]; the registers hold the seven slots and the task state's
    selector. *)
Theorem init_gdt_segments `{Linker} n s :
  length (gdt_entries (gdt s)) = 7%nat →
  wp init_gdt n s (λ _ s',
    segment <$> take 5 (gdt_entries (gdt s')) =
      [(0, 0, 0, 0); (0, 0xFFFFF, 0x9A, 2); (0, 0xFFFFF, 0x92, 0);
       (0, 0xFFFFF, 0xF2, 0); (0, 0xFFFFF, 0xFA, 2)] ∧
    (∃ lo hi, drop 5 (gdt_entries (gdt s')) = [lo; hi] ∧
       system_base lo hi = addr_tss_entry ∧ desc_limit lo = 103 ∧ g_access lo = 0x89) ∧
    tss_iomap_base (tss_entry (gdt s')) = 104 ∧ task_reg (gdt s') = 5 * 8 ∧ gdtr (cpu s') = (7 * 8 - 1, addr_gdt_entries)).
Proof.
  intros Hlen. apply init_gdt_wp; [done|]. intros s' -> ->.
  cbn [gdt_entries tss_entry tss_iomap_base task_reg]. split; [reflexivity|].
  split; [|split_and!; reflexivity].
  exists (gate_entry addr_tss_entry (sizeof_tss - 1) 0x89 0x00), (tss_upper addr_tss_entry).
  split; [done|]. split; [apply system_base_tss, linker_tss|]. split; reflexivity.
Qed.

Lemma init_gdt_segments_witness :
  let _ := demo_linker in
  wp init_gdt 0 boot_machine (λ _ s',
    segment <$> take 5 (gdt_entries (gdt s')) =
      [(0, 0, 0, 0); (0, 0xFFFFF, 0x9A, 2); (0, 0xFFFFF, 0x92, 0);
       (0, 0xFFFFF, 0xF2, 0); (0, 0xFFFFF, 0xFA, 2)] ∧
    (∃ lo hi, drop 5 (gdt_entries (gdt s')) = [lo; hi] ∧
       system_base lo hi = 0x123456789a0 ∧ desc_limit lo = 103 ∧ g_access lo = 0x89) ∧
    tss_iomap_base (tss_entry (gdt s')) = 104 ∧ task_reg (gdt s') = 5 * 8 ∧ gdtr (cpu s') = (7 * 8 - 1, 0x11000)).
Proof. apply (@init_gdt_segments demo_linker 0 boot_machine). reflexivity. Defined.

(** [set_idt_gate] stores a gate from which the processor recovers the handler's whole
    64-bit address, in the kernel code segment with the given attributes, and leaves the
    other gates alone; an index outside the table is undefined behaviour. *)
Theorem set_idt_gate_handler i handler flags n s :
  0 ≤ handler < 2 ^ 64 → length (idt_gates (idt s)) = 256%nat →
  (0 ≤ i < 256 →
   wp (set_idt_gate i handler flags) n s (λ _ s',
     (∃ g, idt_gates (idt s') !! Z.to_nat i = Some g ∧ gate_handler g = handler ∧
        i_sel g = 0x08 ∧ i_flags g = flags ∧ i_ist g = 0) ∧
     ∀ j, j ≠ Z.to_nat i → idt_gates (idt s') !! j = idt_gates (idt s) !! j)) ∧
  (¬ 0 ≤ i < 256 → set_idt_gate i handler flags n s = Undef).
Proof.
  intros Hh Hlen. split; intros Hi.
  - unfold set_idt_gate. wp_steps. rewrite tbl_set_Some by (rewrite Hlen; lia). wp_steps.
    cbn [idt set_idt idt_gates]. split.
    + eexists. split; [apply list_lookup_insert_eq; lia|]. split_and!; [|done..].
      unfold gate_handler. cbn [i_low_offset i_mid_offset i_high_offset].
      rewrite !Z.shiftr_div_pow2 by lia. width. dlia.
    + intros j Hj. by apply list_lookup_insert_ne.
  - unfold set_idt_gate, mbind, M_bind, gets. rewrite tbl_set_None by (rewrite Hlen; lia). done.
Qed.

Lemma set_idt_gate_handler_witness :
  (0 ≤ 0x80 < 256 →
   wp (set_idt_gate 0x80 0xffff800012345678 0xEE) 0 boot_machine (λ _ s',
     (∃ g, idt_gates (idt s') !! Z.to_nat 0x80 = Some g ∧ gate_handler g = 0xffff800012345678 ∧
        i_sel g = 0x08 ∧ i_flags g = 0xEE ∧ i_ist g = 0) ∧
     ∀ j, j ≠ Z.to_nat 0x80 → idt_gates (idt s') !! j = idt_gates (idt boot_machine) !! j)) ∧
  (¬ 0 ≤ 0x80 < 256 → set_idt_gate 0x80 0xffff800012345678 0xEE 0%nat boot_machine = Undef).
Proof. apply (set_idt_gate_handler 0x80); [lia|reflexivity]. Defined.

(** Whatever state the interrupt controllers are in, [pic_remap] leaves both operating,
    the lines of the master on vectors 32 to 39 and those of the slave on 40 to 47, the
    slave on line 2, 8086 mode, and every line masked; nothing else changes. *)
Theorem pic_remap_vectors n s :
  wp pic_remap n s (λ _ s',
    pics s' = mkPics (mkPic 0 32 4 1 0xff (pic_eoi (pic_master (pics s))))
                     (mkPic 0 40 2 1 0xff (pic_eoi (pic_slave (pics s)))) ∧
    s' = set_pics (pics s') s).
Proof.
  destruct s as [? ? ? [[m1 m2 m3 m4 m5 m6] [l1 l2 l3 l4 l5 l6]] ? ? ? ? ? ? ? ? ? ? ? ? ?].
  split; reflexivity.
Qed.

(** [init_timer] programs channel 0 in mode 3 with the divisor of the requested rate,
    which the two bytes hold exactly for rates from 19 Hz up; a rate of 0 divides by zero. *)
Theorem init_timer_divisor freq n s :
  0 < freq < 2 ^ 32 →
  wp (init_timer freq) n s (λ _ s',
    pit_mode (pit s') = 0x36 ∧ pit_divisor (pit s') = 1193180 / freq mod 65536 ∧
    (19 ≤ freq → pit_divisor (pit s') = 1193180 / freq)).
Proof.
  intros Hf. unfold init_timer. rewrite decide_False by lia. unfold outb. wp_steps.
  set (d := 1193180 / freq). rewrite !(land_low _ 8 0xff), Z.shiftr_div_pow2 by done.
  set (lo := d mod 2 ^ 8). set (hi := (d / 2 ^ 8) mod 2 ^ 8).
  match goal with |- wp _ _ ?x _ => set (s1 := x) end.
  assert (pit s1 = mkPit 0x36 true (u8 (u8 lo) mod 256 + 256 * u8 (u8 hi))) as E by reflexivity.
  assert (pit_divisor (pit s1) = d mod 65536) as Ed.
  { rewrite E. cbn [pit_divisor]. subst lo hi. width. dlia. }
  assert (0 ≤ d ∧ (19 ≤ freq → d < 65536)) as [Hd0 Hd].
  { split; [apply Z.div_pos; lia|]. intros. apply Z.div_lt_upper_bound; lia. }
  wp_print. rewrite Hc. change (pit (set_cons (cons s') s1)) with (pit s1).
  split; [by rewrite E|]. split; [done|]. intros H19. rewrite Ed. apply Z.mod_small. auto.
Qed.

Lemma init_timer_divisor_witness :
  wp (init_timer 100) 0 boot_machine (λ _ s',
    pit_mode (pit s') = 0x36 ∧ pit_divisor (pit s') = 1193180 / 100 mod 65536 ∧
    (19 ≤ 100 → pit_divisor (pit s') = 1193180 / 100)).
Proof. apply (init_timer_divisor 100). lia. Defined.
