(* ===== verification/Process.v ===== *)
(** src/kernel/process/process.c: the process table, the creation of processes and the
    round-robin scheduler.

    The table is the list of the sixteen [process_t] structures.  The specification of the
    scheduler is [rr_pick], the first READY process in cyclic order after the current one;
    the specification of process creation is the trap frame that the interrupt return
    path reads, [registers_t] of src/kernel/isr.c. *)
From S2P Require Import Prelude Memory Hardware Machine Utils Screen Pmm Kheap Vmm Cpu.

Definition MAX_PROCESSES : Z := 16.
Definition STACK_SIZE : Z := 4096.

(** ** Access to the globals *)

Definition set_processes (l : list process_t) (s : machine) : machine :=
  set_proc (mkProc l (current_pid (proc s)) (process_count (proc s))) s.
Definition set_current_pid (i : Z) (s : machine) : machine :=
  set_proc (mkProc (processes (proc s)) i (process_count (proc s))) s.
Definition set_process_count (c : Z) (s : machine) : machine :=
  set_proc (mkProc (processes (proc s)) (current_pid (proc s)) c) s.

Definition get_proc (i : Z) : M process_t :=
  l ← gets (λ s, processes (proc s));
  from_option_ub (tbl_get l i).

(** [processes[i]] with some of its fields assigned. *)
Definition upd_proc (i : Z) (f : process_t → process_t) : M unit :=
  l ← gets (λ s, processes (proc s));
  p ← from_option_ub (tbl_get l i);
  l' ← from_option_ub (tbl_set l i (f p));
  modify (set_processes l').

Definition with_state (st : process_state_t) (p : process_t) : process_t :=
  mkProcess (p_rsp p) (p_pid p) st (p_stack_base p) (p_kernel_stack_base p)
    (p_kernel_stack_top p) (p_pml4 p).
Definition with_rsp (rsp : Z) (p : process_t) : process_t :=
  mkProcess rsp (p_pid p) (p_state p) (p_stack_base p) (p_kernel_stack_base p)
    (p_kernel_stack_top p) (p_pml4 p).
Definition with_pid (pid : Z) (p : process_t) : process_t :=
  mkProcess (p_rsp p) pid (p_state p) (p_stack_base p) (p_kernel_stack_base p)
    (p_kernel_stack_top p) (p_pml4 p).
Definition with_stack (b : Z) (p : process_t) : process_t :=
  mkProcess (p_rsp p) (p_pid p) (p_state p) b (p_kernel_stack_base p)
    (p_kernel_stack_top p) (p_pml4 p).
Definition with_kstack (b top : Z) (p : process_t) : process_t :=
  mkProcess (p_rsp p) (p_pid p) (p_state p) (p_stack_base p) b top (p_pml4 p).
Definition with_pml4 (x : Z) (p : process_t) : process_t :=
  mkProcess (p_rsp p) (p_pid p) (p_state p) (p_stack_base p) (p_kernel_stack_base p)
    (p_kernel_stack_top p) x.

(** ** The functions *)

Definition init_multitasking : M unit :=
  for_unit (Z.to_nat MAX_PROCESSES) 0 (λ i, upd_proc i (with_state PROCESS_WAITING));;
  upd_proc 0 (with_pid 0);;
  upd_proc 0 (with_state PROCESS_RUNNING);;
  modify (set_process_count 1);;
  modify (set_current_pid 0);;
  kprint (str "Multitasking Initialized." ++ newline).

(** [rsp -= 8; *((uint64_t* )rsp) = v;] *)
Definition push (rsp v : Z) : M Z :=
  let rsp := u64 (rsp - 8) in
  store64 rsp v;;
  mret rsp.

(** The registers of the trap frame: sixteen words of 0. *)
Definition push_registers (rsp : Z) : M Z := for_acc 16 0 rsp (λ _ r, push r 0).

(** The frame both kinds of process start with: SS, RSP, RFLAGS, CS, RIP, the error code, the
    interrupt number and the registers; the result is the new stack pointer. *)
Definition push_frame (rsp ss sp rflags cs rip : Z) : M Z :=
  rsp ← push rsp ss;
  rsp ← push rsp sp;
  rsp ← push rsp rflags;
  rsp ← push rsp cs;
  rsp ← push rsp rip;
  rsp ← push rsp 0;
  rsp ← push rsp 0;
  push_registers rsp.

Definition print_created (what : list Z) (pid : Z) : M unit :=
  kprint what;;
  kprint_hex 32 pid;;
  kprint newline.

Definition create_kernel_process (entry : Z) : M unit :=
  i ← gets (λ s, process_count (proc s));
  if decide (i >= MAX_PROCESSES) then kprint (str "Max processes reached!" ++ newline)
  else
    upd_proc i (with_pid (u64 i));;
    upd_proc i (with_state PROCESS_READY);;
    stack ← pmm_alloc_block;
    upd_proc i (with_stack stack);;
    upd_proc i (with_kstack stack (u64 (stack + STACK_SIZE)));;
    k ← gets (λ s, kernel_pml4 (vmm s));
    upd_proc i (with_pml4 k);;
    let rsp := u64 (stack + STACK_SIZE) in
    rsp ← push_frame rsp 0x10 (u64 (u64 (rsp - 16) + 16)) 0x202 0x08 entry;
    upd_proc i (with_rsp rsp);;
    modify (set_process_count (i + 1));;
    print_created (str "Created Kernel Process PID ") (u64 i).

Definition create_user_process (entry pml4_phys_addr : Z) : M unit :=
  i ← gets (λ s, process_count (proc s));
  if decide (i >= MAX_PROCESSES) then kprint (str "Max processes reached!" ++ newline)
  else
    upd_proc i (with_pid (u64 i));;
    upd_proc i (with_state PROCESS_READY);;
    user_stack ← pmm_alloc_block;
    if decide (user_stack = 0) then kprint (str "Proc Alloc Fail: User Stack" ++ newline)
    else
      upd_proc i (with_stack user_stack);;
      let user_rsp := u64 (user_stack + STACK_SIZE) in
      kernel_stack ← pmm_alloc_block;
      if decide (kernel_stack = 0) then kprint (str "Proc Alloc Fail: Kernel Stack" ++ newline)
      else
        upd_proc i (with_kstack kernel_stack (u64 (kernel_stack + STACK_SIZE)));;
        upd_proc i (with_pml4 pml4_phys_addr);;
        let k_rsp := u64 (kernel_stack + STACK_SIZE) in
        k_rsp ← push_frame k_rsp 0x1B user_rsp 0x202 0x23 entry;
        upd_proc i (with_rsp k_rsp);;
        modify (set_process_count (i + 1));;
        print_created (str "Created User Process PID ") (u64 i).

Definition kill_current_process : M unit :=
  cur ← gets (λ s, current_pid (proc s));
  if decide (cur = -1) then mret tt
  else
    upd_proc cur (with_state PROCESS_DEAD);;
    kprint (str "Process Killed PID: ");;
    kprint_hex 32 (u64 cur);;
    kprint newline;;
    kprint (str "OS_eojin:");;
    path ← gets (λ s, current_path (fat s));
    kprint (string_of path);;
    kprint (str "> ").

(** The search loop of [schedule]: [k] more candidates may be looked at; [None] is the early
    return of the loop guard. *)
Fixpoint schedule_scan (k : nat) (next : Z) : M (option Z) :=
  match k with
  | O => mret None
  | S k' =>
      count ← gets (λ s, process_count (proc s));
      cur ← gets (λ s, current_pid (proc s));
      let next := if decide (next + 1 >= count) then 0 else next + 1 in
      p ← get_proc next;
      if decide (p_state p ≠ PROCESS_READY ∧ next ≠ cur) then schedule_scan k' next
      else mret (Some next)
  end.

(** The part of [schedule] after the choice. *)
Definition schedule_switch (next : Z) : M Z :=
  modify (set_current_pid next);;
  upd_proc next (with_state PROCESS_RUNNING);;
  p ← get_proc next;
  (if decide (p_pml4 p ≠ 0) then vmm_switch_pml4 (p_pml4 p) else mret tt);;
  (if decide (p_kernel_stack_top p ≠ 0) then set_tss_rsp0 (p_kernel_stack_top p) else mret tt);;
  mret (p_rsp p).

Definition schedule (current_rsp : Z) : M Z :=
  cur ← gets (λ s, current_pid (proc s));
  p ← get_proc cur;
  (if decide (p_state p ≠ PROCESS_DEAD) then
     upd_proc cur (with_rsp current_rsp);;
     (if decide (p_state p = PROCESS_RUNNING) then upd_proc cur (with_state PROCESS_READY)
      else mret tt)
   else mret tt);;
  found ← schedule_scan (Z.to_nat (MAX_PROCESSES + 1)) cur;
  match found with
  | None => mret current_rsp
  | Some next =>
      q ← get_proc next;
      p0 ← get_proc 0;
      let next :=
        if decide (next = cur ∧ p_state q ≠ PROCESS_READY) then
          if decide (p_state p0 = PROCESS_READY ∨ p_state p0 = PROCESS_RUNNING) then 0 else next
        else next in
      schedule_switch next
  end.

(** ** The abstract scheduler *)

(** The state of process [i] of a table. *)
Definition state_of (ps : list process_t) (i : Z) : option process_state_t :=
  p_state <$> tbl_get ps i.

(** The first READY process among the next [k] in cyclic order after [cur]. *)
Fixpoint rr_from (k : nat) (ps : list process_t) (count next : Z) : option Z :=
  match k with
  | O => None
  | S k' =>
      let next := (next + 1) mod count in
      if decide (state_of ps next = Some PROCESS_READY) then Some next
      else rr_from k' ps count next
  end.

(** All of the table is looked at, the current process last. *)
Definition rr_pick (ps : list process_t) (count cur : Z) : option Z :=
  rr_from (Z.to_nat count) ps count cur.

(** The table after the current process was saved. *)
Definition saved (ps : list process_t) (cur rsp : Z) : list process_t :=
  alter (λ p, match p_state p with
              | PROCESS_DEAD => p
              | PROCESS_RUNNING => with_state PROCESS_READY (with_rsp rsp p)
              | _ => with_rsp rsp p
              end) (Z.to_nat cur) ps.

(** The process table is in order: sixteen slots, a current process among those created,
    and no other process RUNNING. *)
Record proc_wf (s : machine) : Prop := {
  pw_len : length (processes (proc s)) = 16%nat;
  pw_cur : 0 ≤ current_pid (proc s) < process_count (proc s);
  pw_count : process_count (proc s) ≤ 16;
  pw_run : ∀ i, 0 ≤ i < process_count (proc s) →
    state_of (processes (proc s)) i = Some PROCESS_RUNNING → i = current_pid (proc s);
}.

(** ** Lemmas on the table *)

Section table.
Implicit Types (s : machine) (ps : list process_t).

Lemma tbl_get_lookup {A} (l : list A) i : 0 ≤ i → tbl_get l i = l !! Z.to_nat i.
Proof. intros. unfold tbl_get. by rewrite decide_True. Qed.

Lemma tbl_get_Some {A} (l : list A) i : 0 ≤ i < Z.of_nat (length l) → is_Some (tbl_get l i).
Proof. intros. rewrite tbl_get_lookup by lia. apply lookup_lt_is_Some. lia. Qed.

Lemma tbl_get_insert {A} (l : list A) i j x : 0 ≤ i < Z.of_nat (length l) → 0 ≤ j →
  tbl_get (<[Z.to_nat i := x]> l) j = if decide (i = j) then Some x else tbl_get l j.
Proof.
  intros Hi Hj. rewrite !tbl_get_lookup by lia. destruct (decide (i = j)) as [->|Hne].
  - by rewrite list_lookup_insert_eq by lia.
  - by rewrite list_lookup_insert_ne by lia.
Qed.

Lemma get_proc_wp i p n s (Q : process_t → machine → Prop) :
  tbl_get (processes (proc s)) i = Some p → Q p s → wp (get_proc i) n s Q.
Proof. intros H HQ. unfold get_proc. wp_steps. rewrite H. by wp_steps. Qed.

(** [s'] differs from [s] in the process table only. *)
Definition only_table s s' ps : Prop :=
  s' = set_proc (proc s') s ∧
  proc s' = mkProc ps (current_pid (proc s)) (process_count (proc s)).

Lemma only_table_refl s : only_table s s (processes (proc s)).
Proof. destruct s as [? ? ? ? ? ? ? ? ? ? ? ? ? [? ? ?] ? ? ?]. done. Qed.

Lemma only_table_trans s1 s2 s3 ps ps' : only_table s1 s2 ps → only_table s2 s3 ps' →
  only_table s1 s3 ps'.
Proof.
  intros [A1 A2] [B1 B2]. split; [rewrite B1, A1 at 1; done|]. rewrite B2, A2. done.
Qed.

Lemma upd_proc_wp i f p n s (Q : unit → machine → Prop) :
  tbl_get (processes (proc s)) i = Some p →
  (∀ s', only_table s s' (<[Z.to_nat i := f p]> (processes (proc s))) → Q tt s') →
  wp (upd_proc i f) n s Q.
Proof.
  intros H HQ. unfold upd_proc. wp_steps. rewrite H. wp_steps.
  unfold tbl_get in H. case_decide; [|done]. pose proof (lookup_lt_Some _ _ _ H).
  rewrite tbl_set_Some by lia. wp_steps. apply HQ. split; done.
Qed.

Lemma saved_length ps cur rsp : length (saved ps cur rsp) = length ps.
Proof. apply length_alter. Qed.

Lemma saved_get ps cur rsp i : 0 ≤ cur → 0 ≤ i → i ≠ cur → tbl_get (saved ps cur rsp) i = tbl_get ps i.
Proof.
  intros. rewrite !tbl_get_lookup by lia. unfold saved. apply list_lookup_alter_ne. lia.
Qed.

Lemma saved_get_cur ps cur rsp p : 0 ≤ cur → tbl_get ps cur = Some p →
  tbl_get (saved ps cur rsp) cur = Some (match p_state p with
    | PROCESS_DEAD => p
    | PROCESS_RUNNING => with_state PROCESS_READY (with_rsp rsp p)
    | _ => with_rsp rsp p
    end).
Proof.
  intros Hc H. rewrite tbl_get_lookup in * by lia. unfold saved.
  rewrite list_lookup_alter_eq, H. done.
Qed.

(** After saving no process is RUNNING. *)
Lemma saved_not_running s rsp i : proc_wf s → 0 ≤ i < process_count (proc s) →
  state_of (saved (processes (proc s)) (current_pid (proc s)) rsp) i ≠ Some PROCESS_RUNNING.
Proof.
  intros Hwf Hi. pose proof (pw_cur _ Hwf) as Hc. unfold state_of.
  destruct (decide (i = current_pid (proc s))) as [->|Hne].
  - destruct (tbl_get_Some (processes (proc s)) (current_pid (proc s))) as [p Hp].
    { rewrite (pw_len _ Hwf). pose proof (pw_count _ Hwf). lia. }
    rewrite (saved_get_cur _ _ _ p) by (done || lia). cbn. destruct (p_state p) eqn:E; cbn; congruence.
  - rewrite saved_get by lia. intros H. apply Hne. apply (pw_run _ Hwf); done.
Qed.

Lemma alter_insert {A} (f : A → A) (l : list A) i x : l !! i = Some x →
  alter f i l = <[i := f x]> l.
Proof.
  intros H. apply list_eq. intros j. destruct (decide (i = j)) as [->|].
  - rewrite list_lookup_alter_eq, list_lookup_insert_eq, H by (by apply lookup_lt_Some in H). done.
  - rewrite list_lookup_alter_ne, list_lookup_insert_ne by done. done.
Qed.

(** The saving part of [schedule]. *)
Lemma save_wp rsp p n s (Q : unit → machine → Prop) :
  let cur := current_pid (proc s) in
  tbl_get (processes (proc s)) cur = Some p →
  (∀ s', only_table s s' (saved (processes (proc s)) cur rsp) → Q tt s') →
  wp (if decide (p_state p ≠ PROCESS_DEAD) then
        upd_proc cur (with_rsp rsp);;
        (if decide (p_state p = PROCESS_RUNNING) then upd_proc cur (with_state PROCESS_READY)
         else mret tt)
      else mret tt) n s Q.
Proof.
  intros cur Hp HQ. pose proof Hp as Hl. unfold tbl_get in Hl. case_decide as Hc; [|done].
  assert (∀ x, tbl_get (<[Z.to_nat cur := x]> (processes (proc s))) cur = Some x) as Hget.
  { intros x. apply lookup_lt_Some in Hl as Hlt. rewrite tbl_get_insert by lia. by rewrite decide_True. }
  unfold saved in HQ. rewrite (alter_insert _ _ _ p) in HQ by done.
  destruct (p_state p) eqn:E.
  all: try (rewrite (decide_True (P := _ ≠ PROCESS_DEAD)) by done).
  - wp_steps. eapply upd_proc_wp; [done|]. intros s1 H1. rewrite decide_False by done. wp_steps.
    by apply HQ.
  - wp_steps. eapply upd_proc_wp; [done|]. intros s1 H1. rewrite decide_True by done.
    pose proof (proj2 H1) as E1. eapply upd_proc_wp; [rewrite E1; apply Hget|].
    intros s2 H2. rewrite E1 in H2. cbn [processes] in H2. rewrite list_insert_insert_eq in H2.
    apply HQ. by eapply only_table_trans.
  - wp_steps. eapply upd_proc_wp; [done|]. intros s1 H1. rewrite decide_False by done. wp_steps.
    by apply HQ.
  - rewrite decide_False by (intros H; by apply H). wp_steps. apply HQ.
    rewrite list_insert_id by done. apply only_table_refl.
Qed.

End table.

(** ** The scheduler computes [rr_pick] *)

Section schedule.
Implicit Types (s : machine) (ps : list process_t).

Lemma scan_wp (r k : nat) next n s (Q : option Z → machine → Prop) :
  let ps := processes (proc s) in
  let cur := current_pid (proc s) in
  let count := process_count (proc s) in
  0 ≤ cur < count → (Z.to_nat count ≤ length ps)%nat →
  (0 < r ≤ k)%nat → Z.of_nat r ≤ count → next = (cur + (count - Z.of_nat r)) mod count →
  Q (Some (default cur (rr_from r ps count next))) s →
  wp (schedule_scan k next) n s Q.
Proof.
  intros ps cur count Hcur Hlen. revert k next.
  induction r as [|r IH]; intros k next Hr Hrc Hnext HQ; [lia|].
  destruct k as [|k]; [lia|]. cbn [schedule_scan]. wp_steps. fold ps cur count.
  assert (0 ≤ next < count) as Hnr by (rewrite Hnext; apply Z.mod_pos_bound; lia).
  assert ((if decide (next + 1 >= count) then 0 else next + 1) = (next + 1) mod count) as ->.
  { case_decide; [replace (next + 1) with count by lia; by rewrite Z.mod_same by lia|].
    symmetry. apply Z.mod_small. lia. }
  set (nx := (next + 1) mod count) in *.
  assert (0 ≤ nx < count) as Hx by (apply Z.mod_pos_bound; lia).
  destruct (tbl_get_Some ps nx) as [p Hp]; [lia|]. eapply get_proc_wp; [exact Hp|].
  assert (state_of ps nx = Some (p_state p)) as Hst by (unfold state_of; by rewrite Hp).
  cbn [rr_from] in HQ. fold nx in HQ. rewrite Hst in HQ.
  destruct (decide (p_state p = PROCESS_READY)) as [E|E].
  - rewrite decide_False by (intros [? _]; done). rewrite decide_True in HQ by (by rewrite E).
    by apply wp_ret.
  - rewrite (decide_False (P := Some _ = Some _)) in HQ by congruence.
    assert (nx = (cur + (count - Z.of_nat r)) mod count) as Hnx.
    { unfold nx. rewrite Hnext, Zplus_mod_idemp_l. f_equal. lia. }
    destruct (decide (nx = cur)) as [Ec|Ec].
    + rewrite decide_False by (intros [_ ?]; done). apply wp_ret.
      assert (r = 0%nat) as ->; [|by rewrite Ec].
      destruct r as [|r]; [done|]. exfalso. rewrite Hnx in Ec.
      destruct (decide (cur + (count - Z.of_nat (S r)) < count)).
      * rewrite Z.mod_small in Ec; lia.
      * rewrite <- (Z_mod_plus_full _ (-1)), Z.mod_small in Ec; lia.
    + rewrite decide_True by done. apply IH; [|lia|done|done].
      destruct r as [|r]; [|lia]. exfalso. apply Ec. rewrite Hnx.
      replace (cur + (count - Z.of_nat 0)) with (cur + 1 * count) by lia.
      rewrite Z_mod_plus_full. apply Z.mod_small. lia.
Qed.

(** A pick is READY, and a table with a READY process has a pick. *)
Lemma rr_from_Some (k : nat) ps count next j : 0 < count → rr_from k ps count next = Some j →
  0 ≤ j < count ∧ state_of ps j = Some PROCESS_READY.
Proof.
  intros Hc. induction k as [|k IH] in next |- *; cbn [rr_from]; [done|].
  case_decide; [intros [= <-]|apply IH]. split; [apply Z.mod_pos_bound; lia|done].
Qed.

(** The pick is at most as far from the current process as any READY process [j], which is
    [d] steps ahead. *)
Lemma rr_from_first (k : nat) ps count next d : 0 < count →
  1 ≤ d ≤ Z.of_nat k → state_of ps ((next + d) mod count) = Some PROCESS_READY →
  ∃ e, 1 ≤ e ≤ d ∧ rr_from k ps count next = Some ((next + e) mod count).
Proof.
  intros Hc. induction k as [|k IH] in next, d |- *; intros Hd Hst; [lia|]. cbn [rr_from].
  case_decide as E; [exists 1; split; [lia|done]|].
  assert (d ≠ 1) by (intros ->; done).
  destruct (IH ((next + 1) mod count) (d - 1)) as (e & He & Hp); [lia| |].
  { rewrite Zplus_mod_idemp_l. replace (next + 1 + (d - 1)) with (next + d) by lia. done. }
  exists (e + 1). split; [lia|]. rewrite Hp, Zplus_mod_idemp_l. do 2 f_equal. lia.
Qed.

(** The process the next call of [schedule] runs. *)
Definition next_pid s rsp : Z :=
  let ps := saved (processes (proc s)) (current_pid (proc s)) rsp in
  default (current_pid (proc s)) (rr_pick ps (process_count (proc s)) (current_pid (proc s))).

(** The table after a switch. *)
Definition switched s rsp : list process_t :=
  alter (with_state PROCESS_RUNNING) (Z.to_nat (next_pid s rsp))
    (saved (processes (proc s)) (current_pid (proc s)) rsp).

Lemma next_pid_range s rsp : proc_wf s → 0 ≤ next_pid s rsp < process_count (proc s).
Proof.
  intros Hwf. pose proof (pw_cur _ Hwf). unfold next_pid, rr_pick.
  destruct (rr_from _ _ _ _) as [j|] eqn:E; [|done].
  apply rr_from_Some in E as [? _]; [done|lia].
Qed.

(** What [schedule] leaves in the registers it may load. *)
Definition switch_regs s s' (p : process_t) : Prop :=
  cr3 (cpu s') = (if decide (p_pml4 p = 0) then cr3 (cpu s) else p_pml4 p) ∧
  tss_rsp0 (tss_entry (gdt s')) =
    (if decide (p_kernel_stack_top p = 0) then tss_rsp0 (tss_entry (gdt s))
     else p_kernel_stack_top p) ∧
  mem s' = mem s ∧ pmm s' = pmm s ∧ kernel_pml4 (vmm s') = kernel_pml4 (vmm s).

Lemma switch_wp next p n s (Q : Z → machine → Prop) :
  tbl_get (processes (proc s)) next = Some p →
  (∀ s', proc s' = mkProc (alter (with_state PROCESS_RUNNING) (Z.to_nat next) (processes (proc s)))
           next (process_count (proc s)) →
     switch_regs s s' p → Q (p_rsp p) s') →
  wp (schedule_switch next) n s Q.
Proof.
  intros Hp HQ. unfold schedule_switch. wp_steps. eapply upd_proc_wp; [exact Hp|]. intros s1 [F1 E1].
  cbn [proc set_current_pid set_proc processes current_pid process_count] in E1.
  pose proof Hp as Hl. unfold tbl_get in Hl. case_decide as Hn; [|done].
  apply lookup_lt_Some in Hl as Hlt. wp_steps. eapply get_proc_wp.
  { rewrite E1. cbn [processes]. rewrite tbl_get_insert by lia. by rewrite decide_True. }
  rewrite (alter_insert _ _ _ p) in HQ by done. cbn [p_pml4 p_kernel_stack_top p_rsp with_state].
  assert (∀ s', proc s' = proc s1 → switch_regs s1 s' p → Q (p_rsp p) s') as HQ'.
  { intros s' Ep Hr. apply HQ; [by rewrite Ep|]. revert Hr. rewrite F1. done. }
  clear HQ F1. wp_steps. unfold vmm_switch_pml4, set_tss_rsp0.
  destruct (decide (p_pml4 p ≠ 0)) as [H1|H1]; wp_steps;
    (destruct (decide (p_kernel_stack_top p ≠ 0)) as [H2|H2]; wp_steps);
    (apply HQ'; [done|]); unfold switch_regs; repeat case_decide; by try lia.
Qed.

Lemma schedule_wp rsp n s (Q : Z → machine → Prop) :
  proc_wf s →
  (∀ p s', tbl_get (saved (processes (proc s)) (current_pid (proc s)) rsp) (next_pid s rsp) = Some p →
     proc s' = mkProc (switched s rsp) (next_pid s rsp) (process_count (proc s)) →
     switch_regs s s' p → Q (p_rsp p) s') →
  wp (schedule rsp) n s Q.
Proof.
  intros Hwf HQ. pose proof (pw_cur _ Hwf) as Hc. pose proof (pw_count _ Hwf) as Hcnt.
  pose proof (pw_len _ Hwf) as Hlen. unfold schedule. wp_steps.
  destruct (tbl_get_Some (processes (proc s)) (current_pid (proc s))) as [p Hp]; [lia|].
  eapply get_proc_wp; [exact Hp|]. wp_steps. apply (save_wp rsp); [done|]. intros s1 [F1 E1].
  set (ps := saved _ _ _) in *. set (cur := current_pid (proc s)) in *.
  set (count := process_count (proc s)) in *. wp_steps.
  assert (length ps = 16%nat) as Hps by (unfold ps; by rewrite saved_length).
  apply (scan_wp (Z.to_nat count)); rewrite ?E1; cbn [processes current_pid process_count]; try lia.
  { change (Z.to_nat (MAX_PROCESSES + 1)) with 17%nat. lia. }
  { rewrite Z2Nat.id by lia. rewrite Z.sub_diag, Z.add_0_r. symmetry. by apply Z.mod_small. }
  change (default cur _) with (next_pid s rsp).
  pose proof (next_pid_range s rsp Hwf) as Hj. set (j := next_pid s rsp) in *. fold count in Hj.
  assert (processes (proc s1) = ps) as Eps by (by rewrite E1).
  destruct (tbl_get_Some ps j) as [q Hq]; [lia|]. destruct (tbl_get_Some ps 0) as [p0 Hp0]; [lia|].
  wp_steps. eapply get_proc_wp; [by rewrite Eps|]. wp_steps.
  eapply get_proc_wp; [by rewrite Eps|].
  assert ((if decide (j = cur ∧ p_state q ≠ PROCESS_READY) then
    if decide (p_state p0 = PROCESS_READY ∨ p_state p0 = PROCESS_RUNNING) then 0 else j else j) = j) as ->.
  { case_decide as Hn; [|done]. rewrite decide_False; [done|]. destruct Hn as [Ejc Hnr].
    assert (state_of ps 0 = Some (p_state p0)) as S0 by (unfold state_of; by rewrite Hp0).
    intros [H0|H0]; rewrite H0 in S0; [|by apply (saved_not_running s rsp 0 Hwf); [lia|]].
    assert (j = default cur (rr_from (Z.to_nat count) ps count cur)) as Ej by done.
    destruct (rr_from_first (Z.to_nat count) ps count cur (count - cur)) as (e & _ & He); [lia|lia|..].
    { replace (cur + (count - cur)) with (0 + 1 * count) by lia. rewrite Z_mod_plus_full. done. }
    rewrite He in Ej. cbn [default from_option id] in Ej.
    apply rr_from_Some in He as [_ Hr]; [|lia]. rewrite <- Ej in Hr. unfold state_of in Hr.
    rewrite Hq in Hr. cbn in Hr. congruence. }
  apply (switch_wp _ q); [by rewrite Eps|]. intros s2 E2 R2. apply HQ; [done| |].
  - rewrite E2, E1. done.
  - revert R2. rewrite F1. done.
Qed.

End schedule.

(** ** Sequences of timer interrupts *)

(** [schedule] called once per saved stack pointer; the processes it switched to. *)
Fixpoint schedule_trace (rsps : list Z) : M (list Z) :=
  match rsps with
  | [] => mret []
  | r :: rest =>
      _ ← schedule r;
      c ← gets (λ s, current_pid (proc s));
      l ← schedule_trace rest;
      mret (c :: l)
  end.

(** Neither DEAD nor WAITING. *)
Definition runnable (ps : list process_t) (i : Z) : Prop :=
  state_of ps i = Some PROCESS_READY ∨ state_of ps i = Some PROCESS_RUNNING.

Section trace.
Implicit Types (s : machine) (ps : list process_t).

Lemma switched_state s rsp i : proc_wf s → 0 ≤ i →
  state_of (switched s rsp) i =
    if decide (i = next_pid s rsp) then Some PROCESS_RUNNING
    else state_of (saved (processes (proc s)) (current_pid (proc s)) rsp) i.
Proof.
  intros Hwf Hi. pose proof (next_pid_range s rsp Hwf) as Hj. pose proof (pw_len _ Hwf).
  pose proof (pw_count _ Hwf). unfold state_of, switched.
  rewrite !tbl_get_lookup by lia. case_decide as E.
  - subst i. rewrite list_lookup_alter_eq.
    destruct (lookup_lt_is_Some_2 (saved (processes (proc s)) (current_pid (proc s)) rsp)
      (Z.to_nat (next_pid s rsp))) as [p ->]; [rewrite saved_length; lia|done].
  - rewrite list_lookup_alter_ne by lia. done.
Qed.

Lemma schedule_keeps_wf s s' rsp : proc_wf s →
  proc s' = mkProc (switched s rsp) (next_pid s rsp) (process_count (proc s)) → proc_wf s'.
Proof.
  intros Hwf E. split; rewrite E; cbn [processes current_pid process_count].
  - unfold switched. rewrite length_alter, saved_length. apply Hwf.
  - by apply next_pid_range.
  - apply Hwf.
  - intros i Hi. rewrite switched_state by (done || lia). case_decide; [done|].
    intros Hrun. by apply (saved_not_running s rsp i Hwf) in Hrun.
Qed.

Lemma saved_runnable s rsp i : proc_wf s → 0 ≤ i < process_count (proc s) →
  runnable (processes (proc s)) i →
  state_of (saved (processes (proc s)) (current_pid (proc s)) rsp) i = Some PROCESS_READY.
Proof.
  intros Hwf Hi Hr. pose proof (pw_cur _ Hwf). unfold runnable, state_of in *.
  destruct (decide (i = current_pid (proc s))) as [->|Hne].
  - destruct (tbl_get (processes (proc s)) (current_pid (proc s))) as [p|] eqn:Hp;
      [|by destruct Hr].
    rewrite (saved_get_cur _ _ _ p) by (done || lia). cbn in *.
    destruct (p_state p) eqn:E; destruct Hr as [Hr|Hr]; try discriminate Hr; cbn; by rewrite ?E.
  - rewrite saved_get by lia. destruct Hr as [Hr|Hr]; [done|].
    exfalso. apply Hne. by apply (pw_run _ Hwf).
Qed.

Lemma saved_dead ps cur rsp i : 0 ≤ cur → 0 ≤ i → state_of ps i = Some PROCESS_DEAD →
  state_of (saved ps cur rsp) i = Some PROCESS_DEAD.
Proof.
  intros Hc Hi Hd. unfold state_of in *. destruct (decide (i = cur)) as [->|]; [|by rewrite saved_get].
  destruct (tbl_get ps cur) as [p|] eqn:Hp; [|done]. rewrite (saved_get_cur _ _ _ p) by done.
  cbn in *. injection Hd as E. by rewrite E, <- E.
Qed.

(** Every process is some number of steps ahead of the current one. *)
Lemma cyc_reach cur count j : 0 ≤ cur < count → 0 ≤ j < count →
  ∃ d, 1 ≤ d ≤ count ∧ (cur + d) mod count = j.
Proof.
  intros Hc Hj. exists ((j - cur - 1) mod count + 1).
  pose proof (Z.mod_pos_bound (j - cur - 1) count ltac:(lia)). split; [lia|].
  replace (cur + ((j - cur - 1) mod count + 1)) with ((j - cur - 1) mod count + (cur + 1)) by lia.
  rewrite Zplus_mod_idemp_l. replace (j - cur - 1 + (cur + 1)) with j by lia. by apply Z.mod_small.
Qed.

(** With a runnable process the one switched to was READY. *)
Lemma next_pid_ready s rsp i : proc_wf s → 0 ≤ i < process_count (proc s) →
  runnable (processes (proc s)) i →
  state_of (saved (processes (proc s)) (current_pid (proc s)) rsp) (next_pid s rsp) = Some PROCESS_READY.
Proof.
  intros Hwf Hi Hr. pose proof (pw_cur _ Hwf) as Hc. pose proof (saved_runnable s rsp i Hwf Hi Hr) as Hst.
  unfold next_pid, rr_pick. set (ps := saved _ _ _) in *.
  set (cur := current_pid (proc s)) in *. set (count := process_count (proc s)) in *.
  destruct (cyc_reach cur count i Hc Hi) as (d & Hd & Ed). rewrite <- Ed in Hst.
  destruct (rr_from_first (Z.to_nat count) ps count cur d) as (e & _ & He); [lia|lia|done|].
  rewrite He. by apply rr_from_Some in He as [_ ?]; [|lia].
Qed.

Lemma cyc_mod cur d count : 0 ≤ cur < count → 0 ≤ (cur + d) mod count < count.
Proof. intros. apply Z.mod_pos_bound. lia. Qed.

Lemma cyc_ne x d count : 0 ≤ x < count → 1 ≤ d < count → (x + d) mod count ≠ x.
Proof.
  intros Hx Hd E. destruct (decide (x + d < count)).
  - rewrite Z.mod_small in E; lia.
  - rewrite <- (Z_mod_plus_full _ (-1)), Z.mod_small in E; lia.
Qed.

Lemma fair_wp rsps d n s : proc_wf s → 1 ≤ d ≤ Z.of_nat (length rsps) → d ≤ process_count (proc s) →
  let j := (current_pid (proc s) + d) mod process_count (proc s) in
  runnable (processes (proc s)) j →
  wp (schedule_trace rsps) n s (λ pids _, j ∈ pids).
Proof.
  induction rsps as [|r rsps IH] in d, s |- *; intros Hwf Hd Hdc j Hj; [simpl in Hd; lia|].
  pose proof (pw_cur _ Hwf) as Hc. cbn [schedule_trace].
  apply wp_bind, schedule_wp; [done|]. intros p s1 _ E1 _.
  pose proof (schedule_keeps_wf s s1 r Hwf E1) as Hwf1.
  set (cur := current_pid (proc s)) in *. set (count := process_count (proc s)) in *.
  assert (0 ≤ j < count) as Hjr by (by apply cyc_mod).
  pose proof (saved_runnable s r j Hwf Hjr Hj) as Hst.
  destruct (rr_from_first (Z.to_nat count) _ count cur d ltac:(lia) ltac:(lia) Hst) as (e & He & Hp).
  assert (next_pid s r = (cur + e) mod count) as En.
  { unfold next_pid, rr_pick. fold cur count in Hp |- *. by rewrite Hp. }
  assert (current_pid (proc s1) = (cur + e) mod count) as Ec by (by rewrite E1).
  wp_steps. rewrite Ec. destruct (decide (e = d)) as [->|Hed].
  - eapply wp_mono.
    + assert (∀ l s, proc_wf s → wp (schedule_trace l) n s (λ _ _, True)) as Htot; [|by apply Htot].
      clear. intros l. induction l as [|r l IHl]; intros s Hwf; [done|]. cbn [schedule_trace].
      apply wp_bind, schedule_wp; [done|]. intros p s1 _ E1 _. wp_steps.
      eapply wp_mono; [eapply IHl, schedule_keeps_wf; done|]. done.
    + intros l s2 _. apply wp_ret. apply elem_of_cons. by left.
  - assert (((cur + e) mod count + (d - e)) mod count = j) as Ej.
    { rewrite Zplus_mod_idemp_l. unfold j. f_equal. lia. }
    assert (process_count (proc s1) = count) as Ecnt by (by rewrite E1).
    eapply wp_mono; [apply (IH (d - e) s1 Hwf1); rewrite ?Ecnt, ?Ec|].
    + simpl in Hd. lia.
    + lia.
    + rewrite Ej, E1. left. cbn [processes]. rewrite switched_state by (done || lia).
      rewrite decide_False; [done|]. rewrite En, <- Ej. apply cyc_ne; [by apply cyc_mod|lia].
    + cbv beta zeta. rewrite Ec, Ecnt, Ej. intros l s2 Hin. apply wp_ret. apply elem_of_cons. by right.
Qed.

(** A process that is not DEAD is never lost to one that is: with a runnable process, DEAD
    ones are neither switched to nor changed. *)
Lemma switched_dead s rsp i0 i : proc_wf s → 0 ≤ i0 < process_count (proc s) →
  runnable (processes (proc s)) i0 → 0 ≤ i →
  state_of (processes (proc s)) i = Some PROCESS_DEAD →
  next_pid s rsp ≠ i ∧ state_of (switched s rsp) i = Some PROCESS_DEAD.
Proof.
  intros Hwf Hi0 Hr Hi Hd. pose proof (pw_cur _ Hwf) as Hc.
  pose proof (saved_dead _ (current_pid (proc s)) rsp i ltac:(lia) Hi Hd) as Hs.
  assert (next_pid s rsp ≠ i) as Hne.
  { intros <-. rewrite (next_pid_ready s rsp i0) in Hs by done. done. }
  split; [done|]. rewrite switched_state by done. by rewrite decide_False.
Qed.

(** The table after [kill_current_process]. *)
Definition killed s : machine :=
  set_proc (mkProc (alter (with_state PROCESS_DEAD) (Z.to_nat (current_pid (proc s))) (processes (proc s)))
    (current_pid (proc s)) (process_count (proc s))) s.

Lemma killed_state s i : proc_wf s → 0 ≤ i →
  state_of (processes (proc (killed s))) i =
    if decide (i = current_pid (proc s)) then Some PROCESS_DEAD else state_of (processes (proc s)) i.
Proof.
  intros Hwf Hi. pose proof (pw_cur _ Hwf). pose proof (pw_len _ Hwf). pose proof (pw_count _ Hwf).
  unfold state_of, killed. cbn [proc set_proc processes]. rewrite !tbl_get_lookup by lia. case_decide as E.
  - subst i. rewrite list_lookup_alter_eq.
    destruct (lookup_lt_is_Some_2 (processes (proc s)) (Z.to_nat (current_pid (proc s)))) as [p ->]; [lia|done].
  - rewrite list_lookup_alter_ne by lia. done.
Qed.

Lemma killed_wf s : proc_wf s → proc_wf (killed s).
Proof.
  intros Hwf. split.
  - cbn. rewrite length_alter. apply Hwf.
  - apply Hwf.
  - apply Hwf.
  - intros i Hi. rewrite killed_state by (done || lia). case_decide; [done|]. by apply (pw_run _ Hwf).
Qed.

Lemma proc_wf_eq s s' : proc s' = proc s → proc_wf s → proc_wf s'.
Proof. intros E [A B C D]. split; by rewrite E. Qed.

Lemma kill_current_process_wp n s (Q : unit → machine → Prop) : proc_wf s →
  (∀ s', console_only (killed s) s' → Q tt s') → wp kill_current_process n s Q.
Proof.
  intros Hwf HQ. pose proof (pw_cur _ Hwf) as Hc. unfold kill_current_process. wp_steps.
  rewrite decide_False by lia.
  destruct (tbl_get_Some (processes (proc s)) (current_pid (proc s))) as [p Hp].
  { rewrite (pw_len _ Hwf). pose proof (pw_count _ Hwf). lia. }
  apply wp_bind. eapply upd_proc_wp; [exact Hp|]. intros s1 [F1 E1].
  assert (s1 = killed s) as E.
  { rewrite F1, E1. unfold killed. rewrite tbl_get_lookup in Hp by lia. by rewrite (alter_insert _ _ _ p). }
  rewrite E. clear F1 E1 E s1. wp_print; [apply u64_range|]. wp_steps. wp_print. apply HQ. by repeat (etrans; [eassumption|]).
Qed.

End trace.

(** ** Trap frames *)

(** [registers_t] of isr.c, read from the stack. *)
Record registers_t := mkRegs {
  r_ds : Z; r_gprs : list Z;            (* rax, rbx, rcx, rdx, rbp, rsi, rdi, r8 .. r15 *)
  r_int_no : Z; r_err_code : Z;
  r_rip : Z; r_cs : Z; r_rflags : Z; r_rsp : Z; r_ss : Z;
}.

Definition word_at (m : gmap Z Z) (a : Z) (k : nat) : Z := load 8 m (a + 8 * Z.of_nat k).

Definition read_regs (m : gmap Z Z) (a : Z) : registers_t :=
  mkRegs (word_at m a 0) (word_at m a <$> seq 1 15) (word_at m a 16) (word_at m a 17)
    (word_at m a 18) (word_at m a 19) (word_at m a 20) (word_at m a 21) (word_at m a 22).

(** [s] is [s0] with the words [ws] on the stack that ends at [top]; [a] is the stack pointer. *)
Record stacked (s0 s : machine) (top a : Z) (ws : list Z) : Prop := {
  sk_ptr : a = top - 8 * Z.of_nat (length ws);
  sk_words : ∀ k w, ws !! k = Some w → word_at (mem s) a k = w;
  sk_frame : s = set_mem (mem s) s0;
  sk_out : agree_out (mem s0) (mem s) a (top - a);
}.

Section frames.
Implicit Types (s : machine).

Lemma stacked_nil s top : stacked s s top top [].
Proof. split; [simpl; lia|done|by destruct s|done]. Qed.

Lemma push_wp s0 s top a ws v n (Q : Z → machine → Prop) :
  stacked s0 s top a ws → 0 ≤ v < 2 ^ 64 → 8 ≤ a < 2 ^ 64 →
  (∀ s', stacked s0 s' top (a - 8) (v :: ws) → Q (a - 8) s') → wp (push a v) n s Q.
Proof.
  intros [Hp Hw Hf Ho] Hv Ha HQ. unfold push. rewrite u64_small by lia. wp_steps. apply HQ.
  split.
  - simpl. lia.
  - intros [|k] w Hk; unfold word_at; cbn [mem set_mem].
    + injection Hk as <-. rewrite Z.mul_0_r, Z.add_0_r. by apply load_store_64.
    + rewrite load_store_ne by lia. rewrite <- (Hw k w) by done. unfold word_at. f_equal. lia.
  - cbn [mem set_mem]. rewrite Hf. done.
  - intros x Hx. cbn [mem set_mem]. rewrite byte_store_out by lia. apply Ho. lia.
Qed.

Lemma push_registers_wp s0 s top a ws n (Q : Z → machine → Prop) :
  stacked s0 s top a ws → 128 ≤ a < 2 ^ 64 →
  (∀ s', stacked s0 s' top (a - 128) (replicate 16 0 ++ ws) → Q (a - 128) s') →
  wp (push_registers a) n s Q.
Proof.
  intros Hs Ha HQ. unfold push_registers.
  apply (wp_for_acc (λ i r s', r = a - 8 * i ∧ stacked s0 s' top r (replicate (Z.to_nat i) 0 ++ ws))).
  - split; [lia|]. done.
  - intros i r s' Hi [-> Hs']. eapply push_wp; [done|lia|lia|]. intros s'' Hs''. split; [lia|].
    replace (Z.to_nat (i + 1)) with (S (Z.to_nat i)) by lia. done.
  - intros r s' [-> Hs']. apply HQ. done.
Qed.

(** A stack in a fresh frame: the words below the top are all inside the frame. *)
Lemma stacked_words s0 s top a ws k w : stacked s0 s top a ws → ws !! k = Some w →
  word_at (mem s) a k = w.
Proof. intros H. apply (sk_words _ _ _ _ _ H). Qed.

Lemma stacked_regs s0 s top a err int rip cs fl sp ss :
  stacked s0 s top a (replicate 16 0 ++ [int; err; rip; cs; fl; sp; ss]) →
  read_regs (mem s) a = mkRegs 0 (replicate 15 0) int err rip cs fl sp ss.
Proof.
  intros H. unfold read_regs. cbn [seq fmap list_fmap replicate].
  repeat match goal with |- context [word_at (mem s) a ?k] =>
    erewrite (stacked_words _ _ _ _ _ k _ H) by reflexivity end.
  done.
Qed.

End frames.

(** ** Creation of processes *)

Section create.
Implicit Types (s : machine) (ps : list process_t).

(** Two machines with the same memory and allocator variables. *)
Definition same_mem s s' : Prop := mem s' = mem s ∧ pmm s' = pmm s.

#[export] Instance same_mem_preorder : PreOrder same_mem.
Proof. split; [done|]. intros s1 s2 s3 [A B] [C D]. split; congruence. Qed.

Lemma only_table_same s s' ps : only_table s s' ps → same_mem s s'.
Proof. intros [H _]. rewrite H. done. Qed.

Lemma console_only_same s s' : console_only s s' → same_mem s s' ∧ proc s' = proc s.
Proof. intros H. rewrite H. done. Qed.

Lemma same_mem_used s s' i : same_mem s s' → used s' i = used s i.
Proof. intros [A B]. unfold used. by rewrite A, B. Qed.

Lemma same_mem_wf s s' : same_mem s s' → pmm_wf s → pmm_fits s → pmm_wf s' ∧ pmm_fits s'.
Proof.
  intros H Hw Hf. apply (low_same_wf s); [done..|]. destruct H as [A B]. split; [done|].
  intros x _. by rewrite A.
Qed.

(** The slot [i] holds [p], and the rest of the process variables are those of [s0]. *)
Definition slot s0 s (i : Z) (p : process_t) : Prop :=
  proc s = mkProc (<[Z.to_nat i := p]> (processes (proc s0)))
             (current_pid (proc s0)) (process_count (proc s0)).

Lemma slot_upd_wp s0 s i p f n (Q : unit → machine → Prop) :
  slot s0 s i p → 0 ≤ i < Z.of_nat (length (processes (proc s0))) →
  (∀ s', slot s0 s' i (f p) → same_mem s s' → vmm s' = vmm s → Q tt s') →
  wp (upd_proc i f) n s Q.
Proof.
  intros Hs Hi HQ. apply (upd_proc_wp _ _ p).
  { rewrite Hs. cbn [processes]. rewrite tbl_get_insert by lia. by rewrite decide_True. }
  intros s' [F E]. apply HQ.
  - unfold slot. rewrite E, Hs. cbn [processes current_pid process_count].
    by rewrite list_insert_insert_eq.
  - rewrite F. done.
  - rewrite F. done.
Qed.

Lemma slot_start_wp i f p n s (Q : unit → machine → Prop) :
  tbl_get (processes (proc s)) i = Some p →
  (∀ s', slot s s' i (f p) → same_mem s s' → vmm s' = vmm s → Q tt s') →
  wp (upd_proc i f) n s Q.
Proof.
  intros Hp HQ. apply (upd_proc_wp _ _ p); [done|]. intros s' [F E].
  apply HQ; [exact E|rewrite F; done..].
Qed.

(** The allocator leaves the process variables alone. *)
Lemma slot_alloc_wp s0 s i p n (Q : Z → machine → Prop) :
  slot s0 s i p → pmm_wf s →
  (∀ f s', allocated s s' f → slot s0 s' i p → vmm s' = vmm s → Q (f * 4096) s') →
  (∀ s', full s → full s' → slot s0 s' i p → vmm s' = vmm s → Q 0 s') → wp pmm_alloc_block n s Q.
Proof.
  intros Hs Hwf Hok Hfull. apply alloc_frame_wp; [done|..].
  - intros f s' Hal. apply Hok; [done|..]; rewrite (al_frame _ _ _ Hal); done.
  - intros s' Hall Hc. apply Hfull; [done|..|by rewrite Hc].
    + unfold full, used in *. rewrite Hc. done.
    + unfold slot. rewrite Hc. done.
Qed.

(** A stack written in frame [k], and what it leaves alone. *)
Lemma stacked_slot s0 s s' i p top a ws : slot s0 s i p → stacked s s' top a ws → slot s0 s' i p.
Proof. intros Hs Hk. unfold slot. rewrite (sk_frame _ _ _ _ _ Hk). done. Qed.

Lemma stacked_low s s' k a ws : stacked s s' (k * 4096 + 4096) a ws → 8192 ≤ k →
  (length ws ≤ 512)%nat → low_same s s'.
Proof.
  intros [Hp _ Hf Ho] Hk Hl. split; [by rewrite Hf|]. intros x Hx. apply Ho. lia.
Qed.

End create.

(** A user process made of the frames [u] (user stack) and [k] (kernel stack): a READY entry
    in the next slot, whose stack pointer addresses the trap frame of [entry]. *)
Record user_created (s s' : machine) (entry pml4 u k : Z) : Prop := {
  uc_frames : u ≠ k ∧ used s u = false ∧ used s k = false ∧ 8192 ≤ u ∧ 8192 ≤ k;
  uc_used : ∀ j, 0 ≤ j < total_blocks (pmm s) →
    used s' j = used s j || bool_decide (j = u) || bool_decide (j = k);
  uc_proc : let i := process_count (proc s) in
    proc s' = mkProc (<[Z.to_nat i := mkProcess (k * 4096 + 4096 - 184) i PROCESS_READY
                          (u * 4096) (k * 4096) (k * 4096 + 4096) pml4]> (processes (proc s)))
                (current_pid (proc s)) (i + 1);
  uc_regs : read_regs (mem s') (k * 4096 + 4096 - 184)
    = mkRegs 0 (replicate 15 0) 0 0 entry 0x23 0x202 (u * 4096 + 4096) 0x1B;
  uc_mem : ∀ x, 0x2000000 ≤ x → ¬ (k * 4096 ≤ x < k * 4096 + 4096) →
    byte_at (mem s') x = byte_at (mem s) x;
}.

Section create_user.
Implicit Types (s : machine).

(** [push_frame] in the stack that is frame [k]. *)
Lemma frame_wp w1 w2 w3 w4 w5 k n s (Q : Z → machine → Prop) :
  0 ≤ k < 2 ^ 40 → Forall (λ w, 0 ≤ w < 2 ^ 64) [w1; w2; w3; w4; w5] →
  (∀ s', stacked s s' (k * 4096 + 4096) (k * 4096 + 4096 - 184)
           (replicate 16 0 ++ [0; 0; w5; w4; w3; w2; w1]) → Q (k * 4096 + 4096 - 184) s') →
  wp (push_frame (k * 4096 + 4096) w1 w2 w3 w4 w5) n s Q.
Proof.
  intros Hk Hw HQ. unfold push_frame. rewrite !Forall_cons in Hw. destruct Hw as (H1 & H2 & H3 & H4 & H5 & _).
  apply wp_bind. eapply push_wp; [apply stacked_nil|done|lia|]. intros s1 S1.
  apply wp_bind. eapply push_wp; [exact S1|done|lia|]. intros s2 S2.
  apply wp_bind. eapply push_wp; [exact S2|done|lia|]. intros s3 S3.
  apply wp_bind. eapply push_wp; [exact S3|done|lia|]. intros s4 S4.
  apply wp_bind. eapply push_wp; [exact S4|done|lia|]. intros s5 S5.
  apply wp_bind. eapply push_wp; [exact S5|lia|lia|]. intros s6 S6.
  apply wp_bind. eapply push_wp; [exact S6|lia|lia|]. intros s7 S7.
  eapply push_registers_wp; [exact S7|lia|]. intros s8 S8.
  replace (k * 4096 + 4096 - 8 - 8 - 8 - 8 - 8 - 8 - 8 - 128) with (k * 4096 + 4096 - 184) in * by lia.
  by apply HQ.
Qed.

(** The end of both creation functions: the stack pointer, the count, the message. *)
Lemma finish_wp s0 s i p rsp msg n (Q : unit → machine → Prop) :
  slot s0 s i p → i = process_count (proc s0) → 0 ≤ i < Z.of_nat (length (processes (proc s0))) →
  i < 2 ^ 31 →
  (∀ s', proc s' = mkProc (<[Z.to_nat i := with_rsp rsp p]> (processes (proc s0)))
           (current_pid (proc s0)) (i + 1) → same_mem s s' → Q tt s') →
  wp (upd_proc i (with_rsp rsp);; modify (set_process_count (i + 1));; print_created msg (u64 i)) n s Q.
Proof.
  intros Hs -> Hi Hi2 HQ. apply wp_bind. eapply slot_upd_wp; [done..|]. intros s1 H1 M1 _.
  wp_steps. unfold print_created. wp_print; [rewrite u64_small; lia|].
  apply console_only_same in Hc as [C1 P1], Hc0 as [C2 P2], Hc1 as [C3 P3].
  apply HQ; [rewrite P3, P2, P1; cbn; rewrite H1; done|].
  etrans; [exact M1|]. etrans; [|exact C3]. etrans; [|exact C2]. exact C1.
Qed.

(** The frames of a user process, through the steps of its creation. *)
Lemma two_frames s s2 s3 s4 s5 s7 s8 s9 u k a ws :
  pmm_wf s → pmm_fits s → same_mem s s2 → allocated s2 s3 u → same_mem s3 s4 →
  allocated s4 s5 k → same_mem s5 s7 → stacked s7 s8 (k * 4096 + 4096) a ws →
  (length ws ≤ 512)%nat → same_mem s8 s9 →
  (u ≠ k ∧ used s u = false ∧ used s k = false ∧ 8192 ≤ u ∧ 8192 ≤ k) ∧
  (∀ j, 0 ≤ j < total_blocks (pmm s) →
     used s9 j = used s j || bool_decide (j = u) || bool_decide (j = k)) ∧
  ∀ x, 0x2000000 ≤ x → ¬ (k * 4096 ≤ x < k * 4096 + 4096) → byte_at (mem s9) x = byte_at (mem s) x.
Proof.
  intros Hwf Hfit M2 A3 M4 A5 M7 F8 Hws M9.
  destruct (same_mem_wf _ _ M2 Hwf Hfit) as [Hwf2 Hfit2].
  pose proof (allocated_wf _ _ _ Hwf2 A3) as Hwf3. pose proof (allocated_fits _ _ _ Hfit2 A3) as Hfit3.
  destruct (same_mem_wf _ _ M4 Hwf3 Hfit3) as [Hwf4 Hfit4].
  pose proof (allocated_wf _ _ _ Hwf4 A5) as Hwf5. pose proof (allocated_fits _ _ _ Hfit4 A5) as Hfit5.
  destruct (same_mem_wf _ _ M7 Hwf5 Hfit5) as [Hwf7 Hfit7].
  pose proof (al_range _ _ _ A3) as Hu. pose proof (al_range _ _ _ A5) as Hk.
  assert (pmm s4 = pmm s ∧ pmm s2 = pmm s ∧ pmm s7 = pmm s) as (P4 & P2 & P7).
  { destruct M2 as [_ E2], M4 as [_ E4], M7 as [_ E7]. rewrite E7, (al_frame _ _ _ A5). cbn.
    rewrite E4, (al_frame _ _ _ A3). cbn. by rewrite E2. }
  rewrite P2 in Hu. rewrite P4 in Hk.
  assert (∀ j, 0 ≤ j → used s4 j = used s j || bool_decide (j = u)) as U4.
  { intros j Hj. by rewrite (same_mem_used _ _ _ M4), (al_used _ _ _ A3), (same_mem_used _ _ _ M2). }
  pose proof (al_free _ _ _ A5) as Fk. rewrite U4 in Fk by lia. apply orb_false_iff in Fk as [Fk Nk].
  apply bool_decide_eq_false in Nk.
  pose proof (al_free _ _ _ A3) as Fu. rewrite (same_mem_used _ _ _ M2) in Fu.
  split; [split_and!; [done|done|done|lia|lia]|]. split.
  - intros j Hj. rewrite (same_mem_used _ _ _ M9), (low_same_used s7); [|done..| |lia|rewrite P7; lia].
    + by rewrite (same_mem_used _ _ _ M7), (al_used _ _ _ A5), U4 by lia.
    + eapply stacked_low; [exact F8|lia|done].
  - intros x Hx Hx2. destruct M9 as [-> _]. pose proof (sk_ptr _ _ _ _ _ F8).
    rewrite (sk_out _ _ _ _ _ F8) by lia. destruct M7 as [-> _].
    rewrite (allocated_high _ _ _ x Hfit4 A5) by lia. destruct M4 as [-> _].
    rewrite (allocated_high _ _ _ x Hfit2 A3) by lia. by destruct M2 as [-> _].
Qed.

Lemma create_user_process_wp entry pml4 n s (Q : unit → machine → Prop) :
  proc_wf s → pmm_wf s → pmm_fits s → process_count (proc s) < 16 → 0 ≤ entry < 2 ^ 64 →
  (∀ u k s', user_created s s' entry pml4 u k → Q tt s') →
  (∀ s', full s' → process_count (proc s') = process_count (proc s) → Q tt s') →
  wp (create_user_process entry pml4) n s Q.
Proof.
  intros Hw Hwf Hfit Hcnt He Hok Hfull. pose proof (pw_cur _ Hw) as Hc.
  pose proof (pw_len _ Hw) as Hlen. unfold create_user_process, MAX_PROCESSES, STACK_SIZE. wp_steps.
  set (i := process_count (proc s)) in *. rewrite decide_False by lia. wp_steps.
  destruct (tbl_get_Some (processes (proc s)) i) as [p Hp]; [lia|].
  assert (0 ≤ i < Z.of_nat (length (processes (proc s)))) as Hi by lia.
  eapply slot_start_wp; [exact Hp|]. intros s1 S1 M1 _. wp_steps.
  eapply slot_upd_wp; [exact S1|done|]. intros s2 S2 M2 _. wp_steps.
  assert (same_mem s s2) as M02 by (by etrans).
  destruct (same_mem_wf _ _ M02 Hwf Hfit) as [Hwf2 Hfit2].
  eapply slot_alloc_wp; [exact S2|done| |].
  2:{ intros s' _ Hfu S' _. rewrite decide_True by done. wp_print. apply console_only_same in Hc0 as [C P].
      apply Hfull; [|by rewrite P, S']. intros j Hj. rewrite (same_mem_used _ _ _ C). apply Hfu.
      destruct C as [_ <-]. done. }
  intros u s3 A3 S3 _. pose proof (al_range _ _ _ A3) as Hu. pose proof (pmm_fits_total _ Hfit2) as Ht.
  rewrite decide_False by lia. wp_steps.
  eapply slot_upd_wp; [exact S3|done|]. intros s4 S4 M4 _. wp_steps.
  destruct (same_mem_wf _ _ M4 (allocated_wf _ _ _ Hwf2 A3) (allocated_fits _ _ _ Hfit2 A3)) as [Hwf4 Hfit4].
  eapply slot_alloc_wp; [exact S4|done| |].
  2:{ intros s' _ Hfu S' _. rewrite decide_True by done. wp_print. apply console_only_same in Hc0 as [C P].
      apply Hfull; [|by rewrite P, S']. intros j Hj. rewrite (same_mem_used _ _ _ C). apply Hfu.
      destruct C as [_ <-]. done. }
  intros k s5 A5 S5 _. pose proof (al_range _ _ _ A5) as Hk.
  assert (pmm s4 = pmm s) as P4.
  { destruct M4 as [_ ->]. rewrite (al_frame _ _ _ A3). cbn. by destruct M02 as [_ ->]. }
  assert (pmm s2 = pmm s) as P2 by (by destruct M02 as [_ ->]).
  rewrite P4 in Hk. rewrite P2 in Hu, Ht.
  rewrite decide_False by lia.
  rewrite (u64_small (u * 4096 + 4096)), (u64_small (k * 4096 + 4096)) by lia. wp_steps.
  eapply slot_upd_wp; [exact S5|done|]. intros s6 S6 M6 _. wp_steps.
  eapply slot_upd_wp; [exact S6|done|]. intros s7 S7 M7 _. wp_steps.
  apply frame_wp; [lia|repeat constructor; lia|]. intros s8 F8.
  pose proof (stacked_slot _ _ _ _ _ _ _ _ S7 F8) as S8.
  refine (finish_wp _ _ _ _ _ _ _ _ S8 eq_refl Hi _ _); [lia|]. intros s9 E9 M9.
  assert (same_mem s5 s7) as M57 by (by etrans).
  destruct (two_frames _ _ _ _ _ _ _ _ _ _ _ _ Hwf Hfit M02 A3 M4 A5 M57 F8 ltac:(simpl; lia) M9)
    as (G1 & G2 & G3).
  apply (Hok u k). split; [exact G1|exact G2|..|exact G3].
  - cbv zeta. fold i. rewrite E9. by rewrite u64_small by lia.
  - destruct M9 as [-> _]. by apply (stacked_regs s7 s8 (k * 4096 + 4096)).
Qed.

Lemma create_kernel_process_wp entry n s (Q : unit → machine → Prop) :
  proc_wf s → pmm_wf s → pmm_fits s → process_count (proc s) < 16 → 0 ≤ entry < 2 ^ 64 →
  (∀ k s', (used s k = false ∧ 8192 ≤ k < total_blocks (pmm s)) ∨ (k = 0 ∧ full s) →
     (let i := process_count (proc s) in
      proc s' = mkProc (<[Z.to_nat i := mkProcess (k * 4096 + 4096 - 184) i PROCESS_READY
                          (k * 4096) (k * 4096) (k * 4096 + 4096) (kernel_pml4 (vmm s))]>
                          (processes (proc s))) (current_pid (proc s)) (i + 1)) →
     read_regs (mem s') (k * 4096 + 4096 - 184)
       = mkRegs 0 (replicate 15 0) 0 0 entry 0x08 0x202 (k * 4096 + 4096) 0x10 →
     Q tt s') →
  wp (create_kernel_process entry) n s Q.
Proof.
  intros Hw Hwf Hfit Hcnt He Hok. pose proof (pw_cur _ Hw) as Hc.
  pose proof (pw_len _ Hw) as Hlen. unfold create_kernel_process, MAX_PROCESSES, STACK_SIZE. wp_steps.
  set (i := process_count (proc s)) in *. rewrite decide_False by lia. wp_steps.
  destruct (tbl_get_Some (processes (proc s)) i) as [p Hp]; [lia|].
  assert (0 ≤ i < Z.of_nat (length (processes (proc s)))) as Hi by lia.
  eapply slot_start_wp; [exact Hp|]. intros s1 S1 M1 V1. wp_steps.
  eapply slot_upd_wp; [exact S1|done|]. intros s2 S2 M2 V2. wp_steps.
  assert (same_mem s s2) as M02 by (by etrans).
  destruct (same_mem_wf _ _ M02 Hwf Hfit) as [Hwf2 Hfit2].
  assert (∀ k s3, 0 ≤ k < 2 ^ 40 → (used s k = false ∧ 8192 ≤ k < total_blocks (pmm s)) ∨ (k = 0 ∧ full s) →
    slot s s3 i (with_state PROCESS_READY (with_pid (u64 i) p)) → vmm s3 = vmm s →
    wp (upd_proc i (with_stack (k * 4096));;
        upd_proc i (with_kstack (k * 4096) (u64 (k * 4096 + 4096)));;
        kp ← gets (λ s, kernel_pml4 (vmm s));
        upd_proc i (with_pml4 kp);;
        rsp ← push_frame (u64 (k * 4096 + 4096)) 0x10 (u64 (u64 (u64 (k * 4096 + 4096) - 16) + 16))
                0x202 0x08 entry;
        upd_proc i (with_rsp rsp);;
        modify (set_process_count (i + 1));;
        print_created (str "Created Kernel Process PID ") (u64 i)) n s3 Q) as Hrest.
  { intros k s3 Hk Hcase S3 V3. rewrite (u64_small (k * 4096 + 4096)) by lia.
    rewrite (u64_small (k * 4096 + 4096 - 16)), (u64_small (k * 4096 + 4096 - 16 + 16)) by lia.
    apply wp_bind. eapply slot_upd_wp; [exact S3|done|]. intros s4 S4 _ V4.
    apply wp_bind. eapply slot_upd_wp; [exact S4|done|]. intros s5 S5 _ V5. wp_steps.
    eapply slot_upd_wp; [exact S5|done|]. intros s6 S6 _ V6. wp_steps.
    apply frame_wp; [done|repeat constructor; lia|]. intros s7 F7.
    pose proof (stacked_slot _ _ _ _ _ _ _ _ S6 F7) as S7.
    refine (finish_wp _ _ _ _ _ _ _ _ S7 eq_refl Hi _ _); [lia|]. intros s9 E9 M9.
    apply (Hok k); [done|..].
    - cbv zeta. fold i. rewrite E9. rewrite V5, V4, V3, u64_small by lia. done.
    - destruct M9 as [-> _]. rewrite (stacked_regs _ _ _ _ _ _ _ _ _ _ _ F7). f_equal. lia. }
  eapply slot_alloc_wp; [exact S2|done|..].
  - intros k s3 A3 S3 V3. pose proof (al_range _ _ _ A3) as Hk. pose proof (pmm_fits_total _ Hfit2).
    apply Hrest; [lia| |done|congruence]. left. pose proof (proj2 M02) as Ep2. split; [|rewrite <- Ep2; lia].
    rewrite <- (same_mem_used _ _ _ M02). apply A3.
  - intros s3 Hfu _ S3 V3. apply (Hrest 0); [lia| |done|congruence]. right. split; [done|].
    intros j Hj. rewrite <- (same_mem_used _ _ _ M02). apply Hfu. by destruct M02 as [_ ->].
Qed.

End create_user.

(** ** Properties *)

(** A table with three processes, the first of them running. *)
Definition proc_demo : machine :=
  set_proc (mkProc ([mkProcess 0x9000 0 PROCESS_RUNNING 0 0 0 0;
                     mkProcess 0xa000 1 PROCESS_DEAD 0 0 0xb000 0x2000000;
                     mkProcess 0xc000 2 PROCESS_READY 0 0 0xd000 0x2001000]
                    ++ replicate 13 (mkProcess 0 0 PROCESS_WAITING 0 0 0 0)) 0 3) pmm_demo.

Lemma proc_demo_wf : proc_wf proc_demo.
Proof.
  split; [done|cbn; lia|cbn; lia|]. cbn [proc proc_demo set_proc process_count current_pid].
  intros i Hi. assert (i = 0 ∨ i = 1 ∨ i = 2) as [->|[->| ->]] by lia; by vm_compute.
Qed.

Lemma proc_demo_pmm : pmm_wf proc_demo.
Proof. destruct pmm_demo_wf as [A B C]. split; [exact A|exact B|exact C]. Qed.

(** C5. [schedule] is round robin: it saves the interrupted process, switches to the first
    READY process in cyclic order after it (to the interrupted one itself when there is no
    other), makes exactly that one RUNNING, loads its page tables and its kernel stack, and
    returns its saved stack pointer.  The loop guard is never reached. *)
Theorem schedule_round_robin rsp n s :
  proc_wf s →
  wp (schedule rsp) n s (λ r s',
    proc_wf s' ∧ current_pid (proc s') = next_pid s rsp ∧
    process_count (proc s') = process_count (proc s) ∧
    processes (proc s') = switched s rsp ∧
    ∃ p, tbl_get (saved (processes (proc s)) (current_pid (proc s)) rsp) (next_pid s rsp) = Some p ∧
      r = p_rsp p ∧ switch_regs s s' p).
Proof.
  intros Hwf. apply schedule_wp; [done|]. intros p s' Hp E R.
  split; [by eapply schedule_keeps_wf|]. rewrite E. split_and!; [done..|]. by exists p.
Qed.

Lemma schedule_round_robin_witness :
  wp (schedule 0x8ff0) 0 proc_demo (λ r s',
    proc_wf s' ∧ current_pid (proc s') = 2 ∧ process_count (proc s') = 3 ∧
    processes (proc s') = switched proc_demo 0x8ff0 ∧
    ∃ p, tbl_get (saved (processes (proc proc_demo)) 0 0x8ff0) 2 = Some p ∧
      r = p_rsp p ∧ switch_regs proc_demo s' p).
Proof. exact (schedule_round_robin 0x8ff0 0 proc_demo proc_demo_wf). Defined.

(** C15. The scheduler is fair: a process that is neither DEAD nor WAITING is switched to
    within as many timer interrupts as there are processes, wherever in the table it is. *)
Theorem schedule_fair rsps j n s :
  proc_wf s → 0 ≤ j < process_count (proc s) → runnable (processes (proc s)) j →
  process_count (proc s) ≤ Z.of_nat (length rsps) →
  wp (schedule_trace rsps) n s (λ pids _, j ∈ pids).
Proof.
  intros Hwf Hj Hr Hlen. pose proof (pw_cur _ Hwf) as Hc.
  set (cur := current_pid (proc s)) in *. set (count := process_count (proc s)) in *.
  destruct (cyc_reach cur count j Hc Hj) as (d & Hd & Ej).
  rewrite <- Ej. apply (fair_wp rsps d n s Hwf); [lia|fold count; lia|].
  fold cur count. by rewrite Ej.
Qed.

Lemma schedule_fair_witness :
  wp (schedule_trace [1; 2; 3]) 0 proc_demo (λ pids _, 2 ∈ pids).
Proof.
  apply (schedule_fair [1; 2; 3] 2 0 proc_demo proc_demo_wf); [cbn; lia|by left|cbn; lia].
Defined.

(** C36. A DEAD process is not switched to, and stays DEAD, as long as some process is READY
    or RUNNING; with none left, [schedule] makes the dead current process RUNNING again and
    returns to its old stack. *)
Theorem schedule_dead rsp n s :
  proc_wf s →
  wp (schedule rsp) n s (λ r s',
    ((∃ i, 0 ≤ i < process_count (proc s) ∧ runnable (processes (proc s)) i) →
     ∀ i, 0 ≤ i < process_count (proc s) → state_of (processes (proc s)) i = Some PROCESS_DEAD →
       current_pid (proc s') ≠ i ∧ state_of (processes (proc s')) i = Some PROCESS_DEAD) ∧
    ((∀ i, 0 ≤ i < process_count (proc s) → state_of (processes (proc s)) i = Some PROCESS_DEAD) →
     current_pid (proc s') = current_pid (proc s) ∧
     state_of (processes (proc s')) (current_pid (proc s)) = Some PROCESS_RUNNING ∧
     ∃ p, tbl_get (processes (proc s)) (current_pid (proc s)) = Some p ∧ r = p_rsp p)).
Proof.
  intros Hwf. apply schedule_wp; [done|]. intros p s' Hp E _. rewrite E.
  cbn [processes current_pid]. pose proof (pw_cur _ Hwf) as Hc.
  assert (∀ i, 0 ≤ i < process_count (proc s) → state_of (processes (proc s)) i = Some PROCESS_DEAD →
    state_of (saved (processes (proc s)) (current_pid (proc s)) rsp) i = Some PROCESS_DEAD) as Hdead.
  { intros i Hi Hd. by apply saved_dead; [lia..|]. }
  split; [intros (i0 & Hi0 & Hr) i Hi Hd; apply (switched_dead s rsp i0); done || lia|].
  intros Hall. assert (next_pid s rsp = current_pid (proc s)) as En.
    { unfold next_pid. destruct (rr_pick _ _ _) as [j|] eqn:Ep; [|done].
      apply rr_from_Some in Ep as [Hj Hr]; [|lia]. rewrite Hdead in Hr by auto. done. }
    rewrite En in *. split; [done|]. rewrite switched_state by (done || lia).
    rewrite decide_True by done. split; [done|]. exists p. split; [|done].
    specialize (Hall _ Hc). unfold state_of in Hall.
    destruct (tbl_get (processes (proc s)) (current_pid (proc s))) as [q|] eqn:Hq; [|done].
    rewrite (saved_get_cur _ _ _ q) in Hp by (done || lia). cbn in Hall.
    injection Hall as Hall. rewrite Hall in Hp. done.
Qed.

Lemma schedule_dead_witness :
  wp (schedule 0x8ff0) 0 proc_demo (λ r s',
    ((∃ i, 0 ≤ i < 3 ∧ runnable (processes (proc proc_demo)) i) →
     ∀ i, 0 ≤ i < 3 → state_of (processes (proc proc_demo)) i = Some PROCESS_DEAD →
       current_pid (proc s') ≠ i ∧ state_of (processes (proc s')) i = Some PROCESS_DEAD) ∧
    ((∀ i, 0 ≤ i < 3 → state_of (processes (proc proc_demo)) i = Some PROCESS_DEAD) →
     current_pid (proc s') = 0 ∧ state_of (processes (proc s')) 0 = Some PROCESS_RUNNING ∧
     ∃ p, tbl_get (processes (proc proc_demo)) 0 = Some p ∧ r = p_rsp p)).
Proof. exact (schedule_dead 0x8ff0 0 proc_demo proc_demo_wf). Defined.

(** C26. [create_user_process] with a free slot: unless the frames run out, it takes two free
    frames, fills the next slot with a READY process whose stack pointer addresses, in its
    kernel stack, the ring 3 trap frame of the entry point with the user stack's top and
    interrupts enabled, counts it, and changes no other byte above 32 MiB.  When a frame is
    missing no process is counted. *)
Theorem create_user_process_frame entry pml4 n s :
  proc_wf s → pmm_wf s → pmm_fits s → process_count (proc s) < 16 → 0 ≤ entry < 2 ^ 64 →
  wp (create_user_process entry pml4) n s (λ _ s',
    (∃ u k, user_created s s' entry pml4 u k) ∨
    (full s' ∧ process_count (proc s') = process_count (proc s))).
Proof.
  intros. apply create_user_process_wp; [done..| |by right]. intros u k s' Hs. left. eauto.
Qed.

Lemma create_user_process_frame_witness :
  wp (create_user_process 0x400000 0x2000000) 0 proc_demo (λ _ s',
    (∃ u k, user_created proc_demo s' 0x400000 0x2000000 u k) ∨
    (full s' ∧ process_count (proc s') = 3)).
Proof.
  apply (create_user_process_frame 0x400000 0x2000000 0 proc_demo proc_demo_wf proc_demo_pmm);
    [by vm_compute|cbn; lia|lia].
Defined.

(** C37. [create_kernel_process] does not look at the result of its allocation: the process it
    makes has its stack and trap frame in a frame [k] that was free, if there was one; when
    every frame is in use [k] is 0, and the stack lies over the memory the machine keeps
    below 4096. *)
Theorem create_kernel_process_frame entry n s :
  proc_wf s → pmm_wf s → pmm_fits s → process_count (proc s) < 16 → 0 ≤ entry < 2 ^ 64 →
  wp (create_kernel_process entry) n s (λ _ s', ∃ k,
    (full s → k = 0) ∧
    (¬ full s → 8192 ≤ k < total_blocks (pmm s) ∧ used s k = false) ∧
    process_count (proc s') = process_count (proc s) + 1 ∧
    (∃ p, tbl_get (processes (proc s')) (process_count (proc s)) = Some p ∧
       p_state p = PROCESS_READY ∧ p_kernel_stack_base p = k * 4096 ∧
       p_rsp p = k * 4096 + 4096 - 184 ∧ p_pml4 p = kernel_pml4 (vmm s)) ∧
    read_regs (mem s') (k * 4096 + 4096 - 184)
      = mkRegs 0 (replicate 15 0) 0 0 entry 0x08 0x202 (k * 4096 + 4096) 0x10).
Proof.
  intros Hw Hwf Hfit Hcnt He. apply create_kernel_process_wp; [done..|].
  intros k s' Hk E R. exists k. rewrite E. cbn [processes process_count]. pose proof (pw_cur _ Hw).
  split; [|split; [|split; [done|split; [|done]]]].
  - intros Hf. destruct Hk as [[Hu Hr]|[? _]]; [|done]. rewrite Hf in Hu by lia. done.
  - intros Hf. destruct Hk as [[Hu Hr]|[_ ?]]; done.
  - rewrite tbl_get_insert by (rewrite ?(pw_len _ Hw); lia). rewrite decide_True by done.
    eexists. split; [done|]. done.
Qed.

(** A machine with 32 MiB, all of it in use. *)
Definition full_demo : machine := set_pmm (mkPmm 0x200000 8192 1024) proc_demo.

Lemma full_demo_ok : proc_wf full_demo ∧ pmm_wf full_demo ∧ full full_demo.
Proof.
  assert (∀ i, 0 ≤ i < 8192 → used full_demo i = true) as Hu by exact (wf_reserved _ proc_demo_pmm).
  split; [by apply (proc_wf_eq proc_demo), proc_demo_wf|]. split; [|exact Hu].
  split; [cbn; lia|done|exact Hu].
Qed.

Lemma create_kernel_process_frame_witness :
  full full_demo ∧
  wp (create_kernel_process 0x9000) 0 full_demo (λ _ s', ∃ k,
    (full full_demo → k = 0) ∧
    (¬ full full_demo → 8192 ≤ k < total_blocks (pmm full_demo) ∧ used full_demo k = false) ∧
    process_count (proc s') = 4 ∧
    (∃ p, tbl_get (processes (proc s')) 3 = Some p ∧
       p_state p = PROCESS_READY ∧ p_kernel_stack_base p = k * 4096 ∧
       p_rsp p = k * 4096 + 4096 - 184 ∧ p_pml4 p = kernel_pml4 (vmm full_demo)) ∧
    read_regs (mem s') (k * 4096 + 4096 - 184)
      = mkRegs 0 (replicate 15 0) 0 0 0x9000 0x08 0x202 (k * 4096 + 4096) 0x10).
Proof.
  destruct full_demo_ok as (H1 & H2 & H3). split; [exact H3|].
  apply (create_kernel_process_frame 0x9000 0 full_demo H1 H2); [by vm_compute|cbn; lia|lia].
Defined.
