(* ===== verification/Ata.v ===== *)
(** src/drivers/ata.c: the disk driver, programmed I/O on the primary bus.

    The driver talks to the drive of Hardware.v through the ports.  The specification is a
    block device: reading a sector gives its 512 bytes, writing replaces them.  A buffer is
    the list of its bytes, as for the other arrays; [ata_read_sector] returns the buffer's
    new contents. *)
From S2P Require Import Prelude Memory Hardware Machine Utils Screen Cpu.

Definition ATA_DATA : Z := 0x1f0.
Definition ATA_SECTOR_CNT : Z := 0x1f2.
Definition ATA_LBA_LOW : Z := 0x1f3.
Definition ATA_LBA_MID : Z := 0x1f4.
Definition ATA_LBA_HIGH : Z := 0x1f5.
Definition ATA_DRIVE_HEAD : Z := 0x1f6.
Definition ATA_STATUS : Z := 0x1f7.
Definition ATA_COMMAND : Z := 0x1f7.
Definition ATA_CONTROL : Z := 0x3f6.
Definition STATUS_BSY : Z := 0x80.
Definition STATUS_DRQ : Z := 0x08.
Definition STATUS_ERR : Z := 0x01.
Definition STATUS_DF : Z := 0x20.

Definition ata_disable_irq : M unit := outb ATA_CONTROL 0x02.

Definition ata_io_wait : M unit :=
  _ ← inb ATA_STATUS;
  _ ← inb ATA_STATUS;
  _ ← inb ATA_STATUS;
  _ ← inb ATA_STATUS;
  mret tt.

Definition ata_wait_bsy : M unit :=
  while_loop (λ _ : unit,
    status ← inb ATA_STATUS;
    mret (if decide (Z.land status STATUS_BSY ≠ 0) then inl tt else inr tt)) tt.

Definition drq_limit : Z := 100000.

Definition ata_wait_drq : M Z :=
  r ← for_loop (Z.to_nat drq_limit) 0 (λ _,
    status ← inb ATA_STATUS;
    if decide (Z.land status STATUS_ERR ≠ 0) then
      kprint (str "ATA Error: ERR bit set!" ++ newline);; mret (Some 0)
    else if decide (Z.land status STATUS_DF ≠ 0) then
      kprint (str "ATA Error: Drive Fault!" ++ newline);; mret (Some 0)
    else if decide (Z.land status STATUS_DRQ ≠ 0) then mret (Some 1)
    else mret None);
  mret (default 0 r).

(** The task file and the command, as both transfers send them. *)
Definition ata_issue (lba command : Z) : M unit :=
  outb ATA_DRIVE_HEAD (Z.lor 0xe0 (Z.land (Z.shiftr lba 24) 0x0f));;
  outb ATA_SECTOR_CNT 1;;
  outb ATA_LBA_LOW (u8 lba);;
  outb ATA_LBA_MID (u8 (Z.shiftr lba 8));;
  outb ATA_LBA_HIGH (u8 (Z.shiftr lba 16));;
  outb ATA_COMMAND command.

(** The common start of both transfers. *)
Definition ata_begin (lba command : Z) : M unit :=
  ata_disable_irq;;
  ata_wait_bsy;;
  ata_issue lba command.

Definition ata_read_sector (lba : Z) (buffer : list Z) : M (list Z) :=
  ata_begin lba 0x20;;
  ok ← ata_wait_drq;
  if decide (ok = 0) then
    kprint (str "ATA Error: DRQ Timeout" ++ newline);;
    mret buffer
  else
    for_acc 256 0 buffer (λ i buffer,
      data ← inw ATA_DATA;
      b ← from_option_ub (arr_set buffer (i * 2) (u8 data));
      from_option_ub (arr_set b (i * 2 + 1) (u8 (Z.shiftr data 8)))).

Definition ata_write_sector (lba : Z) (data : list Z) : M unit :=
  ata_begin lba 0x30;;
  ata_wait_bsy;;
  _ ← ata_wait_drq;
  for_unit 256 0 (λ i,
    lo ← from_option_ub (arr_get data (i * 2));
    hi ← from_option_ub (arr_get data (i * 2 + 1));
    outw ATA_DATA (Z.lor lo (Z.shiftl hi 8)));;
  outb ATA_COMMAND 0xe7;;
  ata_wait_bsy.

(** ** Steps of the device *)

(** Only the drive changes. *)
Definition ata_only (s s' : machine) : Prop := s' = set_ata (ata s') s.

#[export] Instance ata_only_preorder : PreOrder ata_only.
Proof.
  split; [by intros []|]. intros s1 s2 s3 A B. unfold ata_only in *. rewrite B, A. done.
Qed.

(** The registers as [ata_issue] leaves them before the command. *)
Definition ata_regs (lba : Z) (d : ata_dev) : ata_dev :=
  mkAta (ata_disk d) 1 (u8 lba) (u8 (Z.shiftr lba 8)) (u8 (Z.shiftr lba 16))
    (u8 (Z.lor 0xe0 (Z.land (Z.shiftr lba 24) 0x0f))) (ata_nien d) (ata_busy d) (ata_ph d) (ata_script d).

Lemma u8_idem x : u8 (u8 x) = u8 x.
Proof. width. by rewrite Z.mod_mod. Qed.

Section steps.
Implicit Types (s : machine) (d : ata_dev).

Lemma outb_ata_wp port v n s (Q : unit → machine → Prop) :
  is_ata_port port = true →
  (∀ s', ata_only s s' → ata s' = ata_out port (u8 v) (ata s) → Q tt s') →
  wp (outb port v) n s Q.
Proof.
  intros Hp HQ. unfold outb. wp_steps. unfold io_out. rewrite Hp. apply HQ; [by destruct s|done].
Qed.

Lemma status_wp n s (Q : Z → machine → Prop) :
  (∀ s', ata_only s s' → ata s' = ata_set_busy (ata s) (pred (ata_busy (ata s))) →
     Q (u8 (ata_status (ata s))) s') →
  wp (inb ATA_STATUS) n s Q.
Proof. intros HQ. apply HQ; [by destruct s|done]. Qed.

Lemma ata_set_busy_id d : ata_busy d = 0%nat → ata_set_busy d (pred (ata_busy d)) = d.
Proof. destruct d. cbn. by intros ->. Qed.

Lemma ata_wait_bsy_wp n s (Q : unit → machine → Prop) :
  (ata_busy (ata s) < n)%nat → (∀ e, ata_ph (ata s) = AtaError e → Z.land (u8 e) 0x80 = 0) →
  (∀ s', ata_only s s' → ata s' = ata_set_busy (ata s) 0 → Q tt s') →
  wp ata_wait_bsy n s Q.
Proof.
  intros Hb He HQ. unfold ata_wait_bsy.
  apply (wp_while_idx (λ k _ s', ata_only s s' ∧ ata s' = ata_set_busy (ata s) k) _ _
    (ata_busy (ata s))); [split; [done|by destruct (ata s)]|done|].
  intros k _ s1 [H1 E1]. apply wp_bind, status_wp. intros s2 H2 E2. apply wp_ret. rewrite E1 in *.
  cbn [ata_busy ata_set_busy] in *. destruct k as [|k].
  - rewrite decide_False.
    + apply HQ; [by etrans|]. rewrite E2. done.
    + unfold ata_status. cbn [ata_busy ata_ph ata_set_busy].
      intros H. apply H. destruct (ata_ph (ata s)) as [|[|]| |e] eqn:Ep; [done..|by apply He].
  - rewrite decide_True by done. exists k. split; [lia|]. split; [by etrans|]. rewrite E2. done.
Qed.

(** The drive asks for or offers data after fewer status reads than the driver's limit. *)
Lemma ata_wait_drq_wp n s (Q : Z → machine → Prop) :
  (Z.of_nat (ata_busy (ata s)) < drq_limit) → ata_status (ata_set_busy (ata s) 0) = 0x48 →
  (∀ s', ata_only s s' → ata s' = ata_set_busy (ata s) 0 → Q 1 s') →
  wp ata_wait_drq n s Q.
Proof.
  intros Hb Hd HQ. unfold ata_wait_drq. apply wp_bind.
  apply (wp_for (λ i s', ata_only s s' ∧ i ≤ Z.of_nat (ata_busy (ata s)) ∧
    ata s' = ata_set_busy (ata s) (ata_busy (ata s) - Z.to_nat i))).
  - split; [done|]. split; [lia|]. destruct (ata s). cbn. by rewrite Nat.sub_0_r.
  - intros i s1 Hi (H1 & Hib & E1). apply wp_bind, status_wp. intros s2 H2 E2. rewrite E1 in *.
    cbn [ata_busy ata_set_busy] in *.
    destruct (ata_busy (ata s) - Z.to_nat i)%nat as [|k] eqn:Ek.
    + rewrite Hd. rewrite !decide_False by (intros H; by apply H). rewrite decide_True by done.
      apply wp_ret, wp_ret.
      apply HQ; [by etrans|]. rewrite E2. done.
    + unfold ata_status. cbn [ata_busy ata_set_busy].
      rewrite !decide_False by (intros H; by apply H). apply wp_ret.
      split; [by etrans|]. split; [lia|]. rewrite E2.
      replace (ata_busy (ata s) - Z.to_nat (i + 1))%nat with k by lia. done.
  - intros s' (_ & Hle & _). rewrite Z2Nat.id in Hle by done. lia.
Qed.

Lemma ata_regs_eq lba d :
  ata_out ATA_LBA_HIGH (u8 (u8 (Z.shiftr lba 16))) (ata_out ATA_LBA_MID (u8 (u8 (Z.shiftr lba 8)))
    (ata_out ATA_LBA_LOW (u8 (u8 lba)) (ata_out ATA_SECTOR_CNT (u8 1)
      (ata_out ATA_DRIVE_HEAD (u8 (Z.lor 0xe0 (Z.land (Z.shiftr lba 24) 0x0f))) d)))) = ata_regs lba d.
Proof.
  rewrite !u8_idem. set (a := Z.lor _ _).
  trans (mkAta (ata_disk d) (u8 (u8 1)) (u8 (u8 lba)) (u8 (u8 (Z.shiftr lba 8)))
    (u8 (u8 (Z.shiftr lba 16))) (u8 (u8 a)) (ata_nien d) (ata_busy d) (ata_ph d) (ata_script d));
    [reflexivity|]. by rewrite !u8_idem.
Qed.

Lemma ata_issue_wp lba cmd n s (Q : unit → machine → Prop) :
  (∀ s', ata_only s s' → ata s' = ata_out ATA_COMMAND (u8 cmd) (ata_regs lba (ata s)) → Q tt s') →
  wp (ata_issue lba cmd) n s Q.
Proof.
  intros HQ. unfold ata_issue.
  apply wp_bind, outb_ata_wp; [done|]. intros s1 H1 E1.
  apply wp_bind, outb_ata_wp; [done|]. intros s2 H2 E2.
  apply wp_bind, outb_ata_wp; [done|]. intros s3 H3 E3.
  apply wp_bind, outb_ata_wp; [done|]. intros s4 H4 E4.
  apply wp_bind, outb_ata_wp; [done|]. intros s5 H5 E5.
  apply outb_ata_wp; [done|]. intros s6 H6 E6. apply HQ.
  - by repeat (etrans; [eassumption|]).
  - rewrite E6, E5, E4, E3, E2, E1. by rewrite ata_regs_eq.
Qed.

Lemma ata_regs_lba lba d : 0 ≤ lba < 2 ^ 28 → ata_sel_lba (ata_regs lba d) = lba.
Proof.
  intros H. unfold ata_sel_lba, ata_regs. cbn [ata_lba_low ata_lba_mid ata_lba_high ata_drive].
  rewrite (land_low _ 4 0x0f), !Z.shiftr_div_pow2 by done.
  assert (Z.lor 0xe0 (lba / 2 ^ 24 mod 2 ^ 4) = 0xe0 + lba / 2 ^ 24 mod 2 ^ 4) as ->.
  { rewrite Z.lor_comm. change 0xe0 with (Z.land 0xe0 0xF0) at 1. rewrite gran_byte by dlia. dlia. }
  width. dlia.
Qed.

End steps.

(** ** Transfers *)

(** A drive that answers every command, after fewer than [N] status reads and without error. *)
Record ata_ok (N : nat) (d : ata_dev) : Prop := {
  ok_busy : (ata_busy d < N)%nat;
  ok_phase : ∀ e, ata_ph d ≠ AtaError e;
  ok_script : Forall (λ r, rp_error r = None ∧ (rp_busy r < N)%nat) (ata_script d);
}.

(** Sectors are 512 bytes. *)
Definition disk_wf (d : ata_dev) : Prop :=
  ∀ lba, length (sector d lba) = 512%nat ∧ Forall (λ b, 0 ≤ b < 256) (sector d lba).

Section transfer.
Implicit Types (s : machine) (d : ata_dev) (N : nat).

Lemma ata_start_ok N d ph : ata_ok N d → (0 < N)%nat → (∀ e, ph ≠ AtaError e) →
  ata_ok N (ata_start d ph) ∧ ata_ph (ata_start d ph) = ph ∧
  ata_disk (ata_start d ph) = ata_disk d.
Proof.
  intros [Hb Hp Hs] HN Hph. unfold ata_start.
  destruct (ata_script d) as [|r l] eqn:E; cbn.
  - split; [|done]. by split.
  - apply Forall_cons in Hs as [[He Hr] Hl]. rewrite He. split; [|done]. by split.
Qed.

Lemma ata_ok_set N d d' : ata_ok N d → ata_script d' = ata_script d → (ata_busy d' < N)%nat →
  (∀ e, ata_ph d' ≠ AtaError e) → ata_ok N d'.
Proof. intros [H1 H2 H3] E Hb Hp. split; [done..|]. by rewrite E. Qed.

(** Both transfers start alike: interrupts off, drive ready, command issued. *)
Lemma ata_begin_wp N lba cmd n s (Q : unit → machine → Prop) :
  ata_ok N (ata s) → (N ≤ n)%nat → 0 ≤ lba < 2 ^ 28 →
  (∀ s' d, ata_only s s' → ata_ok N d → ata_disk d = ata_disk (ata s) → ata_sel_lba d = lba →
     ata s' = ata_out ATA_COMMAND (u8 cmd) d → Q tt s') →
  wp (ata_begin lba cmd) n s Q.
Proof.
  intros Hok HN Hl HQ. pose proof (ok_busy _ _ Hok). pose proof (ok_phase _ _ Hok) as Hph.
  unfold ata_begin, ata_disable_irq. apply wp_bind, outb_ata_wp; [done|]. intros s1 H1 E1.
  assert (ata_busy (ata s1) = ata_busy (ata s) ∧ ata_ph (ata s1) = ata_ph (ata s) ∧
    ata_script (ata s1) = ata_script (ata s) ∧ ata_disk (ata s1) = ata_disk (ata s)) as (B1 & P1 & S1 & D1)
    by (by rewrite E1).
  apply wp_bind, ata_wait_bsy_wp; [rewrite B1; lia|intros e; rewrite P1; intros He; by destruct (Hph e)|].
  intros s2 H2 E2. apply ata_issue_wp. intros s3 H3 E3.
  apply (HQ _ (ata_regs lba (ata s2))); [by repeat (etrans; [eassumption|])|..|done].
  - eapply ata_ok_set; [exact Hok|..]; cbn; rewrite E2; cbn; [done|lia|by rewrite P1].
  - cbn. rewrite E2. done.
  - by apply ata_regs_lba.
Qed.

Lemma word_bytes b0 b1 : 0 ≤ b0 < 256 → 0 ≤ b1 < 256 →
  u8 (u16 (u8 b0 + 256 * u8 b1)) = b0 ∧ u8 (Z.shiftr (u16 (u8 b0 + 256 * u8 b1)) 8) = b1.
Proof. intros. rewrite Z.shiftr_div_pow2 by lia. width. split; dlia. Qed.

(** One word read into the buffer. *)
Lemma read_word_wp i buffer b0 b1 rest n s (Q : list Z → machine → Prop) :
  ata_ph (ata s) = AtaDataIn (b0 :: b1 :: rest) → 0 ≤ b0 < 256 → 0 ≤ b1 < 256 →
  0 ≤ i → i * 2 + 1 < Z.of_nat (length buffer) →
  (∀ s', ata_only s s' → ata s' = ata_set_phase (ata s) (AtaDataIn rest) →
     Q (<[Z.to_nat (i * 2 + 1) := b1]> (<[Z.to_nat (i * 2) := b0]> buffer)) s') →
  wp (data ← inw ATA_DATA;
      b ← from_option_ub (arr_set buffer (i * 2) (u8 data));
      from_option_ub (arr_set b (i * 2 + 1) (u8 (Z.shiftr data 8)))) n s Q.
Proof.
  intros Hp H0 H1 Hi Hlen HQ. destruct (word_bytes b0 b1 H0 H1) as [E0 E1].
  assert (inw ATA_DATA n s = Ret (u16 (u8 b0 + 256 * u8 b1))
    (set_ata (ata_set_phase (ata s) (AtaDataIn rest)) s)) as Ein.
  { unfold inw, io_read, io_in, mbind, M_bind. change (is_ata_port ATA_DATA) with true. cbv iota.
    change (port_in ATA_DATA (ata s)) with
      (match ata_ph (ata s) with
       | AtaDataIn (b0 :: b1 :: rest) => (u8 b0 + 256 * u8 b1, ata_set_phase (ata s) (AtaDataIn rest))
       | _ => (0xffff, ata s) end).
    by rewrite Hp. }
  apply wp_bind. eapply wp_eq; [exact Ein|]. rewrite E0, E1.
  unfold arr_set. rewrite decide_True by lia. wp_steps.
  rewrite decide_True by (rewrite length_insert; lia). apply wp_some.
  rewrite (u8_small b0), (u8_small b1) by done. apply HQ; [by destruct s|done].
Qed.

Lemma insert_pair (sec buf : list Z) (k : nat) b0 b1 rest : drop (2 * k) sec = b0 :: b1 :: rest →
  (2 * k + 1 < length buf)%nat →
  <[(2 * k + 1)%nat := b1]> (<[(2 * k)%nat := b0]> (take (2 * k) sec ++ drop (2 * k) buf))
  = take (2 * S k) sec ++ drop (2 * S k) buf.
Proof.
  intros Hd Hl. assert (2 * k ≤ length sec)%nat as Hle.
  { destruct (decide (2 * k ≤ length sec)%nat); [done|]. rewrite drop_ge in Hd by lia. done. }
  assert (take (2 * S k) sec = take (2 * k) sec ++ [b0; b1]) as ->.
  { rewrite <- (take_drop (2 * k) sec) at 1. rewrite Hd, take_app, take_take, length_take.
    rewrite Nat.min_r by lia. f_equal. replace (2 * S k - _)%nat with 2%nat by lia. done. }
  destruct (drop (2 * k) buf) as [|c0 [|c1 r]] eqn:E;
    [apply (f_equal length) in E; rewrite length_drop in E; simpl in E; lia..|].
  assert (drop (2 * S k) buf = r) as ->.
  { replace (2 * S k)%nat with (2 * k + 2)%nat by lia. rewrite <- drop_drop, E. done. }
  rewrite (insert_app_r_alt _ _ (2 * k)) by (rewrite length_take; lia).
  rewrite (insert_app_r_alt _ _ (2 * k + 1)) by (rewrite length_take; lia).
  rewrite length_take, Nat.min_l by lia.
  replace (2 * k - 2 * k)%nat with 0%nat by lia. replace (2 * k + 1 - 2 * k)%nat with 1%nat by lia.
  cbn. by rewrite <- app_assoc.
Qed.

(** The read loop empties the drive's buffer into the caller's. *)
Lemma read_loop_wp sec buf n s (Q : list Z → machine → Prop) :
  ata_ph (ata s) = AtaDataIn sec → length sec = 512%nat → Forall (λ b, 0 ≤ b < 256) sec →
  (512 ≤ length buf)%nat →
  (∀ s', ata_only s s' → ata s' = ata_set_phase (ata s) (AtaDataIn []) →
     Q (sec ++ drop 512 buf) s') →
  wp (for_acc 256 0 buf (λ i buffer,
      data ← inw ATA_DATA;
      b ← from_option_ub (arr_set buffer (i * 2) (u8 data));
      from_option_ub (arr_set b (i * 2 + 1) (u8 (Z.shiftr data 8))))) n s Q.
Proof.
  intros Hp Hlen Hby Hbuf HQ.
  apply (wp_for_acc (λ i b s', ata_only s s' ∧ ata s' = ata_set_phase (ata s) (AtaDataIn (drop (2 * Z.to_nat i) sec)) ∧
    b = take (2 * Z.to_nat i) sec ++ drop (2 * Z.to_nat i) buf)).
  - split; [done|]. split; [|done]. destruct (ata s). cbn in *. by rewrite Hp.
  - intros i b s1 Hi (H1 & E1 & ->). change (0 + Z.of_nat 256) with 256 in Hi.
    destruct (drop (2 * Z.to_nat i) sec) as [|b0 [|b1 rest]] eqn:Ed;
      [apply (f_equal length) in Ed; rewrite length_drop in Ed; simpl in Ed; lia..|].
    assert (Forall (λ b, 0 ≤ b < 256) (b0 :: b1 :: rest)) as Hf by (rewrite <- Ed; by apply Forall_drop).
    apply Forall_cons in Hf as [Hb0 Hf]. apply Forall_cons in Hf as [Hb1 _].
    eapply read_word_wp; [by rewrite E1|done|done|lia|rewrite length_app, length_take, length_drop; lia|].
    intros s2 H2 E2. replace (Z.to_nat (i + 1)) with (S (Z.to_nat i)) by lia.
    split; [by etrans|]. split.
    + rewrite E2, E1. replace (2 * S (Z.to_nat i))%nat with (2 * Z.to_nat i + 2)%nat by lia.
      rewrite <- drop_drop, Ed. done.
    + replace (Z.to_nat (i * 2)) with (2 * Z.to_nat i)%nat by lia.
      replace (Z.to_nat (i * 2 + 1)) with (2 * Z.to_nat i + 1)%nat by lia.
      apply (insert_pair _ _ _ _ _ rest Ed). lia.
  - change (Z.to_nat (0 + Z.of_nat 256)) with 256%nat. intros b s' (H & E & ->).
    change (2 * 256)%nat with 512%nat in *. rewrite drop_ge in E by lia.
    rewrite take_ge by lia. by apply HQ.
Qed.

Lemma ata_read_sector_wp N lba buf n s (Q : list Z → machine → Prop) :
  ata_ok N (ata s) → disk_wf (ata s) → (N ≤ n)%nat → Z.of_nat N ≤ drq_limit → 0 ≤ lba < 2 ^ 28 →
  (512 ≤ length buf)%nat →
  (∀ s', ata_only s s' → ata_ok N (ata s') → ata_disk (ata s') = ata_disk (ata s) →
     Q (sector (ata s) lba ++ drop 512 buf) s') →
  wp (ata_read_sector lba buf) n s Q.
Proof.
  intros Hok Hwf HN HL Hlba Hbuf HQ. pose proof (ok_busy _ _ Hok).
  unfold ata_read_sector. apply wp_bind.
  eapply ata_begin_wp; [done..|]. intros s1 d H1 Hd Ed Es E1.
  destruct (ata_start_ok N d (AtaDataIn (sector d (ata_sel_lba d))) Hd ltac:(lia) ltac:(done)) as (O1 & P1 & D1).
  change (ata_out ATA_COMMAND (u8 0x20) d) with (ata_start d (AtaDataIn (sector d (ata_sel_lba d)))) in E1.
  rewrite <- E1 in *. rewrite Es in *.
  assert (sector d lba = sector (ata s) lba) as Esec by (unfold sector; by rewrite Ed).
  rewrite Esec in *. destruct (Hwf lba) as [Hlen Hby]. pose proof (ok_busy _ _ O1).
  apply wp_bind, ata_wait_drq_wp; [lia| |].
  { unfold ata_status. cbn. rewrite P1. destruct (sector (ata s) lba); [done|done]. }
  intros s2 H2 E2. rewrite decide_False by lia.
  eapply read_loop_wp; [rewrite E2; exact P1|done..|]. intros s3 H3 E3. apply HQ.
  - by repeat (etrans; [eassumption|]).
  - eapply ata_ok_set; [exact O1|rewrite E3, E2; cbn; done || lia..].
  - rewrite E3, E2. cbn. by rewrite D1.
Qed.

Lemma lor_shift8 lo hi : 0 ≤ lo < 256 → Z.lor lo (Z.shiftl hi 8) = lo + 256 * hi.
Proof.
  intros Hlo. rewrite Z.shiftl_mul_pow2 by lia. change (2 ^ 8) with 256.
  assert (Z.land lo (hi * 256) = 0) as Hl.
  { apply Z.bits_inj'. intros k Hk. rewrite Z.land_spec, Z.bits_0. change 256 with (2 ^ 8).
    destruct (decide (k < 8)); [by rewrite Z.mul_pow2_bits_low, andb_false_r by lia|].
    replace lo with (lo mod 2 ^ 8) by (apply Z.mod_small; lia).
    by rewrite Z.mod_pow2_bits_high by lia. }
  pose proof (Z.add_lor_land lo (hi * 256)). lia.
Qed.

Lemma outw_data_wp v n s (Q : unit → machine → Prop) :
  (∀ s', ata_only s s' → ata s' = ata_out ATA_DATA (u16 v) (ata s) → Q tt s') →
  wp (outw ATA_DATA v) n s Q.
Proof. intros HQ. apply HQ; [by destruct s|done]. Qed.

(** Two characters of the caller's data. *)
Lemma data_pair (data : list Z) (k : nat) : (2 * k + 1 < length data)%nat →
  ∃ b0 b1, data !! (2 * k)%nat = Some b0 ∧ data !! (2 * k + 1)%nat = Some b1 ∧
    take (2 * S k) data = take (2 * k) data ++ [b0; b1].
Proof.
  intros Hl. destruct (lookup_lt_is_Some_2 data (2 * k)) as [b0 H0]; [lia|].
  destruct (lookup_lt_is_Some_2 data (2 * k + 1)) as [b1 H1]; [lia|].
  exists b0, b1. split; [done|]. split; [done|].
  replace (2 * S k)%nat with (S (2 * k + 1))%nat by lia. rewrite (take_S_r _ _ b1) by done.
  replace (2 * k + 1)%nat with (S (2 * k)) by lia. rewrite (take_S_r _ _ b0) by done.
  by rewrite <- app_assoc.
Qed.

Definition write_word (data : list Z) (i : Z) : M unit :=
  lo ← from_option_ub (arr_get data (i * 2));
  hi ← from_option_ub (arr_get data (i * 2 + 1));
  outw ATA_DATA (Z.lor lo (Z.shiftl hi 8)).

Lemma write_word_wp data i b0 b1 n s (Q : unit → machine → Prop) :
  0 ≤ i → data !! (2 * Z.to_nat i)%nat = Some b0 → data !! (2 * Z.to_nat i + 1)%nat = Some b1 →
  0 ≤ b0 < 256 → 0 ≤ b1 < 256 →
  (∀ s', ata_only s s' → ata s' = ata_out ATA_DATA (b0 + 256 * b1) (ata s) → Q tt s') →
  wp (write_word data i) n s Q.
Proof.
  intros Hi H0 H1 B0 B1 HQ. unfold write_word, arr_get.
  rewrite !decide_True by lia. replace (Z.to_nat (i * 2)) with (2 * Z.to_nat i)%nat by lia.
  replace (Z.to_nat (i * 2 + 1)) with (2 * Z.to_nat i + 1)%nat by lia. rewrite H0, H1. wp_steps.
  rewrite lor_shift8 by done. apply outw_data_wp. intros s' Ho E. rewrite u16_small in E by lia.
  by apply HQ.
Qed.

(** The drive in a data-out phase accepts a word. *)
Lemma ata_out_word lba got b0 b1 d : ata_ph d = AtaDataOut lba got → 0 ≤ b0 < 256 → 0 ≤ b1 < 256 →
  ata_out ATA_DATA (b0 + 256 * b1) d =
    if decide (length (got ++ [b0; b1]) = 512%nat)
    then ata_set_phase (ata_set_disk d (<[lba := got ++ [b0; b1]]> (ata_disk d))) AtaIdle
    else ata_set_phase d (AtaDataOut lba (got ++ [b0; b1])).
Proof.
  intros Hp H0 H1. change (ata_out ATA_DATA (b0 + 256 * b1) d) with
    (match ata_ph d with
     | AtaDataOut lba got =>
        let got' := got ++ [u8 (b0 + 256 * b1); u8 ((b0 + 256 * b1) / 256)] in
        if decide (length got' = 512%nat)
        then ata_set_phase (ata_set_disk d (<[lba := got']> (ata_disk d))) AtaIdle
        else ata_set_phase d (AtaDataOut lba got')
     | _ => d end).
  rewrite Hp. replace (u8 (b0 + 256 * b1)) with b0 by (width; dlia).
  replace (u8 ((b0 + 256 * b1) / 256)) with b1 by (width; dlia). done.
Qed.

Lemma write_loop_wp lba data n s (Q : unit → machine → Prop) :
  ata_ph (ata s) = AtaDataOut lba [] → length data = 512%nat → Forall (λ b, 0 ≤ b < 256) data →
  (∀ s', ata_only s s' →
     ata s' = ata_set_phase (ata_set_disk (ata s) (<[lba := data]> (ata_disk (ata s)))) AtaIdle →
     Q tt s') →
  wp (for_unit 256 0 (write_word data)) n s Q.
Proof.
  intros Hp Hlen Hby HQ.
  apply (wp_for_unit (λ i s', ata_only s s' ∧ ata s' =
    if decide (i < 256) then ata_set_phase (ata s) (AtaDataOut lba (take (2 * Z.to_nat i) data))
    else ata_set_phase (ata_set_disk (ata s) (<[lba := data]> (ata_disk (ata s)))) AtaIdle)).
  - split; [done|]. destruct (ata s). cbn in *. by rewrite Hp.
  - intros i s1 Hi [H1 E1]. change (0 + Z.of_nat 256) with 256 in Hi. rewrite decide_True in E1 by lia.
    destruct (data_pair data (Z.to_nat i)) as (b0 & b1 & L0 & L1 & Et); [lia|].
    pose proof (Forall_lookup_1 _ _ _ _ Hby L0) as B0. pose proof (Forall_lookup_1 _ _ _ _ Hby L1) as B1.
    eapply write_word_wp; [lia|done..|]. intros s2 H2 E2. split; [by etrans|].
    rewrite E2, E1. erewrite ata_out_word by done. rewrite <- Et.
    replace (Z.to_nat (i + 1)) with (S (Z.to_nat i)) by lia.
    assert (length (take (2 * S (Z.to_nat i)) data) = 2 * S (Z.to_nat i))%nat as El
      by (rewrite length_take; lia).
    destruct (decide (i + 1 < 256)).
    + by rewrite decide_False by lia.
    + rewrite decide_True by lia. by rewrite (take_ge data (2 * S (Z.to_nat i))) by lia.
  - change (0 + Z.of_nat 256) with 256. intros s' [H E]. by apply HQ.
Qed.

Lemma ata_write_sector_wp N lba data n s (Q : unit → machine → Prop) :
  ata_ok N (ata s) → (N ≤ n)%nat → Z.of_nat N ≤ drq_limit → 0 ≤ lba < 2 ^ 28 →
  length data = 512%nat → Forall (λ b, 0 ≤ b < 256) data →
  (∀ s', ata_only s s' → ata_ok N (ata s') → ata_disk (ata s') = <[lba := data]> (ata_disk (ata s)) →
     Q tt s') →
  wp (ata_write_sector lba data) n s Q.
Proof.
  intros Hok HN HL Hlba Hlen Hby HQ. pose proof (ok_busy _ _ Hok) as Hb0. unfold ata_write_sector.
  fold (write_word data). apply wp_bind. eapply ata_begin_wp; [done..|]. intros s1 d H1 Hd Ed Es E1.
  destruct (ata_start_ok N d (AtaDataOut (ata_sel_lba d) []) Hd ltac:(lia) ltac:(done)) as (O1 & P1 & D1).
  change (ata_out ATA_COMMAND (u8 0x30) d) with (ata_start d (AtaDataOut (ata_sel_lba d) [])) in E1.
  rewrite <- E1 in *. rewrite Es in *. pose proof (ok_busy _ _ O1) as Hb1.
  apply wp_bind, ata_wait_bsy_wp; [lia|by rewrite P1|]. intros s2 H2 E2.
  apply wp_bind, ata_wait_drq_wp; [rewrite E2; cbn; lia|unfold ata_status; rewrite E2; cbn; by rewrite P1|].
  intros s3 H3 E3. rewrite E2 in E3.
  apply wp_bind. eapply write_loop_wp; [rewrite E3; exact P1|done..|]. intros s4 H4 E4.
  apply wp_bind, outb_ata_wp; [done|]. intros s5 H5 E5.
  change (ata_out ATA_COMMAND (u8 0xe7) (ata s4)) with (ata_start (ata s4) AtaIdle) in E5.
  assert (ata_ok N (ata s4)) as O4.
  { eapply ata_ok_set; [exact O1|rewrite E4, E3; cbn; done || lia..]. }
  destruct (ata_start_ok N (ata s4) AtaIdle O4 ltac:(lia) ltac:(done)) as (O5 & P5 & D5).
  rewrite <- E5 in *. pose proof (ok_busy _ _ O5) as Hb5.
  apply ata_wait_bsy_wp; [lia|by rewrite P5|]. intros s6 H6 E6. apply HQ.
  - by repeat (etrans; [eassumption|]).
  - eapply ata_ok_set; [exact O5|rewrite E6; cbn; done || lia || (by rewrite P5)..].
  - rewrite E6. cbn. rewrite D5, E4. cbn. rewrite E3. cbn. rewrite D1. by rewrite Ed.
Qed.

(** The drive reports an error: the next reply has status [e], with ERR and without BSY. *)
Record ata_fails (N : nat) (e : Z) (d : ata_dev) : Prop := {
  fl_busy : (ata_busy d < N)%nat;
  fl_phase : ∀ x, ata_ph d ≠ AtaError x;
  fl_script : ∃ r l, ata_script d = r :: l ∧ rp_error r = Some e ∧ (rp_busy r < N)%nat ∧
    Forall (λ r, rp_error r = None ∧ (rp_busy r < N)%nat) l;
  fl_status : 0 ≤ e < 256 ∧ Z.land e 1 ≠ 0 ∧ Z.land e 0x80 = 0;
}.

Lemma ata_begin_fail_wp N e lba cmd ph n s (Q : unit → machine → Prop) :
  ata_fails N e (ata s) → (N ≤ n)%nat →
  (∀ d, ata_out ATA_COMMAND (u8 cmd) d = ata_start d (ph d)) →
  (∀ s', ata_only s s' → ata_ph (ata s') = AtaError e → (ata_busy (ata s') < N)%nat →
     ata_disk (ata s') = ata_disk (ata s) →
     Forall (λ r, rp_error r = None ∧ (rp_busy r < N)%nat) (ata_script (ata s')) → Q tt s') →
  wp (ata_begin lba cmd) n s Q.
Proof.
  intros [Hb Hp (r & l & Es & Er & Hr & Hl) He] HN Hcmd HQ.
  unfold ata_begin, ata_disable_irq. apply wp_bind, outb_ata_wp; [done|]. intros s1 H1 E1.
  assert (ata_busy (ata s1) = ata_busy (ata s) ∧ ata_ph (ata s1) = ata_ph (ata s) ∧
    ata_script (ata s1) = ata_script (ata s) ∧ ata_disk (ata s1) = ata_disk (ata s)) as (B1 & P1 & S1 & D1)
    by (by rewrite E1).
  apply wp_bind, ata_wait_bsy_wp; [rewrite B1; lia|intros x; rewrite P1; intros Hx; by destruct (Hp x)|].
  intros s2 H2 E2. apply ata_issue_wp. intros s3 H3 E3. rewrite Hcmd in E3.
  unfold ata_start in E3. cbn in E3. rewrite E2 in E3. cbn in E3. rewrite S1, Es in E3. cbn in E3.
  rewrite Er in E3. apply HQ; [by repeat (etrans; [eassumption|])|rewrite E3; cbn..]; try done.
Qed.

Lemma ata_wait_drq_err_wp e n s (Q : Z → machine → Prop) :
  Z.of_nat (ata_busy (ata s)) < drq_limit → ata_ph (ata s) = AtaError e →
  0 ≤ e < 256 ∧ Z.land e 1 ≠ 0 →
  (∀ s', ata s' = ata_set_busy (ata s) 0 → Q 0 s') →
  wp ata_wait_drq n s Q.
Proof.
  intros Hb Hp [He1 He2] HQ. unfold ata_wait_drq. apply wp_bind.
  apply (wp_for (λ i s', ata_only s s' ∧ i ≤ Z.of_nat (ata_busy (ata s)) ∧
    ata s' = ata_set_busy (ata s) (ata_busy (ata s) - Z.to_nat i))).
  - split; [done|]. split; [lia|]. destruct (ata s). cbn. by rewrite Nat.sub_0_r.
  - intros i s1 Hi (H1 & Hib & E1). apply wp_bind, status_wp. intros s2 H2 E2. rewrite E1 in *.
    cbn [ata_busy ata_set_busy] in *. unfold ata_status. cbn [ata_busy ata_set_busy ata_ph].
    destruct (ata_busy (ata s) - Z.to_nat i)%nat as [|k] eqn:Ek.
    + rewrite Hp, u8_small by done. rewrite decide_True by done. wp_print. apply wp_ret, wp_ret.
      apply HQ. rewrite Hc. exact E2.
    + rewrite !decide_False by (intros H; by apply H). apply wp_ret.
      split; [by etrans|]. split; [lia|]. rewrite E2.
      replace (ata_busy (ata s) - Z.to_nat (i + 1))%nat with k by lia. done.
  - intros s' (_ & Hle & _). rewrite Z2Nat.id in Hle by done. lia.
Qed.

Lemma ata_out_error e v d : ata_ph d = AtaError e → ata_out ATA_DATA v d = d.
Proof.
  intros Hp. change (ata_out ATA_DATA v d) with
    (match ata_ph d with
     | AtaDataOut lba got =>
        let got' := got ++ [u8 v; u8 (v / 256)] in
        if decide (length got' = 512%nat)
        then ata_set_phase (ata_set_disk d (<[lba := got']> (ata_disk d))) AtaIdle
        else ata_set_phase d (AtaDataOut lba got')
     | _ => d end).
  by rewrite Hp.
Qed.

Lemma ata_read_fail_wp N e lba buf n s (Q : list Z → machine → Prop) :
  ata_fails N e (ata s) → (N ≤ n)%nat → Z.of_nat N ≤ drq_limit →
  (∀ s', ata_disk (ata s') = ata_disk (ata s) → Q buf s') →
  wp (ata_read_sector lba buf) n s Q.
Proof.
  intros Hf HN HL HQ. pose proof (fl_status _ _ _ Hf) as (He & He1 & He2).
  unfold ata_read_sector. apply wp_bind.
  eapply (ata_begin_fail_wp N e lba 0x20 (λ d, AtaDataIn (sector d (ata_sel_lba d)))); [done..|].
  intros s1 H1 P1 B1 D1 S1. apply wp_bind, (ata_wait_drq_err_wp e); [lia|done|done|].
  intros s2 E2. rewrite decide_True by done. wp_print. apply wp_ret, HQ. rewrite Hc. cbn. by rewrite E2.
Qed.

Lemma ata_write_fail_wp N e lba data n s (Q : unit → machine → Prop) :
  ata_fails N e (ata s) → (N ≤ n)%nat → Z.of_nat N ≤ drq_limit → length data = 512%nat →
  Forall (λ b, 0 ≤ b < 256) data →
  (∀ s', ata_disk (ata s') = ata_disk (ata s) → Q tt s') →
  wp (ata_write_sector lba data) n s Q.
Proof.
  intros Hf HN HL Hlen Hby HQ. pose proof (fl_status _ _ _ Hf) as (He & He1 & He2).
  unfold ata_write_sector. fold (write_word data). apply wp_bind.
  eapply (ata_begin_fail_wp N e lba 0x30 (λ d, AtaDataOut (ata_sel_lba d) [])); [done..|].
  intros s1 H1 P1 B1 D1 S1.
  apply wp_bind, ata_wait_bsy_wp; [lia|intros x Hx; rewrite P1 in Hx; injection Hx as <-; by rewrite u8_small|].
  intros s2 H2 E2. apply wp_bind, (ata_wait_drq_err_wp e); [rewrite E2; cbn; lia|by rewrite E2|done|].
  intros s3 E3. apply wp_bind.
  apply (wp_for_unit (λ _ s', ata s' = ata s3)); [done|..].
  - intros i s4 Hi E4. change (0 + Z.of_nat 256) with 256 in Hi.
    destruct (data_pair data (Z.to_nat i)) as (b0 & b1 & L0 & L1 & _); [lia|].
    pose proof (Forall_lookup_1 _ _ _ _ Hby L0). pose proof (Forall_lookup_1 _ _ _ _ Hby L1).
    eapply write_word_wp; [lia|done..|]. intros s5 H5 E5.
    rewrite E5, (ata_out_error e), E4; [done|]. rewrite E4, E3, E2. done.
  - intros s4 E4. apply wp_bind, outb_ata_wp; [done|]. intros s5 H5 E5.
    change (ata_out ATA_COMMAND (u8 0xe7) (ata s4)) with (ata_start (ata s4) AtaIdle) in E5.
    assert (ata_script (ata s4) = ata_script (ata s1)) as S4 by (by rewrite E4, E3, E2).
    unfold ata_start in E5. rewrite S4 in E5.
    assert ((ata_busy (ata s5) < N)%nat ∧ ata_ph (ata s5) = AtaIdle ∧
      ata_disk (ata s5) = ata_disk (ata s4)) as (B5 & P5 & D5).
    { rewrite E5. destruct (ata_script (ata s1)) as [|r l]; cbn; [split; [lia|done]|].
      apply Forall_cons in S1 as [[-> Hr] _]. done. }
    apply ata_wait_bsy_wp; [lia|by rewrite P5|]. intros s6 H6 E6. apply HQ.
    rewrite E6. cbn. rewrite D5, E4, E3, E2. done.
Qed.

End transfer.

(** ** Properties *)

(** A drive with one written sector that takes a few status reads per command. *)
Definition ata_demo : machine :=
  set_ata (mkAta (<[5 := replicate 512 7]> ∅) 0 0 0 0 0 false 0 AtaIdle [mkReply 2 None; mkReply 0 None])
    boot_machine.

Lemma ata_demo_ok : ata_ok 3 (ata ata_demo).
Proof. split; [cbn; lia|done|]. repeat constructor; cbn; lia. Qed.

Lemma ata_demo_wf : disk_wf (ata ata_demo).
Proof.
  intros lba. unfold sector. cbn [ata ata_demo set_ata ata_disk]. rewrite lookup_insert, lookup_empty.
  case_decide; cbn [default]; (split; [apply length_replicate|]); by apply Forall_replicate.
Qed.

(** [ata_read_sector] implements a block device: on a drive that answers without error it
    returns exactly the 512 bytes of the sector, whatever the drive's delays, and changes no
    sector; the drive is ready for the next command. *)
Theorem ata_read_returns_sector N lba buf n s :
  ata_ok N (ata s) → disk_wf (ata s) → (N ≤ n)%nat → Z.of_nat N ≤ drq_limit →
  0 ≤ lba < 2 ^ 28 → length buf = 512%nat →
  wp (ata_read_sector lba buf) n s (λ out s',
    out = sector (ata s) lba ∧ ata_ok N (ata s') ∧ ata_only s s' ∧
    ∀ l, sector (ata s') l = sector (ata s) l).
Proof.
  intros Hok Hwf HN HL Hlba Hbuf. apply (ata_read_sector_wp N); [done..|lia|].
  intros s' Ho Hok' Hd. rewrite drop_ge, app_nil_r by lia. split_and!; [done..|].
  intros l. unfold sector. by rewrite Hd.
Qed.

Lemma ata_read_returns_sector_witness :
  wp (ata_read_sector 5 (replicate 512 0)) 3 ata_demo (λ out s',
    out = sector (ata ata_demo) 5 ∧ ata_ok 3 (ata s') ∧ ata_only ata_demo s' ∧
    ∀ l, sector (ata s') l = sector (ata ata_demo) l).
Proof.
  apply (ata_read_returns_sector 3 5 (replicate 512 0) 3 ata_demo ata_demo_ok ata_demo_wf);
    [lia|done|lia|apply length_replicate].
Defined.

(** C20. Write then read, on a drive that reports no error and is ready within the driver's
    limit of 100000 status reads: after [ata_write_sector] the sector holds the data, every
    other sector is unchanged, and [ata_read_sector] gives the data back. *)
Theorem ata_write_read N lba data buf n s :
  ata_ok N (ata s) → disk_wf (ata s) → (N ≤ n)%nat → Z.of_nat N ≤ drq_limit →
  0 ≤ lba < 2 ^ 28 → length data = 512%nat → Forall (λ b, 0 ≤ b < 256) data → length buf = 512%nat →
  wp (ata_write_sector lba data;; ata_read_sector lba buf) n s (λ out s',
    out = data ∧ ∀ l, sector (ata s') l = if decide (l = lba) then data else sector (ata s) l).
Proof.
  intros Hok Hwf HN HL Hlba Hlen Hby Hbuf. apply wp_bind, (ata_write_sector_wp N); [done..|].
  intros s1 _ Hok1 D1.
  assert (∀ l, sector (ata s1) l = if decide (l = lba) then data else sector (ata s) l) as Hs1.
  { intros l. unfold sector. rewrite D1, lookup_insert.
    destruct (decide (l = lba)) as [->|]; [by rewrite decide_True|by rewrite decide_False by done]. }
  apply (ata_read_sector_wp N); [done| |done..|lia|].
  { intros l. rewrite Hs1. case_decide; [done|apply Hwf]. }
  intros s2 _ _ D2. rewrite Hs1, decide_True, drop_ge, app_nil_r by (done || lia). split; [done|].
  intros l. rewrite <- Hs1. unfold sector. by rewrite D2.
Qed.

Lemma ata_write_read_witness :
  wp (ata_write_sector 9 (replicate 512 1);; ata_read_sector 9 (replicate 512 0)) 3 ata_demo (λ out s',
    out = replicate 512 1 ∧
    ∀ l, sector (ata s') l = if decide (l = 9) then replicate 512 1 else sector (ata ata_demo) l).
Proof.
  apply (ata_write_read 3 9 (replicate 512 1) (replicate 512 0) 3 ata_demo ata_demo_ok ata_demo_wf);
    [lia|done|lia|apply length_replicate|by apply Forall_replicate|apply length_replicate].
Defined.

(** C38. A transfer the drive rejects returns like a successful one: a failed read leaves the
    caller's buffer as it was and a failed write leaves the disk as it was, and neither has
    a result by which the caller could tell. *)
Theorem ata_errors_unreported N e lba buf data n s :
  ata_fails N e (ata s) → (N ≤ n)%nat → Z.of_nat N ≤ drq_limit →
  length data = 512%nat → Forall (λ b, 0 ≤ b < 256) data →
  wp (ata_read_sector lba buf) n s (λ out s', out = buf ∧ ata_disk (ata s') = ata_disk (ata s)) ∧
  wp (ata_write_sector lba data) n s (λ _ s', ata_disk (ata s') = ata_disk (ata s)).
Proof.
  intros Hf HN HL Hlen Hby. split.
  - by apply (ata_read_fail_wp N e).
  - by apply (ata_write_fail_wp N e).
Qed.

Lemma ata_errors_unreported_witness :
  let s := set_ata (mkAta ∅ 0 0 0 0 0 false 0 AtaIdle [mkReply 1 (Some 0x41)]) boot_machine in
  wp (ata_read_sector 5 [1; 2]) 2 s (λ out s', out = [1; 2] ∧ ata_disk (ata s') = ata_disk (ata s)) ∧
  wp (ata_write_sector 5 (replicate 512 1)) 2 s (λ _ s', ata_disk (ata s') = ata_disk (ata s)).
Proof.
  intros s. apply (ata_errors_unreported 2 0x41 5 [1; 2] (replicate 512 1) 2 s);
    [|lia|done|apply length_replicate|by apply Forall_replicate].
  split; [cbn; lia|done| |by vm_compute]. exists (mkReply 1 (Some 0x41)), []. cbn.
  split_and!; [done|done|lia|constructor].
Defined.
