(* ===== verification/Buffers.v ===== *)
(** Sector buffers of the kernel heap.

    The file system takes 512-byte buffers from [kmalloc], fills them, and gives them back to
    [kfree] in the opposite order, up to three of them at a time.  This file is the heap's
    promise to such a client.  In a heap without adjacent free blocks, returning the buffer
    taken last leads back to the very list of blocks there was before; so a client that
    starts with [bufs j B] can nest [j] buffers, any number of times, and the contents of the
    buffers it owns are its own. *)
From S2P Require Import Prelude Memory Hardware Machine Utils Screen Pmm Kheap.

(** [j] buffers can be taken one after the other. *)
Fixpoint room (j : nat) (B : list blk) : Prop :=
  match j with
  | O => True
  | S k => ∃ p B', malloc_list 512 B = Some (p, B') ∧ room k B'
  end.

(** The heap is [B], with room for [j] buffers, and [n] units of fuel are enough to walk it. *)
Record bufs (j : nat) (B : list blk) (n : nat) (s : machine) : Prop := {
  bf_inv : ∃ hi, heap_inv s B hi;
  bf_tight : no_adjacent_free B;
  bf_room : room j B;
  bf_fuel : (length B + j < n)%nat;
}.

(** The client owns the buffer at [p]. *)
Definition owns (B : list blk) (p : Z) : Prop :=
  ∃ b, b ∈ B ∧ b_addr b + 24 = p ∧ b_free b = false ∧ 512 ≤ b_size b.

(** Memory that is the client's: its buffers, and everything above the heap. *)
Definition client (B : list blk) (x : Z) : Prop :=
  (∃ p, owns B p ∧ p ≤ x < p + 512) ∨ ∀ b, b ∈ B → b_end b ≤ x.

(** It holds the same bytes, and the screen is the same. *)
Definition kept (B : list blk) (s s' : machine) : Prop :=
  cons s' = cons s ∧ ∀ x, client B x → byte_at (mem s') x = byte_at (mem s) x.

Lemma kept_bytes B s s' p : kept B s s' → owns B p → bytes 512 (mem s') p = bytes 512 (mem s) p.
Proof. intros [_ H] Hp. apply bytes_ext. intros x Hx. apply H. left. exists p. split; [done|lia]. Qed.

#[export] Instance kept_preorder B : PreOrder (kept B).
Proof.
  split; [by intros s|]. intros s s' s'' [E1 H1] [E2 H2]. split; [congruence|]. intros x Hx. by rewrite H2, H1.
Qed.

Section buffers.
Implicit Types (s : machine) (B : list blk) (j n : nat).

(** *** Lists of blocks *)

Lemma no_adjacent_cons b B : no_adjacent_free (b :: B) → no_adjacent_free B.
Proof. destruct B; [done|]. by intros [_ H]. Qed.

Lemma no_adjacent_app l B : no_adjacent_free (l ++ B) → no_adjacent_free B.
Proof. induction l as [|b l IH]; [done|]. intros H. by apply IH, (no_adjacent_cons b). Qed.

(** Merging a list where only the blocks [x], [y] behind [l] are adjacent and free. *)
Lemma coalesce_tight B : no_adjacent_free B → coalesce B = B.
Proof.
  destruct B as [|b B]; [done|]. simpl. induction B as [|c B IH] in b |- *; simpl; [done|].
  intros [Hn H]. rewrite decide_False by done. by rewrite IH.
Qed.

Lemma coalesce_app l B : no_adjacent_free l → match last l, B with
    | Some x, y :: _ => ¬ (b_free x = true ∧ b_free y = true) | _, _ => True end →
  coalesce (l ++ B) = l ++ coalesce B.
Proof.
  destruct l as [|b l]; [done|]. intros Hl Hx. cbn [app coalesce].
  induction l as [|c l IH] in b, Hl, Hx |- *; cbn [app coalesce_from].
  - destruct B as [|y B]; [done|]. cbn [coalesce_from coalesce]. cbn in Hx. by rewrite decide_False.
  - destruct Hl as [Hn Hl]. rewrite decide_False by done. f_equal. by apply IH.
Qed.

Lemma tight_prefix l b B : no_adjacent_free (l ++ b :: B) → b_free b = true →
  no_adjacent_free l ∧ (∀ y, match last l with Some x => ¬ (b_free x = true ∧ b_free y = true) | None => True end).
Proof.
  induction l as [|c l IH]; [done|]. intros H Hb. pose proof (no_adjacent_cons _ _ H) as H'.
  destruct (IH H' Hb) as [Hl Hx]. destruct l as [|d l]; cbn [app] in *.
  - destruct H as [H _]. split; [done|]. intros y [Hc _]. apply H. done.
  - destruct H as [H _]. split; [done|]. intros y. apply Hx.
Qed.

(** Taking a buffer keeps the list tight, and returning it restores the list. *)
Lemma malloc_tight p lo hi B B' : no_adjacent_free B → malloc_list 512 B = Some (p, B') → lay lo B' hi →
  no_adjacent_free B' ∧ coalesce (mark_free p B') = B.
Proof.
  intros Ht Hm Hl. destruct (malloc_list_Some _ _ _ _ Hm) as (l & b & r & -> & Hf & Hs & -> & ->).
  destruct (tight_prefix _ _ _ Ht Hf) as [Htl Hx].
  pose proof (no_adjacent_app _ _ Ht) as Hr.
  assert (∀ x : blk, b_free x = true → no_adjacent_free (x :: r)) as Hxr.
  { intros x Ex. destruct r as [|c r]; [done|]. split; [|by apply (no_adjacent_cons b)].
    destruct Hr as [Hr _]. rewrite Hf in Hr. by rewrite Ex. }
  assert (∀ x, b_free x = false → no_adjacent_free (x :: r)) as Hxr'.
  { intros x Ex. destruct r as [|c r]; [done|]. split; [rewrite Ex; by intros []|by apply (no_adjacent_cons b)]. }
  assert (∀ x L, b_free x = false → no_adjacent_free (x :: L) → no_adjacent_free (l ++ x :: L)) as Hlx.
  { intros x L Ex HL. clear -Htl Ex HL. induction l as [|c l IH]; [done|].
    destruct l as [|d l]; cbn [app]; [split; [rewrite Ex; by intros []|done]|].
    destruct Htl as [H1 H2]. split; [done|by apply IH]. }
  unfold split_block in *. destruct (decide (512 + 32 < b_size b)).
  - cbn [app] in *. split.
    { apply Hlx; [done|]. split; [cbn; by intros []|by apply Hxr]. }
    pose proof (mark_free_split _ l (mkBlk (b_addr b) 512 false) _ _ Hl) as E. cbn [b_addr b_size] in E.
    rewrite E, coalesce_app by (done || apply Hx). cbn [coalesce coalesce_from]. rewrite decide_True by done.
    cbn [b_addr b_size]. replace (512 + (24 + (b_size b - 512 - 24))) with (b_size b) by lia.
    change (coalesce_from (mkBlk (b_addr b) (b_size b) true) r) with (coalesce (mkBlk (b_addr b) (b_size b) true :: r)).
    rewrite coalesce_tight by (by apply Hxr). do 2 f_equal. destruct b. cbn in *. by subst.
  - cbn [app] in *. split; [apply Hlx; [done|by apply Hxr']|].
    pose proof (mark_free_split _ l (mkBlk (b_addr b) (b_size b) false) _ _ Hl) as E. cbn [b_addr b_size] in E.
    rewrite E, coalesce_app by (done || apply Hx).
    rewrite coalesce_tight by (by apply Hxr). do 2 f_equal. destruct b. cbn in *. by subst.
Qed.

Lemma owns_malloc p q B B' : malloc_list 512 B = Some (p, B') → owns B q → owns B' q.
Proof.
  intros Hm (b & Hb & E & Hf & Hs). exists b. split_and!; try done. by eapply malloc_list_in_use.
Qed.

Lemma owns_new p B B' : malloc_list 512 B = Some (p, B') → owns B' p.
Proof. intros Hm. destruct (malloc_list_new 512 _ _ _ ltac:(lia) Hm) as (b & ? & ? & ? & ?). by exists b. Qed.

(** The heap is a function of memory and of the two allocators' variables. *)
Lemma heap_inv_frame s s' bs hi : mem s' = mem s → pmm s' = pmm s → heap_head s' = heap_head s →
  heap_inv s bs hi → heap_inv s' bs hi.
Proof.
  intros Em Ep Eh [A B C D E F].
  destruct (low_same_wf s s') as [E' F']; [done..|split; [done|intros x _; by rewrite Em]|].
  split; rewrite ?Em, ?Ep, ?Eh; try done. intros i. unfold used. rewrite Em, Ep. apply D.
Qed.

(** The heap depends on the headers only: data writes keep it. *)
Lemma heap_inv_data s s' bs hi b : heap_inv s bs hi → b ∈ bs →
  pmm s' = pmm s → heap_head s' = heap_head s →
  agree_out (mem s) (mem s') (b_addr b + 24) (b_size b) → heap_inv s' bs hi.
Proof.
  intros Hinv Hb Hp Hh Hag.
  assert (heap_inv (set_mem (mem s') s) bs hi) as H.
  { apply list_elem_of_split in Hb as (l1 & l2 & ->).
    pose proof (hi_lay _ _ _ Hinv) as Hl. apply lay_app in Hl as (mid & Hl1 & Hb1 & Hb2 & Hl2).
    pose proof (hi_seg _ _ _ Hinv) as Hs. apply seg_app in Hs as (d & Hs1 & -> & nx & Hn & Hs2).
    change (b :: l2) with ([b] ++ l2) in *.
    eapply (heap_inv_replace s _ l1 [b] [b] l2 hi (b_addr b) (b_end b)); try done.
    - by eapply lay_weaken; [..|exact Hl1].
    - simpl. unfold b_end. lia.
    - intros x Hx. cbn [mem set_mem]. apply Hag. unfold b_end in Hx. lia.
    - simpl. split; [done|]. exists nx. split; [|done]. eapply node_frame; [|exact Hn].
      intros x Hx. symmetry. apply Hag. lia. }
  destruct H as [A B C D E F]. cbn in *.
  destruct (low_same_wf (set_mem (mem s') s) s') as [E' F']; [done..|split; done|].
  split; try done; [by rewrite Hh|by rewrite Hp|].
  intros i Hi Hlt. specialize (D i Hi Hlt). unfold used in *. rewrite Hp. exact D.
Qed.

Lemma bufs_frame j B n s s' : bufs j B n s → mem s' = mem s → pmm s' = pmm s → heap_head s' = heap_head s →
  bufs j B n s'.
Proof.
  intros [[hi A] T R F] Em Ep Eh. split; [|done..]. exists hi. by eapply heap_inv_frame.
Qed.

(** Writing into a buffer one owns. *)
Lemma bufs_data j B n s s' p : bufs j B n s → owns B p → pmm s' = pmm s → heap_head s' = heap_head s →
  agree_out (mem s) (mem s') p 512 → bufs j B n s'.
Proof.
  intros [[hi A] T R F] (b & Hb & <- & Hf & Hs) Hp Hh Hag. split; [|done..]. exists hi.
  eapply heap_inv_data; [done..|]. intros x Hx. apply Hag. lia.
Qed.

Lemma owns_range j B n s p : bufs j B n s → owns B p → 0x2000018 ≤ p ∧ p + 512 < 2 ^ 41.
Proof.
  intros [[hi Hinv] _ _ _] (b & Hb & <- & _ & Hs).
  pose proof (lay_elem _ _ _ _ (hi_lay _ _ _ Hinv) Hb). pose proof (hi_top _ _ _ Hinv).
  pose proof (pmm_fits_total _ (hi_fits _ _ _ Hinv)). unfold b_end in *. lia.
Qed.

(** Two buffers do not overlap. *)
Lemma owns_disjoint j B n s p q : bufs j B n s → owns B p → owns B q → p ≠ q → p + 512 ≤ q ∨ q + 512 ≤ p.
Proof.
  intros [[hi Hinv] _ _ _] (b & Hb & <- & _ & Hs) (c & Hc & <- & _ & Hs') Hne.
  destruct (lay_disjoint _ _ _ b c (hi_lay _ _ _ Hinv) Hb Hc) as [->|]; [done|]. unfold b_end in *. lia.
Qed.

Lemma owns_fresh j B n s p q B' : bufs j B n s → malloc_list 512 B = Some (p, B') → owns B q → p ≠ q.
Proof.
  intros [[hi Hinv] _ _ _] Hm (c & Hc & <- & Hf & _) ->.
  destruct (malloc_list_Some _ _ _ _ Hm) as (l & b & r & -> & Hb & _ & Ep & _).
  destruct (lay_disjoint _ _ _ b c (hi_lay _ _ _ Hinv)) as [->|Hd]; [set_solver|done|congruence|].
  pose proof (lay_elem _ _ _ b (hi_lay _ _ _ Hinv) ltac:(set_solver)).
  pose proof (lay_elem _ _ _ c (hi_lay _ _ _ Hinv) Hc). unfold b_end in *. lia.
Qed.

(** The blocks of the list with the buffer end where those of the list end. *)
Lemma malloc_ends p B B' a : malloc_list 512 B = Some (p, B') → (∀ b, b ∈ B → b_end b ≤ a) → ∀ b, b ∈ B' → b_end b ≤ a.
Proof.
  intros Hm Ha c Hc. destruct (malloc_list_Some _ _ _ _ Hm) as (l & b & r & EB & Hf & Hsz & Ep & EB').
  assert (b_end b ≤ a) as Hb by (apply Ha; rewrite EB; set_solver). unfold b_end in Hb.
  rewrite EB' in Hc. apply elem_of_app in Hc as [Hc|Hc]; [apply Ha; rewrite EB; set_solver|].
  apply elem_of_app in Hc as [Hc|Hc]; [|apply Ha; rewrite EB; set_solver]. unfold split_block in Hc.
  case_decide; repeat (apply elem_of_cons in Hc as [->|Hc]; [unfold b_end; cbn [b_addr b_size]; lia|]); by apply not_elem_of_nil in Hc.
Qed.

Lemma client_fresh j B n s p B' x : bufs j B n s → malloc_list 512 B = Some (p, B') → client B x →
  client B' x ∧ ¬ (p ≤ x < p + 512).
Proof.
  intros Hs Hm Hx. destruct (malloc_list_Some _ _ _ _ Hm) as (l & b & r & EB & Hf & Hsz & Ep & EB').
  destruct Hx as [(q & Hq & Hx)|Hx].
  - split; [left; exists q; split; [by eapply owns_malloc|done]|].
    destruct Hq as (c & Hc & Eq & Hcf & Hcs). destruct Hs as [[hi Hinv] _ _ _].
    assert (b ∈ B) as Hb by (rewrite EB; set_solver).
    destruct (lay_disjoint _ _ _ b c (hi_lay _ _ _ Hinv) Hb Hc) as [->|Hd]; [congruence|]. unfold b_end in *. lia.
  - assert (b_end b ≤ x) as Hb by (apply Hx; rewrite EB; set_solver). unfold b_end in Hb.
    split; [right; by eapply malloc_ends|lia].
Qed.

(** *** The two calls *)

Lemma take_buffer_wp j B n s (Q : Z → machine → Prop) :
  bufs (S j) B n s →
  (∀ p B' s', malloc_list 512 B = Some (p, B') → bufs j B' n s' → kept B s s' →
     s' = set_mem (mem s') s → Q p s') →
  wp (kmalloc 512) n s Q.
Proof.
  intros Hs HQ. pose proof Hs as [[hi Hinv] Ht (q & B' & Hm & Hroom) Hn].
  apply (kmalloc_wp _ _ _ B hi); [done|lia|lia| |congruence].
  intros p B'' b s' Hm' Hb Htook Hinv'. rewrite Hm in Hm'. injection Hm' as <- <-.
  pose proof Htook as (_ & _ & Hfr & _). apply (HQ _ B'); [done| | |done].
  - pose proof (malloc_list_length _ _ _ _ Hm). split; [by exists hi| |done|lia].
    by eapply malloc_tight; [..|exact (hi_lay _ _ _ Hinv')].
  - split; [by rewrite Hfr|]. intros x [(p & (c & Hc & <- & Hcf & Hcs) & Hx)|Hx]; [eapply took_keeps; [exact Hinv|done..|]; unfold b_end; lia|].
    destruct Htook as (_ & _ & _ & Hag). apply Hag. specialize (Hx b Hb). unfold b_end in Hx. lia.
Qed.

Lemma return_buffer_wp j B p B' n s0 s (Q : unit → machine → Prop) :
  bufs (S j) B n s0 → malloc_list 512 B = Some (p, B') → bufs j B' n s →
  (∀ s', bufs (S j) B n s' → kept B s s' → s' = set_mem (mem s') s → Q tt s') →
  wp (kfree p) n s Q.
Proof.
  intros H0 Hm Hs HQ. pose proof H0 as [_ Ht Hr Hn]. pose proof Hs as [[hi Hinv] _ _ Hn'].
  destruct (malloc_list_new 512 _ _ _ ltac:(lia) Hm) as (b & Hb & <- & Hf & Hbs).
  apply (kfree_wp B' hi); [done|done|lia|]. intros s' Hfr Hinv' Hhf.
  destruct (malloc_tight _ _ _ _ _ Ht Hm (hi_lay _ _ _ Hinv)) as [Ht' E]. rewrite E in Hinv'.
  apply HQ; [|..|done].
  - split; [by exists hi|done..].
  - split; [by rewrite Hfr|]. intros x Hx. apply Hhf. intros d Hd Hin. pose proof (lay_elem _ _ _ d (hi_lay _ _ _ Hinv) Hd).
    destruct (client_fresh _ _ _ _ _ _ _ H0 Hm Hx) as [[(p & (c & Hc & <- & Hcf & Hcs) & Hp)|Hx'] _].
    + destruct (lay_disjoint _ _ _ c d (hi_lay _ _ _ Hinv) Hc Hd) as [->|]; unfold b_end in *; lia.
    + specialize (Hx' d Hd). unfold b_end in *. lia.
Qed.

End buffers.
