(* ===== verification/Fat.v ===== *)
(** src/fs/fat.c: the FAT16 file system.

    Sector buffers come from the kernel heap, so they are addresses of physical memory, as
    in the code; a failed [kmalloc] therefore gives a buffer at address 0.  Directory
    entries are read and written in the buffer.  File names and paths are C arrays. *)
From S2P Require Import Prelude Memory Hardware Machine Utils Screen Pmm Kheap Cpu Ata Buffers.

(** ** Buffers and globals *)

(** [ata_read_sector] and [ata_write_sector] on a buffer in memory. *)
Definition read_buf (lba p : Z) : M unit :=
  old ← gets (λ s, bytes 512 (mem s) p);
  new ← ata_read_sector lba old;
  modify (λ s, set_mem (put_bytes p new (mem s)) s).

Definition write_buf (lba p : Z) : M unit :=
  data ← gets (λ s, bytes 512 (mem s) p);
  ata_write_sector lba data.

Definition fat_vars_upd (f : fat_vars → fat_vars) : M unit := modify (λ s, set_fat (f (fat s)) s).

Definition fat_get_current_path : M (list Z) := gets (λ s, current_path (fat s)).
Definition fat_get_current_cluster : M Z := gets (λ s, current_dir_cluster (fat s)).

Definition not_mounted : list Z := str "File system not mounted. Run 'mount' first." ++ newline.

(** ** [fat_init] *)

(** The fields of the boot sector at [p], as the packed structure lays them out. *)
Definition parse_bpb (m : gmap Z Z) (p : Z) : fat_bpb_t :=
  mkBpb (bytes 8 m (p + 3)) (load 2 m (p + 11)) (load 1 m (p + 13)) (load 2 m (p + 14))
    (load 1 m (p + 16)) (load 2 m (p + 17)) (load 2 m (p + 19)) (load 1 m (p + 21))
    (load 2 m (p + 22)) (load 2 m (p + 24)) (load 2 m (p + 26)) (load 4 m (p + 28)) (load 4 m (p + 32)).

Definition print_field (name : list Z) (v : Z) : M unit :=
  kprint name;;
  kprint_hex 32 v;;
  kprint newline.

Definition fat_init : M unit :=
  buffer ← kmalloc 512;
  if decide (buffer = 0) then kprint (str "FAT: Memory allocation failed" ++ newline)
  else
    read_buf 0 buffer;;
    fat_info ← gets (λ s, parse_bpb (mem s) buffer);
    fat_vars_upd (λ f, mkFat fat_info (fat_start_sector f) (root_dir_sector f) (data_start_sector f)
      (current_dir_cluster f) (current_path f) (is_fat_initialized f));;
    kprint (str "---FAT16 Init ---" ++ newline);;
    kprint (str "OEM Name: ");;
    for_unit 8 0 (λ i,
      c ← from_option_ub (arr_get (oem_name fat_info) i);
      kprint (string_of [c; 0]));;
    kprint newline;;
    print_field (str "Bytes per Sector: ") (bytes_per_sector fat_info);;
    print_field (str "Sectors per Cluster: ") (sectors_per_cluster fat_info);;
    print_field (str "Reserved Sectors: ") (reserved_sectors fat_info);;
    print_field (str "Root Dir Entries: ") (root_dir_entries fat_info);;
    if decide (bytes_per_sector fat_info = 0) then undef
    else
      let fat_start := reserved_sectors fat_info in
      let root_dir := u32 (fat_start + fat_count fat_info * fat_size_16 fat_info) in
      let root_dir_size := root_dir_entries fat_info * 32 / bytes_per_sector fat_info in
      let data_start := u32 (root_dir + root_dir_size) in
      fat_vars_upd (λ f, mkFat fat_info fat_start root_dir data_start
        (current_dir_cluster f) (current_path f) (is_fat_initialized f));;
      print_field (str "Data Start Sector: ") data_start;;
      kfree buffer;;
      fat_vars_upd (λ f, mkFat fat_info fat_start root_dir data_start
        (current_dir_cluster f) (current_path f) 1).

(** ** The allocation table *)

Definition fat_next_cluster (cluster : Z) : M Z :=
  f ← gets fat;
  let fat_offset := cluster * 2 in
  let fat_sector := u32 (fat_start_sector f + fat_offset / 512) in
  let ent_offset := fat_offset mod 512 in
  buffer ← kmalloc 512;
  read_buf fat_sector buffer;;
  next_cluster ← load16 (buffer + ent_offset);
  kfree buffer;;
  mret next_cluster.

Definition fat_write_fat_entry (cluster value : Z) : M unit :=
  f ← gets fat;
  let fat_offset := cluster * 2 in
  let fat_sector := u32 (fat_start_sector f + fat_offset / 512) in
  let ent_offset := fat_offset mod 512 in
  buffer ← kmalloc 512;
  read_buf fat_sector buffer;;
  store16 (buffer + ent_offset) value;;
  write_buf fat_sector buffer;;
  kfree buffer.

Definition fat_allocate_cluster : M Z :=
  buffer ← kmalloc 512;
  f ← gets fat;
  r ← for_loop (Z.to_nat (fat_size_16 (fat_info f))) 0 (λ i,
    read_buf (u32 (fat_start_sector f + i)) buffer;;
    for_loop 256 0 (λ j,
      let cluster := u16 (i * 256 + j) in
      if decide (cluster < 2) then mret None
      else
        val ← load16 (buffer + j * 2);
        if decide (val = 0) then
          fat_write_fat_entry cluster 0xFFFF;;
          kfree buffer;;
          mret (Some cluster)
        else mret None));
  match r with
  | Some cluster => mret cluster
  | None => kfree buffer;; mret 0
  end.

Definition fat_lba_of_cluster (cluster : Z) : M Z :=
  f ← gets fat;
  mret (u32 (data_start_sector f + (cluster - 2) * sectors_per_cluster (fat_info f))).

(** [while (curr < 0xFFF8)] of [fat_free_cluster_chain]. *)
Definition free_chain_step (curr : Z) : M (Z + unit) :=
  if decide (curr < 0xFFF8) then
    next ← fat_next_cluster curr;
    fat_write_fat_entry curr 0;;
    mret (inl next)
  else mret (inr tt).

Definition fat_free_cluster_chain (cluster : Z) : M unit :=
  if decide (cluster < 2) then mret tt else while_loop free_chain_step cluster.

(** ** Directories *)

Definition fat_read_dir_sector (start_cluster sector_idx buffer : Z) : M Z :=
  f ← gets fat;
  if decide (start_cluster = 0) then
    if decide (bytes_per_sector (fat_info f) = 0) then undef
    else
      let root_dir_sectors := root_dir_entries (fat_info f) * 32 / bytes_per_sector (fat_info f) in
      if decide (sector_idx >= root_dir_sectors) then mret 0
      else
        read_buf (u32 (root_dir_sector f + sector_idx)) buffer;;
        mret 1
  else
    let spc := sectors_per_cluster (fat_info f) in
    if decide (spc = 0) then undef
    else
      let cluster_steps := Z.quot sector_idx spc in
      let sector_offset := Z.rem sector_idx spc in
      (* [None] is the return inside the loop *)
      curr ← for_acc (Z.to_nat cluster_steps) 0 (Some start_cluster) (λ _ curr,
        match curr with
        | None => mret None
        | Some c => if decide (c >= 0xFFF8) then mret None else c' ← fat_next_cluster c; mret (Some c')
        end);
      match curr with
      | None => mret 0
      | Some c =>
          if decide (c >= 0xFFF8) then mret 0
          else
            lba ← fat_lba_of_cluster c;
            read_buf (u32 (lba + sector_offset)) buffer;;
            mret 1
      end.

(** Fields of [entry[j]] in the buffer. *)
Definition dirent (buffer j : Z) : Z := buffer + 32 * j.
Definition ent_name0 (e : Z) : M Z := load8 e.
Definition ent_name (e : Z) : M (list Z) := gets (λ s, bytes 8 (mem s) e).
Definition ent_ext (e : Z) : M (list Z) := gets (λ s, bytes 3 (mem s) (e + 8)).
Definition ent_attributes (e : Z) : M Z := load8 (e + 11).
Definition ent_first_cluster_low (e : Z) : M Z := load16 (e + 26).
Definition ent_file_size (e : Z) : M Z := load32 (e + 28).

Definition ATTR_VOLUME_ID : Z := 0x08.
Definition ATTR_DIRECTORY : Z := 0x10.

(** ** Names *)

Definition to_upper (c : Z) : Z := if decide (97 ≤ c ≤ 122) then c - 32 else c.

(** [for (i < k) { if (src[i] == ' ') break; temp[idx++] = src[i]; }] *)
Fixpoint copy_part (src temp : list Z) (idx : Z) : option (list Z * Z) :=
  match src with
  | [] => Some (temp, idx)
  | c :: rest =>
      if decide (c = 32) then Some (temp, idx)
      else temp' ← arr_set temp idx c; copy_part rest temp' (idx + 1)
  end.

(** The comparison loop: [temp] and [input] up to a 0, ignoring case. *)
Fixpoint match_names (temp input : list Z) : option Z :=
  match temp, input with
  | t :: ts, c :: cs =>
      if decide (t = 0 ∨ c = 0) then Some (if decide (t = 0 ∧ c = 0) then 1 else 0)
      else if decide (to_upper t = to_upper c) then match_names ts cs else Some 0
  | _, _ => None
  end.

Definition fat_filename_match (name ext input : list Z) : option Z :=
  '(temp, idx) ← copy_part name (replicate 12 0) 0;
  e0 ← arr_get ext 0;
  '(temp, idx) ← (if decide (e0 = 32) then Some (temp, idx)
                  else temp ← arr_set temp idx 46; copy_part ext temp (idx + 1));
  temp ← arr_set temp idx 0;
  match_names temp input.

(** The name loops of [fat_create_entry]: [parse_name] fills [name] from [j] on and returns
    what is left of the file name. *)
Fixpoint parse_name (filename name : list Z) (j : Z) : option (list Z * list Z) :=
  match filename with
  | [] => None
  | c :: rest =>
      if decide (c ≠ 0 ∧ c ≠ 46 ∧ j < 8) then
        name' ← arr_set name j (to_upper c); parse_name rest name' (j + 1)
      else Some (name, filename)
  end.

Fixpoint skip_to_ext (filename : list Z) : option (list Z) :=
  match filename with
  | [] => None
  | c :: rest => if decide (c ≠ 0 ∧ c ≠ 46) then skip_to_ext rest else Some filename
  end.

Fixpoint parse_ext (filename ext : list Z) (j : Z) : option (list Z) :=
  match filename with
  | [] => None
  | c :: rest =>
      if decide (c ≠ 0 ∧ j < 3) then
        ext' ← arr_set ext j (to_upper c); parse_ext rest ext' (j + 1)
      else Some ext
  end.

(** The 8.3 name of a file name. *)
Definition to_83 (filename : list Z) : option (list Z * list Z) :=
  '(name, rest) ← parse_name filename (replicate 8 32) 0;
  rest ← skip_to_ext rest;
  match rest with
  | 46 :: after => ext ← parse_ext after (replicate 3 32) 0; Some (name, ext)
  | _ => Some (name, replicate 3 32)
  end.

(** [for (k = last; k >= 0; k--) { if (a[k] == ' ') a[k] = 0; else break; }], on the cells
    before the terminating 0. *)
Fixpoint trim_back (rev_cells : list Z) : list Z :=
  match rev_cells with
  | [] => []
  | c :: rest => if decide (c = 32) then 0 :: trim_back rest else rev_cells
  end.

Definition trim (cells : list Z) : list Z := reverse (trim_back (reverse cells)) ++ [0].

(** ** Listing and searching *)

(** One entry of [fat_list]: [Some tt] is the end of the directory. *)
Definition fat_list_entry (e : Z) : M (option unit) :=
  n0 ← ent_name0 e;
  if decide (n0 = 0x00) then mret (Some tt)
  else if decide (n0 = 0xE5) then mret None
  else
    attr ← ent_attributes e;
    if decide (attr = 0x0F ∨ Z.land attr ATTR_VOLUME_ID ≠ 0) then mret None
    else
      name ← ent_name e;
      ext ← ent_ext e;
      kprint (string_of (trim name));;
      (if decide (arr_get (trim ext) 0 ≠ Some 0) then
         kprint (str ".");; kprint (string_of (trim ext))
       else mret tt);;
      (if decide (Z.land attr ATTR_DIRECTORY ≠ 0) then kprint (str "/") else mret tt);;
      kprint (str "        ");;
      size ← ent_file_size e;
      kprint_hex 32 size;;
      kprint newline;;
      mret None.

Definition fat_list_step (buffer i : Z) : M (Z + unit) :=
  dir ← fat_get_current_cluster;
  ok ← fat_read_dir_sector dir i buffer;
  if decide (ok = 0) then kfree buffer;; mret (inr tt)
  else
    r ← for_loop 16 0 (λ j, fat_list_entry (dirent buffer j));
    match r with
    | Some _ => kfree buffer;; mret (inr tt)
    | None => mret (inl (i + 1))
    end.

Definition fat_list : M unit :=
  mounted ← gets (λ s, is_fat_initialized (fat s));
  if decide (mounted = 0) then kprint not_mounted
  else
    buffer ← kmalloc 512;
    if decide (buffer = 0) then kprint (str "ls: Memory allocation failed" ++ newline)
    else
      kprint (str "Filename        Size" ++ newline);;
      kprint (str "--------------------" ++ newline);;
      while_loop (fat_list_step buffer) 0.

(** One entry of [fat_find_file]: [None] goes on, [Some None] is the end of the directory,
    [Some (Some e)] the entry found, as its 32 bytes. *)
Definition fat_find_entry (filename : list Z) (e : Z) : M (option (option (list Z))) :=
  n0 ← ent_name0 e;
  if decide (n0 = 0x00) then mret (Some None)
  else if decide (n0 = 0xE5) then mret None
  else
    attr ← ent_attributes e;
    if decide (attr = 0x0F ∨ Z.land attr ATTR_VOLUME_ID ≠ 0) then mret None
    else
      name ← ent_name e;
      ext ← ent_ext e;
      r ← from_option_ub (fat_filename_match name ext filename);
      if decide (r = 0) then mret None
      else entry ← gets (λ s, bytes 32 (mem s) e); mret (Some (Some entry)).

Definition fat_find_step (filename : list Z) (buffer i : Z) : M (Z + option (list Z)) :=
  dir ← fat_get_current_cluster;
  ok ← fat_read_dir_sector dir i buffer;
  if decide (ok = 0) then kfree buffer;; mret (inr None)
  else
    r ← for_loop 16 0 (λ j, fat_find_entry filename (dirent buffer j));
    match r with
    | Some found => kfree buffer;; mret (inr found)
    | None => mret (inl (i + 1))
    end.

(** [fat_find_file]: the entry copied to [entry_out], when the result is 1. *)
Definition fat_find_file (filename : list Z) : M (option (list Z)) :=
  mounted ← gets (λ s, is_fat_initialized (fat s));
  if decide (mounted = 0) then kprint not_mounted;; mret None
  else
    buffer ← kmalloc 512;
    if decide (buffer = 0) then mret None
    else while_loop (fat_find_step filename buffer) 0.

(** Fields of a copied entry. *)
Definition e_attributes (e : list Z) : Z := default 0 (e !! 11%nat).
Definition e_first_cluster_low (e : list Z) : Z := default 0 (e !! 26%nat) + 256 * default 0 (e !! 27%nat).
Definition e_file_size (e : list Z) : Z :=
  default 0 (e !! 28%nat) + 256 * default 0 (e !! 29%nat)
  + 65536 * default 0 (e !! 30%nat) + 16777216 * default 0 (e !! 31%nat).

(** ** [fat_change_dir] *)

(** The loop that cuts the last component: from index [i] down to the last slash. *)
Fixpoint cut_last (k : nat) (path : list Z) : option (list Z) :=
  match k with
  | O => Some path
  | S k' =>
      let i := Z.of_nat k' in
      c ← arr_get path i;
      if decide (c = 47) then
        if decide (i = 0) then arr_set path 1 0 else arr_set path i 0
      else cut_last k' path
  end.

(** [for (i < dlen) current_path[len + i] = real_name[i];] *)
Fixpoint copy_at (src path : list Z) (pos : Z) : option (list Z) :=
  match src with
  | [] => Some path
  | c :: rest => path' ← arr_set path pos c; copy_at rest path' (pos + 1)
  end.

(** The path after a change to [dirname], whose entry has the name [name]. *)
Definition update_path (dirname name path : list Z) : option (list Z) :=
  up ← strcmp dirname (cstr (str ".."));
  if decide (up = 0) then
    len ← strlen path;
    if decide (len > 1) then cut_last (Z.to_nat len) path else Some path
  else
    here ← strcmp dirname (cstr (str "."));
    if decide (here = 0) then Some path
    else
      let real_name := trim name in
      len ← strlen path;
      dlen ← strlen real_name;
      if decide (len + dlen + 2 < 256) then
        last ← (if decide (len > 1) then arr_get path (len - 1) else Some 47);
        '(path, len) ← (if decide (last ≠ 47)
                        then path ← arr_set path len 47; Some (path, len + 1)
                        else Some (path, len));
        path ← copy_at (take (Z.to_nat dlen) real_name) path len;
        arr_set path (len + dlen) 0
      else Some path.

Definition fat_change_dir (dirname : list Z) : M unit :=
  mounted ← gets (λ s, is_fat_initialized (fat s));
  if decide (mounted = 0) then kprint not_mounted
  else
    r ← fat_find_file dirname;
    match r with
    | None => kprint (str "Directory not found." ++ newline)
    | Some entry =>
        if decide (Z.land (e_attributes entry) ATTR_DIRECTORY ≠ 0) then
          fat_vars_upd (λ f, mkFat (fat_info f) (fat_start_sector f) (root_dir_sector f)
            (data_start_sector f) (e_first_cluster_low entry) (current_path f) (is_fat_initialized f));;
          kprint (str "Changed directory." ++ newline);;
          path ← fat_get_current_path;
          path' ← from_option_ub (update_path dirname (take 8 entry) path);
          fat_vars_upd (λ f, mkFat (fat_info f) (fat_start_sector f) (root_dir_sector f)
            (data_start_sector f) (current_dir_cluster f) path' (is_fat_initialized f))
        else kprint (str "Not a directory." ++ newline)
    end.

(** ** Creating and deleting entries *)

(** The LBA of sector [sector_idx] of the current directory, computed again for the write. *)
Definition dir_sector_lba (sector_idx : Z) : M Z :=
  f ← gets fat;
  if decide (current_dir_cluster f = 0) then mret (u32 (root_dir_sector f + sector_idx))
  else
    let spc := sectors_per_cluster (fat_info f) in
    if decide (spc = 0) then undef
    else
      let cluster_steps := Z.quot sector_idx spc in
      let sector_offset := Z.rem sector_idx spc in
      curr ← for_acc (Z.to_nat cluster_steps) 0 (current_dir_cluster f) (λ _ c, fat_next_cluster c);
      lba ← fat_lba_of_cluster curr;
      mret (u32 (lba + sector_offset)).

(** The assignments to [target]. *)
Definition put_dirent (e : Z) (name ext : list Z) (attr cluster size : Z) : M unit :=
  modify (λ s, set_mem (put_bytes e name (mem s)) s);;
  modify (λ s, set_mem (put_bytes (e + 8) ext (mem s)) s);;
  store8 (e + 11) attr;;
  store8 (e + 12) 0;;
  store16 (e + 14) 0;;
  store16 (e + 16) 0;;
  store16 (e + 20) 0;;
  store16 (e + 26) cluster;;
  store32 (e + 28) size.

(** The first entry that is unused. *)
Definition find_slot (buffer : Z) : M (option Z) :=
  for_loop 16 0 (λ k,
    n0 ← ent_name0 (dirent buffer k);
    mret (if decide (n0 = 0x00 ∨ n0 = 0xE5) then Some k else None)).

(** The printable form of the 8.3 name: the characters that are no spaces. *)
Definition final_name (name ext : list Z) : list Z :=
  filter (λ c, c ≠ 32) name ++
  (if decide (ext !! 0%nat = Some 32) then [] else 46 :: filter (λ c, c ≠ 32) ext).

Definition fat_create_step (name ext : list Z) (attr cluster size buffer sector_idx : Z) : M (Z + Z) :=
  dir ← fat_get_current_cluster;
  ok ← fat_read_dir_sector dir sector_idx buffer;
  if decide (ok = 0) then
    kfree buffer;;
    kprint (str "Directory full or error." ++ newline);;
    mret (inr 0)
  else
    found ← find_slot buffer;
    match found with
    | None => mret (inl (sector_idx + 1))
    | Some k =>
        let target := dirent buffer k in
        put_dirent target name ext attr cluster size;;
        lba ← dir_sector_lba sector_idx;
        write_buf lba buffer;;
        kfree buffer;;
        (* the entry is read again from the freed buffer *)
        name' ← ent_name target;
        ext' ← ent_ext target;
        kprint (str "Entry created: ");;
        kprint (string_of (final_name name' ext' ++ [0]));;
        kprint newline;;
        mret (inr 1)
    end.

Definition fat_create_entry (filename : list Z) (attr cluster size : Z) : M Z :=
  mounted ← gets (λ s, is_fat_initialized (fat s));
  if decide (mounted = 0) then mret 0
  else
    '(name, ext) ← from_option_ub (to_83 filename);
    buffer ← kmalloc 512;
    while_loop (fat_create_step name ext attr cluster size buffer) 0.

(** One entry of [fat_is_dir_empty]: [Some r] returns [r]. *)
Definition dir_empty_entry (e : Z) : M (option Z) :=
  n0 ← ent_name0 e;
  if decide (n0 = 0x00) then mret (Some 1)
  else if decide (n0 = 0xE5) then mret None
  else
    n1 ← load8 (e + 1);
    n2 ← load8 (e + 2);
    mret (if decide (n0 = 46 ∧ (n1 = 32 ∨ (n1 = 46 ∧ n2 = 32))) then None else Some 0).

Definition dir_empty_step (cluster buffer i : Z) : M (Z + Z) :=
  ok ← fat_read_dir_sector cluster i buffer;
  if decide (ok = 0) then kfree buffer;; mret (inr 1)
  else
    r ← for_loop 16 0 (λ j, dir_empty_entry (dirent buffer j));
    match r with
    | Some v => kfree buffer;; mret (inr v)
    | None => mret (inl (i + 1))
    end.

Definition fat_is_dir_empty (cluster : Z) : M Z :=
  buffer ← kmalloc 512;
  if decide (buffer = 0) then mret 0 else while_loop (dir_empty_step cluster buffer) 0.

(** How the search loop of a deletion ends: at the end of the sector, with a wrong kind of
    entry, or with the entry's index. *)
Inductive del_found :=
| DelEnd
| DelWrongKind
| DelAt (k : Z).

(** One entry of the deletion loops; [dir] tells [fat_delete_dir] from [fat_delete_file]. *)
Definition delete_entry (dir : bool) (filename : list Z) (buffer k : Z) : M (option del_found) :=
  let e := dirent buffer k in
  n0 ← ent_name0 e;
  if decide (n0 = 0x00) then mret (Some DelEnd)
  else if decide (n0 = 0xE5) then mret None
  else
    attr ← ent_attributes e;
    if decide (dir = false ∧ Z.land attr ATTR_VOLUME_ID ≠ 0) then mret None
    else
      name ← ent_name e;
      ext ← ent_ext e;
      r ← from_option_ub (fat_filename_match name ext filename);
      if decide (r = 0) then mret None
      else if decide ((Z.land attr ATTR_DIRECTORY ≠ 0) ↔ dir = true) then mret (Some (DelAt k))
      else mret (Some DelWrongKind).

(** Free the clusters, mark the entry, write the sector back. *)
Definition delete_at (buffer k sector_idx : Z) (done_msg : list Z) : M (Z + Z) :=
  let e := dirent buffer k in
  lba ← dir_sector_lba sector_idx;
  cluster ← ent_first_cluster_low e;
  fat_free_cluster_chain cluster;;
  store8 e 0xE5;;
  write_buf lba buffer;;
  kfree buffer;;
  kprint done_msg;;
  mret (inr 1).

Definition fat_delete_file_step (filename : list Z) (buffer sector_idx : Z) : M (Z + Z) :=
  dir ← fat_get_current_cluster;
  ok ← fat_read_dir_sector dir sector_idx buffer;
  if decide (ok = 0) then
    kfree buffer;;
    kprint (str "File not found." ++ newline);;
    mret (inr 0)
  else
    r ← for_loop 16 0 (delete_entry false filename buffer);
    match r with
    | Some DelWrongKind =>
        kprint (str "Error: Is a directory." ++ newline);;
        kfree buffer;;
        mret (inr 0)
    | Some (DelAt k) => delete_at buffer k sector_idx (str "File deleted." ++ newline)
    | _ => mret (inl (sector_idx + 1))
    end.

Definition fat_delete_file (filename : list Z) : M Z :=
  mounted ← gets (λ s, is_fat_initialized (fat s));
  if decide (mounted = 0) then mret 0
  else
    buffer ← kmalloc 512;
    while_loop (fat_delete_file_step filename buffer) 0.

Definition fat_delete_dir_step (dirname : list Z) (buffer sector_idx : Z) : M (Z + Z) :=
  dir ← fat_get_current_cluster;
  ok ← fat_read_dir_sector dir sector_idx buffer;
  if decide (ok = 0) then
    kfree buffer;;
    kprint (str "Directory not found." ++ newline);;
    mret (inr 0)
  else
    r ← for_loop 16 0 (delete_entry true dirname buffer);
    match r with
    | Some DelWrongKind =>
        kprint (str "Error: Not a directory." ++ newline);;
        kfree buffer;;
        mret (inr 0)
    | Some (DelAt k) =>
        cluster ← ent_first_cluster_low (dirent buffer k);
        empty ← fat_is_dir_empty cluster;
        if decide (empty = 0) then
          kprint (str "Error: Directory not empty." ++ newline);;
          kfree buffer;;
          mret (inr 0)
        else delete_at buffer k sector_idx (str "Directory deleted." ++ newline)
    | _ => mret (inl (sector_idx + 1))
    end.

Definition fat_delete_dir (dirname : list Z) : M Z :=
  mounted ← gets (λ s, is_fat_initialized (fat s));
  if decide (mounted = 0) then mret 0
  else
    buffer ← kmalloc 512;
    while_loop (fat_delete_dir_step dirname buffer) 0.
