(* ===== verification/FatTable.v ===== *)
(** The allocation table of the file system (src/fs/fat.c) as a map from clusters to
    entries: what [fat_next_cluster], [fat_write_fat_entry], [fat_allocate_cluster] and
    [fat_free_cluster_chain] do to it, through the drive and the heap's buffers. *)
From S2P Require Import Prelude Memory Hardware Machine Utils Screen Pmm Kheap Cpu Ata Buffers Fat.

(** ** Sectors in memory *)

Section sector_bytes.
Implicit Types (m : gmap Z Z).

Lemma bytes_put m p l : Forall (λ b, 0 ≤ b < 256) l → bytes (length l) (put_bytes p l m) p = l.
Proof.
  intros Hl. apply list_eq. intros i. destruct (decide (i < length l)%nat) as [Hi|Hi].
  - rewrite lookup_bytes by done. rewrite byte_put_in by lia.
    replace (Z.to_nat (p + Z.of_nat i - p)) with i by lia.
    destruct (lookup_lt_is_Some_2 l i Hi) as [b Hb]. rewrite Hb. cbn. f_equal.
    apply u8_small. by eapply (Forall_lookup_1 _ _ _ _ Hl).
  - rewrite !lookup_ge_None_2; [done|lia|rewrite length_bytes; lia].
Qed.

(** A little-endian word of a sector. *)
Definition word16 (sec : list Z) (off : nat) : Z :=
  default 0 (sec !! off) + 256 * default 0 (sec !! S off).
Definition upd16 (sec : list Z) (off : nat) (v : Z) : list Z :=
  <[S off := v / 256]> (<[off := v mod 256]> sec).

Lemma load16_bytes (k : nat) m p off : (S off < k)%nat →
  load 2 m (p + Z.of_nat off) = word16 (bytes k m p) off.
Proof.
  intros H. rewrite !load_S, load_0. unfold word16. rewrite !lookup_bytes by lia. cbn.
  replace (p + Z.of_nat off + 1) with (p + Z.of_nat (S off)) by lia. lia.
Qed.

Lemma bytes_store16 (k : nat) m p off v : (S off < k)%nat → 0 ≤ v < 65536 →
  bytes k (store 2 (p + Z.of_nat off) v m) p = upd16 (bytes k m p) off v.
Proof.
  intros Hoff Hv. unfold upd16. apply list_eq. intros i.
  destruct (decide (i < k)%nat) as [Hi|Hi].
  2:{ rewrite !lookup_ge_None_2; [done|rewrite !length_insert, length_bytes; lia|rewrite length_bytes; lia]. }
  rewrite lookup_bytes by done. rewrite !store_S. change (store 0 ?a ?x ?y) with y.
  rewrite !byte_at_insert.
  destruct (decide (i = S off)) as [->|H1]; [|destruct (decide (i = off)) as [->|H2]].
  - rewrite list_lookup_insert_eq by (rewrite length_insert, length_bytes; lia).
    rewrite decide_True by lia. f_equal. width. dlia.
  - rewrite list_lookup_insert_ne, list_lookup_insert_eq by (rewrite ?length_bytes; lia).
    rewrite decide_False, decide_True by lia. f_equal. width. dlia.
  - rewrite !list_lookup_insert_ne by lia. rewrite !decide_False by lia.
    by rewrite lookup_bytes by done.
Qed.

Lemma upd16_length sec off v : length (upd16 sec off v) = length sec.
Proof. unfold upd16. by rewrite !length_insert. Qed.

Lemma upd16_bytes sec off v : Forall (λ b, 0 ≤ b < 256) sec → 0 ≤ v < 65536 →
  Forall (λ b, 0 ≤ b < 256) (upd16 sec off v).
Proof. intros. unfold upd16. apply Forall_insert; [apply Forall_insert; [done|dlia]|dlia]. Qed.

Lemma word16_upd16 sec off off' v : (S off < length sec)%nat → (S off' < length sec)%nat →
  (off = off' ∨ S off < off' ∨ S off' < off)%nat →
  word16 (upd16 sec off v) off' = if decide (off = off') then v mod 256 + 256 * (v / 256) else word16 sec off'.
Proof.
  intros H1 H2 Hd. unfold word16, upd16. case_decide as E.
  - subst off'. rewrite list_lookup_insert_ne, list_lookup_insert_eq by lia.
    rewrite list_lookup_insert_eq by (rewrite length_insert; lia). done.
  - rewrite !list_lookup_insert_ne by lia. done.
Qed.

End sector_bytes.

(** ** The allocation table on the disk *)

(** Sector and offset of the entry of cluster [c]. *)
Definition fat_sec (f : fat_vars) (c : Z) : Z := u32 (fat_start_sector f + c * 2 / 512).
Definition fat_off (c : Z) : nat := Z.to_nat (c * 2 mod 512).

(** The entry of cluster [c]. *)
Definition fat_entry (d : ata_dev) (f : fat_vars) (c : Z) : Z := word16 (sector d (fat_sec f c)) (fat_off c).

(** The file system can work: room for [j] buffers in the heap, a drive that answers, and a
    table whose 256 sectors have 28-bit addresses.  [B] is the heap's list of blocks, [N]
    bounds the drive's delay; fuel above both is enough for every operation. *)
Record fs_ok (j : nat) (B : list blk) (N n : nat) (s : machine) : Prop := {
  fs_bufs : bufs j B n s;
  fs_ata : ata_ok N (ata s);
  fs_disk : disk_wf (ata s);
  fs_fuel : (N ≤ n)%nat ∧ Z.of_nat N ≤ drq_limit;
  fs_start : 0 ≤ fat_start_sector (fat s) < 2 ^ 28 - 256;
}.

Section fat_table.
Context (N n : nat).
Implicit Types (B : list blk) (s : machine) (d : ata_dev) (f : fat_vars) (j : nat).

Lemma fs_take_wp B j s (Q : Z → machine → Prop) :
  fs_ok (S j) B N n s →
  (∀ p B' s', malloc_list 512 B = Some (p, B') → fs_ok j B' N n s' → kept B s s' →
     ata s' = ata s → fat s' = fat s → Q p s') →
  wp (kmalloc 512) n s Q.
Proof.
  intros [H1 H2 H3 H4 H5] HQ. eapply take_buffer_wp; [done|]. intros p B' s' Hm Hb Hk Hfr.
  assert (ata s' = ata s ∧ fat s' = fat s) as [Ea Ef] by (by rewrite Hfr).
  apply (HQ _ B'); [done| |done..]. split; rewrite ?Ea, ?Ef; done.
Qed.

Lemma fs_return_wp B j B' s0 s p (Q : unit → machine → Prop) :
  fs_ok (S j) B N n s0 → malloc_list 512 B = Some (p, B') → fs_ok j B' N n s →
  (∀ s', fs_ok (S j) B N n s' → kept B s s' → ata s' = ata s → fat s' = fat s → Q tt s') →
  wp (kfree p) n s Q.
Proof.
  intros H0 Hm [H1 H2 H3 H4 H5] HQ. eapply return_buffer_wp; [exact (fs_bufs _ _ _ _ _ H0)|done..|].
  intros s' Hb Hk Hfr. assert (ata s' = ata s ∧ fat s' = fat s) as [Ea Ef] by (by rewrite Hfr).
  apply HQ; [|done..]. split; rewrite ?Ea, ?Ef; done.
Qed.

(** The client's memory but the buffer at [p] holds the same bytes, and the screen is the same. *)
Definition kept_but B p s s' : Prop :=
  cons s' = cons s ∧ ∀ x, client B x → ¬ (p ≤ x < p + 512) → byte_at (mem s') x = byte_at (mem s) x.

#[export] Instance kept_but_preorder B p : PreOrder (kept_but B p).
Proof.
  split; [by intros s|]. intros s s' s'' [E1 H1] [E2 H2]. split; [congruence|]. intros x Hx Hp. by rewrite H2, H1.
Qed.

Lemma kept_but_kept B p s s' : kept B s s' → kept_but B p s s'.
Proof. intros [E H]. split; [done|]. intros x Hx _. by apply H. Qed.

Lemma kept_out B s s' p : cons s' = cons s → agree_out (mem s) (mem s') p 512 → kept_but B p s s'.
Proof. intros E Hag. split; [done|]. intros x _ Hx. by apply Hag. Qed.

Lemma read_buf_wp B j s p lba (Q : unit → machine → Prop) :
  fs_ok j B N n s → owns B p → 0 ≤ lba < 2 ^ 28 →
  (∀ s', fs_ok j B N n s' → ata_disk (ata s') = ata_disk (ata s) → fat s' = fat s →
     kept_but B p s s' → bytes 512 (mem s') p = sector (ata s) lba → Q tt s') →
  wp (read_buf lba p) n s Q.
Proof.
  intros [H1 H2 H3 H4 H5] Hp Hlba HQ. unfold read_buf. wp_steps.
  apply (ata_read_sector_wp N); [done|done|lia|lia|done|rewrite length_bytes; lia|].
  intros s1 Ho Hok Hd. wp_steps. rewrite drop_ge, app_nil_r by (rewrite length_bytes; lia).
  destruct (H3 lba) as [Hlen Hby].
  assert (mem s1 = mem s ∧ pmm s1 = pmm s ∧ heap_head s1 = heap_head s ∧ fat s1 = fat s)
    as (Em & Ep & Eh & Ef) by (by rewrite Ho).
  assert (agree_out (mem s) (put_bytes p (sector (ata s) lba) (mem s1)) p 512) as Hag.
  { intros x Hx. rewrite byte_put_out by lia. by rewrite Em. }
  apply HQ; [|done..|apply kept_out; [by rewrite Ho|done]|].
  - split; cbn [ata fat set_mem]; [by eapply bufs_data|done| |done|by rewrite Ef].
    intros l. unfold sector. rewrite Hd. apply H3.
  - cbn [mem set_mem]. replace 512%nat with (length (sector (ata s) lba)). by apply bytes_put.
Qed.

Lemma write_buf_wp B j s p lba (Q : unit → machine → Prop) :
  fs_ok j B N n s → 0 ≤ lba < 2 ^ 28 →
  (∀ s', fs_ok j B N n s' → ata_disk (ata s') = <[lba := bytes 512 (mem s) p]> (ata_disk (ata s)) →
     fat s' = fat s → mem s' = mem s → cons s' = cons s → Q tt s') →
  wp (write_buf lba p) n s Q.
Proof.
  intros [H1 H2 H3 H4 H5] Hlba HQ. unfold write_buf. wp_steps.
  assert (Forall (λ b, 0 ≤ b < 256) (bytes 512 (mem s) p)) as Hby.
  { apply Forall_lookup. intros i b Hb. pose proof (lookup_lt_Some _ _ _ Hb) as Hi.
    rewrite length_bytes in Hi. rewrite lookup_bytes in Hb by done. injection Hb as <-.
    apply byte_at_range. }
  apply (ata_write_sector_wp N); [done|lia|lia|done|apply length_bytes|done|].
  intros s1 Ho Hok Hd.
  assert (mem s1 = mem s ∧ pmm s1 = pmm s ∧ heap_head s1 = heap_head s ∧ fat s1 = fat s)
    as (Em & Ep & Eh & Ef) by (by rewrite Ho).
  apply HQ; [|done..|by rewrite Ho]. split; [by eapply bufs_frame|done| |done|by rewrite Ef].
  intros l. unfold sector. rewrite Hd, lookup_insert. case_decide; [|apply H3].
  cbn. split; [apply length_bytes|done].
Qed.

Lemma kept_inner B B' j p s0 s s' : fs_ok (S j) B N n s0 → malloc_list 512 B = Some (p, B') →
  kept_but B' p s s' → kept B s s'.
Proof.
  intros H0 Hm [E Hk]. split; [done|]. intros x Hx. destruct (client_fresh _ _ _ _ _ _ _ (fs_bufs _ _ _ _ _ H0) Hm Hx). by apply Hk.
Qed.

(** Storing a word in a buffer. *)
Lemma fs_store16 B j s p off v : fs_ok j B N n s → owns B p → (S off < 512)%nat →
  let s' := set_mem (store 2 (p + Z.of_nat off) v (mem s)) s in
  fs_ok j B N n s' ∧ kept_but B p s s'.
Proof.
  intros [H1 H2 H3 H4 H5] Hp Ho s'.
  assert (agree_out (mem s) (mem s') p 512) as Hag by (intros x Hx; apply byte_store_out; lia).
  split; [split; try done; by eapply bufs_data|by apply kept_out].
Qed.

Lemma fat_sec_range f c : 0 ≤ fat_start_sector f < 2 ^ 28 - 256 → 0 ≤ c < 65536 →
  0 ≤ fat_sec f c < 2 ^ 28 ∧ (S (fat_off c) < 512)%nat ∧ c * 2 mod 512 = Z.of_nat (fat_off c) ∧
  fat_sec f c = fat_start_sector f + c * 2 / 512.
Proof.
  intros Hf Hc. unfold fat_sec, fat_off. rewrite u32_small by dlia. split_and!; dlia.
Qed.

Lemma fat_next_cluster_wp B j s c (Q : Z → machine → Prop) :
  fs_ok (S j) B N n s → 0 ≤ c < 65536 →
  (∀ s', fs_ok (S j) B N n s' → ata_disk (ata s') = ata_disk (ata s) → fat s' = fat s → kept B s s' →
     Q (fat_entry (ata s) (fat s) c) s') →
  wp (fat_next_cluster c) n s Q.
Proof.
  intros Hs Hc HQ. pose proof (fat_sec_range (fat s) c (fs_start _ _ _ _ _ Hs) Hc) as (Hr & Ho & Eo & _).
  unfold fat_next_cluster. wp_steps. apply (fs_take_wp B j s); [done|]. intros p B' s1 Hm S1 K1 A1 F1. wp_steps.
  apply (read_buf_wp B' j); [done|by eapply owns_new|done|]. intros s2 S2 D2 F2 K2%(kept_inner _ _ _ _ _ _ _ Hs Hm) Hb. wp_steps.
  rewrite Eo, (load16_bytes 512), Hb, A1 by done. wp_steps.
  apply (fs_return_wp B j B' s s2 p); [done..|]. intros s3 S3 K3 A3 F3. apply wp_ret, HQ; [done|..].
  - by rewrite A3, D2, A1.
  - by rewrite F3, F2, F1.
  - by rewrite K1, K2, K3.
Qed.

(** The disk after the entry of [c] was set. *)
Definition fat_set (d : ata_dev) f (c v : Z) : gmap Z (list Z) :=
  <[fat_sec f c := upd16 (sector d (fat_sec f c)) (fat_off c) v]> (ata_disk d).

Lemma fat_write_fat_entry_wp B j s c v (Q : unit → machine → Prop) :
  fs_ok (S j) B N n s → 0 ≤ c < 65536 → 0 ≤ v < 65536 →
  (∀ s', fs_ok (S j) B N n s' → ata_disk (ata s') = fat_set (ata s) (fat s) c v → fat s' = fat s →
     kept B s s' → Q tt s') →
  wp (fat_write_fat_entry c v) n s Q.
Proof.
  intros Hs Hc Hv HQ. pose proof (fat_sec_range (fat s) c (fs_start _ _ _ _ _ Hs) Hc) as (Hr & Ho & Eo & _).
  unfold fat_write_fat_entry. wp_steps. apply (fs_take_wp B j s); [done|]. intros p B' s1 Hm S1 K1 A1 F1. wp_steps.
  apply (read_buf_wp B' j); [done|by eapply owns_new|done|]. intros s2 S2 D2 F2 K2%(kept_inner _ _ _ _ _ _ _ Hs Hm) Hb. wp_steps. rewrite Eo.
  destruct (fs_store16 B' j s2 p _ v S2 (owns_new _ _ _ Hm) Ho) as [S3 K3%(kept_inner _ _ _ _ _ _ _ Hs Hm)].
  match goal with |- wp _ _ ?x _ => set (s3 := x) in * end.
  apply (write_buf_wp B' j); [done..|]. intros s4 S4 D4 F4 M4 C4.
  apply (fs_return_wp B j B' s s4 p); [done..|]. intros s5 S5 K5 A5 F5. apply HQ; [done|..].
  - rewrite A5, D4. unfold s3. cbn [mem set_mem ata]. rewrite bytes_store16, Hb by done.
    rewrite D2, A1. done.
  - rewrite F5, F4. change (fat s3) with (fat s2). by rewrite F2, F1.
  - rewrite K1, K2, K3. etrans; [|exact K5]. split; [done|]. intros q _. by rewrite M4.
Qed.

(** Setting one entry changes that entry alone. *)
Lemma fat_entry_set d d' f c c' v : 0 ≤ fat_start_sector f < 2 ^ 28 - 256 → disk_wf d →
  0 ≤ c < 65536 → 0 ≤ c' < 65536 → 0 ≤ v < 65536 → ata_disk d' = fat_set d f c v →
  fat_entry d' f c' = if decide (c' = c) then v else fat_entry d f c'.
Proof.
  intros Hf Hd Hc Hc' Hv E.
  destruct (fat_sec_range f c Hf Hc) as (_ & Ho & Eo & Es).
  destruct (fat_sec_range f c' Hf Hc') as (_ & Ho' & Eo' & Es').
  unfold fat_entry. assert (sector d' (fat_sec f c') = if decide (fat_sec f c = fat_sec f c')
    then upd16 (sector d (fat_sec f c)) (fat_off c) v else sector d (fat_sec f c')) as ->.
  { unfold sector at 1. rewrite E. unfold fat_set. rewrite lookup_insert. by case_decide. }
  destruct (Hd (fat_sec f c)) as [Hlen _].
  destruct (decide (c' = c)) as [->|Hne].
  - rewrite decide_True by done. rewrite word16_upd16 by (rewrite ?Hlen; lia).
    rewrite decide_True by done. dlia.
  - destruct (decide (fat_sec f c = fat_sec f c')) as [Esec|]; [|done].
    rewrite word16_upd16 by (rewrite ?Hlen; unfold fat_off in *; dlia).
    rewrite decide_False by (unfold fat_off in *; dlia). by rewrite Esec.
Qed.

(** The table is read from the disk alone. *)
Lemma fat_entry_disk d d' f c : ata_disk d = ata_disk d' → fat_entry d f c = fat_entry d' f c.
Proof. intros E. unfold fat_entry, sector. by rewrite E. Qed.

End fat_table.

(** ** Cluster chains *)

(** The clusters [cs] from [c] on: each entry is the next cluster, the last one an end mark. *)
Fixpoint chain (d : ata_dev) (f : fat_vars) (c : Z) (cs : list Z) : Prop :=
  match cs with
  | [] => 0xFFF8 ≤ c
  | x :: r => c = x ∧ 0 ≤ x < 0xFFF8 ∧ chain d f (fat_entry d f x) r
  end.

Lemma free_chain_wp B j N n s c cs (Q : unit → machine → Prop) :
  fs_ok (S j) B N n s → 2 ≤ c → chain (ata s) (fat s) c cs → NoDup cs → (length cs < n)%nat →
  (∀ s', fs_ok (S j) B N n s' → fat s' = fat s → kept B s s' →
     (∀ x, 0 ≤ x < 65536 → fat_entry (ata s') (fat s) x
        = if decide (x ∈ cs) then 0 else fat_entry (ata s) (fat s) x) → Q tt s') →
  wp (fat_free_cluster_chain c) n s Q.
Proof.
  intros Hs Hc Hch Hnd Hn HQ. unfold fat_free_cluster_chain. rewrite decide_False by lia.
  apply (wp_while_idx (λ k curr s', fs_ok (S j) B N n s' ∧ fat s' = fat s ∧ kept B s s' ∧
    ∃ dn rest, cs = dn ++ rest ∧ k = length rest ∧ chain (ata s) (fat s) curr rest ∧
    ∀ x, 0 ≤ x < 65536 → fat_entry (ata s') (fat s) x
      = if decide (x ∈ dn) then 0 else fat_entry (ata s) (fat s) x) _ _ (length cs)); [|done|].
  { split; [done|]. split; [done|]. split; [done|]. exists [], cs. split_and!; try done. }
  intros k curr s1 (S1 & F1 & K1 & dn & rest & -> & -> & Hrest & He). unfold free_chain_step.
  destruct rest as [|x rest]; simpl in Hrest.
  - rewrite decide_False by lia. apply wp_ret. rewrite app_nil_r in HQ. by apply HQ.
  - destruct Hrest as (-> & Hx & Hrest). rewrite decide_True by lia.
    apply NoDup_app in Hnd as (_ & Hdis & Hnd2). apply NoDup_cons in Hnd2 as [Hxr _].
    assert (x ∉ dn) as Hxd by (intros Hin; apply (Hdis x Hin); set_solver).
    apply wp_bind, (fat_next_cluster_wp N n B j); [done|lia|]. intros s2 S2 D2 F2 K2.
    apply wp_bind, (fat_write_fat_entry_wp N n B j); [done|lia|lia|]. intros s3 S3 D3 F3 K3. apply wp_ret.
    exists (length rest). split; [simpl; lia|]. split; [done|]. split; [by rewrite F3, F2|].
    split; [by rewrite K1, K2, K3|].
    exists (dn ++ [x]), rest. rewrite <- app_assoc. split_and!; [done|done| |].
    + rewrite F1, He by lia. by rewrite decide_False.
    + intros y Hy. rewrite F2, F1 in D3.
      rewrite (fat_entry_set (ata s2) _ _ x y 0 (eq_ind _ (λ f, 0 ≤ fat_start_sector f < _) (fs_start _ _ _ _ _ S1) _ F1)
        (fs_disk _ _ _ _ _ S2)) by (done || lia).
      rewrite (fat_entry_disk (ata s2) (ata s1)) by done.
      destruct (decide (y = x)) as [->|Hne].
      * by rewrite decide_True by set_solver.
      * rewrite He by done. by repeat case_decide; set_solver.
Qed.

(** ** Allocation *)

(** The clusters of the table; 256 entries to a sector. *)
Definition in_table (f : fat_vars) (c : Z) : Prop := 2 ≤ c < 256 * fat_size_16 (fat_info f).

Definition scanned d f (c : Z) : Prop := ∀ x, 2 ≤ x < c → fat_entry d f x ≠ 0.

(** Entry [k] of sector [i] of the table, in a buffer that holds the sector. *)
Lemma table_word d f m p i k : 0 ≤ fat_start_sector f < 2 ^ 28 - 256 → 0 ≤ i < 256 → 0 ≤ k < 256 →
  bytes 512 m p = sector d (u32 (fat_start_sector f + i)) →
  load 2 m (p + k * 2) = fat_entry d f (i * 256 + k).
Proof.
  intros Hf Hi Hk Hb. replace (p + k * 2) with (p + Z.of_nat (Z.to_nat (k * 2))) by lia.
  rewrite (load16_bytes 512), Hb by lia. unfold fat_entry, fat_sec, fat_off. f_equal; [do 3 f_equal|f_equal]; dlia.
Qed.

Lemma allocate_wp B j N n s (Q : Z → machine → Prop) :
  fs_ok (S (S j)) B N n s → 0 ≤ fat_size_16 (fat_info (fat s)) ≤ 256 →
  (∀ c s', fs_ok (S (S j)) B N n s' → fat s' = fat s → kept B s s' → in_table (fat s) c →
     fat_entry (ata s) (fat s) c = 0 → scanned (ata s) (fat s) c →
     ata_disk (ata s') = fat_set (ata s) (fat s) c 0xFFFF → Q c s') →
  (∀ s', fs_ok (S (S j)) B N n s' → fat s' = fat s → kept B s s' →
     scanned (ata s) (fat s) (256 * fat_size_16 (fat_info (fat s))) →
     ata_disk (ata s') = ata_disk (ata s) → Q 0 s') →
  wp fat_allocate_cluster n s Q.
Proof.
  intros Hs Hsz Hok Hno. unfold fat_allocate_cluster. apply wp_bind.
  apply (fs_take_wp N n B (S j) s); [done|]. intros p B' s1 Hm S1 K1 A1 F1. wp_steps. rewrite F1.
  pose proof (fs_start _ _ _ _ _ Hs) as Hst.
  set (same s2 := fs_ok (S j) B' N n s2 ∧ ata_disk (ata s2) = ata_disk (ata s) ∧ fat s2 = fat s ∧ kept B s s2).
  apply (wp_for (λ i s2, same s2 ∧ scanned (ata s) (fat s) (i * 256))).
  { split; [split_and!; [done|by rewrite A1|done|done]|]. intros x Hx. lia. }
  2:{ intros s2 [(S2 & D2 & F2 & K2) Hsc]. apply wp_bind. apply (fs_return_wp N n B (S j) B' s s2 p); [done..|].
      intros s3 S3 K3 A3 F3. apply wp_ret, Hno; [done|by rewrite F3|by rewrite K2| |by rewrite A3].
      intros x Hx. apply Hsc. lia. }
  intros i s2 Hi [(S2 & D2 & F2 & K2) Hsc]. apply wp_bind.
  apply (read_buf_wp N n B' (S j)); [done|by eapply owns_new|rewrite u32_small; lia|].
  intros s3 S3 D3 F3 K3%(kept_inner _ _ _ _ _ _ _ _ _ Hs Hm) Hb.
  assert (same s3) as Hsame3 by (split_and!; [done|by rewrite D3|by rewrite F3|by rewrite K2]).
  apply (wp_for (λ k s4, s4 = s3 ∧ scanned (ata s) (fat s) (i * 256 + k))).
  { split; [done|]. by rewrite Z.add_0_r. }
  2:{ intros s4 [-> Hsc']. split; [done|]. by replace ((i + 1) * 256) with (i * 256 + (0 + Z.of_nat 256)) by lia. }
  intros k s4 Hk [-> Hsc']. rewrite (u16_small (i * 256 + k)) by lia.
  case_decide as Hlt.
  { apply wp_ret. split; [done|]. intros x Hx. lia. }
  wp_steps. rewrite (table_word (ata s2) (fat s) _ p i k) by (done || lia).
  rewrite (fat_entry_disk (ata s2) (ata s)) by done.
  destruct (decide (fat_entry (ata s) (fat s) (i * 256 + k) = 0)) as [Hz|Hz].
  2:{ apply wp_ret. split; [done|]. intros x Hx. destruct (decide (x = i * 256 + k)) as [->|]; [done|]. apply Hsc'. lia. }
  apply wp_bind, (fat_write_fat_entry_wp N n B' j); [done|lia|lia|]. intros s4 S4 D4 F4 K4.
  apply wp_bind, (fs_return_wp N n B (S j) B' s s4 p); [done..|]. intros s5 S5 K5 A5 F5.
  destruct Hsame3 as (_ & D3' & F3' & K3'). apply wp_ret, wp_ret, Hok; try done.
  - by rewrite F5, F4.
  - rewrite K3'. etrans; [|exact K5]. by apply (kept_inner N n _ _ _ _ _ _ _ Hs Hm), kept_but_kept.
  - unfold in_table. lia.
  - rewrite A5, D4, F3'. unfold fat_set, sector. by rewrite D3'.
Qed.

(** ** A disk to evaluate on *)

(** An empty table at sector 1 with the chain 2, 3, end, and a heap of one page. *)
Definition fat_demo : machine :=
  set_fat (mkFat (mkBpb (replicate 8 32) 512 1 1 1 16 0 0xF8 1 0 0 0 0) 1 2 3 0
             (47 :: replicate 255 0) 1)
    (set_ata (mkAta (<[1 := [0xF8; 0xFF; 0xFF; 0xFF; 3; 0; 0xFF; 0xFF] ++ replicate 504 0]> ∅)
                0 0 0 0 0 false 0 AtaIdle []) heap_demo).

Lemma set_fat_ata_heap f d s bs hi : heap_inv s bs hi → heap_inv (set_fat f (set_ata d s)) bs hi.
Proof. by apply heap_inv_frame. Qed.

Lemma fat_demo_ok : fs_ok 3 [mkBlk 0x2000000 4072 true] 1 5 fat_demo.
Proof.
  split.
  - split; [|done| |simpl; lia].
    + exists 0x2001000. by apply set_fat_ata_heap, heap_demo_inv.
    + do 3 (eexists _, _; split; [done|]). done.
  - split; [cbn; lia|done|constructor].
  - intros lba. unfold sector. cbn [ata fat_demo set_fat set_ata ata_disk].
    rewrite lookup_insert, lookup_empty. case_decide; cbn [default].
    + split; [reflexivity|]. apply Forall_app. split; [repeat constructor; lia|by apply Forall_replicate].
    + split; [apply length_replicate|by apply Forall_replicate].
  - split; [lia|by vm_compute].
  - cbn. lia.
Qed.

(** ** Properties *)

(** C16. The table is a map: after [fat_write_fat_entry] stored [v] for cluster [c],
    [fat_next_cluster] reads [v] for [c] and the former entry for every other cluster. *)
Theorem fat_entry_write_read B j N n s c v x :
  fs_ok (S j) B N n s → 0 ≤ c < 65536 → 0 ≤ v < 65536 → 0 ≤ x < 65536 →
  wp (fat_write_fat_entry c v;; fat_next_cluster x) n s (λ r s',
    r = (if decide (x = c) then v else fat_entry (ata s) (fat s) x) ∧ fs_ok (S j) B N n s').
Proof.
  intros Hs Hc Hv Hx. apply wp_bind, (fat_write_fat_entry_wp N n B j); [done..|]. intros s1 S1 D1 F1 _.
  apply (fat_next_cluster_wp N n B j); [done..|]. intros s2 S2 _ _ _. split; [|done]. rewrite F1.
  eapply fat_entry_set; [exact (fs_start _ _ _ _ _ Hs)|exact (fs_disk _ _ _ _ _ Hs)|done..].
Qed.

Lemma fat_entry_write_read_witness :
  wp (fat_write_fat_entry 7 9;; fat_next_cluster 7) 5 fat_demo (λ r s',
    r = (if decide (7 = 7) then 9 else fat_entry (ata fat_demo) (fat fat_demo) 7) ∧
    fs_ok 3 [mkBlk 0x2000000 4072 true] 1 5 s').
Proof. apply (fat_entry_write_read _ 2 1 5 fat_demo 7 9 7 fat_demo_ok); lia. Defined.

(** C10. [fat_free_cluster_chain] ends on every chain without repetition and clears the
    entries of the chain's clusters and no other entry. *)
Theorem fat_free_chain_exact B j N n s c cs :
  fs_ok (S j) B N n s → 2 ≤ c → chain (ata s) (fat s) c cs → NoDup cs → (length cs < n)%nat →
  wp (fat_free_cluster_chain c) n s (λ _ s', fs_ok (S j) B N n s' ∧
    ∀ x, 0 ≤ x < 65536 → fat_entry (ata s') (fat s) x
      = if decide (x ∈ cs) then 0 else fat_entry (ata s) (fat s) x).
Proof. intros. by eapply free_chain_wp. Qed.

Lemma fat_free_chain_exact_witness :
  chain (ata fat_demo) (fat fat_demo) 2 [2; 3] ∧
  wp (fat_free_cluster_chain 2) 5 fat_demo (λ _ s', fs_ok 3 [mkBlk 0x2000000 4072 true] 1 5 s' ∧
    ∀ x, 0 ≤ x < 65536 → fat_entry (ata s') (fat fat_demo) x
      = if decide (x ∈ [2; 3]) then 0 else fat_entry (ata fat_demo) (fat fat_demo) x).
Proof.
  assert (chain (ata fat_demo) (fat fat_demo) 2 [2; 3]) as H.
  { assert (fat_entry (ata fat_demo) (fat fat_demo) 2 = 3) as E2 by (vm_compute; reflexivity).
    assert (fat_entry (ata fat_demo) (fat fat_demo) 3 = 0xFFFF) as E3 by (vm_compute; reflexivity).
    cbn [chain]. rewrite E2, E3. lia. }
  split; [exact H|].
  apply (fat_free_chain_exact _ 2 1 5 fat_demo 2 [2; 3] fat_demo_ok); [lia|exact H| |simpl; lia].
  by apply (bool_decide_unpack _); vm_compute.
Defined.

(** C17. [fat_allocate_cluster] returns the first free cluster of the table and marks it as
    the end of a chain, changing nothing else; it returns 0, and leaves the disk as it was,
    exactly when no cluster is free. *)
Theorem fat_allocate_first_free B j N n s :
  fs_ok (S (S j)) B N n s → 0 ≤ fat_size_16 (fat_info (fat s)) ≤ 256 →
  wp fat_allocate_cluster n s (λ c s', fs_ok (S (S j)) B N n s' ∧
    if decide (c = 0) then
      (∀ x, in_table (fat s) x → fat_entry (ata s) (fat s) x ≠ 0) ∧ ata_disk (ata s') = ata_disk (ata s)
    else
      in_table (fat s) c ∧ fat_entry (ata s) (fat s) c = 0 ∧ scanned (ata s) (fat s) c ∧
      ∀ x, 0 ≤ x < 65536 → fat_entry (ata s') (fat s) x
        = if decide (x = c) then 0xFFFF else fat_entry (ata s) (fat s) x).
Proof.
  intros Hs Hsz. apply (allocate_wp B j N n s); [done..| |].
  - intros c s' S' F' _ Hc Hz Hsc HD. split; [done|].
    rewrite decide_False by (unfold in_table in Hc; lia). split_and!; try done.
    intros x Hx. unfold in_table in Hc. eapply fat_entry_set;
      [exact (fs_start _ _ _ _ _ Hs)|exact (fs_disk _ _ _ _ _ Hs)|lia|done|lia|done].
  - intros s' S' F' _ Hsc HD. split; [done|]. by rewrite decide_True.
Qed.

Lemma fat_allocate_first_free_witness :
  wp fat_allocate_cluster 5 fat_demo (λ c s', fs_ok 3 [mkBlk 0x2000000 4072 true] 1 5 s' ∧
    if decide (c = 0) then
      (∀ x, in_table (fat fat_demo) x → fat_entry (ata fat_demo) (fat fat_demo) x ≠ 0) ∧
      ata_disk (ata s') = ata_disk (ata fat_demo)
    else
      in_table (fat fat_demo) c ∧ fat_entry (ata fat_demo) (fat fat_demo) c = 0 ∧
      scanned (ata fat_demo) (fat fat_demo) c ∧
      ∀ x, 0 ≤ x < 65536 → fat_entry (ata s') (fat fat_demo) x
        = if decide (x = c) then 0xFFFF else fat_entry (ata fat_demo) (fat fat_demo) x).
Proof. apply (fat_allocate_first_free _ 1 1 5 fat_demo fat_demo_ok). vm_compute. split; discriminate. Defined.
