(* ===== verification/FatNames.v ===== *)
(** Names and paths of the file system (src/fs/fat.c): [fat_filename_match] decides whether
    a name on the disk is the one typed, [to_83] (the name loops of [fat_create_entry]) makes
    the name on the disk, [update_path] keeps the path of the shell's prompt. *)
From S2P Require Import Prelude Memory Hardware Machine Utils Screen Pmm Kheap Cpu Ata Buffers Fat.

(** ** Names *)

(** The name a directory entry stands for: the characters before the padding, and the
    extension behind a dot. *)
Definition shown (name ext : list Z) : list Z :=
  word name ++ (if decide (ext !! 0%nat = Some 32) then [] else 46 :: word ext).

(** The characters of a file name's parts: no space and no dot. *)
Definition is_part (t : list Z) : Prop := Forall (λ c, 0 < c < 256 ∧ c ≠ 32 ∧ c ≠ 46) t.

(** A concrete list of characters satisfies a character class. *)
Ltac chars := unfold is_text, is_part; apply (bool_decide_unpack _); vm_compute.

Section names.
Implicit Types (name ext input : list Z).

Lemma copy_part_spec src b w0 : is_text src → (length w0 ≤ length b)%nat →
  copy_part src (overlay b 0 w0) (Z.of_nat (length w0)) =
  if decide (length (w0 ++ word src) ≤ length b)%nat
  then Some (overlay b 0 (w0 ++ word src), Z.of_nat (length (w0 ++ word src))) else None.
Proof.
  intros Hs. induction Hs as [|c src Hc Hs IH] in w0 |- *; intros Hw; cbn [copy_part word].
  - rewrite app_nil_r. by rewrite decide_True.
  - destruct (decide (c = 32)); [rewrite app_nil_r; by rewrite decide_True|].
    destruct (decide (length w0 < length b)%nat) as [Hl|Hl].
    + rewrite arr_set_overlay by done. rewrite u8_small by lia. cbn [mbind option_bind].
      specialize (IH (w0 ++ [c])). rewrite <- app_assoc in IH. cbn [app] in IH.
      rewrite length_app in IH at 1 2. cbn [length] in IH.
      replace (Z.of_nat (length w0) + 1) with (Z.of_nat (length w0 + 1)) by lia. apply IH. lia.
    + rewrite arr_set_None by (rewrite overlay_length by (simpl; lia); lia). cbn [mbind option_bind].
      rewrite decide_False; [done|]. rewrite length_app. simpl. lia.
Qed.

Lemma match_names_spec t pad input tl : is_text t → is_text input →
  match_names (t ++ 0 :: pad) (input ++ 0 :: tl)
  = Some (if decide (to_upper <$> t = to_upper <$> input) then 1 else 0).
Proof.
  intros Ht. induction Ht as [|c t Hc Ht IH] in input |- *; intros Hi.
  - destruct Hi as [|d input Hd Hi]; cbn; [done|].
    rewrite decide_True by lia. by rewrite decide_False by lia.
  - destruct Hi as [|d input Hd Hi]; cbn [app match_names].
    { rewrite decide_True by lia. by rewrite decide_False by lia. }
    rewrite decide_False by lia. destruct (decide (to_upper c = to_upper d)) as [E|E].
    + rewrite IH by done. f_equal. cbn [fmap list_fmap]. rewrite E.
      repeat case_decide; congruence.
    + rewrite decide_False by (cbn; congruence). done.
Qed.

Lemma word_text t : is_text t → is_text (word t).
Proof. intros H. induction H as [|c t Hc H IH]; cbn; [constructor|]. case_decide; by constructor. Qed.

Lemma filename_match_eq name ext input tl :
  is_text name → is_text ext → (0 < length ext)%nat → is_text input → (length (word name) ≤ 12)%nat →
  fat_filename_match name ext (input ++ 0 :: tl) =
  if decide (length (shown name ext) < 12)%nat
  then Some (if decide (to_upper <$> shown name ext = to_upper <$> input) then 1 else 0)
  else None.
Proof.
  intros Hn He Hel Hi Hw. unfold fat_filename_match.
  pose proof (copy_part_spec name (replicate 12 0) [] Hn ltac:(simpl; lia)) as Hc.
  cbn [app] in Hc. rewrite overlay_nil in Hc. change (Z.of_nat (length [])) with 0 in Hc.
  rewrite length_replicate in Hc. rewrite Hc. rewrite decide_True by done. cbn [mbind option_bind].
  destruct ext as [|e0 ext]; [simpl in Hel; lia|]. cbn [arr_get decide]. change (arr_get (e0 :: ext) 0) with (Some e0).
  cbn [mbind option_bind]. unfold shown. change ((e0 :: ext) !! 0%nat) with (Some e0).
  assert (is_text (shown name (e0 :: ext))) as Hsh.
  { unfold shown. apply Forall_app. split; [by apply word_text|].
    destruct (decide ((e0 :: ext) !! 0%nat = Some 32)); [constructor|].
    constructor; [lia|by apply word_text]. }
  unfold shown in Hsh. change ((e0 :: ext) !! 0%nat) with (Some e0) in Hsh.
  assert (∀ w, is_text w → (length w ≤ 12)%nat →
    (temp ← arr_set (overlay (replicate 12 0) 0 w) (Z.of_nat (length w)) 0; match_names temp (input ++ 0 :: tl))
    = if decide (length w < 12)%nat
      then Some (if decide (to_upper <$> w = to_upper <$> input) then 1 else 0) else None) as Hend.
  { intros w Hwt Hwl. destruct (decide (length w < 12)%nat).
    - rewrite arr_set_overlay by (rewrite length_replicate; lia). cbn [mbind option_bind].
      unfold overlay. cbn [take app]. rewrite <- app_assoc. cbn [app]. by apply match_names_spec.
    - rewrite arr_set_None; [done|]. rewrite overlay_length; rewrite length_replicate; lia. }
  destruct (decide (e0 = 32)) as [->|Hne].
  - rewrite (decide_True (P := Some 32 = Some 32)) in Hsh |- * by done. rewrite app_nil_r in *.
    cbn [mbind option_bind]. by apply Hend.
  - rewrite (decide_False (P := Some e0 = Some 32)) in Hsh |- * by congruence.
    destruct (decide (length (word name) < 12)%nat) as [Hl|Hl].
    + rewrite arr_set_overlay by (rewrite length_replicate; lia). cbn [mbind option_bind].
      change (u8 46) with 46.
      pose proof (copy_part_spec (e0 :: ext) (replicate 12 0) (word name ++ [46]) He) as Hc2.
      rewrite length_app in Hc2 at 1 2. cbn [length] in Hc2. rewrite length_replicate in Hc2.
      replace (Z.of_nat (length (word name)) + 1) with (Z.of_nat (length (word name) + 1)) by lia.
      rewrite Hc2 by lia. rewrite <- !app_assoc. cbn [app].
      destruct (decide (length (word name ++ 46%Z :: word (e0 :: ext)) ≤ 12)%nat) as [Hle|Hle].
      * cbn [mbind option_bind]. by apply Hend.
      * cbn [mbind option_bind]. by rewrite decide_False by lia.
    + rewrite arr_set_None; [|rewrite overlay_length; rewrite length_replicate; lia].
      cbn [mbind option_bind]. rewrite decide_False; [done|]. rewrite length_app. lia.
Qed.

(** *** The 8.3 name of a typed name *)

(** [base.e], or [base] alone when there is no extension. *)
Definition typed (base e : list Z) : list Z := base ++ match e with [] => [] | _ => 46 :: e end.

Definition pad (k : nat) (t : list Z) : list Z := (to_upper <$> t) ++ replicate (k - length t) 32.

Lemma to_upper_char c : 0 < c < 256 → c ≠ 32 → 0 < to_upper c < 256 ∧ to_upper c ≠ 32.
Proof. intros. unfold to_upper. case_decide; lia. Qed.

Lemma to_upper_idem c : to_upper (to_upper c) = to_upper c.
Proof. unfold to_upper. repeat case_decide; lia. Qed.

Lemma is_part_text t : is_part t → is_text t.
Proof. intros H. eapply Forall_impl; [exact H|]. by intros x (? & _). Qed.

Lemma pad_text k t : is_part t → is_text (pad k t).
Proof.
  intros H. apply Forall_app. split; [|apply Forall_replicate; lia].
  apply Forall_fmap. eapply Forall_impl; [exact H|]. intros x (? & ? & _). by apply to_upper_char.
Qed.

Lemma word_pad k t : is_part t → word (pad k t) = to_upper <$> t.
Proof.
  intros H. unfold pad. induction H as [|c t (Hc & Hs & _) H IH] in k |- *; cbn [fmap list_fmap app word].
  - cbn [length]. destruct (k - 0)%nat; done.
  - destruct (to_upper_char c Hc Hs) as [_ Hne]. rewrite decide_False by done. f_equal.
    specialize (IH (pred k)). cbn [length]. by replace (k - S (length t))%nat with (pred k - length t)%nat by lia.
Qed.

Lemma parse_name_part base rest b (w : list Z) : is_part base →
  (match rest with [] => False | c :: _ => c = 0 ∨ c = 46 end) →
  length b = 8%nat → (length w + length base ≤ 8)%nat →
  parse_name (base ++ rest) (overlay b 0 w) (Z.of_nat (length w))
  = Some (overlay b 0 (w ++ (to_upper <$> base)), rest).
Proof.
  intros Hp Hr Hb. induction Hp as [|c base (Hc & Hs & Hd) Hp IH] in w |- *; intros Hl.
  - cbn [app fmap list_fmap]. rewrite app_nil_r. destruct rest as [|c rest]; [done|]. cbn [parse_name].
    rewrite decide_False by lia. done.
  - cbn [app parse_name fmap list_fmap]. cbn [length] in Hl. rewrite decide_True by lia.
    rewrite arr_set_overlay by lia. rewrite u8_small by (pose proof (to_upper_char c Hc Hs); lia).
    cbn [mbind option_bind]. specialize (IH (w ++ [to_upper c])).
    rewrite length_app in IH. cbn [length] in IH. rewrite <- app_assoc in IH.
    replace (Z.of_nat (length w) + 1) with (Z.of_nat (length w + 1)) by lia. apply IH. lia.
Qed.

Lemma parse_ext_part e tl b (w : list Z) : is_part e →
  length b = 3%nat → (length w + length e ≤ 3)%nat →
  parse_ext (e ++ 0 :: tl) (overlay b 0 w) (Z.of_nat (length w)) = Some (overlay b 0 (w ++ (to_upper <$> e))).
Proof.
  intros Hp Hb. induction Hp as [|c e (Hc & Hs & Hd) Hp IH] in w |- *; intros Hl.
  - cbn [app fmap list_fmap parse_ext]. rewrite app_nil_r. rewrite decide_False by lia. done.
  - cbn [app parse_ext fmap list_fmap]. cbn [length] in Hl. rewrite decide_True by lia.
    rewrite arr_set_overlay by lia. rewrite u8_small by (pose proof (to_upper_char c Hc Hs); lia).
    cbn [mbind option_bind]. specialize (IH (w ++ [to_upper c])).
    rewrite length_app in IH. cbn [length] in IH. rewrite <- app_assoc in IH.
    replace (Z.of_nat (length w) + 1) with (Z.of_nat (length w + 1)) by lia. apply IH. lia.
Qed.

Lemma overlay_pad k t : (length t ≤ k)%nat → overlay (replicate k 32) 0 (to_upper <$> t) = pad k t.
Proof.
  intros H. unfold overlay, pad. cbn [take app]. rewrite length_fmap, drop_replicate.
  done.
Qed.

Lemma to_83_typed base e tl : is_part base → is_part e → (length base ≤ 8)%nat → (length e ≤ 3)%nat →
  to_83 (typed base e ++ 0 :: tl) = Some (pad 8 base, pad 3 e).
Proof.
  intros Hb He Hlb Hle. unfold to_83, typed. rewrite <- app_assoc.
  pose proof (λ rest H, parse_name_part base rest (replicate 8 32) [] Hb H eq_refl ltac:(simpl; lia)) as Hp.
  rewrite overlay_nil in Hp. cbn [app] in Hp. change (Z.of_nat (length [])) with 0 in Hp.
  rewrite Hp by (destruct e; simpl; auto). cbn [mbind option_bind].
  rewrite overlay_pad by done. destruct e as [|c e].
  - cbn [app skip_to_ext]. rewrite decide_False by lia. done.
  - cbn [app skip_to_ext]. rewrite decide_False by lia. cbn [mbind option_bind].
    pose proof (parse_ext_part (c :: e) tl (replicate 3 32) [] He eq_refl Hle) as Hx.
    rewrite overlay_nil in Hx. cbn [app] in Hx. change (Z.of_nat (length [])) with 0 in Hx.
    rewrite Hx. cbn [mbind option_bind]. by rewrite overlay_pad.
Qed.

Lemma shown_pad base e : is_part base → is_part e → (length e ≤ 3)%nat →
  shown (pad 8 base) (pad 3 e) = to_upper <$> typed base e.
Proof.
  intros Hb He Hle. unfold shown, typed. rewrite !word_pad by done. rewrite fmap_app.
  destruct He as [|c e (Hc & Hs & Hd) He]; [done|].
  destruct (to_upper_char c Hc Hs) as [_ Hne]. by rewrite decide_False by (cbn; congruence).
Qed.

Lemma shown_length name ext : length name = 8%nat → length ext = 3%nat →
  (12 ≤ length (shown name ext))%nat ↔ length (word name) = 8%nat ∧ length (word ext) = 3%nat.
Proof.
  intros Hn He. pose proof (word_length name). pose proof (word_length ext).
  unfold shown. rewrite length_app. destruct ext as [|e0 ext]; [done|].
  change ((e0 :: ext) !! 0%nat) with (Some e0).
  destruct (decide (e0 = 32)) as [->|Hne].
  - rewrite decide_True by done. cbn [word length]. rewrite decide_True by done. cbn [length]. lia.
  - rewrite decide_False by congruence. cbn [length]. lia.
Qed.

Lemma filename_match_83 name ext input tl :
  is_text name → is_text ext → length name = 8%nat → length ext = 3%nat → is_text input →
  fat_filename_match name ext (input ++ 0 :: tl) =
  if decide (length (word name) = 8%nat ∧ length (word ext) = 3%nat) then None
  else Some (if decide (to_upper <$> shown name ext = to_upper <$> input) then 1 else 0).
Proof.
  intros Hn He Ln Le Hi. pose proof (word_length name). pose proof (shown_length name ext Ln Le) as Hs.
  rewrite filename_match_eq by (done || lia).
  destruct (decide (length (word name) = 8%nat ∧ length (word ext) = 3%nat)) as [Hd|Hd].
  - rewrite decide_False by (apply Hs in Hd; lia). done.
  - rewrite decide_True; [done|]. destruct (decide (12 ≤ length (shown name ext))%nat) as [Hg|]; [|lia].
    by apply Hs in Hg.
Qed.

Lemma pad_length k t : (length t ≤ k)%nat → length (pad k t) = k.
Proof. intros. unfold pad. rewrite length_app, length_fmap, length_replicate. lia. Qed.

Lemma typed_text base e : is_part base → is_part e → is_text (typed base e).
Proof.
  intros Hb He. apply Forall_app. split; [by apply is_part_text|].
  destruct e; [constructor|]. constructor; [lia|]. by apply is_part_text.
Qed.

Lemma upper_upper (t : list Z) : to_upper <$> (to_upper <$> t) = to_upper <$> t.
Proof. rewrite <- list_fmap_compose. apply list_fmap_ext. intros i x _. apply to_upper_idem. Qed.

Lemma match_typed base e input tl : is_part base → is_part e →
  (length base ≤ 8)%nat → (length e ≤ 3)%nat → is_text input →
  fat_filename_match (pad 8 base) (pad 3 e) (input ++ 0 :: tl) =
  if decide (length base = 8%nat ∧ length e = 3%nat) then None
  else Some (if decide (to_upper <$> typed base e = to_upper <$> input) then 1 else 0).
Proof.
  intros Hb He Lb Le Hi. rewrite filename_match_83; try done; try (by apply pad_text); try (by apply pad_length).
  by rewrite !word_pad, !length_fmap, shown_pad, upper_upper by done.
Qed.

End names.

(** C31. [fat_filename_match] compares the name on the disk with the typed one ignoring case,
    except when the name uses all eight characters and the extension all three: then the
    terminating 0 is written past [temp[12]] and the call has no defined result. *)
Theorem fat_filename_match_spec name ext input tl :
  is_text name → is_text ext → length name = 8%nat → length ext = 3%nat → is_text input →
  fat_filename_match name ext (input ++ 0 :: tl) =
  if decide (length (word name) = 8%nat ∧ length (word ext) = 3%nat) then None
  else Some (if decide (to_upper <$> shown name ext = to_upper <$> input) then 1 else 0).
Proof. apply filename_match_83. Qed.

Lemma fat_filename_match_spec_witness :
  fat_filename_match (str "HELLO   ") (str "ELF") (str "hello.elf" ++ 0 :: []) = Some 1 ∧
  fat_filename_match (str "COMMANDS") (str "TXT") (str "commands.txt" ++ 0 :: []) = None.
Proof.
  split; [rewrite (fat_filename_match_spec (str "HELLO   ") (str "ELF") (str "hello.elf") [])
         |rewrite (fat_filename_match_spec (str "COMMANDS") (str "TXT") (str "commands.txt") [])];
    first [done | by chars | by vm_compute].
Defined.

(** The name [fat_create_entry] stores for a typed name of at most eight and three
    characters is one that [fat_filename_match] recognises under every spelling of the typed
    name that differs in case only, and under no other; names of the full eight and three
    characters are stored but cannot be looked up. *)
Theorem created_name_found base e input tl tl' :
  is_part base → is_part e → (length base ≤ 8)%nat → (length e ≤ 3)%nat → is_text input →
  to_83 (typed base e ++ 0 :: tl) = Some (pad 8 base, pad 3 e) ∧
  fat_filename_match (pad 8 base) (pad 3 e) (input ++ 0 :: tl') =
  if decide (length base = 8%nat ∧ length e = 3%nat) then None
  else Some (if decide (to_upper <$> typed base e = to_upper <$> input) then 1 else 0).
Proof. intros. split; [by apply to_83_typed|by apply match_typed]. Qed.

Lemma created_name_found_witness :
  to_83 (str "a.txt" ++ 0 :: []) = Some (str "A       ", str "TXT") ∧
  fat_filename_match (str "A       ") (str "TXT") (str "A.TxT" ++ 0 :: []) = Some 1.
Proof.
  destruct (created_name_found (str "a") (str "txt") (str "A.TxT") [] []) as [H1 H2];
    [by chars|by chars|vm_compute; lia|vm_compute; lia|by chars|].
  split; [exact H1|]. etransitivity; [exact H2|by vm_compute].
Defined.

(** ** Paths *)

(** An absolute path: the root, or components that a slash precedes. *)
Definition is_path (t : list Z) : Prop :=
  is_text t ∧ (t = [47] ∨ ∃ u c, t = 47 :: u ++ [c] ∧ c ≠ 47).

(** The path of the child [w] of the directory [t]. *)
Definition child (t w : list Z) : list Z := if decide (t = [47]) then 47 :: w else t ++ 47 :: w.

(** A component: visible characters with no slash, as many as a directory entry's name has. *)
Definition is_component (w : list Z) : Prop :=
  Forall (λ c, 0 < c < 256 ∧ c ≠ 32 ∧ c ≠ 47) w ∧ (1 ≤ length w ≤ 8)%nat.

Section paths.
Implicit Types (t w p name : list Z).

Lemma strlen_text t tl : is_text t → strlen (t ++ 0 :: tl) = Some (Z.of_nat (length t)).
Proof.
  intros H. induction H as [|c t Hc H IH]; cbn [app strlen]; [by rewrite decide_True|].
  rewrite decide_False by lia. rewrite IH. cbn. f_equal. lia.
Qed.

Lemma string_of_text t tl : is_text t → string_of (t ++ 0 :: tl) = t.
Proof.
  intros H. induction H as [|c t Hc H IH]; cbn [app string_of]; [by rewrite decide_True|].
  rewrite decide_False by lia. by rewrite IH.
Qed.

Lemma trim_back_spaces k l : (∀ c, head l = Some c → c ≠ 32) →
  trim_back (replicate k 32 ++ l) = replicate k 0 ++ l.
Proof.
  intros H. induction k as [|k IH]; cbn [replicate app trim_back].
  - destruct l as [|c l]; [done|]. pose proof (H c eq_refl). cbn [trim_back]. by rewrite decide_False.
  - rewrite decide_True by done. by rewrite IH.
Qed.

Lemma component_text w : is_component w → is_text w.
Proof. intros [H _]. eapply Forall_impl; [exact H|]. by intros x (? & _). Qed.

Lemma trim_component w k : is_component w → ∃ tl, trim (w ++ replicate k 32) = w ++ 0 :: tl.
Proof.
  intros [Hw Hl]. unfold trim. rewrite reverse_app, reverse_replicate, trim_back_spaces.
  - rewrite reverse_app, reverse_replicate, reverse_involutive, <- app_assoc.
    destruct k as [|k]; [by eexists|]. by exists (replicate k 0 ++ [0]).
  - intros c Hc. assert (c ∈ w) as Hin.
    { apply elem_of_reverse. destruct (reverse w); [done|]. injection Hc as ->. set_solver. }
    rewrite Forall_forall in Hw. by destruct (Hw c Hin) as (_ & ? & _).
Qed.

(** Appending to the string at the start of an array. *)
Lemma copy_at_overlay w b t : is_text w → (length t + length w ≤ length b)%nat →
  copy_at w (overlay b 0 t) (Z.of_nat (length t)) = Some (overlay b 0 (t ++ w)).
Proof.
  intros Hw. induction Hw as [|c w Hc Hw IH] in t |- *; intros Hl; cbn [copy_at].
  - by rewrite app_nil_r.
  - cbn [length] in Hl. rewrite arr_set_overlay by lia. rewrite u8_small by lia. cbn [mbind option_bind].
    specialize (IH (t ++ [c])). rewrite length_app, <- app_assoc in IH. cbn [length app] in IH.
    replace (Z.of_nat (length t) + 1) with (Z.of_nat (length t + 1)) by lia. apply IH. lia.
Qed.

Lemma arr_get_lookup l i c : l !! i = Some c → arr_get l (Z.of_nat i) = Some c.
Proof. intros H. unfold arr_get. rewrite decide_True by lia. by rewrite Nat2Z.id. Qed.

Lemma cut_last_slash v w r (k : nat) : Forall (λ c, c ≠ 47) w → (k ≤ length w)%nat →
  cut_last (S (length v) + k) (v ++ 47 :: w ++ r)
  = arr_set (v ++ 47 :: w ++ r) (if decide (v = []) then 1 else Z.of_nat (length v)) 0.
Proof.
  intros Hw. induction k as [|k IH]; intros Hk.
  - rewrite Nat.add_0_r. cbn [cut_last]. rewrite (arr_get_lookup _ _ 47).
    2:{ rewrite lookup_app_r by lia. by rewrite Nat.sub_diag. }
    cbn [mbind option_bind]. rewrite (decide_True (P := 47 = 47)) by done.
    destruct v as [|c v]; [done|]. rewrite decide_False by (cbn [length]; lia).
    by rewrite decide_False.
  - replace (S (length v) + S k)%nat with (S (S (length v) + k)) by lia. cbn [cut_last].
    destruct (lookup_lt_is_Some_2 w k) as [c Hc]; [lia|].
    rewrite (arr_get_lookup _ _ c).
    2:{ rewrite lookup_app_r by lia. replace (S (length v) + k - length v)%nat with (S k) by lia.
        change ((47 :: w ++ r) !! S k) with ((w ++ r) !! k). by rewrite lookup_app_l by lia. }
    cbn [mbind option_bind]. rewrite decide_False by (by apply (Forall_lookup_1 _ _ _ _ Hw Hc)).
    apply IH. lia.
Qed.

Lemma string_of_overlay b t : is_text t → (length t < length b)%nat → string_of (overlay b 0 (t ++ [0])) = t.
Proof. intros. unfold overlay. cbn [take app]. rewrite <- app_assoc. by apply string_of_text. Qed.

(** Entering a component. *)
Lemma update_path_enter dir tl name t rest w :
  is_text dir → dir ≠ str ".." → dir ≠ str "." → is_path t → is_component w →
  name = w ++ replicate (8 - length w) 32 →
  length (t ++ 0 :: rest) = 256%nat → (length t + length w + 2 < 256)%nat →
  update_path (dir ++ 0 :: tl) name (t ++ 0 :: rest) = Some (overlay (t ++ 0 :: rest) 0 (child t w ++ [0])).
Proof.
  intros Hd Hup Hhere [Ht Hp] Hw -> Hlen Hfit. unfold update_path.
  destruct (strcmp_text dir (str "..") tl) as (z & -> & Hz); [done|by chars|]. cbn [mbind option_bind].
  rewrite decide_False by (intros E; apply Hup, Hz, E).
  destruct (strcmp_text dir (str ".") tl) as (z' & -> & Hz'); [done|by chars|]. cbn [mbind option_bind].
  rewrite decide_False by (intros E; apply Hhere, Hz', E).
  destruct (trim_component w (8 - length w) Hw) as [tl' ->]. pose proof (component_text w Hw) as Hwt.
  rewrite !strlen_text by done. cbn [mbind option_bind]. rewrite decide_True by lia.
  rewrite Nat2Z.id, take_app_length.
  assert (t ++ 0 :: rest = overlay (t ++ 0 :: rest) 0 t) as E.
  { unfold overlay. cbn [take app]. by rewrite Nat.add_0_l, drop_app_length. }
  set (b := t ++ 0 :: rest) in *. unfold child.
  destruct Hp as [->|(u & c & Et & Hc)].
  - cbn [length]. rewrite decide_False by lia. cbn [mbind option_bind].
    rewrite decide_False by (intros H; by apply H). cbn [mbind option_bind].
    pose proof (copy_at_overlay w b [47] Hwt ltac:(cbn [length]; lia)) as Hca.
    rewrite <- E in Hca. cbn [length] in Hca. rewrite Hca. cbn [mbind option_bind].
    rewrite decide_True by done. cbn [app].
    replace (Z.of_nat 1 + Z.of_nat (length w)) with (Z.of_nat (length (47 :: w))) by (cbn [length]; lia).
    apply arr_set_overlay. cbn [length]. lia.
  - assert (2 ≤ length t)%nat as Hl2 by (rewrite Et; cbn [length]; rewrite length_app; cbn; lia).
    rewrite decide_True by lia.
    assert (arr_get b (Z.of_nat (length t) - 1) = Some c) as ->.
    { replace (Z.of_nat (length t) - 1) with (Z.of_nat (length t - 1)) by lia. apply arr_get_lookup.
      unfold b. rewrite lookup_app_l by lia. rewrite Et. cbn [length]. rewrite length_app. cbn [length].
      replace (S (length u + 1) - 1)%nat with (S (length u)) by lia. cbn [lookup list_lookup].
      change ((u ++ [c]) !! length u = Some c). rewrite lookup_app_r by lia. by rewrite Nat.sub_diag. }
    cbn [mbind option_bind]. rewrite decide_True by done.
    pose proof (arr_set_overlay b t 47 ltac:(lia)) as Hs. rewrite <- E in Hs. rewrite Hs.
    cbn [mbind option_bind]. change (u8 47) with 47.
    replace (Z.of_nat (length t) + 1) with (Z.of_nat (length (t ++ [47]))) by (rewrite length_app; cbn; lia).
    rewrite copy_at_overlay by (done || (rewrite length_app; cbn [length]; lia)). cbn [mbind option_bind].
    rewrite decide_False by (intros ->; cbn in Hl2; lia). rewrite <- Nat2Z.inj_add, <- length_app.
    rewrite arr_set_overlay by (rewrite !length_app; cbn [length]; lia). by rewrite <- !app_assoc.
Qed.

Lemma child_text t w : is_text t → is_text w → is_text (child t w).
Proof.
  intros Ht Hw. unfold child. case_decide; [constructor; [lia|done]|].
  apply Forall_app. split; [done|constructor; [lia|done]].
Qed.

Lemma child_length t w : (length (child t w) ≤ length t + 1 + length w)%nat.
Proof. unfold child. case_decide; rewrite ?length_app; cbn [length]; lia. Qed.

(** Writing the child's path and its 0 over an array. *)
Lemma overlay_child b t w : length b = 256%nat →
  (length t + length w + 2 < 256)%nat →
  ∃ r, overlay b 0 (child t w ++ [0]) = child t w ++ 0 :: r ∧ length (child t w ++ 0 :: r) = length b.
Proof.
  intros Hb Hl. pose proof (child_length t w).
  exists (drop (length (child t w ++ [0])) b). unfold overlay. cbn [take app].
  rewrite <- app_assoc. cbn [app]. split; [done|].
  rewrite length_app. cbn [length]. rewrite length_drop, length_app. cbn [length]. lia.
Qed.

(** Leaving it. *)
Lemma update_path_leave tl name t w r :
  is_path t → is_component w → length (child t w ++ 0 :: r) = 256%nat →
  ∃ r', update_path (str ".." ++ 0 :: tl) name (child t w ++ 0 :: r) = Some (t ++ 0 :: r').
Proof.
  intros [Ht Hp] Hw Hlen. unfold update_path. pose proof (component_text w Hw) as Hwt.
  destruct (strcmp_text (str "..") (str "..") tl) as (z & -> & Hz); [by chars..|]. cbn [mbind option_bind].
  rewrite decide_True by (by apply Hz).
  assert (Forall (λ c, c ≠ 47) w) as Hns.
  { destruct Hw as [Hw _]. eapply Forall_impl; [exact Hw|]. by intros x (_ & _ & ?). }
  destruct Hw as [_ Hwl].
  pose proof (child_text t w Ht Hwt) as Hct.
  rewrite strlen_text by done. cbn [mbind option_bind].
  set (v := if decide (t = [47]) then [] else t).
  assert (child t w = v ++ 47 :: w) as Ec by (unfold child, v; by case_decide).
  assert (length (child t w) = S (length v) + length w)%nat as El.
  { rewrite Ec, length_app. cbn [length]. lia. }
  rewrite decide_True by lia. rewrite Nat2Z.id, El, Ec, <- app_assoc. cbn [app].
  rewrite cut_last_slash by done. rewrite Ec, <- app_assoc in Hlen. cbn [app] in Hlen.
  subst v. destruct Hp as [->|(u & c & Et & Hc)].
  - rewrite decide_True by done. rewrite decide_True by done. cbn [app].
    destruct w as [|x w]; [cbn in Hwl; lia|]. eexists (w ++ 0 :: r). rewrite arr_set_Some; [done|].
    cbn [length app]. lia.
  - assert (t ≠ [47]) as Hne by (rewrite Et; destruct u; done).
    rewrite decide_False by done. rewrite decide_False by (rewrite Et; done).
    exists (w ++ 0 :: r). rewrite arr_set_Some.
    2:{ rewrite length_app. cbn [length]. lia. }
    rewrite Nat2Z.id, insert_app_r_alt, Nat.sub_diag by lia. done.
Qed.

End paths.
