(* ===== verification/FatDir.v ===== *)
(** Directories of the file system (src/fs/fat.c): a directory is the list of its 32-byte
    entries, over the sectors of the root region or of a cluster chain.  [fat_find_file] is a
    search in that list, and [fat_create_entry] fills its first unused entry. *)
From S2P Require Import Prelude Memory Hardware Machine Utils Screen Pmm Kheap Cpu Ata Buffers Fat FatTable FatNames.

(** ** Sectors of a directory *)

(** One step along a chain, as the loop of [fat_read_dir_sector] does it. *)
Definition next_in (d : ata_dev) (f : fat_vars) (o : option Z) : option Z :=
  c ← o; if decide (c >= 0xFFF8) then None else Some (fat_entry d f c).

(** The cluster [k] steps behind [c]. *)
Definition nth_cluster (d : ata_dev) (f : fat_vars) (c : Z) (k : nat) : option Z :=
  x ← Nat.iter k (next_in d f) (Some c); if decide (x >= 0xFFF8) then None else Some x.

Definition root_sectors (f : fat_vars) : Z := root_dir_entries (fat_info f) * 32 / bytes_per_sector (fat_info f).

(** Where sector [i] of the directory at cluster [c] is; the root directory has cluster 0. *)
Definition dir_lba (d : ata_dev) (f : fat_vars) (c i : Z) : option Z :=
  if decide (c = 0) then
    if decide (i >= root_sectors f) then None else Some (u32 (root_dir_sector f + i))
  else
    let spc := sectors_per_cluster (fat_info f) in
    x ← nth_cluster d f c (Z.to_nat (Z.quot i spc));
    Some (u32 (u32 (data_start_sector f + (x - 2) * spc) + Z.rem i spc)).

(** The directory has [K] sectors, at distinct addresses the drive has, outside the
    allocation table. *)
Record dir_ok (d : ata_dev) (f : fat_vars) (c : Z) (K : nat) : Prop := {
  do_cluster : 0 ≤ c < 65536;
  do_bps : bytes_per_sector (fat_info f) ≠ 0;
  do_spc : 0 < sectors_per_cluster (fat_info f);
  do_end : dir_lba d f c (Z.of_nat K) = None;
  do_sec : ∀ i, 0 ≤ i < Z.of_nat K → ∃ lba, dir_lba d f c i = Some lba ∧ 0 ≤ lba < 2 ^ 28 ∧
    (lba < fat_start_sector f ∨ fat_start_sector f + 256 ≤ lba);
  do_inj : ∀ i i' lba, 0 ≤ i < Z.of_nat K → 0 ≤ i' < Z.of_nat K →
    dir_lba d f c i = Some lba → dir_lba d f c i' = Some lba → i = i';
}.

Section sectors.
Context (N n : nat).
Implicit Types (B : list blk) (s : machine) (d : ata_dev) (f : fat_vars) (j : nat).

Lemma disk_byte d lba i : disk_wf d → 0 ≤ default 0 (sector d lba !! i) < 256.
Proof.
  intros Hd. destruct (Hd lba) as [_ Hb]. destruct (sector d lba !! i) as [b|] eqn:E; [|by cbn].
  exact (Forall_lookup_1 _ _ _ _ Hb E).
Qed.

Lemma fat_entry_range d f c : disk_wf d → 0 ≤ fat_entry d f c < 65536.
Proof.
  intros Hd. unfold fat_entry, word16. pose proof (disk_byte d (fat_sec f c) (fat_off c) Hd).
  pose proof (disk_byte d (fat_sec f c) (S (fat_off c)) Hd). lia.
Qed.

Lemma next_in_range d f c k x : disk_wf d → 0 ≤ c < 65536 →
  Nat.iter k (next_in d f) (Some c) = Some x → 0 ≤ x < 65536.
Proof.
  intros Hd Hc. destruct k as [|k]; [by intros [= <-]|]. rewrite Nat.iter_succ.
  destruct (Nat.iter k (next_in d f) (Some c)) as [y|]; [|done]. cbn. case_decide; [done|].
  intros [= <-]. by apply fat_entry_range.
Qed.

(** The steps depend on the table only. *)
Lemma next_in_disk d d' f o : ata_disk d' = ata_disk d → next_in d' f o = next_in d f o.
Proof. intros E. unfold next_in. destruct o as [c|]; [|done]. cbn. by rewrite (fat_entry_disk d' d). Qed.

(** The chain loop of [fat_read_dir_sector]. *)
Lemma follow_wp B j s c k (Q : option Z → machine → Prop) :
  fs_ok (S j) B N n s → 0 ≤ c < 65536 →
  (∀ s', fs_ok (S j) B N n s' → ata_disk (ata s') = ata_disk (ata s) → fat s' = fat s → kept B s s' →
     Q (Nat.iter k (next_in (ata s) (fat s)) (Some c)) s') →
  wp (for_acc k 0 (Some c) (λ _ curr,
    match curr with
    | None => mret None
    | Some c => if decide (c >= 0xFFF8) then mret None else c' ← fat_next_cluster c; mret (Some c')
    end)) n s Q.
Proof.
  intros Hs Hc HQ. apply (wp_for_acc (λ i curr s', fs_ok (S j) B N n s' ∧ ata_disk (ata s') = ata_disk (ata s) ∧
    fat s' = fat s ∧ kept B s s' ∧ curr = Nat.iter (Z.to_nat i) (next_in (ata s) (fat s)) (Some c))).
  - done.
  - intros i curr s1 Hi (S1 & D1 & F1 & K1 & Ecur).
    replace (Z.to_nat (i + 1)) with (S (Z.to_nat i)) by lia. rewrite Nat.iter_succ.
    destruct curr as [x|]; rewrite <- Ecur; [|by apply wp_ret].
    cbn [next_in mbind option_bind]. case_decide; [by apply wp_ret|].
    pose proof (next_in_range (ata s) (fat s) c _ x (fs_disk _ _ _ _ _ Hs) Hc (eq_sym Ecur)) as Hx.
    apply wp_bind, (fat_next_cluster_wp N n B j); [done..|]. intros s2 S2 D2 F2 K2. apply wp_ret.
    split_and!; [done|by rewrite D2|by rewrite F2|by rewrite K1|]. by rewrite F1, (fat_entry_disk _ (ata s)).
  - rewrite Z.add_0_l, Nat2Z.id. intros curr s1 (S1 & D1 & F1 & K1 & ->). by apply HQ.
Qed.

Lemma read_dir_wp B j s c i p (Q : Z → machine → Prop) :
  fs_ok (S j) B N n s → owns B p → 0 ≤ c < 65536 → 0 ≤ i →
  bytes_per_sector (fat_info (fat s)) ≠ 0 → 0 < sectors_per_cluster (fat_info (fat s)) →
  (∀ lba, dir_lba (ata s) (fat s) c i = Some lba → 0 ≤ lba < 2 ^ 28) →
  (∀ s', fs_ok (S j) B N n s' → ata_disk (ata s') = ata_disk (ata s) → fat s' = fat s → kept_but B p s s' →
     match dir_lba (ata s) (fat s) c i with
     | Some lba => bytes 512 (mem s') p = sector (ata s) lba → Q 1 s'
     | None => Q 0 s'
     end) →
  wp (fat_read_dir_sector c i p) n s Q.
Proof.
  intros Hs Hp Hc Hi Hb Hspc Hl HQ. unfold fat_read_dir_sector. wp_steps. unfold dir_lba in *.
  assert (∀ s1 lba, fs_ok (S j) B N n s1 → ata_disk (ata s1) = ata_disk (ata s) → fat s1 = fat s → kept B s s1 →
    0 ≤ lba < 2 ^ 28 →
    (∀ s', fs_ok (S j) B N n s' → ata_disk (ata s') = ata_disk (ata s) → fat s' = fat s → kept_but B p s s' →
       bytes 512 (mem s') p = sector (ata s) lba → Q 1 s') → wp (read_buf lba p) n s1 (λ _ s', wp (mret 1) n s' Q)) as Hread.
  { intros s1 lba S1 D1 F1 K1 Hlba H. apply (read_buf_wp N n B (S j)); [done..|].
    intros s2 S2 D2 F2 K2 Hby. apply wp_ret, H; [done|by rewrite D2|by rewrite F2| |].
    - etrans; [by apply kept_but_kept|done].
    - rewrite Hby. unfold sector. by rewrite D1. }
  destruct (decide (c = 0)) as [->|Hc0].
  - rewrite decide_False by done. fold (root_sectors (fat s)) in *.
    destruct (decide (i >= root_sectors (fat s))); [apply wp_ret; by apply (HQ s)|].
    apply wp_bind, (Hread s); [done..|by apply Hl|]. intros s' S' D' F' K' Hby. by apply (HQ s').
  - set (spc := sectors_per_cluster (fat_info (fat s))) in *. rewrite decide_False by lia.
    apply wp_bind, (follow_wp B j); [done..|]. intros s1 S1 D1 F1 K1. unfold nth_cluster in *.
    assert (kept_but B p s s1) as Kb by (by apply kept_but_kept).
    destruct (Nat.iter _ _ _) as [x|]; cbn [mbind option_bind] in *; [|apply wp_ret; by apply (HQ s1)].
    destruct (decide (x >= 0xFFF8)); [apply wp_ret; by apply (HQ s1)|].
    unfold fat_lba_of_cluster. wp_steps. rewrite F1. fold spc. cbn [mbind option_bind] in *.
    apply (Hread s1); [done..|by apply Hl|]. intros s' S' D' F' K' Hby. by apply (HQ s').
Qed.

End sectors.

(** ** Searching *)

Lemma fs_console j B N n s s' : console_only s s' → fs_ok j B N n s → fs_ok j B N n s'.
Proof.
  intros Hc [H1 H2 H3 H4 H5]. assert (ata s' = ata s ∧ fat s' = fat s) as [Ea Ef] by (by rewrite Hc).
  split; rewrite ?Ea, ?Ef; try done. by eapply bufs_frame; [|rewrite Hc..].
Qed.

(** Entry [k] of a sector. *)
Definition entry_at (sec : list Z) (k : nat) : list Z := take 32 (drop (32 * k) sec).

Definition first_byte (e : list Z) : Z := default 0 (e !! 0%nat).

(** What the search does at an entry: [Some None] goes on, [Some (Some r)] stops with [r], and
    [None] is the undefined comparison of a full 8.3 name. *)
Definition look (name e : list Z) : option (option (option (list Z))) :=
  if decide (first_byte e = 0x00) then Some (Some None)
  else if decide (first_byte e = 0xE5) then Some None
  else if decide (e_attributes e = 0x0F ∨ Z.land (e_attributes e) ATTR_VOLUME_ID ≠ 0) then Some None
  else
    r ← fat_filename_match (take 8 e) (take 3 (drop 8 e)) name;
    Some (if decide (r = 0) then None else Some (Some e)).

Fixpoint scan (name : list Z) (es : list (list Z)) : option (option (option (list Z))) :=
  match es with
  | [] => Some None
  | e :: rest => r ← look name e; match r with None => scan name rest | Some x => Some (Some x) end
  end.

Definition sector_entries (sec : list Z) : list (list Z) := entry_at sec <$> seq 0 16.

(** The entries of the first [k] sectors. *)
Fixpoint dir_entries (d : ata_dev) (f : fat_vars) (c : Z) (k : nat) : list (list Z) :=
  match k with
  | O => []
  | S k' => dir_entries d f c k' ++
      match dir_lba d f c (Z.of_nat k') with Some lba => sector_entries (sector d lba) | None => [] end
  end.

(** The result of the search in a directory of [K] sectors. *)
Definition dir_search (d : ata_dev) (f : fat_vars) (c : Z) (K : nat) (name : list Z) : option (option (list Z)) :=
  r ← scan name (dir_entries d f c K); Some (default None r).

Section search.
Context (N n : nat).
Implicit Types (B : list blk) (s : machine) (d : ata_dev) (f : fat_vars) (j : nat).

Lemma scan_app name es es' : scan name (es ++ es') =
  r ← scan name es; match r with None => scan name es' | Some x => Some (Some x) end.
Proof.
  induction es as [|e es IH]; [done|]. cbn [app scan].
  destruct (look name e) as [[x|]|]; cbn [mbind option_bind]; done.
Qed.

Lemma bytes_slice m p (k o l : nat) : (o + l ≤ k)%nat → bytes l m (p + Z.of_nat o) = take l (drop o (bytes k m p)).
Proof.
  intros H. apply list_eq. intros i. destruct (decide (i < l)%nat) as [Hi|Hi].
  - rewrite lookup_bytes, lookup_take_lt, lookup_drop, lookup_bytes by lia. do 2 f_equal. lia.
  - rewrite !lookup_ge_None_2; [done|rewrite length_take, length_drop, length_bytes; lia|rewrite length_bytes; lia].
Qed.

Lemma byte_of_bytes m a (k i : nat) : (i < k)%nat → default 0 (bytes k m a !! i) = byte_at m (a + Z.of_nat i).
Proof. intros H. by rewrite lookup_bytes. Qed.

(** The entry in memory is searched as the list of its bytes. *)
Lemma find_entry_run name a s : fat_find_entry name a n s =
  match look name (bytes 32 (mem s) a) with Some r => Ret r s | None => Undef end.
Proof.
  unfold fat_find_entry, ent_name0, ent_attributes, ent_name, ent_ext, load8, look, first_byte, e_attributes.
  rewrite !byte_of_bytes by lia. unfold mbind, M_bind, gets. cbv beta iota. rewrite !load8_byte, Z.add_0_r.
  change (Z.of_nat 11) with 11. do 2 (destruct (decide _); [done|]). cbv beta iota.
  rewrite !load8_byte. destruct (decide _); [done|]. cbv beta iota.
  pose proof (bytes_slice (mem s) a 32 0 8 ltac:(lia)) as E0. rewrite Z.add_0_r in E0. rewrite E0, drop_0.
  rewrite <- (bytes_slice (mem s) a 32 8 3) by lia. change (Z.of_nat 8) with 8.
  destruct (fat_filename_match _ _ _) as [r|]; [|done]. cbn [from_option_ub mret M_ret option_bind].
  by destruct (decide (r = 0)).
Qed.

Lemma find_loop_run name p s k i : (i + k ≤ 16)%nat →
  for_loop k (Z.of_nat i) (λ q, fat_find_entry name (dirent p q)) n s =
  match scan name (entry_at (bytes 512 (mem s) p) <$> seq i k) with Some r => Ret r s | None => Undef end.
Proof.
  induction k as [|k IH] in i |- *; intros Hk; [done|]. cbn [for_loop seq fmap list_fmap scan].
  unfold mbind at 1, M_bind. rewrite find_entry_run.
  assert (bytes 32 (mem s) (dirent p (Z.of_nat i)) = entry_at (bytes 512 (mem s) p) i) as ->.
  { unfold entry_at, dirent. rewrite <- bytes_slice by lia. f_equal. lia. }
  destruct (look name _) as [[x|]|]; cbn [mbind option_bind]; [done| |done].
  replace (Z.of_nat i + 1) with (Z.of_nat (S i)) by lia. apply IH. lia.
Qed.

Lemma dir_entries_split d f c (i K : nat) : (i ≤ K)%nat → ∃ rest, dir_entries d f c K = dir_entries d f c i ++ rest.
Proof.
  induction 1 as [|K Hle [rest IH]]; [exists []; by rewrite app_nil_r|]. cbn [dir_entries].
  rewrite IH, <- app_assoc. eauto.
Qed.

(** The search goes through sector [i]: what it finds there decides, or it goes on. *)
Lemma dir_search_step d f c (i K : nat) lba name r : (i < K)%nat →
  dir_search d f c K name = Some r → scan name (dir_entries d f c i) = Some None →
  dir_lba d f c (Z.of_nat i) = Some lba →
  scan name (sector_entries (sector d lba)) = Some (Some r) ∨
  (scan name (sector_entries (sector d lba)) = Some None ∧ scan name (dir_entries d f c (S i)) = Some None).
Proof.
  intros Hi Hr Hgo Hl. destruct (dir_entries_split d f c (S i) K Hi) as [rest E].
  unfold dir_search in Hr. rewrite E, scan_app in Hr. cbn [dir_entries] in *. rewrite Hl in *.
  rewrite scan_app, Hgo in *. cbn [mbind option_bind] in *.
  destruct (scan name (sector_entries _)) as [[x|]|]; cbn in Hr; [|by right|done].
  left. by injection Hr as <-.
Qed.

Lemma dir_search_end d f c K name r : dir_search d f c K name = Some r →
  scan name (dir_entries d f c K) = Some None → r = None.
Proof. unfold dir_search. intros H E. rewrite E in H. cbn in H. congruence. Qed.

Lemma dir_entries_disk d d' f f' c K : (∀ i, dir_lba d' f' c i = dir_lba d f c i) →
  (∀ i lba, (i < K)%nat → dir_lba d f c (Z.of_nat i) = Some lba → sector d' lba = sector d lba) →
  dir_entries d' f' c K = dir_entries d f c K.
Proof.
  intros Hl Hs. induction K as [|K IH]; [done|]. cbn [dir_entries]. rewrite IH, Hl by (intros i lba Hi; apply Hs; lia).
  destruct (dir_lba d f c (Z.of_nat K)) eqn:E; [|done]. by rewrite (Hs K) by (done || lia).
Qed.

Lemma dir_lba_disk d d' f c i : ata_disk d' = ata_disk d → dir_lba d' f c i = dir_lba d f c i.
Proof.
  intros E. unfold dir_lba, nth_cluster. destruct (decide (c = 0)); [done|].
  assert (∀ k, Nat.iter k (next_in d' f) (Some c) = Nat.iter k (next_in d f) (Some c)) as ->; [|done].
  intros k. induction k as [|k IH]; [done|]. rewrite !Nat.iter_succ, IH. by apply next_in_disk.
Qed.

(** The state of a walk over the sectors with a buffer: nothing but the buffer changed. *)
Record walking j B B' s s' : Prop := {
  wk_fs : fs_ok j B' N n s';
  wk_disk : ata_disk (ata s') = ata_disk (ata s);
  wk_fat : fat s' = fat s;
  wk_kept : kept B s s';
}.

Lemma walking_lba j B B' s s' c i : walking j B B' s s' → dir_lba (ata s') (fat s') c i = dir_lba (ata s) (fat s) c i.
Proof. intros [_ D F _]. rewrite F. by apply dir_lba_disk. Qed.

(** One directory sector of a walk, read into its buffer. *)
Lemma walk_read_wp B B' j s0 s p c K i (Q : Z → machine → Prop) :
  fs_ok (S (S j)) B N n s0 → malloc_list 512 B = Some (p, B') → walking (S j) B B' s0 s →
  dir_ok (ata s0) (fat s0) c K → (i ≤ K)%nat →
  (∀ s' lba, (i < K)%nat → dir_lba (ata s0) (fat s0) c (Z.of_nat i) = Some lba → 0 ≤ lba < 2 ^ 28 →
     walking (S j) B B' s0 s' → bytes 512 (mem s') p = sector (ata s0) lba → Q 1 s') →
  (∀ s', i = K → walking (S j) B B' s0 s' → Q 0 s') →
  wp (fat_read_dir_sector c (Z.of_nat i) p) n s Q.
Proof.
  intros H0 Hm Hw Hd Hi Hok Hend. pose proof (walking_lba _ _ _ _ _ c (Z.of_nat i) Hw) as El.
  assert ((i < K)%nat → ∃ lba, dir_lba (ata s0) (fat s0) c (Z.of_nat i) = Some lba ∧ 0 ≤ lba < 2 ^ 28) as Hsec.
  { intros Hlt. destruct (do_sec _ _ _ _ Hd (Z.of_nat i)) as (lba & E & Hr & _); [lia|eauto]. }
  pose proof Hw as [S1 D1 F1 K1]. apply (read_dir_wp N n B' j); [done|by eapply owns_new|apply Hd|lia|..].
  - rewrite F1. apply Hd.
  - rewrite F1. apply Hd.
  - rewrite El. intros lba E. destruct (decide (i < K)%nat) as [Hlt|Hge].
    + destruct (Hsec Hlt) as (lba' & E' & ?). congruence.
    + assert (i = K) as -> by lia. rewrite (do_end _ _ _ _ Hd) in E. done.
  - intros s' S' D' F' K'%(kept_inner _ _ _ _ _ _ _ _ _ H0 Hm). rewrite El.
    assert (walking (S j) B B' s0 s') as Hw'
      by (split; [done|by rewrite D'|by rewrite F'|by rewrite K1]).
    destruct (decide (i < K)%nat) as [Hlt|Hge].
    + destruct (Hsec Hlt) as (lba & E & Hr). rewrite E. intros Hb. apply (Hok s' lba); [done..|].
      rewrite Hb. unfold sector. by rewrite D1.
    + assert (i = K) as -> by lia. rewrite (do_end _ _ _ _ Hd). by apply Hend.
Qed.

(** Taking the buffer of a walk. *)
Lemma walk_start_wp B j s (Q : Z → machine → Prop) : fs_ok (S j) B N n s →
  (∀ p B' s', p ≠ 0 → malloc_list 512 B = Some (p, B') → walking j B B' s s' → Q p s') →
  wp (kmalloc 512) n s Q.
Proof.
  intros Hs HQ. apply (fs_take_wp N n B j s); [done|]. intros p B' s1 Hm S1 K1 A1 F1. apply (HQ p B'); [|done|].
  - pose proof (owns_range _ _ _ _ p (fs_bufs _ _ _ _ _ S1) (owns_new _ _ _ Hm)). lia.
  - split; [done|by rewrite A1|done|done].
Qed.

Lemma walk_stop_wp B B' j s0 s p (Q : unit → machine → Prop) :
  fs_ok (S j) B N n s0 → malloc_list 512 B = Some (p, B') → walking j B B' s0 s →
  (∀ s', walking (S j) B B s0 s' → Q tt s') → wp (kfree p) n s Q.
Proof.
  intros H0 Hm [S1 D1 F1 K1] HQ. apply (fs_return_wp N n B j B' s0 s p); [done..|].
  intros s' S' K' A' F'. apply HQ. split; [done|by rewrite A'|by rewrite F'|by rewrite K1].
Qed.

Lemma find_file_wp B j s K name r (Q : option (list Z) → machine → Prop) :
  fs_ok (S (S j)) B N n s → is_fat_initialized (fat s) ≠ 0 →
  dir_ok (ata s) (fat s) (current_dir_cluster (fat s)) K → (K < n)%nat →
  dir_search (ata s) (fat s) (current_dir_cluster (fat s)) K name = Some r →
  (∀ s', walking (S (S j)) B B s s' → Q r s') →
  wp (fat_find_file name) n s Q.
Proof.
  intros Hs Hmt Hd Hn Hr HQ. set (c := current_dir_cluster (fat s)) in *.
  unfold fat_find_file. wp_steps. rewrite decide_False by done. apply wp_bind, (walk_start_wp B (S j)); [done|].
  intros p B' s1 Hp Hm W1. rewrite decide_False by done.
  apply (wp_while_idx (λ k i s', walking (S j) B B' s s' ∧ 0 ≤ i ≤ Z.of_nat K ∧ k = (K - Z.to_nat i)%nat ∧
    scan name (dir_entries (ata s) (fat s) c (Z.to_nat i)) = Some None) _ _ K); [|done|].
  { split_and!; [done|lia..|done]. }
  intros k i s2 (W2 & Hi & -> & Hgo). unfold fat_find_step, fat_get_current_cluster. wp_steps.
  rewrite (wk_fat _ _ _ _ _ W2). fold c. replace i with (Z.of_nat (Z.to_nat i)) by lia.
  apply (walk_read_wp B B' j s s2 p c K); [done..|lia| |].
  - intros s3 lba Hlt El Hl W3 Hb. rewrite decide_False by done. wp_steps.
    pose proof (find_loop_run name p s3 16 0 ltac:(lia)) as Ef. change (Z.of_nat 0) with 0 in Ef.
    rewrite Hb in Ef. fold (sector_entries (sector (ata s) lba)) in Ef.
    destruct (dir_search_step _ _ _ _ K lba name r Hlt Hr Hgo El) as [E|[E Hgo']]; rewrite E in Ef;
      apply (wp_eq _ _ _ _ _ _ Ef).
    + wp_steps. apply (walk_stop_wp B B' (S j) s s3 p); [done..|]. intros s4 W4. by apply wp_ret, HQ.
    + apply wp_ret. exists (K - Z.to_nat (i + 1))%nat. split; [lia|].
      replace (Z.of_nat (Z.to_nat i) + 1) with (i + 1) by lia. split_and!; [done|lia..|].
      by replace (Z.to_nat (i + 1)) with (S (Z.to_nat i)) by lia.
  - intros s3 EK W3. rewrite decide_True by done. wp_steps.
    apply (walk_stop_wp B B' (S j) s s3 p); [done..|]. intros s4 W4. apply wp_ret.
    rewrite EK in Hgo. rewrite (dir_search_end _ _ _ _ _ _ Hr Hgo) in HQ. by apply HQ.
Qed.

End search.

(** ** Creating *)

Definition unused (e : list Z) : Prop := first_byte e = 0x00 ∨ first_byte e = 0xE5.
#[export] Instance unused_dec e : Decision (unused e).
Proof. unfold unused. apply _. Defined.

(** The first unused entry of a sector among the [k] from entry [i] on. *)
Fixpoint slot_from (sec : list Z) (i k : nat) : option nat :=
  match k with
  | O => None
  | S k' => if decide (unused (entry_at sec i)) then Some i else slot_from sec (S i) k'
  end.

Definition sector_slot (sec : list Z) : option nat := slot_from sec 0 16.

(** The fields the code stores in an entry. *)
Record dirent_is (e name ext : list Z) (attr cluster size : Z) : Prop := {
  di_name : take 8 e = name;
  di_ext : take 3 (drop 8 e) = ext;
  di_attr : e_attributes e = attr;
  di_cluster : e_first_cluster_low e = cluster;
  di_size : e_file_size e = size;
}.

(** [sec'] is [sec] with entry [k] filled. *)
Record filled (sec sec' : list Z) (k : nat) (name ext : list Z) (attr cluster size : Z) : Prop := {
  fi_entry : dirent_is (entry_at sec' k) name ext attr cluster size;
  fi_other : ∀ y, (y < 16)%nat → y ≠ k → entry_at sec' y = entry_at sec y;
}.

Section creating.
Context (N n : nat).
Implicit Types (B : list blk) (s : machine) (d : ata_dev) (f : fat_vars) (j : nat) (m : gmap Z Z).

Lemma slot_from_Some sec i k x : slot_from sec i k = Some x →
  (i ≤ x < i + k)%nat ∧ unused (entry_at sec x) ∧ ∀ y, (i ≤ y < x)%nat → ¬ unused (entry_at sec y).
Proof.
  induction k as [|k IH] in i |- *; [done|]. cbn [slot_from]. case_decide as Hu.
  - intros [= <-]. split; [lia|]. split; [done|]. intros y Hy. lia.
  - intros H. apply IH in H as (H1 & H2 & H3). split; [lia|]. split; [done|]. intros y Hy.
    destruct (decide (y = i)) as [->|]; [done|]. apply H3. lia.
Qed.

Lemma slot_from_None sec i k : slot_from sec i k = None → ∀ y, (i ≤ y < i + k)%nat → ¬ unused (entry_at sec y).
Proof.
  induction k as [|k IH] in i |- *; [lia|]. cbn [slot_from]. case_decide as Hu; [done|]. intros H y Hy.
  destruct (decide (y = i)) as [->|]; [done|]. apply (IH (S i)); [done|lia].
Qed.

Lemma entry_bytes m p (k : nat) : (k < 16)%nat → entry_at (bytes 512 m p) k = bytes 32 m (dirent p (Z.of_nat k)).
Proof. intros H. unfold entry_at, dirent. rewrite <- bytes_slice by lia. f_equal. lia. Qed.

Lemma find_slot_run p s : find_slot p n s = Ret (Z.of_nat <$> sector_slot (bytes 512 (mem s) p)) s.
Proof.
  unfold find_slot, sector_slot. change 0 with (Z.of_nat 0) at 1.
  assert (∀ k i, (i + k ≤ 16)%nat → for_loop k (Z.of_nat i) (λ q, n0 ← ent_name0 (dirent p q);
    mret (if decide (n0 = 0x00 ∨ n0 = 0xE5) then Some q else None)) n s =
    Ret (Z.of_nat <$> slot_from (bytes 512 (mem s) p) i k) s) as H; [|by apply (H 16%nat 0%nat)].
  induction k as [|k IH]; intros i Hi; [done|]. cbn [for_loop slot_from].
  assert (unused (entry_at (bytes 512 (mem s) p) i) ↔
    load 1 (mem s) (dirent p (Z.of_nat i)) = 0 ∨ load 1 (mem s) (dirent p (Z.of_nat i)) = 0xE5) as Hiff.
  { unfold unused, first_byte. rewrite entry_bytes, byte_of_bytes, load8_byte, Z.add_0_r by lia. done. }
  unfold mbind, M_bind, ent_name0, load8, gets, mret, M_ret.
  destruct (decide (unused _)) as [Hu|Hu].
  - by rewrite decide_True by (by apply Hiff).
  - rewrite decide_False by (by rewrite <- Hiff).
    replace (Z.of_nat i + 1) with (Z.of_nat (S i)) by lia. apply IH. lia.
Qed.

(** Fields of 32 bytes in memory. *)
Lemma entry_fields m a : let e := bytes 32 m a in
  take 8 e = bytes 8 m a ∧ take 3 (drop 8 e) = bytes 3 m (a + 8) ∧ e_attributes e = byte_at m (a + 11) ∧
  e_first_cluster_low e = load 2 m (a + 26) ∧ e_file_size e = load 4 m (a + 28).
Proof.
  intros e. unfold e, e_attributes, e_first_cluster_low, e_file_size. rewrite !byte_of_bytes by lia.
  change (Z.of_nat 11) with 11. change (Z.of_nat 26) with 26. change (Z.of_nat 27) with 27.
  change (Z.of_nat 28) with 28. change (Z.of_nat 29) with 29. change (Z.of_nat 30) with 30. change (Z.of_nat 31) with 31.
  split_and!.
  - pose proof (bytes_slice m a 32 0 8 ltac:(lia)) as E. rewrite Z.add_0_r, drop_0 in E. done.
  - by rewrite <- (bytes_slice m a 32 8 3) by lia.
  - done.
  - rewrite !load_S, load_0. replace (a + 26 + 1) with (a + 27) by lia. lia.
  - rewrite !load_S, load_0. replace (a + 28 + 1 + 1 + 1) with (a + 31) by lia.
    replace (a + 28 + 1 + 1) with (a + 30) by lia. replace (a + 28 + 1) with (a + 29) by lia. lia.
Qed.

(** The memory after the assignments to [target]. *)
Definition dirent_mem m a (name ext : list Z) (attr cluster size : Z) : gmap Z Z :=
  store 4 (a + 28) size (store 2 (a + 26) cluster (store 2 (a + 20) 0 (store 2 (a + 16) 0 (store 2 (a + 14) 0
    (store 1 (a + 12) 0 (store 1 (a + 11) attr (put_bytes (a + 8) ext (put_bytes a name m)))))))).

Lemma put_dirent_wp s a name ext attr cluster size (Q : unit → machine → Prop) :
  Q tt (set_mem (dirent_mem (mem s) a name ext attr cluster size) s) →
  wp (put_dirent a name ext attr cluster size) n s Q.
Proof. intros HQ. unfold put_dirent. wp_steps. exact HQ. Qed.

Lemma dirent_mem_out m a name ext attr cluster size : length name = 8%nat → length ext = 3%nat →
  agree_out m (dirent_mem m a name ext attr cluster size) a 32.
Proof.
  intros Hn He x Hx. unfold dirent_mem. rewrite !byte_store_out by lia. by rewrite !byte_put_out by lia.
Qed.

Lemma dirent_mem_is m a name ext attr cluster size :
  length name = 8%nat → length ext = 3%nat → Forall (λ b, 0 ≤ b < 256) name → Forall (λ b, 0 ≤ b < 256) ext →
  0 ≤ attr < 256 → 0 ≤ cluster < 65536 → 0 ≤ size < 2 ^ 32 →
  dirent_is (bytes 32 (dirent_mem m a name ext attr cluster size) a) name ext attr cluster size.
Proof.
  intros Hn He Hbn Hbe Ha Hc Hs.
  destruct (entry_fields (dirent_mem m a name ext attr cluster size) a) as (E1 & E2 & E3 & E4 & E5).
  split; rewrite ?E1, ?E2, ?E3, ?E4, ?E5; clear E1 E2 E3 E4 E5; unfold dirent_mem.
  - rewrite <- (bytes_put m a name Hbn) at 2. rewrite Hn. apply bytes_ext. intros x Hx.
    rewrite !byte_store_out by lia. by rewrite byte_put_out by lia.
  - rewrite <- (bytes_put (put_bytes a name m) (a + 8) ext Hbe) at 2. rewrite He. apply bytes_ext. intros x Hx.
    by rewrite !byte_store_out by lia.
  - rewrite !(byte_store_out 4), !(byte_store_out 2), (byte_store_out 1 (a + 12)) by lia.
    rewrite <- load8_byte, load_store_eq by lia. by apply Z.mod_small.
  - rewrite load_store_ne by lia. rewrite load_store_eq by lia. by apply Z.mod_small.
  - rewrite load_store_eq by lia. by apply Z.mod_small.
Qed.

(** Filling an entry of the buffer. *)
Lemma fill_slot_wp B j s p (k : nat) name ext attr cluster size (Q : unit → machine → Prop) :
  fs_ok j B N n s → owns B p → (k < 16)%nat →
  length name = 8%nat → length ext = 3%nat → Forall (λ b, 0 ≤ b < 256) name → Forall (λ b, 0 ≤ b < 256) ext →
  0 ≤ attr < 256 → 0 ≤ cluster < 65536 → 0 ≤ size < 2 ^ 32 →
  (∀ s', fs_ok j B N n s' → ata s' = ata s → fat s' = fat s → kept_but B p s s' →
     filled (bytes 512 (mem s) p) (bytes 512 (mem s') p) k name ext attr cluster size → Q tt s') →
  wp (put_dirent (dirent p (Z.of_nat k)) name ext attr cluster size) n s Q.
Proof.
  intros [H1 H2 H3 H4 H5] Hp Hk Hn He Hbn Hbe Ha Hc Hs HQ. apply put_dirent_wp.
  set (a := dirent p (Z.of_nat k)). set (m' := dirent_mem _ _ _ _ _ _ _).
  assert (agree_out (mem s) m' a 32) as Hag by (by apply dirent_mem_out).
  assert (agree_out (mem s) m' p 512) as Hag5.
  { intros x Hx. apply Hag. unfold a, dirent. lia. }
  apply HQ; [|done|done|by apply kept_out|].
  - split; try done. by eapply bufs_data.
  - split; cbn [mem set_mem].
    + rewrite entry_bytes by done. by apply dirent_mem_is.
    + intros y Hy Hne. rewrite !entry_bytes by done. apply bytes_ext. intros x Hx. apply Hag.
      unfold a, dirent in *. lia.
Qed.

(** Along a chain that does not end, the loop without the test does the same. *)
Lemma follow_plain_wp B j s c k x (Q : Z → machine → Prop) :
  fs_ok (S j) B N n s → 0 ≤ c < 65536 → Nat.iter k (next_in (ata s) (fat s)) (Some c) = Some x →
  (∀ s', fs_ok (S j) B N n s' → ata_disk (ata s') = ata_disk (ata s) → fat s' = fat s → kept B s s' → Q x s') →
  wp (for_acc k 0 c (λ _ c, fat_next_cluster c)) n s Q.
Proof.
  intros Hs Hc Hx HQ.
  assert (∀ i, (i ≤ k)%nat → ∃ y, Nat.iter i (next_in (ata s) (fat s)) (Some c) = Some y) as Hall.
  { intros i Hi. destruct (Nat.iter i (next_in (ata s) (fat s)) (Some c)) as [y|] eqn:E; [eauto|].
    replace k with ((k - i) + i)%nat in Hx by lia. rewrite Nat.iter_add, E in Hx.
    assert (∀ l, Nat.iter l (next_in (ata s) (fat s)) None = None) as Hnone
      by (intros l; induction l as [|l IH]; [done|]; by rewrite Nat.iter_succ, IH).
    by rewrite Hnone in Hx. }
  apply (wp_for_acc (λ i curr s', fs_ok (S j) B N n s' ∧ ata_disk (ata s') = ata_disk (ata s) ∧
    fat s' = fat s ∧ kept B s s' ∧ Nat.iter (Z.to_nat i) (next_in (ata s) (fat s)) (Some c) = Some curr)).
  - done.
  - intros i curr s1 Hi (S1 & D1 & F1 & K1 & Ecur).
    pose proof (next_in_range (ata s) (fat s) c _ curr (fs_disk _ _ _ _ _ Hs) Hc Ecur) as Hr.
    apply (fat_next_cluster_wp N n B j); [done..|]. intros s2 S2 D2 F2 K2.
    split_and!; [done|by rewrite D2|by rewrite F2|by rewrite K1|].
    destruct (Hall (S (Z.to_nat i))) as [y Hy]; [lia|].
    replace (Z.to_nat (i + 1)) with (S (Z.to_nat i)) by lia. rewrite Nat.iter_succ, Ecur in *.
    cbn [next_in mbind option_bind] in *. case_decide; [done|]. by rewrite F1, (fat_entry_disk (ata s1) (ata s)).
  - rewrite Z.add_0_l, Nat2Z.id. intros curr s1 (S1 & D1 & F1 & K1 & E). rewrite E in Hx.
    injection Hx as ->. by apply HQ.
Qed.

(** The address computed for the write is the one that was read. *)
Lemma dir_sector_lba_wp B j s i lba (Q : Z → machine → Prop) :
  fs_ok (S j) B N n s → 0 ≤ current_dir_cluster (fat s) < 65536 → 0 ≤ i →
  0 < sectors_per_cluster (fat_info (fat s)) →
  dir_lba (ata s) (fat s) (current_dir_cluster (fat s)) i = Some lba →
  (∀ s', fs_ok (S j) B N n s' → ata_disk (ata s') = ata_disk (ata s) → fat s' = fat s → kept B s s' → Q lba s') →
  wp (dir_sector_lba i) n s Q.
Proof.
  intros Hs Hc Hi Hspc Hl HQ. unfold dir_sector_lba. wp_steps. unfold dir_lba in Hl.
  set (c := current_dir_cluster (fat s)) in *. destruct (decide (c = 0)).
  - destruct (decide (i >= root_sectors (fat s))); [done|]. injection Hl as <-. by apply wp_ret, HQ.
  - set (spc := sectors_per_cluster (fat_info (fat s))) in *. rewrite decide_False by lia.
    unfold nth_cluster in Hl. destruct (Nat.iter _ _ _) as [x|] eqn:E; [|done]. cbn [mbind option_bind] in Hl.
    destruct (decide (x >= 0xFFF8)); [done|]. cbn [mbind option_bind] in Hl. injection Hl as <-.
    apply wp_bind, (follow_plain_wp B j s c _ x); [done..|]. intros s1 S1 D1 F1 K1.
    unfold fat_lba_of_cluster. wp_steps. rewrite F1. fold spc. by apply HQ.
Qed.

(** The first [i] sectors of the directory have no unused entry. *)
Definition no_slot d f c (i : nat) : Prop := ∀ i' lba, (i' < i)%nat →
  dir_lba d f c (Z.of_nat i') = Some lba → sector_slot (sector d lba) = None.

(** The first unused entry of the directory, in sector [i] at [lba], was filled. *)
Record entry_created d d' f c (K i k : nat) (lba : Z) (name ext : list Z) (attr cluster size : Z) : Prop := {
  ec_sector : (i < K)%nat ∧ dir_lba d f c (Z.of_nat i) = Some lba;
  ec_before : no_slot d f c i;
  ec_slot : sector_slot (sector d lba) = Some k;
  ec_filled : filled (sector d lba) (sector d' lba) k name ext attr cluster size;
  ec_other : ∀ l, l ≠ lba → sector d' l = sector d l;
}.

Lemma create_entry_wp B j s K filename name ext attr cluster size (Q : Z → machine → Prop) :
  let c := current_dir_cluster (fat s) in
  fs_ok (S (S j)) B N n s → is_fat_initialized (fat s) ≠ 0 → dir_ok (ata s) (fat s) c K → (K < n)%nat →
  to_83 filename = Some (name, ext) →
  length name = 8%nat → length ext = 3%nat → Forall (λ b, 0 ≤ b < 256) name → Forall (λ b, 0 ≤ b < 256) ext →
  0 ≤ attr < 256 → 0 ≤ cluster < 65536 → 0 ≤ size < 2 ^ 32 →
  ¬ no_slot (ata s) (fat s) c K →
  (∀ s' i k lba, fs_ok (S (S j)) B N n s' → fat s' = fat s →
     entry_created (ata s) (ata s') (fat s) c K i k lba name ext attr cluster size → Q 1 s') →
  wp (fat_create_entry filename attr cluster size) n s Q.
Proof.
  intros c Hs Hmt Hd Hn H83 Hnl Hel Hbn Hbe Ha Hc Hsz Hslot HQ. unfold fat_create_entry. wp_steps.
  rewrite decide_False by done. apply wp_bind. rewrite H83. apply wp_some.
  apply wp_bind, (walk_start_wp N n B (S j)); [done|]. intros p B' s1 Hp Hm W1.
  apply (wp_while_idx (λ r i s', walking N n (S j) B B' s s' ∧ 0 ≤ i ≤ Z.of_nat K ∧ r = (K - Z.to_nat i)%nat ∧
    no_slot (ata s) (fat s) c (Z.to_nat i)) _ _ K); [|done|].
  { split_and!; [done|lia..|]. intros i' lba Hi'. lia. }
  intros r i s2 (W2 & Hi & -> & Hno). unfold fat_create_step, fat_get_current_cluster. wp_steps.
  rewrite (wk_fat _ _ _ _ _ _ _ W2). fold c. replace i with (Z.of_nat (Z.to_nat i)) by lia.
  apply (walk_read_wp N n B B' j s s2 p c K); [done..|lia| |].
  2:{ intros s3 EK _. exfalso. apply Hslot. by rewrite <- EK. }
  intros s3 lba Hlt El Hl W3 Hb. rewrite decide_False by done.
  apply wp_bind, (wp_eq _ _ _ _ _ _ (find_slot_run p s3)). rewrite Hb.
  destruct (sector_slot (sector (ata s) lba)) as [k|] eqn:Hk; cbn [fmap option_fmap option_map].
  2:{ apply wp_ret. exists (K - Z.to_nat (i + 1))%nat. split; [lia|].
      replace (Z.of_nat (Z.to_nat i) + 1) with (i + 1) by lia. split_and!; [done|lia..|].
      intros i' lba' Hi' El'. destruct (decide (i' = Z.to_nat i)) as [->|]; [congruence|].
      apply (Hno i'); [lia|done]. }
  destruct (slot_from_Some _ _ _ _ Hk) as ((_ & Hk16) & _). destruct W3 as [S3 D3 F3 K3].
  apply wp_bind, (fill_slot_wp B' (S j)); [done|by eapply owns_new|done..|]. intros s4 S4 A4 F4 _ Hfill.
  assert (ata_disk (ata s4) = ata_disk (ata s) ∧ fat s4 = fat s) as [D4' F4'] by (split; [by rewrite A4|by rewrite F4]).
  apply wp_bind, (dir_sector_lba_wp B' j _ _ lba).
  { done. }
  { rewrite F4'. apply Hd. }
  { lia. }
  { rewrite F4'. apply Hd. }
  { rewrite F4'. by rewrite (dir_lba_disk (ata s)). }
  intros s5 S5 D5 F5 K5. apply wp_bind, (write_buf_wp N n B' (S j)); [done..|]. intros s6 S6 D6 F6 M6 _.
  apply wp_bind, (fs_return_wp N n B (S j) B' s s6 p); [done..|]. intros s7 S7 K7 A7 F7.
  unfold ent_name, ent_ext. wp_steps. wp_print. wp_steps.
  match goal with |- Q 1 ?x => rename x into s8; assert (console_only s7 s8) as HC by (by repeat (etrans; [eassumption|])) end.
  assert (ata s8 = ata s7 ∧ fat s8 = fat s7) as [A8 F8] by (by rewrite HC).
  assert (bytes 512 (mem s5) p = bytes 512 (mem s4) p) as Eb by (apply (kept_bytes B'); [done|by eapply owns_new]).
  rewrite Eb, D5, D4' in D6.
  apply (HQ s8 (Z.to_nat i) k lba).
  - by apply (fs_console _ _ _ _ s7).
  - by rewrite F8, F7, F6, F5.
  - split; [done|done|done| |].
    + rewrite A8, A7. unfold sector at 2. rewrite D6, lookup_insert_eq. cbn [default]. by rewrite <- Hb.
    + intros l Hne. rewrite A8, A7. unfold sector. by rewrite D6, lookup_insert_ne.
Qed.

End creating.

(** ** What is created is found *)

Section found.
Implicit Types (d : ata_dev) (f : fat_vars).

(** Sectors outside the table do not matter to it. *)
Lemma fat_entry_apart d d' f lba c : 0 ≤ fat_start_sector f < 2 ^ 28 - 256 → 0 ≤ c < 65536 →
  (lba < fat_start_sector f ∨ fat_start_sector f + 256 ≤ lba) →
  (∀ l, l ≠ lba → sector d' l = sector d l) → fat_entry d' f c = fat_entry d f c.
Proof.
  intros Hf Hc Hl Ho. unfold fat_entry. destruct (fat_sec_range f c Hf Hc) as (_ & _ & _ & E).
  rewrite Ho; [done|]. rewrite E. dlia.
Qed.

Lemma dir_lba_apart d d' f lba c i : disk_wf d → 0 ≤ fat_start_sector f < 2 ^ 28 - 256 → 0 ≤ c < 65536 →
  (lba < fat_start_sector f ∨ fat_start_sector f + 256 ≤ lba) →
  (∀ l, l ≠ lba → sector d' l = sector d l) → dir_lba d' f c i = dir_lba d f c i.
Proof.
  intros Hd Hf Hc Hl Ho. unfold dir_lba, nth_cluster. destruct (decide (c = 0)); [done|].
  assert (∀ k, Nat.iter k (next_in d' f) (Some c) = Nat.iter k (next_in d f) (Some c)) as ->; [|done].
  intros k. induction k as [|k IH]; [done|]. rewrite !Nat.iter_succ, IH.
  destruct (Nat.iter k (next_in d f) (Some c)) as [x|] eqn:E; [|done]. cbn.
  by rewrite (fat_entry_apart d d' f lba x) by (done || by apply (next_in_range d f c k)).
Qed.

Lemma dir_ok_apart d d' f lba c K : disk_wf d → 0 ≤ fat_start_sector f < 2 ^ 28 - 256 →
  (lba < fat_start_sector f ∨ fat_start_sector f + 256 ≤ lba) →
  (∀ l, l ≠ lba → sector d' l = sector d l) → dir_ok d f c K → dir_ok d' f c K.
Proof.
  intros Hw Hf Hl Ho Hd. pose proof Hd as [A B C D E G].
  assert (∀ i, dir_lba d' f c i = dir_lba d f c i) as El by (intros i; by apply (dir_lba_apart d d' f lba)).
  split; try done; [by rewrite El|intros i; rewrite El; apply E|].
  intros i i' l. rewrite !El. apply G.
Qed.

(** A search that passes used entries does not stop at the end mark. *)
Lemma scan_used name es x : Forall (λ e, ¬ unused e) es → scan name es = Some (Some x) → ∃ e, x = Some e.
Proof.
  induction 1 as [|e es He Hes IH]; [done|]. cbn [scan].
  destruct (look name e) as [[y|]|] eqn:E; cbn [mbind option_bind]; [|done|done]. intros [= <-].
  unfold look, unused in *. destruct (decide (first_byte e = 0x00)); [tauto|].
  destruct (decide (first_byte e = 0xE5)); [done|]. destruct (decide _); [done|].
  destruct (fat_filename_match _ _ _) as [r|]; [|done]. cbn in E. destruct (decide (r = 0)); [done|].
  injection E as <-. eauto.
Qed.

(** In a list where nothing is found, the used entries before some point are passed. *)
Lemma scan_pass name es rest : Forall (λ e, ¬ unused e) es →
  (r ← scan name (es ++ rest); Some (default None r)) = Some None → scan name es = Some None.
Proof.
  intros Hu H. rewrite scan_app in H. destruct (scan name es) as [[x|]|] eqn:E; [|done|done].
  cbn in H. destruct (scan_used name es x Hu E) as [e ->]. done.
Qed.

Lemma sector_entries_split sec (k : nat) : (k < 16)%nat →
  sector_entries sec = (entry_at sec <$> seq 0 k) ++ entry_at sec k :: (entry_at sec <$> seq (S k) (15 - k)).
Proof.
  intros Hk. unfold sector_entries. replace 16%nat with (k + (1 + (15 - k)))%nat by lia.
  rewrite seq_app, fmap_app. done.
Qed.

Lemma no_slot_used d f c i : no_slot d f c i → Forall (λ e, ¬ unused e) (dir_entries d f c i).
Proof.
  induction i as [|i IH]; intros H; [constructor|]. cbn [dir_entries]. apply Forall_app. split.
  - apply IH. intros i' lba Hi'. apply H. lia.
  - destruct (dir_lba d f c (Z.of_nat i)) as [lba|] eqn:E; [|constructor].
    apply Forall_fmap, Forall_seq. intros y Hy. apply (slot_from_None _ 0 16); [by apply (H i); [lia|]|lia].
Qed.

(** The search stops at an entry whose name matches. *)
Lemma look_match name e : ¬ unused e → e_attributes e ≠ 0x0F → Z.land (e_attributes e) ATTR_VOLUME_ID = 0 →
  fat_filename_match (take 8 e) (take 3 (drop 8 e)) name = Some 1 → look name e = Some (Some (Some e)).
Proof.
  intros Hu Ha Hv Hm. unfold look, unused in *. rewrite decide_False by tauto. rewrite decide_False by tauto.
  rewrite decide_False by tauto. rewrite Hm. done.
Qed.

(** After an entry was created in a directory where the name was not found, the search finds it. *)
Lemma created_found d d' f c K i k lba input name ext attr cluster size :
  disk_wf d → 0 ≤ fat_start_sector f < 2 ^ 28 - 256 → dir_ok d f c K →
  entry_created d d' f c K i k lba name ext attr cluster size →
  dir_search d f c K input = Some None →
  (∀ e, dirent_is e name ext attr cluster size → look input e = Some (Some (Some e))) →
  dir_search d' f c K input = Some (Some (entry_at (sector d' lba) k)).
Proof.
  intros Hw Hf Hd [[Hi El] Hno Hk [Hfe Hfo] Ho] Hnf Hlook.
  destruct (do_sec _ _ _ _ Hd (Z.of_nat i)) as (lba' & El' & _ & Hap); [lia|].
  assert (lba' = lba) as -> by congruence.
  assert (∀ x, dir_lba d' f c x = dir_lba d f c x) as Hl by (intros x; apply (dir_lba_apart d d' f lba); [done|done|apply Hd|done..]).
  destruct (slot_from_Some _ _ _ _ Hk) as ([_ Hk16] & _ & Hbefore).
  assert (dir_entries d' f c i = dir_entries d f c i) as Ei.
  { apply dir_entries_disk; [done|]. intros x l Hx E. apply Ho. intros ->.
    assert (Z.of_nat x = Z.of_nat i) by (apply (do_inj _ _ _ _ Hd _ _ lba); [lia|lia|done..]). lia. }
  set (used := dir_entries d f c i ++ (entry_at (sector d lba) <$> seq 0 k)).
  assert (∃ rest, dir_entries d f c K = used ++ rest) as [rest Er].
  { destruct (dir_entries_split d f c (S i) K Hi) as [rest ->]. cbn [dir_entries].
    rewrite El, (sector_entries_split _ k Hk16). unfold used. eexists. by rewrite <- !app_assoc. }
  assert (∃ rest', dir_entries d' f c K = used ++ entry_at (sector d' lba) k :: rest') as [rest' Er'].
  { destruct (dir_entries_split d' f c (S i) K Hi) as [rest' ->]. cbn [dir_entries].
    rewrite Hl, El, Ei, (sector_entries_split _ k Hk16). unfold used.
    assert (entry_at (sector d' lba) <$> seq 0 k = entry_at (sector d lba) <$> seq 0 k) as ->.
    { apply list_fmap_ext. intros x y [-> Hy]%lookup_seq. apply Hfo; lia. }
    eexists. by rewrite <- !app_assoc. }
  unfold dir_search in *. rewrite Er in Hnf. apply scan_pass in Hnf.
  - rewrite Er', scan_app, Hnf. cbn [mbind option_bind scan]. by rewrite Hlook.
  - apply Forall_app. split; [by apply no_slot_used|]. apply Forall_fmap, Forall_seq. intros y Hy. apply Hbefore. lia.
Qed.

Lemma text_bytes t : is_text t → Forall (λ b, 0 ≤ b < 256) t.
Proof. intros H. eapply Forall_impl; [exact H|]. intros x Hx. cbn in Hx. lia. Qed.

(** The entry stored for a typed name matches that name. *)
Lemma look_typed base ext input tl e attr cluster size :
  is_part base → is_part ext → (length base ≤ 8)%nat → (length ext ≤ 3)%nat →
  ¬ (length base = 8%nat ∧ length ext = 3%nat) → head base ≠ Some 0xE5 →
  is_text input → to_upper <$> typed base ext = to_upper <$> input →
  attr ≠ 0x0F → Z.land attr ATTR_VOLUME_ID = 0 →
  dirent_is e (pad 8 base) (pad 3 ext) attr cluster size →
  look (input ++ 0 :: tl) e = Some (Some (Some e)).
Proof.
  intros Hb He Hbl Hel Hfull H0 Hi Hup Ha Hv [En Ee Ea _ _]. apply look_match; [|by rewrite Ea..|].
  - unfold unused. assert (first_byte e = first_byte (pad 8 base)) as ->
      by (unfold first_byte; by rewrite <- En, lookup_take_lt by lia).
    unfold first_byte, pad. destruct Hb as [|x base Hx Hb]; [cbn; lia|]. cbn.
    assert (x ≠ 0xE5) by (intros ->; by apply H0). unfold to_upper. repeat case_decide; lia.
  - rewrite En, Ee, match_typed by done. rewrite decide_False by done. by rewrite decide_True.
Qed.

End found.

(** ** Changing the directory *)

(** The variables with another current directory and path. *)
Definition in_dir (f : fat_vars) (c : Z) (path : list Z) : fat_vars :=
  mkFat (fat_info f) (fat_start_sector f) (root_dir_sector f) (data_start_sector f) c path (is_fat_initialized f).

Section change_dir.
Context (N n : nat).
Implicit Types (B : list blk) (s : machine) (d : ata_dev) (f : fat_vars) (j : nat).

Lemma fs_in_dir B j s c path : fs_ok j B N n s → fs_ok j B N n (set_fat (in_dir (fat s) c path) s).
Proof. intros [H1 H2 H3 H4 H5]. split; try done. by eapply bufs_frame. Qed.

Lemma change_dir_wp B j s K dirname e path (Q : unit → machine → Prop) :
  fs_ok (S (S j)) B N n s → is_fat_initialized (fat s) ≠ 0 →
  dir_ok (ata s) (fat s) (current_dir_cluster (fat s)) K → (K < n)%nat →
  dir_search (ata s) (fat s) (current_dir_cluster (fat s)) K dirname = Some (Some e) →
  Z.land (e_attributes e) ATTR_DIRECTORY ≠ 0 →
  update_path dirname (take 8 e) (current_path (fat s)) = Some path →
  (∀ s', fs_ok (S (S j)) B N n s' → ata_disk (ata s') = ata_disk (ata s) →
     fat s' = in_dir (fat s) (e_first_cluster_low e) path → Q tt s') →
  wp (fat_change_dir dirname) n s Q.
Proof.
  intros Hs Hmt Hd Hn Hf Ha Hp HQ. unfold fat_change_dir. wp_steps. rewrite decide_False by done.
  apply wp_bind, (find_file_wp N n B j s K _ (Some e)); [done..|]. intros s1 [S1 D1 F1 _].
  rewrite decide_True by done. unfold fat_vars_upd at 1. apply wp_bind, wp_modify. rewrite F1.
  apply wp_bind, wp_kprint. intros s2 Hc. unfold fat_get_current_path. wp_steps.
  assert (fat s2 = in_dir (fat s) (e_first_cluster_low e) (current_path (fat s)) ∧ ata s2 = ata s1) as [F2 A2] by (by rewrite Hc).
  rewrite F2. change (current_path (in_dir (fat s) ?c ?p)) with p. rewrite Hp. unfold fat_vars_upd. wp_steps. rewrite F2.
  apply HQ; [|cbn; by rewrite A2|done].
  assert (fs_ok (S (S j)) B N n s2) as S2.
  { eapply fs_console; [exact Hc|]. rewrite <- F1. by apply fs_in_dir. }
  apply (fs_in_dir _ _ _ (e_first_cluster_low e) path) in S2. by rewrite F2 in S2.
Qed.

End change_dir.

(** ** A directory to evaluate on *)

(** The root directory at sector 600, with the file HELLO.TXT and a deleted entry. *)
Definition dir_demo_sector : list Z :=
  str "HELLO   TXT" ++ [0x20] ++ replicate 14 0 ++ [2; 0; 13; 0; 0; 0] ++
  0xE5 :: replicate 31 0 ++ replicate 448 0.

(** A mounted file system on a given disk: table at sector 1, root directory of one sector at
    600, one sector per cluster from 601 on. *)
Definition disk_machine (disk : gmap Z (list Z)) : machine :=
  set_fat (mkFat (mkBpb (replicate 8 32) 512 1 1 1 16 0 0xF8 1 0 0 0 0) 1 600 601 0 (47 :: replicate 255 0) 1)
    (set_ata (mkAta disk 0 0 0 0 0 false 0 AtaIdle []) heap_demo).

Definition sector_check (l : list Z) : bool :=
  (length l =? 512)%nat && forallb (λ b, (0 <=? b) && (b <? 256)) l.

Lemma disk_machine_ok disk : map_Forall (λ _ l, sector_check l = true) disk →
  fs_ok 3 [mkBlk 0x2000000 4072 true] 1 5 (disk_machine disk).
Proof.
  intros Hd. split.
  - split; [|done| |simpl; lia].
    + exists 0x2001000. by apply set_fat_ata_heap, heap_demo_inv.
    + do 3 (eexists _, _; split; [done|]). done.
  - split; [cbn; lia|done|constructor].
  - intros lba. unfold sector. cbn [ata disk_machine set_fat set_ata ata_disk].
    destruct (disk !! lba) as [l|] eqn:E; cbn [default].
    + apply Hd in E. unfold sector_check in E. apply andb_true_iff in E as [El Eb]. split; [by apply Nat.eqb_eq|].
      apply Forall_forall. intros x Hx. rewrite forallb_forall in Eb. specialize (Eb x ltac:(by apply list_elem_of_In)). lia.
    + split; [apply length_replicate|by apply Forall_replicate].
  - split; [lia|by vm_compute].
  - cbn. lia.
Qed.

Definition dir_demo : machine := disk_machine {[ 600 := dir_demo_sector ]}.

Lemma dir_demo_ok : fs_ok 3 [mkBlk 0x2000000 4072 true] 1 5 dir_demo.
Proof. apply disk_machine_ok, map_Forall_singleton. by vm_compute. Qed.

Lemma dir_demo_dir : dir_ok (ata dir_demo) (fat dir_demo) 0 1.
Proof.
  split; [lia|by vm_compute|by vm_compute|by vm_compute| |].
  - intros i Hi. assert (i = 0) as -> by lia. exists 600. split; [by vm_compute|]. cbn. lia.
  - intros. lia.
Qed.

(** ** Properties *)

(** C19. [fat_find_file] is the search in the list of the directory's entries: it passes deleted
    entries, long names and volume labels, stops at the end mark, returns the first entry whose
    name matches, and leaves the disk, the file system's variables and the blocks of the heap as
    they were. *)
Theorem fat_find_file_spec B j N n s K name r :
  fs_ok (S (S j)) B N n s → is_fat_initialized (fat s) ≠ 0 →
  dir_ok (ata s) (fat s) (current_dir_cluster (fat s)) K → (K < n)%nat →
  dir_search (ata s) (fat s) (current_dir_cluster (fat s)) K name = Some r →
  wp (fat_find_file name) n s (λ r' s', r' = r ∧ fs_ok (S (S j)) B N n s' ∧
    ata_disk (ata s') = ata_disk (ata s) ∧ fat s' = fat s ∧ kept B s s').
Proof. intros. eapply (find_file_wp N n B j); [done..|]. by intros s' []. Qed.

Lemma fat_find_file_spec_witness :
  wp (fat_find_file (str "hello.txt" ++ [0])) 5 dir_demo (λ r' s', r' = Some (take 32 dir_demo_sector) ∧
    fs_ok 3 [mkBlk 0x2000000 4072 true] 1 5 s' ∧
    ata_disk (ata s') = ata_disk (ata dir_demo) ∧ fat s' = fat dir_demo ∧ kept [mkBlk 0x2000000 4072 true] dir_demo s').
Proof.
  apply (fat_find_file_spec [mkBlk 0x2000000 4072 true] 1 1 5 dir_demo 1);
    [exact dir_demo_ok|vm_compute; lia|exact dir_demo_dir|lia|vm_compute; reflexivity].
Defined.

(** C18. What is created is found: in a directory with an unused entry where the typed name is not
    found, [fat_create_entry] stores an entry that [fat_find_file] then returns, with the
    attributes, the cluster and the size given, whatever the case of the letters asked for.  A
    name of full 8.3 length has no defined comparison, and 0xE5 as a first character marks the
    new entry as deleted; both are excluded. *)
Theorem create_then_find B j N n s K base ext tl input tl' attr cluster size :
  let c := current_dir_cluster (fat s) in
  fs_ok (S (S j)) B N n s → is_fat_initialized (fat s) ≠ 0 → dir_ok (ata s) (fat s) c K → (K < n)%nat →
  is_part base → is_part ext → (length base ≤ 8)%nat → (length ext ≤ 3)%nat →
  ¬ (length base = 8%nat ∧ length ext = 3%nat) → head base ≠ Some 0xE5 →
  is_text input → to_upper <$> typed base ext = to_upper <$> input →
  0 ≤ attr < 256 → attr ≠ 0x0F → Z.land attr ATTR_VOLUME_ID = 0 →
  0 ≤ cluster < 65536 → 0 ≤ size < 2 ^ 32 →
  ¬ no_slot (ata s) (fat s) c K →
  dir_search (ata s) (fat s) c K (input ++ 0 :: tl') = Some None →
  wp (fat_create_entry (typed base ext ++ 0 :: tl) attr cluster size;; fat_find_file (input ++ 0 :: tl')) n s
    (λ r s', fs_ok (S (S j)) B N n s' ∧
       ∃ e, r = Some e ∧ dirent_is e (pad 8 base) (pad 3 ext) attr cluster size).
Proof.
  intros c Hs Hmt Hd Hn Hb He Hbl Hel Hfull H0 Hi Hup Ha Ha1 Ha2 Hc Hsz Hslot Hnf. unfold c in *. clear c.
  apply wp_bind, (create_entry_wp N n B j s K _ (pad 8 base) (pad 3 ext));
    [done|done|done|done|by apply to_83_typed|by apply pad_length|by apply pad_length|by apply text_bytes, pad_text|by apply text_bytes, pad_text|done..|].
  intros s1 i k lba S1 F1 Hcr. pose proof Hcr as [[Hik El] _ _ [Hfe _] Ho].
  destruct (do_sec _ _ _ _ Hd (Z.of_nat i)) as (lba' & El' & _ & Hap); [lia|].
  assert (lba' = lba) as -> by congruence.
  pose proof (fs_disk _ _ _ _ _ Hs) as Hw. pose proof (fs_start _ _ _ _ _ Hs) as Hst.
  apply (find_file_wp N n B j s1 K _ (Some (entry_at (sector (ata s1) lba) k))); rewrite ?F1; [done|done| |done| |].
  - by apply (dir_ok_apart (ata s) _ _ lba).
  - eapply created_found; [done..|]. intros e0. by apply look_typed.
  - intros s2 [S2 _ _ _]. split; [done|]. eauto.
Qed.

Lemma create_then_find_witness :
  wp (fat_create_entry (str "new.c" ++ [0]) 0x20 7 300;; fat_find_file (str "New.C" ++ [0])) 5 dir_demo
    (λ r s', fs_ok 3 [mkBlk 0x2000000 4072 true] 1 5 s' ∧
       ∃ e, r = Some e ∧ dirent_is e (str "NEW     ") (str "C  ") 0x20 7 300).
Proof.
  apply (create_then_find [mkBlk 0x2000000 4072 true] 1 1 5 dir_demo 1 (str "new") (str "c") [] (str "New.C") [] 0x20 7 300);
    [exact dir_demo_ok|vm_compute; lia|exact dir_demo_dir|lia|by chars|by chars|vm_compute; lia|vm_compute; lia
    |vm_compute; lia|done|by chars|vm_compute; reflexivity|lia|lia|vm_compute; reflexivity|lia|lia| |vm_compute; reflexivity].
  intros H. specialize (H 0%nat 600 ltac:(lia) ltac:(vm_compute; reflexivity)). vm_compute in H. discriminate H.
Defined.

(** C27. [cd] into a directory and [cd ..] back: the command follows the entry found for the
    name to its cluster, and appends to the path the name field of the entry, eight
    characters without the extension, if the 256 bytes of the path have room for it; from
    there [cd ..] follows the directory's entry for its parent, and cluster and path are what
    they were.  The disk does not change. *)
Theorem cd_up_restores_path B j N n s K K1 dir tl tl' e e1 t rest w :
  let c := current_dir_cluster (fat s) in let c1 := e_first_cluster_low e in
  fs_ok (S (S j)) B N n s → is_fat_initialized (fat s) ≠ 0 → (K < n)%nat → (K1 < n)%nat →
  dir_ok (ata s) (fat s) c K → dir_ok (ata s) (fat s) c1 K1 →
  is_text dir → dir ≠ str ".." → dir ≠ str "." →
  dir_search (ata s) (fat s) c K (dir ++ 0 :: tl) = Some (Some e) → Z.land (e_attributes e) ATTR_DIRECTORY ≠ 0 →
  dir_search (ata s) (fat s) c1 K1 (str ".." ++ 0 :: tl') = Some (Some e1) →
  Z.land (e_attributes e1) ATTR_DIRECTORY ≠ 0 → e_first_cluster_low e1 = c →
  is_path t → current_path (fat s) = t ++ 0 :: rest → length (t ++ 0 :: rest) = 256%nat →
  is_component w → take 8 e = w ++ replicate (8 - length w) 32 → (length t + length w + 2 < 256)%nat →
  wp (fat_change_dir (dir ++ 0 :: tl)) n s (λ _ s1,
    current_dir_cluster (fat s1) = c1 ∧ string_of (current_path (fat s1)) = child t w ∧
    wp (fat_change_dir (str ".." ++ 0 :: tl')) n s1 (λ _ s2,
      current_dir_cluster (fat s2) = c ∧ string_of (current_path (fat s2)) = t ∧
      ata_disk (ata s2) = ata_disk (ata s))).
Proof.
  intros c c1 Hs Hmt Hn Hn1 Hd Hd1 Hdir Hup Hhere Hf Ha Hf1 Ha1 Hc Ht Ep Hlen Hw Hname Hroom.
  pose proof (update_path_enter dir tl (take 8 e) t rest w Hdir Hup Hhere Ht Hw Hname Hlen Hroom) as Hin.
  destruct (overlay_child (t ++ 0 :: rest) t w Hlen Hroom) as (r & Er & Hr). rewrite Er in Hin.
  destruct (update_path_leave tl' (take 8 e1) t w r Ht Hw) as [r' Hout]; [by rewrite Hr|].
  apply (change_dir_wp N n B j s K _ e (child t w ++ 0 :: r)); [done..|by rewrite Ep|].
  intros s1 S1 D1 F1. rewrite F1. cbn [in_dir current_dir_cluster current_path]. split; [done|].
  split; [apply string_of_text, child_text; [apply Ht|by apply component_text]|].
  assert (∀ i, dir_lba (ata s1) (in_dir (fat s) c1 (child t w ++ 0 :: r)) c1 i = dir_lba (ata s) (fat s) c1 i) as El
    by (intros i; exact (dir_lba_disk (ata s) (ata s1) (fat s) c1 i D1)).
  apply (change_dir_wp N n B j s1 K1 _ e1 (t ++ 0 :: r')); rewrite ?F1; cbn [in_dir current_dir_cluster current_path];
    [done|done| |done| |done|done|].
  - destruct Hd1 as [A1 A2 A3 A4 A5 A6]. split; [done|done|done|by rewrite El|intros i; rewrite El; apply A5|].
    intros i i' lba. rewrite !El. apply A6.
  - unfold dir_search in *. rewrite (dir_entries_disk (ata s) (ata s1) (fat s)); [exact Hf1|exact El|]. intros i lba _ _. unfold sector. by rewrite D1.
  - intros s2 S2 D2 F2. rewrite F2. cbn [in_dir current_dir_cluster current_path]. split; [done|].
    split; [apply string_of_text, Ht|congruence].
Qed.

(** The root directory holds SUB, whose cluster 5 holds its entries for itself and the root. *)
Definition dir_entry (name : list Z) (attr cluster size : Z) : list Z :=
  name ++ [attr] ++ replicate 14 0 ++ [cluster mod 256; cluster / 256; size mod 256; size / 256; 0; 0].

Definition cd_disk : gmap Z (list Z) :=
  <[1 := replicate 10 0 ++ [0xFF; 0xFF] ++ replicate 500 0]>
  (<[600 := dir_entry (str "SUB        ") 0x10 5 0 ++ replicate 480 0]>
  (<[604 := dir_entry (str ".          ") 0x10 5 0 ++ dir_entry (str "..         ") 0x10 0 0 ++ replicate 448 0]> ∅)).

Lemma cd_demo_ok : fs_ok 3 [mkBlk 0x2000000 4072 true] 1 5 (disk_machine cd_disk).
Proof.
  apply disk_machine_ok. unfold cd_disk.
  repeat (apply map_Forall_insert_2; [by vm_compute|]). apply map_Forall_empty.
Qed.

Lemma cd_demo_dirs : dir_ok (ata (disk_machine cd_disk)) (fat (disk_machine cd_disk)) 0 1 ∧
  dir_ok (ata (disk_machine cd_disk)) (fat (disk_machine cd_disk)) 5 1.
Proof.
  split; (split; [lia|by vm_compute|by vm_compute|by vm_compute| |intros; lia]);
    intros i Hi; assert (i = 0) as -> by lia; eexists; (split; [by vm_compute|]); cbn; lia.
Qed.

Lemma cd_up_restores_path_witness :
  wp (fat_change_dir (str "sub" ++ 0 :: [])) 5 (disk_machine cd_disk) (λ _ s1,
    current_dir_cluster (fat s1) = 5 ∧ string_of (current_path (fat s1)) = str "/SUB" ∧
    wp (fat_change_dir (str ".." ++ 0 :: [])) 5 s1 (λ _ s2,
      current_dir_cluster (fat s2) = 0 ∧ string_of (current_path (fat s2)) = str "/" ∧
      ata_disk (ata s2) = cd_disk)).
Proof.
  destruct cd_demo_dirs as [D0 D1].
  apply (cd_up_restores_path [mkBlk 0x2000000 4072 true] 1 1 5 (disk_machine cd_disk) 1 1 (str "sub") [] []
    (dir_entry (str "SUB        ") 0x10 5 0) (dir_entry (str "..         ") 0x10 0 0) [47] (replicate 254 0) (str "SUB"));
    [exact cd_demo_ok|vm_compute; lia|lia|lia|exact D0|exact D1|by chars|done|done|vm_compute; reflexivity
    |vm_compute; lia|vm_compute; reflexivity|vm_compute; lia|reflexivity|split; [by chars|by left]|reflexivity
    |reflexivity|split; [by chars|vm_compute; lia]|reflexivity|vm_compute; lia].
Defined.
