(* ===== verification/Frames.v ===== *)
(** Data frames of an address space.

    The programs' loaders fill frames of the frame allocator and map them with
    [vmm_map_page].  A data frame is a frame in use that holds none of the page tables; the
    relation [loads] says that a step kept every data frame there was and its contents.  It
    is what src/kernel/vmm.c and src/kernel/pmm.c promise to src/kernel/elf.c and to exec in
    src/kernel/kernel.c. *)
From S2P Require Import Prelude Memory Hardware Machine Utils Screen Pmm Kheap Vmm.

Definition dframe (s : machine) (root i : Z) : Prop :=
  8192 ≤ i < total_blocks (pmm s) ∧ used s i = true ∧
  ∀ q u, (length q ≤ 3)%nat → Forall idx_ok q → walk_path (mem s) root q = Some u → u ≠ i * 4096.

Record loads (root : Z) (s s' : machine) : Prop := {
  ld_tree : tree s' root;
  ld_only : s' = set_cons (cons s') (set_mem (mem s') s);
  ld_used : ∀ j, 0 ≤ j < total_blocks (pmm s) → used s j = true → used s' j = true;
  ld_data : ∀ i, dframe s root i → dframe s' root i;
  ld_mem : ∀ x, dframe s root (x / 4096) → byte_at (mem s') x = byte_at (mem s) x;
  ld_path : ∀ q u, (length q ≤ 3)%nat → Forall idx_ok q →
    walk_path (mem s) root q = Some u → walk_path (mem s') root q = Some u;
}.

(** No translation changed. *)
Definition same_walks (root : Z) (s s' : machine) : Prop :=
  ∀ va, walk (mem s') root va = walk (mem s) root va.

#[export] Instance same_walks_preorder root : PreOrder (same_walks root).
Proof. split; [by intros s va|]. intros s1 s2 s3 H1 H2 va. by rewrite H2, H1. Qed.

Section frames.
Implicit Types (s : machine) (root f : Z).

Lemma loads_pmm root s s' : loads root s s' → pmm s' = pmm s.
Proof. intros H. by rewrite (ld_only _ _ _ H). Qed.

Lemma loads_refl root s : tree s root → loads root s s.
Proof. intros H. split; try done. by destruct s. Qed.

Lemma loads_trans root s1 s2 s3 : loads root s1 s2 → loads root s2 s3 → loads root s1 s3.
Proof.
  intros A B. split.
  - apply B.
  - rewrite (ld_only _ _ _ B) at 1. by rewrite (ld_only _ _ _ A).
  - intros j Hj Hu. apply (ld_used _ _ _ B); [by rewrite (loads_pmm _ _ _ A)|]. by apply (ld_used _ _ _ A).
  - intros i Hi. by apply (ld_data _ _ _ B), (ld_data _ _ _ A).
  - intros x Hx. rewrite (ld_mem _ _ _ B) by (by apply (ld_data _ _ _ A)). by apply (ld_mem _ _ _ A).
  - intros q u Hq Hqi Hu. by apply (ld_path _ _ _ B), (ld_path _ _ _ A).
Qed.

Lemma loads_full root s s' : loads root s s' → full s → full s'.
Proof. intros H Hf j Hj. rewrite (loads_pmm _ _ _ H) in Hj. by apply (ld_used _ _ _ H), Hf. Qed.

(** A step that keeps the bytes of every table keeps the tree and the walks. *)
Lemma tables_kept s s' root : tree s root → pmm_wf s' → pmm_fits s' → pmm s' = pmm s →
  (∀ j, 0 ≤ j < total_blocks (pmm s) → used s j = true → used s' j = true) →
  (∀ t x, table_frame s t → (∃ q, (length q ≤ 3)%nat ∧ Forall idx_ok q ∧ walk_path (mem s) root q = Some t) →
     t ≤ x < t + 4096 → byte_at (mem s') x = byte_at (mem s) x) →
  tree s' root ∧ same_walks root s s' ∧
  ∀ q, (length q ≤ 3)%nat → Forall idx_ok q → walk_path (mem s') root q = walk_path (mem s) root q.
Proof.
  intros Ht Hwf Hfit Hp Hu Hk.
  assert (∀ q u i, (length q ≤ 3)%nat → Forall idx_ok q → idx_ok i → walk_path (mem s) root q = Some u →
    entry (mem s') u i = entry (mem s) u i) as He.
  { intros q u i Hq Hqi Hi Hw. unfold entry, idx_ok in *. apply load_ext. intros x Hx.
    eapply Hk; [by apply (tr_frame _ _ Ht q)|by exists q|lia]. }
  assert (∀ q, (length q ≤ 3)%nat → Forall idx_ok q → walk_path (mem s') root q = walk_path (mem s) root q) as Hw.
  { intros q Hq Hqi. apply walk_path_same; [done|]. intros r u i Hr Hri Hi Hu'. eapply (He r); by auto with lia. }
  split_and!; [|intros va|done].
  - split; [done..| |].
    + intros q t Hq Hqi. rewrite Hw by done. intros Hqt.
      destruct (tr_frame _ _ Ht q t Hq Hqi Hqt) as (k & -> & Hkr & Hku).
      exists k. rewrite Hp. split_and!; try done; [lia..|]. apply Hu; [lia|done].
    + intros q r t Hq Hr Hqi Hri. rewrite !Hw by done. by apply (tr_inj _ _ Ht).
  - unfold walk, leaf. rewrite Hw by (apply path_of_ok || (simpl; lia)).
    destruct (walk_path (mem s) root (path_of va)) as [u|] eqn:E; [|done]. cbn [mbind option_bind].
    by rewrite (He (path_of va)) by (apply path_of_ok || apply indices_ok || (simpl; lia) || done).
Qed.

Lemma allocated_loads root s s' f : tree s root → allocated s s' f →
  loads root s s' ∧ same_walks root s s' ∧ dframe s' root f ∧ ¬ dframe s root f.
Proof.
  intros Ht Hal. pose proof (al_range _ _ _ Hal). pose proof (al_free _ _ _ Hal) as Hfree.
  assert (pmm s' = pmm s) as Hp by (by rewrite (al_frame _ _ _ Hal)).
  assert (∀ j, 0 ≤ j → used s j = true → used s' j = true) as Hu.
  { intros j Hj Hj'. by rewrite (al_used _ _ _ Hal), Hj'. }
  destruct (tables_kept s s' root) as (Ht' & Hw & Hpath); [done|..|done|intros j ? ; apply Hu; lia| |].
  { eapply allocated_wf; [apply Ht|done]. }
  { eapply allocated_fits; [apply Ht|done]. }
  { intros t x (k & -> & Hk & _) _ Hx. eapply allocated_high; [apply Ht|done|lia]. }
  split_and!; [split|..]; try done.
  - rewrite (al_frame _ _ _ Hal). by destruct s.
  - intros j ?; apply Hu; lia.
  - intros i (Hi & Hiu & Hin). split; [by rewrite Hp|]. split; [apply Hu; [lia|done]|].
    intros q u Hq Hqi. rewrite Hpath by done. by apply Hin.
  - intros x (Hx & _). eapply allocated_high; [apply Ht|done|dlia].
  - intros q u Hq Hqi. by rewrite Hpath.
  - split; [by rewrite Hp|]. split.
    + rewrite (al_used _ _ _ Hal) by lia. by rewrite bool_decide_eq_true_2, orb_true_r.
    + intros q u Hq Hqi. rewrite Hpath by done. intros Hqu ->.
      destruct (tr_frame _ _ Ht q _ Hq Hqi Hqu) as (k & Ek & _ & Hku). assert (k = f) by lia. congruence.
  - intros (_ & Hfu & _). congruence.
Qed.

(** What [mapped] and [extends] say about data frames. *)
Lemma table_step_loads root s s' : tree s' root → s' = set_cons (cons s') (set_mem (mem s') s) →
  (∀ j, 0 ≤ j < total_blocks (pmm s) → used s j = true → used s' j = true) →
  (∀ q u, (length q ≤ 3)%nat → Forall idx_ok q → walk_path (mem s') root q = Some u →
     walk_path (mem s) root q = Some u ∨ used s (u / 4096) = false) →
  (∀ x, 0x2000000 ≤ x → x / 4096 < total_blocks (pmm s) → used s (x / 4096) = true →
    (∀ q u, (length q ≤ 3)%nat → Forall idx_ok q → walk_path (mem s) root q = Some u →
       u ≠ x / 4096 * 4096) → byte_at (mem s') x = byte_at (mem s) x) →
  (∀ q u, (length q ≤ 3)%nat → Forall idx_ok q → walk_path (mem s) root q = Some u → walk_path (mem s') root q = Some u) →
  loads root s s'.
Proof.
  intros Ht Ho Hu Hnew Hm Hpath. assert (pmm s' = pmm s) as Hp by (by rewrite Ho). split; try done.
  - intros i (Hi & Hiu & Hin). split; [by rewrite Hp|]. split; [apply Hu; [lia|done]|].
    intros q u Hq Hqi Hqu ->. destruct (Hnew q _ Hq Hqi Hqu) as [H|H].
    + by apply (Hin q _ Hq Hqi H).
    + rewrite Z.div_mul in H by done. congruence.
  - intros x (Hx & Hxu & Hxn). apply Hm; [dlia|lia|done|]. intros q u Hq Hqi Hqu. by apply (Hxn q).
Qed.

Lemma mapped_loads root s s' va e : mapped s s' root va e → loads root s s'.
Proof. intros H. apply table_step_loads; apply H. Qed.

Lemma extends_loads root s s' : extends s s' root → loads root s s' ∧ same_walks root s s'.
Proof.
  intros H. split; [apply table_step_loads; apply H|]. intros va.
  apply (ex_leaf _ _ _ H); [done|apply path_of_ok|apply indices_ok].
Qed.

Lemma console_loads root s s' : tree s root → console_only s s' → loads root s s' ∧ same_walks root s s'.
Proof. intros Ht Hc. by apply extends_loads, extends_console. Qed.

(** Writing into a data frame. *)
Lemma frame_write root s m' f : tree s root → dframe s root f → agree_out (mem s) m' (f * 4096) 4096 →
  tree (set_mem m' s) root ∧ same_walks root s (set_mem m' s) ∧
  (∀ j, 0 ≤ j < total_blocks (pmm s) → used (set_mem m' s) j = used s j) ∧
  (∀ i, dframe s root i → dframe (set_mem m' s) root i) ∧
  ∀ q, (length q ≤ 3)%nat → Forall idx_ok q → walk_path m' root q = walk_path (mem s) root q.
Proof.
  intros Ht (Hr & Hfu & Hfn) Hag.
  assert (low_same s (set_mem m' s)) as Hls by (split; [done|]; intros x Hx; apply Hag; lia).
  destruct (low_same_wf _ _ (tr_pmm _ _ Ht) (tr_fits _ _ Ht) Hls) as [Hwf Hfit].
  assert (∀ j, 0 ≤ j < total_blocks (pmm s) → used (set_mem m' s) j = used s j) as Hu.
  { intros j Hj. apply low_same_used; [apply Ht..|done|lia|lia]. }
  destruct (tables_kept s (set_mem m' s) root) as (Ht' & Hw & Hpath); [done..|by intros; rewrite Hu| |].
  { intros t x (k & -> & _ & _) (q & Hq & Hqi & Hqt) Hx. apply Hag. intros Hin.
    apply (Hfn q _ Hq Hqi Hqt). lia. }
  split_and!; [done..| |exact Hpath]. intros i (Hi & Hiu & Hin). split; [done|]. split; [rewrite Hu by lia; done|].
  intros q u Hq Hqi. rewrite Hpath by done. by apply Hin.
Qed.

(** Filling a data frame that was none before. *)
Lemma fill_loads root s0 s m' f : loads root s0 s → ¬ dframe s0 root f → dframe s root f →
  agree_out (mem s) m' (f * 4096) 4096 →
  loads root s0 (set_mem m' s) ∧ same_walks root s (set_mem m' s) ∧ dframe (set_mem m' s) root f.
Proof.
  intros Hl Hno Hf Hag. pose proof (loads_pmm _ _ _ Hl) as Hp.
  destruct (frame_write root s m' f (ld_tree _ _ _ Hl) Hf Hag) as (Ht & Hw & Hu & Hd & Hpath).
  split_and!; [|done|by apply Hd]. split; try done.
  - by rewrite (ld_only _ _ _ Hl).
  - intros j Hj Hj'. rewrite Hu by (by rewrite Hp). by apply (ld_used _ _ _ Hl).
  - intros i Hi. by apply Hd, (ld_data _ _ _ Hl).
  - intros x Hx. cbn [mem set_mem]. rewrite Hag; [by apply (ld_mem _ _ _ Hl)|]. intros Hin.
    apply Hno. by replace f with (x / 4096) by dlia.
  - intros q u Hq Hqi Hu'. cbn [mem set_mem]. rewrite Hpath by done. by apply (ld_path _ _ _ Hl).
Qed.

(** Entry 0 stays shared: what is loaded below a user root shows below the kernel's root. *)
Lemma shares_loads s s' k root va : shares s k root → loads root s s' → PML4_INDEX va = 0 →
  walk (mem s') k va = walk (mem s') root va.
Proof.
  intros Hsh Hl Hi. destruct (tree_root_frame _ _ (sh_kernel _ _ _ Hsh)) as (i & Ei & Hr & Hu).
  assert (dframe s root i) as Hd.
  { split; [done|]. split; [done|]. intros q u Hq Hqi Hw ->. apply (sh_apart _ _ _ Hsh q Hq Hqi). by rewrite Hw, Ei. }
  assert (entry (mem s') k 0 = entry (mem s) k 0) as Ek.
  { apply load_ext. intros x Hx. apply (ld_mem _ _ _ Hl). by replace (x / 4096) with i by dlia. }
  pose proof (ld_path _ _ _ Hl [0] (frame_of (entry (mem s) k 0)) ltac:(simpl; lia)) as Hp. cbn [walk_path] in Hp.
  rewrite (sh_entry _ _ _ Hsh), (sh_present _ _ _ Hsh) in Hp.
  specialize (Hp ltac:(repeat constructor; unfold idx_ok; lia) eq_refl).
  unfold walk, leaf, path_of. rewrite Hi. cbn [walk_path]. rewrite Ek, (sh_present _ _ _ Hsh).
  destruct (present (entry (mem s') root 0)); [|done]. by injection Hp as ->.
Qed.

End frames.

(** ** What kernel pointers reach

    The model's loads and stores act on physical memory; the code's go through the page
    tables CR3 points to.  They agree while the addresses the kernel uses as pointers, the
    bitmap and the frames it allocates, are mapped to themselves. *)
Definition kernel_area (s : machine) (x : Z) : Prop :=
  0x200000 ≤ x < 0x200000 + bitmap_span s ∨ 0x2000000 ≤ x < total_blocks (pmm s) * 4096.

Record kernel_pointers (s : machine) : Prop := {
  kp_low : total_blocks (pmm s) * 4096 ≤ 2 ^ 39;
  kp_self : ∀ x, kernel_area s x → translate (mem s) (cr3 (cpu s)) x = Some x;
}.

(** A page outside that area, and above the kernel itself, which ends below the bitmap. *)
Definition off_kernel (s : machine) (va : Z) : Prop :=
  0x200000 + bitmap_span s ≤ va / 4096 * 4096 ∧ (va < 0x2000000 ∨ total_blocks (pmm s) * 4096 ≤ va).

Section pointers.
Implicit Types (s : machine) (root : Z).

Lemma off_kernel_page s x va : off_kernel s va → kernel_area s x → va / 4096 ≠ x / 4096.
Proof. unfold off_kernel, kernel_area. intros H1 H2. dlia. Qed.

Lemma low_index va : 0 ≤ va < 2 ^ 39 → PML4_INDEX va = 0.
Proof. intros H. destruct (indices_div va) as (-> & _). change (2 ^ 39) with 549755813888 in *. dlia. Qed.

(** Kernel pointers keep their meaning when a user root that shares entry 0 with the active
    one is changed off the kernel's area only. *)
Lemma kernel_pointers_loads s s' root : shares s (cr3 (cpu s)) root → kernel_pointers s → loads root s s' →
  (∀ x, kernel_area s x → walk (mem s') root x = walk (mem s) root x) → kernel_pointers s'.
Proof.
  intros Hsh [Hlow Hself] Hl Hw. pose proof (loads_pmm _ _ _ Hl) as Ep.
  assert (cpu s' = cpu s) as Ec by (by rewrite (ld_only _ _ _ Hl)).
  assert (∀ x, kernel_area s' x ↔ kernel_area s x) as Ha by (intros x; unfold kernel_area, bitmap_span; by rewrite Ep).
  split; [by rewrite Ep|]. intros x Hx%Ha. rewrite <- (Hself x Hx), Ec.
  pose proof (pmm_fits_total _ (tr_fits _ _ (sh_kernel _ _ _ Hsh))). pose proof (tr_fits _ _ (sh_kernel _ _ _ Hsh)) as Hfit.
  assert (PML4_INDEX x = 0) as Hi by (apply low_index; unfold kernel_area, pmm_fits in *; lia).
  apply walk_translate. rewrite (shares_loads s s' _ root), Hw by done. by apply (shares_walk s).
Qed.

#[local] Opaque fill.

(** [vmm_create_user_pml4] keeps every data frame of the kernel, and they are data frames of
    the new root too. *)
Lemma user_root_wp n s k (Q : Z → machine → Prop) :
  tree s k → kernel_pml4 (vmm s) = k → present (entry (mem s) k 0) = true →
  (∀ p s', p ≠ 0 → shares s' k p → loads k s s' → (∀ i, dframe s k i → dframe s' p i) → Q p s') →
  (∀ s', full s' → proc s' = proc s → Q 0 s') →
  wp vmm_create_user_pml4 n s Q.
Proof.
  intros Ht Hk Hpr Hok Hfull. unfold vmm_create_user_pml4, get_entry, put_entry, memset.
  apply wp_bind, alloc_frame_wp; [apply Ht| |].
  2:{ intros s' Hall Hc. rewrite decide_True by done. apply wp_ret, Hfull; [|by rewrite Hc].
      unfold full, used in *. rewrite Hc. done. }
  intros f s1 Hal. pose proof (al_range _ _ _ Hal). rewrite decide_False by lia. wp_steps.
  pose proof (zeroed_intro _ _ _ (tr_pmm _ _ Ht) (tr_fits _ _ Ht) Hal) as Hz.
  destruct (allocated_loads k s s1 f Ht Hal) as (L1 & W1 & D1 & N1).
  change (Z.to_nat PAGE_SIZE) with 4096%nat. set (s2 := set_mem _ s1) in *.
  assert (vmm s2 = vmm s) as Ev by (by rewrite (ze_frame _ _ _ Hz)). rewrite Ev, Hk.
  assert (idx_ok 0) as H0 by (unfold idx_ok; lia).
  change (load 8 (mem s2) (k + 8 * 0)) with (entry (mem s2) k 0).
  pose proof (tree_root_frame _ _ Ht) as Hkf. rewrite (zeroed_entry _ _ _ _ _ Hz Hkf H0).
  pose proof (user_root_shares s s2 f k Ht Hpr Hz) as Hsh.
  set (m3 := store 8 (f * 4096 + 8 * 0) (entry (mem s) k 0) (mem s2)) in *.
  destruct (fill_loads k s s1 m3 f L1 N1 D1) as (L3 & _ & _).
  { intros x Hx. unfold m3, s2. cbn [mem set_mem]. rewrite byte_store_out by lia. by rewrite byte_fill_out by lia. }
  assert (∀ j, idx_ok j → j ≠ 0 → entry m3 (f * 4096) j = 0) as Hzero.
  { intros j Hj Hj0. unfold m3. rewrite (entry_store_other s2); [|by eapply zeroed_new_table..|done|done|congruence].
    by apply (ze_zero _ _ _ Hz). }
  change (set_mem m3 s2) with (set_mem m3 s1) in *.
  apply Hok; [lia|exact Hsh|done|]. intros i Hi. pose proof (ld_data _ _ _ L3 i Hi) as (A & B & C).
  split; [done|]. split; [done|]. intros [|j q] u Hq Hqi.
  - intros [= <-] E. destruct Hi as (_ & Hiu & _). pose proof (al_free _ _ _ Hal). assert (i = f) by lia. congruence.
  - pose proof (Forall_inv Hqi) as Hj. cbn [mem set_mem].
    rewrite (walk_0_user _ _ k); [|apply (sh_entry _ _ _ Hsh)|exact Hzero|done].
    case_decide; [|done]. subst j. by apply (C (0 :: q)).
Qed.

End pointers.
