(* ===== verification/Elf.v ===== *)
(** src/kernel/elf.c: the loader of ELF programs.

    The file is read from physical memory at [file_buffer], where exec has put it.  Every
    page of a loadable segment gets a fresh frame, mapped in the process's tables and filled
    with the part of the file that overlaps it.  The specification is the segment's image,
    [seg_byte]: what a program must find at each virtual address. *)
From S2P Require Import Prelude Memory Hardware Machine Utils Screen Pmm Kheap Vmm Frames.

(** ** includes/elf.h *)

Definition ET_EXEC : Z := 2.
Definition ET_DYN : Z := 3.
Definition EM_X86_64 : Z := 62.
Definition PT_LOAD : Z := 1.

(** Fields of [Elf64_Ehdr] at [h] and of [Elf64_Phdr] at [p], by their offsets. *)
Definition e_ident (m : gmap Z Z) (h i : Z) : Z := load 1 m (h + i).
Definition eh_type (m : gmap Z Z) (h : Z) : Z := load 2 m (h + 16).
Definition e_machine (m : gmap Z Z) (h : Z) : Z := load 2 m (h + 18).
Definition e_entry (m : gmap Z Z) (h : Z) : Z := load 8 m (h + 24).
Definition e_phoff (m : gmap Z Z) (h : Z) : Z := load 8 m (h + 32).
Definition e_phnum (m : gmap Z Z) (h : Z) : Z := load 2 m (h + 56).
Definition sizeof_phdr : Z := 56.
Definition p_type (m : gmap Z Z) (p : Z) : Z := load 4 m p.
Definition p_offset (m : gmap Z Z) (p : Z) : Z := load 8 m (p + 8).
Definition p_vaddr (m : gmap Z Z) (p : Z) : Z := load 8 m (p + 16).
Definition p_filesz (m : gmap Z Z) (p : Z) : Z := load 8 m (p + 32).
Definition p_memsz (m : gmap Z Z) (p : Z) : Z := load 8 m (p + 40).

(** A field read from memory. *)
Definition field {A} (f : gmap Z Z → A) : M A := gets (λ s, f (mem s)).

(** ** Checks *)

Definition elf_check_file (hdr : Z) : M Z :=
  if decide (hdr = 0) then mret 0
  else
    m0 ← field (λ m, e_ident m hdr 0);
    if decide (m0 ≠ 0x7F) then kprint (str "ELF Header Error: MAG0" ++ newline);; mret 0
    else
      m1 ← field (λ m, e_ident m hdr 1);
      if decide (m1 ≠ 69) then kprint (str "ELF Header Error: MAG1" ++ newline);; mret 0
      else
        m2 ← field (λ m, e_ident m hdr 2);
        if decide (m2 ≠ 76) then kprint (str "ELF Header Error: MAG2" ++ newline);; mret 0
        else
          m3 ← field (λ m, e_ident m hdr 3);
          if decide (m3 ≠ 70) then kprint (str "ELF Header Error: MAG3" ++ newline);; mret 0
          else mret 1.

Definition elf_check_supported (hdr : Z) : M Z :=
  ok ← elf_check_file hdr;
  if decide (ok = 0) then mret 0
  else
    class ← field (λ m, e_ident m hdr 4);
    if decide (class ≠ 2) then kprint (str "ELF Error: Not 64-bit" ++ newline);; mret 0
    else
      data ← field (λ m, e_ident m hdr 5);
      if decide (data ≠ 1) then kprint (str "ELF Error: Not Little Endian" ++ newline);; mret 0
      else
        machine ← field (λ m, e_machine m hdr);
        if decide (machine ≠ EM_X86_64) then kprint (str "ELF Error: Not x86-64" ++ newline);; mret 0
        else
          type ← field (λ m, eh_type m hdr);
          if decide (type ≠ ET_EXEC ∧ type ≠ ET_DYN) then
            kprint (str "ELF Error: Not Executable" ++ newline);; mret 0
          else mret 1.

(** ** Loading *)

(** Steps 3 of the page loop: zero the frame, copy the overlap of the page with the file's
    part of the segment. *)
Definition fill_page (paddr file_buffer vaddr_start file_size file_offset vaddr : Z) : M unit :=
  memset paddr 0 PAGE_SIZE;;
  let seg_data_start := vaddr_start in
  let seg_data_end := u64 (vaddr_start + file_size) in
  let page_start := vaddr in
  let page_end := u64 (vaddr + PAGE_SIZE) in
  let copy_start := if decide (page_start < seg_data_start) then seg_data_start else page_start in
  let copy_end := if decide (page_end > seg_data_end) then seg_data_end else page_end in
  if decide (copy_start < copy_end) then
    let len := copy_end - copy_start in
    let file_src_offset := u64 (file_offset + (copy_start - vaddr_start)) in
    let page_dst_offset := copy_start - page_start in
    memcpy (u64 (paddr + page_dst_offset)) (u64 (file_buffer + file_src_offset)) len
  else mret tt.

(** The body of the page loop; [false] is the return when no frame is left. *)
Definition load_page (pml4 file_buffer vaddr_start file_size file_offset vaddr : Z) : M bool :=
  paddr ← pmm_alloc_block;
  if decide (paddr = 0) then kprint (str "ELF Load Error: OOM" ++ newline);; mret false
  else
    vmm_map_page pml4 vaddr paddr
      (Z.lor (Z.lor PAGING_FLAG_PRESENT PAGING_FLAG_WRITABLE) PAGING_FLAG_USER);;
    fill_page paddr file_buffer vaddr_start file_size file_offset vaddr;;
    mret true.

Definition page_step (pml4 file_buffer vaddr_start file_size file_offset end_vaddr vaddr : Z) : M (Z + bool) :=
  if decide (vaddr < end_vaddr) then
    ok ← load_page pml4 file_buffer vaddr_start file_size file_offset vaddr;
    mret (if ok : bool then inl (u64 (vaddr + PAGE_SIZE)) else inr false)
  else mret (inr true).

(** The pages a segment covers. *)
Definition page_floor (a : Z) : Z := Z.land a (Z.lnot (PAGE_SIZE - 1)).
Definition seg_end (vaddr_start mem_size : Z) : Z := page_floor (u64 (vaddr_start + mem_size + PAGE_SIZE - 1)).

(** The segment of the program header at [ph]. *)
Definition load_segment (pml4 file_buffer ph : Z) : M bool :=
  vaddr_start ← field (λ m, p_vaddr m ph);
  mem_size ← field (λ m, p_memsz m ph);
  file_size ← field (λ m, p_filesz m ph);
  file_offset ← field (λ m, p_offset m ph);
  while_loop (page_step pml4 file_buffer vaddr_start file_size file_offset (seg_end vaddr_start mem_size))
    (page_floor vaddr_start).

Definition elf_load_step (pml4 file_buffer phdr i : Z) : M (Z + Z) :=
  phnum ← field (λ m, e_phnum m file_buffer);
  if decide (i < phnum) then
    let ph := u64 (phdr + sizeof_phdr * i) in
    type ← field (λ m, p_type m ph);
    if decide (type = PT_LOAD) then
      ok ← load_segment pml4 file_buffer ph;
      mret (if ok : bool then inl (i + 1) else inr 0)
    else mret (inl (i + 1))
  else
    entry ← field (λ m, e_entry m file_buffer);
    mret (inr entry).

Definition elf_load_file (pml4 file_buffer : Z) : M Z :=
  ok ← elf_check_supported file_buffer;
  if decide (ok = 0) then mret 0
  else
    phoff ← field (λ m, e_phoff m file_buffer);
    while_loop (elf_load_step pml4 file_buffer (u64 (file_buffer + phoff))) 0.

(** ** The image of a segment *)

(** The byte a segment puts at [va]: file contents first, zeros behind them. *)
Definition seg_byte (m : gmap Z Z) (file vstart fsize foff va : Z) : Z :=
  if decide (vstart ≤ va < vstart + fsize) then byte_at m (file + foff + (va - vstart)) else 0.

(** The program of [root] finds the byte [b] at [va], in a data frame. *)
Definition loaded (s : machine) (root va b : Z) : Prop :=
  ∃ pa, translate (mem s) root va = Some pa ∧ dframe s root (pa / 4096) ∧ byte_at (mem s) pa = b.

(** The [size] bytes at [file] are in data frames, so that loading does not disturb them. *)
Definition file_ok (s : machine) (root file size : Z) : Prop :=
  0 < file ∧ 0 ≤ size ∧ file + size < 2 ^ 63 ∧ ∀ x, file ≤ x < file + size → dframe s root (x / 4096).

Section image.
Implicit Types (s : machine) (root file size : Z).

Lemma file_ok_loads root file size s s' : loads root s s' → file_ok s root file size → file_ok s' root file size.
Proof. intros Hl (H1 & H2 & H3 & H4). split_and!; try done. intros x Hx. by apply (ld_data _ _ _ Hl), H4. Qed.

Lemma file_byte root file size s s' x : loads root s s' → file_ok s root file size →
  file ≤ x < file + size → byte_at (mem s') x = byte_at (mem s) x.
Proof. intros Hl (_ & _ & _ & H) Hx. by apply (ld_mem _ _ _ Hl), H. Qed.

Lemma file_load k root file size s s' a : loads root s s' → file_ok s root file size →
  file ≤ a → a + Z.of_nat k ≤ file + size → load k (mem s') a = load k (mem s) a.
Proof. intros Hl Hf Ha Hk. apply load_ext. intros x Hx. eapply file_byte; [done..|lia]. Qed.

Lemma seg_byte_loads root file size vstart fsize foff s s' va : loads root s s' → file_ok s root file size →
  0 ≤ foff → foff + fsize ≤ size →
  seg_byte (mem s') file vstart fsize foff va = seg_byte (mem s) file vstart fsize foff va.
Proof. intros Hl Hf Ho Hs. unfold seg_byte. case_decide; [|done]. eapply file_byte; [done..|lia]. Qed.

Lemma loaded_step root s s' va b : loads root s s' → walk (mem s') root va = walk (mem s) root va →
  loaded s root va b → loaded s' root va b.
Proof.
  intros Hl Hw (pa & Ht & Hd & Hb). exists pa. split_and!.
  - unfold translate in *. by rewrite Hw.
  - by apply (ld_data _ _ _ Hl).
  - by rewrite (ld_mem _ _ _ Hl).
Qed.

(** *** One page *)

(** The frame [f] afterwards: the page of the image at [v]. *)
Lemma fill_page_wp n s file vstart fsize foff v f (Q : unit → machine → Prop) :
  0 < file → 0 ≤ f → f * 4096 + 4096 < 2 ^ 63 → 0 ≤ foff → 0 ≤ fsize → file + foff + fsize < 2 ^ 63 →
  0 ≤ v → v + 4096 < 2 ^ 64 → 0 ≤ vstart → vstart + fsize < 2 ^ 64 →
  (∀ x, file + foff ≤ x < file + foff + fsize → x / 4096 ≠ f) →
  (∀ m', agree_out (mem s) m' (f * 4096) 4096 →
     (∀ va, v ≤ va < v + 4096 → byte_at m' (f * 4096 + (va - v)) = seg_byte (mem s) file vstart fsize foff va) →
     Q tt (set_mem m' s)) →
  wp (fill_page (f * 4096) file vstart fsize foff v) n s Q.
Proof.
  intros Hfile Hf Hfh Ho Hfs Hfo Hv Hvh Hvs Hvsh Hne HQ. unfold fill_page, memset, memcpy, PAGE_SIZE. wp_steps.
  change (Z.to_nat 4096) with 4096%nat. rewrite (u64_small (v + 4096)), (u64_small (vstart + fsize)) by lia.
  set (m1 := fill 4096 (f * 4096) 0 (mem s)).
  assert (∀ x, f * 4096 ≤ x < f * 4096 + 4096 → byte_at m1 x = 0) as Hz.
  { intros x Hx. unfold m1. by rewrite byte_fill_in by lia. }
  assert (∀ x, ¬ (f * 4096 ≤ x < f * 4096 + 4096) → byte_at m1 x = byte_at (mem s) x) as Hm1.
  { intros x Hx. unfold m1. by rewrite byte_fill_out by lia. }
  unfold seg_byte in HQ. set (cs := if decide (v < vstart) then vstart else v).
  set (ce := if decide (v + 4096 > vstart + fsize) then vstart + fsize else v + 4096).
  assert (v ≤ cs ∧ vstart ≤ cs ∧ (cs = v ∨ cs = vstart)) as Hcs by (unfold cs; case_decide; lia).
  assert (ce ≤ v + 4096 ∧ ce ≤ vstart + fsize ∧ (ce = v + 4096 ∨ ce = vstart + fsize)) as Hce
    by (unfold ce; case_decide; lia).
  clearbody cs ce. destruct (decide (cs < ce)) as [Hlt|Hlt]; wp_steps.
  2:{ apply HQ; [done|]. intros va Hva. rewrite decide_False by lia. apply Hz. lia. }
  rewrite (u64_small (f * 4096 + _)), (u64_small (foff + _)), (u64_small (file + _)) by lia.
  set (src := file + (foff + (cs - vstart))).
  assert (∀ x, src ≤ x < src + (ce - cs) → ¬ (f * 4096 ≤ x < f * 4096 + 4096)) as Hsrc.
  { intros x Hx Hin. apply (Hne x); [lia|dlia]. }
  pose proof (Hsrc (f * 4096)). pose proof (Hsrc (f * 4096 + 4095)). pose proof (Hsrc src).
  change (set_mem ?m (set_mem _ s)) with (set_mem m s). cbn [mem set_mem]. apply HQ.
  - intros x Hx. rewrite byte_copy_out by lia. by apply Hm1.
  - intros va Hva. destruct (decide (cs ≤ va < ce)) as [Hin|Hin].
    + rewrite decide_True by lia. rewrite byte_copy_in by lia. rewrite Hm1 by (apply Hsrc; lia). f_equal. lia.
    + rewrite decide_False by lia. rewrite byte_copy_out by lia. apply Hz. lia.
Qed.

Lemma table_flags_ok : flags_ok table_flags.
Proof. split; [vm_compute; split; congruence|by vm_compute]. Qed.

(** The entry of a page leads to the byte in the frame. *)
Lemma page_is_loaded s b m' root v f va : v mod 4096 = 0 → 0 ≤ f < 2 ^ 28 → v ≤ va < v + 4096 →
  walk m' root va = Some (Z.lor (frame_of (f * 4096)) table_flags) →
  dframe (set_mem m' s) root f → byte_at m' (f * 4096 + (va - v)) = b →
  loaded (set_mem m' s) root va b.
Proof.
  intros Hv Hf Hva Hw Hd Hb. exists (f * 4096 + (va - v)).
  destruct (leaf_entry (f * 4096) _ table_flags_ok) as (_ & _ & Ef).
  assert (frame_of (f * 4096) = f * 4096) as E by (rewrite frame_of_div; dlia). split_and!.
  - unfold translate. cbn [mem set_mem]. rewrite Hw. cbn [mbind option_bind]. rewrite Ef, E. f_equal. dlia.
  - by replace ((f * 4096 + (va - v)) / 4096) with f by dlia.
  - done.
Qed.

(** After [load_page] returned [true], the page is there, unless no frame was left for a
    page table; the other translations are unchanged. *)
Definition page_loaded root file vstart fsize foff v s s' : Prop :=
  (∀ va, page va ≠ page v → walk (mem s') root va = walk (mem s) root va) ∧
  (full s' ∨ ∀ va, v ≤ va < v + 4096 → loaded s' root va (seg_byte (mem s) file vstart fsize foff va)).

Lemma load_page_wp n s root file size vstart fsize foff v (Q : bool → machine → Prop) :
  tree s root → file_ok s root file size → 0 ≤ foff → 0 ≤ fsize → foff + fsize ≤ size →
  0 ≤ v → v mod 4096 = 0 → v + 4096 < 2 ^ 64 → 0 ≤ vstart → vstart + fsize < 2 ^ 64 →
  (∀ s', loads root s s' → page_loaded root file vstart fsize foff v s s' → Q true s') →
  (∀ s', loads root s s' → same_walks root s s' → full s' → Q false s') →
  wp (load_page root file vstart fsize foff v) n s Q.
Proof.
  intros Ht Hf Ho Hfs Hsz Hv Hvm Hvh Hvs Hvsh Hok Hfail. unfold load_page.
  apply wp_bind, alloc_frame_wp; [apply Ht| |].
  2:{ intros s1 Hall Hc. rewrite decide_True by done. apply wp_bind, wp_kprint. intros s2 Hc2. apply wp_ret.
      destruct (console_loads root s s2 Ht) as [Hl Hw]; [by rewrite Hc2, Hc|]. apply Hfail; [done..|].
      intros j Hj. rewrite (loads_pmm _ _ _ Hl) in Hj. by apply (ld_used _ _ _ Hl), Hall. }
  intros f s1 Hal. pose proof (al_range _ _ _ Hal) as Hr. pose proof (pmm_fits_total _ (tr_fits _ _ Ht)).
  rewrite decide_False by lia. destruct (allocated_loads root s s1 f Ht Hal) as (L1 & W1 & D1 & Hnd).
  assert (∀ s2, loads root s1 s2 → (full s2 ∧ same_walks root s1 s2 ∨
      mapped s1 s2 root v (Z.lor (frame_of (f * 4096)) table_flags)) →
    wp (fill_page (f * 4096) file vstart fsize foff v;; mret true) n s2 Q) as Hfill.
  2:{ apply wp_bind, vmm_map_page_wp; [apply L1|apply table_flags_ok| |].
      - intros s2 Hmp. apply Hfill; [by eapply mapped_loads|by right].
      - intros s2 Hex Hfu. destruct (extends_loads _ _ _ Hex). apply Hfill; [done|by left]. }
  intros s2 L2 Hmap. pose proof Hf as (Hf1 & Hf2 & Hf3 & Hf4).
  apply wp_bind, fill_page_wp; try done; [lia..| |].
  { intros x Hx <-. apply Hnd, Hf4. lia. }
  intros m' Hag Hby. apply wp_ret.
  destruct (fill_loads root s s2 m' f) as (L3 & W3 & D3);
    [by eapply loads_trans|done|by apply (ld_data _ _ _ L2)|done|].
  apply Hok; [done|]. split.
  - intros va Hne. rewrite W3. destruct Hmap as [[_ W2]|Hmp]; [by rewrite W2, W1|].
    rewrite (mp_walk _ _ _ _ _ Hmp), decide_False by done. apply W1.
  - destruct Hmap as [[Hfu _]|Hmp]; [left|right].
    + intros j Hj. pose proof (ld_tree _ _ _ L2) as T2. rewrite (low_same_used s2); [by apply Hfu|apply T2..| |lia|right; exact (proj2 Hj)].
      split; [done|]. intros x Hx. apply Hag. lia.
    + intros va Hva. apply (page_is_loaded s2 _ m' root v f); try done; [lia|..].
      * rewrite W3, (mp_walk _ _ _ _ _ Hmp), decide_True; [done|]. unfold page. f_equal. dlia.
      * rewrite <- (seg_byte_loads root file size vstart fsize foff s s2) by (done || exact (loads_trans _ _ _ _ L1 L2)).
        by apply Hby.
Qed.

(** *** A segment *)

Lemma page_floor_div a : 0 ≤ a → page_floor a = a / 4096 * 4096.
Proof.
  intros Ha. unfold page_floor, PAGE_SIZE. change (4096 - 1) with (Z.ones 12).
  rewrite <- Z.ldiff_land, Z.ldiff_ones_r by lia. rewrite Z.shiftl_mul_pow2, Z.shiftr_div_pow2 by lia. done.
Qed.

End image.

(** The pages of the segment at [ph]. *)
Definition covers (m : gmap Z Z) (ph va : Z) : Prop :=
  page_floor (p_vaddr m ph) ≤ va < seg_end (p_vaddr m ph) (p_memsz m ph).

(** The byte the segment at [ph] puts at [va]. *)
Definition ph_byte (m : gmap Z Z) (file ph va : Z) : Z :=
  seg_byte m file (p_vaddr m ph) (p_filesz m ph) (p_offset m ph) va.

(** A program header in a file of [size] bytes whose segment lies in the file and in the
    lower half of the address space; [k] pages of it at most. *)
Record ph_ok (m : gmap Z Z) (file size ph : Z) (k : nat) : Prop := {
  ph_in : file ≤ ph ∧ ph + 56 ≤ file + size;
  ph_file : p_offset m ph + p_filesz m ph ≤ size;
  ph_mem : p_filesz m ph ≤ p_memsz m ph;
  ph_low : p_vaddr m ph + p_memsz m ph + 4096 < 2 ^ 47;
  ph_pages : (seg_end (p_vaddr m ph) (p_memsz m ph) - page_floor (p_vaddr m ph)) / 4096 < Z.of_nat k;
}.

Section segments.
Implicit Types (s : machine) (root file size : Z).

(** The part [v0, v) of the segment is loaded. *)
Record seg_upto root file vstart fsize foff v0 v s s' : Prop := {
  su_loads : loads root s s';
  su_walk : ∀ va, ¬ (v0 / 4096 ≤ va / 4096 < v / 4096) → 0 ≤ va < 2 ^ 47 →
    walk (mem s') root va = walk (mem s) root va;
  su_bytes : full s' ∨ ∀ va, v0 ≤ va < v → loaded s' root va (seg_byte (mem s) file vstart fsize foff va);
}.

Lemma page_low va v : 0 ≤ va < 2 ^ 47 → 0 ≤ v < 2 ^ 47 → page va = page v ↔ va / 4096 = v / 4096.
Proof. intros. unfold page. rewrite !(Z.mod_small _ (2 ^ 36)) by dlia. done. Qed.

Lemma seg_upto_next root file size vstart fsize foff v0 v s s1 s2 :
  0 ≤ v0 ≤ v → v0 mod 4096 = 0 → v mod 4096 = 0 → v + 4096 < 2 ^ 47 →
  file_ok s root file size → 0 ≤ foff → foff + fsize ≤ size →
  seg_upto root file vstart fsize foff v0 v s s1 → loads root s1 s2 →
  page_loaded root file vstart fsize foff v s1 s2 →
  seg_upto root file vstart fsize foff v0 (v + 4096) s s2.
Proof.
  intros Hv0 Hm0 Hm Hv Hf Ho Hsz [L1 W1 B1] L2 [W2 B2]. split.
  - by eapply loads_trans.
  - intros va Hne Hva. rewrite W2; [apply W1; [dlia|done]|]. intros E%page_low; [dlia|lia..].
  - destruct B2 as [Hfu|B2]; [by left|]. destruct B1 as [Hfu|B1]; [left; by eapply loads_full|right].
    intros va Hva. destruct (decide (va < v)) as [Hlt|].
    + eapply loaded_step; [exact L2| |apply B1; lia]. apply W2. intros E%page_low; [dlia|lia..].
    + rewrite <- (seg_byte_loads root file size vstart fsize foff s s1) by done. apply B2. lia.
Qed.

Lemma load_segment_wp n s root file size ph (Q : bool → machine → Prop) :
  tree s root → file_ok s root file size → ph_ok (mem s) file size ph n →
  (∀ s', loads root s s' →
     (∀ va, (∀ va', covers (mem s) ph va' → va' / 4096 ≠ va / 4096) → 0 ≤ va < 2 ^ 47 →
        walk (mem s') root va = walk (mem s) root va) →
     (full s' ∨ ∀ va, covers (mem s) ph va → loaded s' root va (ph_byte (mem s) file ph va)) → Q true s') →
  (∀ s', loads root s s' →
     (∀ va, (∀ va', covers (mem s) ph va' → va' / 4096 ≠ va / 4096) → 0 ≤ va < 2 ^ 47 →
        walk (mem s') root va = walk (mem s) root va) → full s' → Q false s') →
  wp (load_segment root file ph) n s Q.
Proof.
  intros Ht Hf [_ Hfile Hmem Hlow Hpages] Hok Hfail. unfold load_segment, field. wp_steps.
  unfold covers, ph_byte in Hok, Hfail.
  pose proof (load_range 8 (mem s) (ph + 16)) as Hv. pose proof (load_range 8 (mem s) (ph + 8)) as Ho.
  pose proof (load_range 8 (mem s) (ph + 32)) as Hfs. fold (p_vaddr (mem s) ph) in Hv.
  fold (p_offset (mem s) ph) in Ho. fold (p_filesz (mem s) ph) in Hfs.
  pose proof (load_range 8 (mem s) (ph + 40)) as Hms. fold (p_memsz (mem s) ph) in Hms.
  change (256 ^ Z.of_nat 8) with (2 ^ 64) in *.
  set (vs := p_vaddr (mem s) ph) in *. set (fs := p_filesz (mem s) ph) in *.
  set (fo := p_offset (mem s) ph) in *. set (ms := p_memsz (mem s) ph) in *. clearbody vs fs fo ms.
  assert (page_floor vs = vs / 4096 * 4096) as E0 by (apply page_floor_div; lia).
  assert (seg_end vs ms = (vs + ms + 4095) / 4096 * 4096) as E1.
  { unfold seg_end, PAGE_SIZE. rewrite u64_small by lia. rewrite page_floor_div by lia. f_equal. f_equal. lia. }
  rewrite E0, E1 in *. set (v0 := vs / 4096 * 4096) in *. set (v1 := (vs + ms + 4095) / 4096 * 4096) in *.
  assert (0 ≤ v0 ≤ v1 ∧ v1 < 2 ^ 47 ∧ v0 mod 4096 = 0 ∧ v1 mod 4096 = 0) as (H01 & H1 & Hm0 & Hm1).
  { unfold v0, v1. split_and!; dlia. }
  clearbody v0 v1.
  apply (wp_while_idx (λ k v s', v0 ≤ v ≤ v1 ∧ v mod 4096 = 0 ∧ k = Z.to_nat ((v1 - v) / 4096) ∧
    seg_upto root file vs fs fo v0 v s s') _ _ (Z.to_nat ((v1 - v0) / 4096))); [|dlia|].
  { split_and!; [lia..|done|]. split; [by apply loads_refl|done|]. right. intros va Hva. lia. }
  intros k v s1 (Hv01 & Hvm & -> & Hup). unfold page_step. pose proof (su_loads _ _ _ _ _ _ _ _ _ Hup) as L1.
  case_decide as Hlt.
  - apply wp_bind. eapply (load_page_wp _ _ _ _ size); [apply L1|exact (file_ok_loads _ _ _ _ _ L1 Hf)|lia|lia|lia|lia|done|lia|lia|lia|..].
    + intros s2 L2 Hpl. apply wp_ret. exists (Z.to_nat ((v1 - (v + 4096)) / 4096)).
      unfold PAGE_SIZE. rewrite u64_small by lia. split; [dlia|]. split_and!; [dlia|dlia|dlia|done|].
      eapply seg_upto_next; try done; dlia.
    + intros s2 L2 W2 Hfu. apply wp_ret, Hfail; [by eapply loads_trans| |done].
      intros va Hne Hva. rewrite W2. apply (su_walk _ _ _ _ _ _ _ _ _ Hup); [|done].
      intros Hin. apply (Hne (va / 4096 * 4096)); dlia.
  - apply wp_ret. assert (v = v1) as -> by lia. destruct Hup as [_ W B]. apply Hok; [done| |done].
    intros va Hne Hva. apply W; [|done]. intros Hin. apply (Hne (va / 4096 * 4096)); dlia.
Qed.

End segments.

(** ** Whole files *)

Definition magic (m : gmap Z Z) (h : Z) : Prop :=
  h ≠ 0 ∧ e_ident m h 0 = 0x7F ∧ e_ident m h 1 = 69 ∧ e_ident m h 2 = 76 ∧ e_ident m h 3 = 70.

Definition supported (m : gmap Z Z) (h : Z) : Prop :=
  magic m h ∧ e_ident m h 4 = 2 ∧ e_ident m h 5 = 1 ∧ e_machine m h = 62 ∧ (eh_type m h = 2 ∨ eh_type m h = 3).

#[export] Instance magic_dec m h : Decision (magic m h).
Proof. unfold magic. apply _. Defined.
#[export] Instance supported_dec m h : Decision (supported m h).
Proof. unfold supported. apply _. Defined.

(** Program header [i] of the file. *)
Definition ph_at (m : gmap Z Z) (file i : Z) : Z := file + e_phoff m file + 56 * i.

Definition loadable (m : gmap Z Z) (file i : Z) : Prop :=
  0 ≤ i < e_phnum m file ∧ p_type m (ph_at m file i) = PT_LOAD.

(** The tables of the file lie in the file, and no two loadable segments share a page. *)
Record elf_ok (m : gmap Z Z) (file size : Z) (k : nat) : Prop := {
  eo_head : 64 ≤ size;
  eo_table : e_phoff m file + 56 * e_phnum m file ≤ size;
  eo_seg : ∀ i, loadable m file i → ph_ok m file size (ph_at m file i) k;
  eo_disjoint : ∀ i j va va', loadable m file i → loadable m file j → i ≠ j →
    covers m (ph_at m file i) va → covers m (ph_at m file j) va' → va / 4096 ≠ va' / 4096;
  eo_fuel : e_phnum m file < Z.of_nat k;
}.

Section files.
Implicit Types (s : machine) (root file size : Z).

(** A message, and 0: the answer of a check that failed. *)
Lemma reject_wp n s msg P `{Decision P} (Q : Z → machine → Prop) :
  ¬ P → (∀ s', console_only s s' → Q (if decide P then 1 else 0) s') → wp (kprint msg;; mret 0) n s Q.
Proof.
  intros Hn HQ. apply wp_bind, wp_kprint. intros s' Hc. apply wp_ret.
  specialize (HQ s' Hc). by rewrite decide_False in HQ.
Qed.

Lemma accept_wp n s P `{Decision P} (Q : Z → machine → Prop) :
  P → (∀ s', console_only s s' → Q (if decide P then 1 else 0) s') → wp (mret 1) n s Q.
Proof.
  intros Hp HQ. apply wp_ret. specialize (HQ s). rewrite decide_True in HQ by done. apply HQ.
  unfold console_only. by rewrite set_cons_id.
Qed.

Lemma check_file_wp n s h (Q : Z → machine → Prop) :
  (∀ s', console_only s s' → Q (if decide (magic (mem s) h) then 1 else 0) s') →
  wp (elf_check_file h) n s Q.
Proof.
  intros HQ. unfold elf_check_file, field. wp_decide H0.
  { apply wp_ret. specialize (HQ s). rewrite decide_False in HQ by (by intros [? _]). apply HQ.
    unfold console_only. by rewrite set_cons_id. }
  wp_steps. wp_decide H1; [apply (reject_wp _ _ _ (magic (mem s) h)); [unfold magic; tauto|done]|].
  wp_steps. wp_decide H2; [apply (reject_wp _ _ _ (magic (mem s) h)); [unfold magic; tauto|done]|].
  wp_steps. wp_decide H3; [apply (reject_wp _ _ _ (magic (mem s) h)); [unfold magic; tauto|done]|].
  wp_steps. wp_decide H4; [apply (reject_wp _ _ _ (magic (mem s) h)); [unfold magic; tauto|done]|].
  apply (accept_wp _ _ (magic (mem s) h)); [unfold magic; split_and!; lia|done].
Qed.

Lemma check_supported_wp n s h (Q : Z → machine → Prop) :
  (∀ s', console_only s s' → Q (if decide (supported (mem s) h) then 1 else 0) s') →
  wp (elf_check_supported h) n s Q.
Proof.
  intros HQ. unfold elf_check_supported, field, EM_X86_64, ET_EXEC, ET_DYN.
  apply wp_bind, check_file_wp. intros s1 Hc1.
  destruct (decide (magic (mem s) h)) as [Hm|Hm].
  2:{ rewrite decide_True by done. apply wp_ret. specialize (HQ s1 Hc1).
      by rewrite decide_False in HQ by (by intros [? _]). }
  rewrite decide_False by done. assert (mem s1 = mem s) as Em by (by rewrite Hc1).
  rewrite <- Em in HQ, Hm.
  assert (∀ s', console_only s1 s' → Q (if decide (supported (mem s1) h) then 1 else 0) s') as HQ1.
  { intros s' Hc. apply HQ. by etrans. } clear HQ Em Hc1.
  wp_steps. wp_decide H1; [apply (reject_wp _ _ _ (supported (mem s1) h)); [unfold supported; tauto|done]|].
  wp_steps. wp_decide H2; [apply (reject_wp _ _ _ (supported (mem s1) h)); [unfold supported; tauto|done]|].
  wp_steps. wp_decide H3; [apply (reject_wp _ _ _ (supported (mem s1) h)); [unfold supported; tauto|done]|].
  wp_steps. wp_decide H4; [apply (reject_wp _ _ _ (supported (mem s1) h)); [unfold supported; tauto|done]|].
  apply (accept_wp _ _ (supported (mem s1) h)); [|done]. unfold supported. split_and!; [done|lia..].
Qed.

(** Headers are read in the file, which loading keeps. *)
Lemma ph_fields root file size s s' ph : loads root s s' → file_ok s root file size →
  file ≤ ph → ph + 56 ≤ file + size →
  p_type (mem s') ph = p_type (mem s) ph ∧ p_offset (mem s') ph = p_offset (mem s) ph ∧
  p_vaddr (mem s') ph = p_vaddr (mem s) ph ∧ p_filesz (mem s') ph = p_filesz (mem s) ph ∧
  p_memsz (mem s') ph = p_memsz (mem s) ph.
Proof.
  intros Hl Hf H1 H2. unfold p_type, p_offset, p_vaddr, p_filesz, p_memsz.
  split_and!; (eapply file_load; [exact Hl|exact Hf|lia..]).
Qed.

Lemma ph_ok_loads root file size s s' ph k : loads root s s' → file_ok s root file size →
  ph_ok (mem s) file size ph k →
  ph_ok (mem s') file size ph k ∧ (∀ va, covers (mem s') ph va ↔ covers (mem s) ph va) ∧
  (∀ va, ph_byte (mem s') file ph va = ph_byte (mem s) file ph va).
Proof.
  intros Hl Hf [[H1 H2] H3 H4 H5 H6].
  destruct (ph_fields _ _ _ _ _ ph Hl Hf H1 H2) as (_ & E1 & E2 & E3 & E4). split_and!.
  - split; rewrite ?E1, ?E2, ?E3, ?E4; done.
  - intros va. unfold covers. by rewrite E2, E4.
  - intros va. unfold ph_byte. rewrite E1, E2, E3.
    pose proof (load_range 8 (mem s) (ph + 8)). fold (p_offset (mem s) ph) in *.
    eapply seg_byte_loads; [exact Hl|exact Hf|lia|done].
Qed.

(** The first [i] program headers are done. *)
Record file_upto root file s i s' : Prop := {
  fu_loads : loads root s s';
  fu_walk : ∀ va, 0 ≤ va < 2 ^ 47 → (∀ j va', j < i → loadable (mem s) file j →
      covers (mem s) (ph_at (mem s) file j) va' → va' / 4096 ≠ va / 4096) →
    walk (mem s') root va = walk (mem s) root va;
  fu_bytes : full s' ∨ ∀ j va, j < i → loadable (mem s) file j → covers (mem s) (ph_at (mem s) file j) va →
    loaded s' root va (ph_byte (mem s) file (ph_at (mem s) file j) va);
}.

Lemma file_upto_skip root file s i s' : ¬ loadable (mem s) file i →
  file_upto root file s i s' → file_upto root file s (i + 1) s'.
Proof.
  intros Hn [L W B].
  assert (∀ j, j < i + 1 → loadable (mem s) file j → j < i) as Hj.
  { intros j Hj Hl. destruct (decide (j = i)) as [->|]; [done|lia]. }
  split; [done| |].
  - intros va Hva Hne. apply W; [done|]. intros j va' Hj'. apply Hne. lia.
  - destruct B as [?|B]; [by left|right]. intros j va Hj' Hl. by apply B; [apply Hj|].
Qed.

Lemma covers_low m file size ph k va : ph_ok m file size ph k → covers m ph va → 0 ≤ va < 2 ^ 47.
Proof.
  intros [_ _ _ H5 _] [H1 H2]. pose proof (load_range 8 m (ph + 16)). pose proof (load_range 8 m (ph + 40)).
  fold (p_vaddr m ph) in *. fold (p_memsz m ph) in *. change (256 ^ Z.of_nat 8) with (2 ^ 64) in *.
  unfold seg_end, PAGE_SIZE in H2. rewrite u64_small in H2 by lia. rewrite page_floor_div in * by lia. dlia.
Qed.

Lemma file_upto_load root file size k s i s1 s2 : elf_ok (mem s) file size k → loadable (mem s) file i →
  file_upto root file s i s1 → loads root s1 s2 →
  (∀ va, (∀ va', covers (mem s) (ph_at (mem s) file i) va' → va' / 4096 ≠ va / 4096) → 0 ≤ va < 2 ^ 47 →
     walk (mem s2) root va = walk (mem s1) root va) →
  (full s2 ∨ ∀ va, covers (mem s) (ph_at (mem s) file i) va →
     loaded s2 root va (ph_byte (mem s) file (ph_at (mem s) file i) va)) →
  file_upto root file s (i + 1) s2.
Proof.
  intros He Hi [L1 W1 B1] L2 W2 B2. split.
  - by eapply loads_trans.
  - intros va Hva Hne. rewrite W2 by (done || (intros va'; apply Hne; [lia|done])).
    apply W1; [done|]. intros j va' Hj. apply Hne. lia.
  - destruct B2 as [?|B2]; [by left|]. destruct B1 as [?|B1]; [left; by eapply loads_full|right].
    intros j va Hj Hl Hc. destruct (decide (j = i)) as [->|Hne]; [by apply B2|].
    eapply loaded_step; [exact L2| |apply B1; [lia|done..]].
    apply W2; [|eapply covers_low; [by apply (eo_seg _ _ _ _ He)|done]].
    intros va' Hc'. by eapply (eo_disjoint _ _ _ _ He i j).
Qed.

Lemma load_file_wp n s root file size (Q : Z → machine → Prop) :
  tree s root → file_ok s root file size → supported (mem s) file → elf_ok (mem s) file size n →
  (∀ s', file_upto root file s (e_phnum (mem s) file) s' → Q (e_entry (mem s) file) s') →
  (∀ s', loads root s s' → (∀ va, 0 ≤ va < 2 ^ 47 → (∀ j va', loadable (mem s) file j →
      covers (mem s) (ph_at (mem s) file j) va' → va' / 4096 ≠ va / 4096) →
      walk (mem s') root va = walk (mem s) root va) → full s' → Q 0 s') →
  wp (elf_load_file root file) n s Q.
Proof.
  intros Ht Hf Hsup He Hok Hfail. unfold elf_load_file. apply wp_bind, check_supported_wp. intros s1 Hc1.
  rewrite (decide_True (P := supported (mem s) file)) by done. rewrite decide_False by done. unfold field. wp_steps.
  destruct (console_loads root s s1 Ht Hc1) as [L1 W1]. pose proof Hf as (Hf1 & _ & Hf3 & _).
  pose proof (eo_head _ _ _ _ He) as Hh. pose proof (eo_table _ _ _ _ He) as Htab.
  assert (∀ s', loads root s s' → e_phnum (mem s') file = e_phnum (mem s) file ∧
    e_entry (mem s') file = e_entry (mem s) file ∧ e_phoff (mem s') file = e_phoff (mem s) file) as Hhd.
  { intros s' L. unfold e_phnum, e_entry, e_phoff. split_and!; (eapply file_load; [exact L|exact Hf|lia..]). }
  destruct (Hhd s1 L1) as (_ & _ & ->).
  pose proof (load_range 8 (mem s) (file + 32)) as Ho. fold (e_phoff (mem s) file) in Ho.
  pose proof (load_range 2 (mem s) (file + 56)) as Hp. fold (e_phnum (mem s) file) in Hp.
  apply (wp_while_idx (λ k i s', 0 ≤ i ≤ e_phnum (mem s) file ∧ k = Z.to_nat (e_phnum (mem s) file - i) ∧
    file_upto root file s i s') _ _ (Z.to_nat (e_phnum (mem s) file))).
  { split_and!; [lia..|]. split; [done|intros; apply W1|]. right. intros j va Hj [? _]. lia. }
  { pose proof (eo_fuel _ _ _ _ He). lia. }
  intros k i s2 (Hi & -> & Hu). pose proof (fu_loads _ _ _ _ _ Hu) as L2. destruct (Hhd s2 L2) as (En & Ee & _).
  unfold elf_load_step, field, sizeof_phdr. wp_steps. rewrite En. wp_decide Hlt.
  2:{ wp_steps. rewrite Ee. assert (i = e_phnum (mem s) file) as -> by lia. by apply Hok. }
  rewrite (u64_small (file + _)), (u64_small (_ + 56 * i)) by lia. fold (ph_at (mem s) file i).
  assert (file ≤ ph_at (mem s) file i ∧ ph_at (mem s) file i + 56 ≤ file + size) as [Hp1 Hp2] by (unfold ph_at; lia).
  destruct (ph_fields _ _ _ _ _ _ L2 Hf Hp1 Hp2) as (Ety & _). wp_steps. rewrite Ety. wp_decide Hty.
  2:{ apply wp_ret. exists (Z.to_nat (e_phnum (mem s) file - (i + 1))). split; [lia|]. split_and!; [lia..|].
      apply file_upto_skip; [|done]. by intros [_ ?]. }
  assert (loadable (mem s) file i) as Hld by (split; [lia|done]).
  destruct (ph_ok_loads _ _ _ _ _ _ _ L2 Hf (eo_seg _ _ _ _ He i Hld)) as (Hok2 & Hcov & Hby).
  apply wp_bind. eapply load_segment_wp; [apply L2|exact (file_ok_loads _ _ _ _ _ L2 Hf)|done|..].
  - intros s3 L3 W3 B3. apply wp_ret. exists (Z.to_nat (e_phnum (mem s) file - (i + 1))).
    split; [lia|]. split_and!; [lia..|]. eapply file_upto_load; [done|done|exact Hu|done|..].
    + intros va Hne Hva. apply W3; [|done]. intros va' Hc. apply Hne. by apply Hcov.
    + destruct B3 as [?|B3]; [by left|right]. intros va Hc. rewrite <- Hby. by apply B3, Hcov.
  - intros s3 L3 W3 Hfu. apply wp_ret, Hfail; [by eapply loads_trans| |done]. intros va Hva Hne.
    rewrite W3; [|intros va' Hc; apply (Hne i); [done|by apply Hcov]|done].
    apply (fu_walk _ _ _ _ _ Hu); [done|]. intros j va' _. apply Hne.
Qed.

End files.

(** ** A file to evaluate on *)

Fixpoint le (k : nat) (v : Z) : list Z := match k with O => [] | S k => u8 v :: le k (v / 256) end.

(** An executable with one segment of eight bytes at 0x400078, four of them in the file. *)
Definition elf_image : list Z :=
  [0x7F; 69; 76; 70; 2; 1; 1; 0] ++ replicate 8 0
  ++ le 2 2 ++ le 2 62 ++ le 4 1 ++ le 8 0x400078 ++ le 8 64 ++ le 8 0
  ++ le 4 0 ++ le 2 64 ++ le 2 56 ++ le 2 1 ++ le 2 0 ++ le 2 0 ++ le 2 0
  ++ le 4 1 ++ le 4 5 ++ le 8 120 ++ le 8 0x400078 ++ le 8 0x400078 ++ le 8 4 ++ le 8 8 ++ le 8 4096
  ++ [0xB8; 1; 0xCD; 0x80].

(** A machine with 16 frames above 32 MiB: a kernel root that maps the bitmap's page and the
    frames to themselves, the file in a frame of its own, and a user root. *)
Fixpoint id_map (root : Z) (pages : list Z) : M unit :=
  match pages with
  | [] => mret tt
  | pg :: rest => vmm_map_page root (pg * 4096) (pg * 4096) 7;; id_map root rest
  end.

Definition kernel_pages : list Z := 512 :: ((λ i, 8192 + Z.of_nat i) <$> seq 0 16).

Definition demo_root : M unit :=
  p ← pmm_alloc_block;
  memset p 0 PAGE_SIZE;;
  modify (λ s, set_vmm (mkVmm p p) (set_cpu (mkCpu p 0 (0, 0) (0, 0) false) s));;
  id_map 0x2000000 kernel_pages.

Definition demo_file : M unit :=
  _ ← pmm_alloc_block;
  modify (λ s, set_mem (put_bytes 0x2005000 elf_image (mem s)) s).

Definition small_demo : machine := set_pmm (mkPmm 0x200000 8208 1026) pmm_demo.

Definition pointers_check (s : machine) : bool :=
  forallb (λ pg, bool_decide (frame_of <$> walk (mem s) (cr3 (cpu s)) (pg * 4096) = Some (pg * 4096))) kernel_pages.

Section demo.
Implicit Types (s : machine).

Lemma id_map_tree n s root pages : tree s root → wp (id_map root pages) n s (λ _ s', tree s' root).
Proof.
  induction pages as [|pg pages IH] in s |- *; intros Ht; cbn [id_map]; [by apply wp_ret|].
  apply wp_bind, vmm_map_page_wp; [done|apply flags_7|..]; intros s' H; [|intros _]; apply IH, H.
Qed.

(** The frame that is handed out, when the ones below it are in use. *)
Lemma alloc_at_wp f n s (Q : Z → machine → Prop) : pmm_wf s → 8192 ≤ f < total_blocks (pmm s) → used s f = false →
  (∀ j, 8192 ≤ j < f → used s j = true) → (∀ s', allocated s s' f → Q (f * 4096) s') → wp pmm_alloc_block n s Q.
Proof.
  intros Hwf Hf Hfree Hbelow HQ. apply alloc_frame_wp; [done| |].
  - intros i s' Hal. pose proof (al_range _ _ _ Hal). assert (i = f) as ->; [|by apply HQ].
    destruct (decide (f < i)); [rewrite (al_first _ _ _ Hal) in Hfree by lia; done|].
    destruct (decide (i < f)); [|lia]. pose proof (al_free _ _ _ Hal) as Hi. rewrite Hbelow in Hi by lia. done.
  - intros s' Hall. rewrite Hall in Hfree by lia. done.
Qed.

Lemma demo_root_tree n s : pmm_wf s → pmm_fits s → 8192 < total_blocks (pmm s) → used s 8192 = false →
  wp demo_root n s (λ _ s', tree s' 0x2000000).
Proof.
  intros Hwf Hfit Htot Hfree. unfold demo_root. apply wp_bind, (alloc_at_wp 8192); [done|lia|done|lia|].
  intros s1 Hal. pose proof (zeroed_tree _ _ _ (zeroed_intro _ _ _ Hwf Hfit Hal)) as Ht.
  unfold memset. wp_steps. apply id_map_tree. eapply tree_same; [..|exact Ht]; reflexivity.
Qed.

Lemma demo_file_wp n s root (Q : unit → machine → Prop) : tree s root → 8197 < total_blocks (pmm s) → used s 8197 = false →
  (∀ j, 8192 ≤ j < 8197 → used s j = true) →
  (∀ s', tree s' root → dframe s' root 8197 → Q tt s') → wp demo_file n s Q.
Proof.
  intros Ht Htot Hfree Hbelow HQ. unfold demo_file. apply wp_bind, (alloc_at_wp 8197); [apply Ht|lia|done|done|].
  intros s1 Hal. destruct (allocated_loads root s s1 _ Ht Hal) as (L & _ & D & _).
  wp_steps. destruct (frame_write root s1 (put_bytes 0x2005000 elf_image (mem s1)) 8197 (ld_tree _ _ _ L) D) as (T & _ & _ & D' & _).
  { intros x Hx. apply byte_put_out. change (length elf_image) with 124%nat. lia. }
  apply HQ; [done|by apply D'].
Qed.

(** The three steps, one after the other. *)
Lemma demo_steps s s0 s1 s2 k p : k = 0x2000000 →
  pmm_wf s → pmm_fits s → 8192 < total_blocks (pmm s) → used s 8192 = false →
  s0 = run demo_root 0 s → 8197 < total_blocks (pmm s0) → used s0 8197 = false →
  Forall (λ j, used s0 j = true) [8192; 8193; 8194; 8195; 8196] →
  s1 = run demo_file 0 s0 → kernel_pml4 (vmm s1) = k → present (entry (mem s1) k 0) = true → used s1 8198 = false →
  8198 < total_blocks (pmm s1) → vmm_create_user_pml4 0%nat s1 = Ret p s2 →
  shares s2 k p ∧ dframe s2 p 8197.
Proof.
  intros -> Hwf Hfit Htot Hfree E0 Ht0 Hf0 Hu0 E1 Hk Hpr Hf1 Ht1 E2.
  pose proof (demo_root_tree 0 s Hwf Hfit Htot Hfree) as W0. apply wp_run in W0 as (x & s0' & E & T0).
  unfold run in E0. rewrite E in E0. subst s0'.
  assert (wp demo_file 0 s0 (λ _ s', tree s' 0x2000000 ∧ dframe s' 0x2000000 8197)) as W1.
  { apply (demo_file_wp _ _ 0x2000000); [done..| |by auto]. intros j Hj. rewrite Forall_forall in Hu0. apply Hu0.
    assert (j = 8192 ∨ j = 8193 ∨ j = 8194 ∨ j = 8195 ∨ j = 8196) by lia. set_solver. }
  apply wp_run in W1 as (y & s1' & E' & T1 & D1). unfold run in E1. rewrite E' in E1. subst s1'.
  assert (wp vmm_create_user_pml4 0 s1 (λ p s2, p ≠ 0 → shares s2 0x2000000 p ∧ dframe s2 p 8197)) as W2.
  { apply (user_root_wp _ _ 0x2000000); [done..| |by intros ??? []].
    intros q s' Hq Hsh _ D _. split; [done|by apply D]. }
  unfold wp in W2. rewrite E2 in W2. apply W2. intros ->.
  assert (wp vmm_create_user_pml4 0 s1 (λ q _, q ≠ 0)) as W3.
  { apply wp_bind, alloc_frame_wp; [apply T1| |].
    - intros f s' Hal. pose proof (al_range _ _ _ Hal). rewrite decide_False by lia.
      unfold get_entry, put_entry, memset. wp_steps. lia.
    - intros s' Hall. rewrite Hall in Hf1 by lia. done. }
  unfold wp in W3. rewrite E2 in W3. done.
Qed.

(** Kernel pointers, page by page. *)
Lemma pages_pointers s : total_blocks (pmm s) = 8208 →
  pointers_check s = true → kernel_pointers s.
Proof.
  intros Ht H. unfold pointers_check in H. rewrite forallb_forall in H. split; [rewrite Ht; lia|]. intros x Hx.
  assert (In (x / 4096) kernel_pages) as Hin.
  { unfold kernel_area, bitmap_span in Hx. rewrite Ht in Hx. change (4 * ((8208 + 31) / 32)) with 1028 in Hx.
    destruct Hx as [Hx|Hx]; [left; dlia|right].
    apply list_elem_of_In, list_elem_of_fmap. assert (8192 ≤ x / 4096 < 8208) by dlia.
    exists (Z.to_nat (x / 4096 - 8192)). split; [lia|]. apply elem_of_seq. lia. }
  specialize (H _ Hin). apply bool_decide_eq_true in H. unfold translate.
  assert (walk (mem s) (cr3 (cpu s)) x = walk (mem s) (cr3 (cpu s)) (x / 4096 * 4096)) as ->.
  { assert (page x = page (x / 4096 * 4096)) as E by (unfold page; f_equal; dlia).
    apply indices_page in E as [Ep Et]. unfold walk. by rewrite Ep, Et. }
  destruct (walk _ _ _) as [e|]; [|done]. injection H as H. cbn [mbind option_bind]. rewrite H. f_equal. dlia.
Qed.

End demo.

#[local] Abbreviation elf_s0 := (run demo_root 0 small_demo).
#[local] Abbreviation elf_s1 := (run demo_file 0 elf_s0).
#[local] Abbreviation elf_demo := (run vmm_create_user_pml4 0 elf_s1).

(** Files with these headers are well formed. *)
Lemma one_segment_ok m h : (e_phoff m h, e_phnum m h) = (64, 1) →
  (p_offset m (h + 64), p_vaddr m (h + 64), p_filesz m (h + 64), p_memsz m (h + 64)) = (120, 0x400078, 4, 8) →
  elf_ok m h 124 2.
Proof.
  intros [= Eo En] [= E2 E3 E4 E5].
  assert (∀ i, loadable m h i → i = 0) as H0 by (intros i [Hi _]; lia).
  assert (ph_at m h 0 = h + 64) as Ep by (unfold ph_at; rewrite Eo; lia).
  split; [lia|lia| | |lia].
  - intros i Hi. rewrite (H0 i Hi), Ep. split; rewrite ?E2, ?E3, ?E4, ?E5; [lia..|by vm_compute].
  - intros i j va va' Hi Hj Hne. rewrite (H0 i Hi), (H0 j Hj) in Hne. done.
Qed.

Lemma small_demo_wf : pmm_wf small_demo.
Proof. split; [cbn; lia|done|exact (wf_reserved _ pmm_demo_wf)]. Qed.

Lemma small_demo_fits : pmm_fits small_demo.
Proof. by vm_compute. Qed.
Lemma small_demo_free : used small_demo 8192 = false.
Proof. vm_compute. reflexivity. Qed.

(** What is read off each state, in one evaluation. *)
Definition view0 (s : machine) := (total_blocks (pmm s), used s 8197, forallb (used s) [8192; 8193; 8194; 8195; 8196]).
Definition view1 (s : machine) :=
  (total_blocks (pmm s), kernel_pml4 (vmm s), present (entry (mem s) 0x2000000 0), used s 8198,
   match vmm_create_user_pml4 0%nat s with Ret p _ => p | _ => 0 end).
Definition view2 (s : machine) :=
  let m := mem s in let h := 0x2005000 in
  (total_blocks (pmm s), cr3 (cpu s), pointers_check s, (e_phoff m h, e_phnum m h),
   (p_offset m (h + 64), p_vaddr m (h + 64), p_filesz m (h + 64), p_memsz m (h + 64)), bool_decide (supported m h)).

Lemma elf_view0 : view0 elf_s0 = (8208, false, true).
Proof. vm_compute. reflexivity. Qed.
Lemma elf_view1 : view1 elf_s1 = (8208, 0x2000000, true, false, 0x2006000).
Proof. vm_compute. reflexivity. Qed.
Lemma elf_view2 : view2 elf_demo = (8208, 0x2000000, true, (64, 1), (120, 0x400078, 4, 8), true).
Proof. vm_compute. reflexivity. Qed.

(** The conditions of the loader hold of any machine with these views. *)
Lemma elf_demo_conditions s s0 s1 s2 :
  pmm_wf s → pmm_fits s → 8192 < total_blocks (pmm s) → used s 8192 = false →
  s0 = run demo_root 0 s → s1 = run demo_file 0 s0 →
  s2 = run vmm_create_user_pml4 0 s1 →
  view0 s0 = (8208, false, true) → view1 s1 = (8208, 0x2000000, true, false, 0x2006000) →
  view2 s2 = (8208, 0x2000000, true, (64, 1), (120, 0x400078, 4, 8), true) →
  shares s2 (cr3 (cpu s2)) 0x2006000 ∧ kernel_pointers s2 ∧ file_ok s2 0x2006000 0x2005000 124 ∧
  supported (mem s2) 0x2005000 ∧ elf_ok (mem s2) 0x2005000 124 2 ∧
  ∀ i va, loadable (mem s2) 0x2005000 i → covers (mem s2) (ph_at (mem s2) 0x2005000 i) va → off_kernel s2 va.
Proof.
  intros Hwf Hfit Htot Hfree E0 E1 E2 V0 V1 V2. unfold view0 in V0. unfold view1 in V1. unfold view2 in V2.
  pose proof (f_equal snd V0) as F0. cbn [snd] in F0. injection V0 as T0 U0 _. injection V1 as T1 K1 P1 U1 R1. pose proof (f_equal (λ x, x.1.1.1.2) V2) as Q2. cbn [fst snd] in Q2. injection V2 as T2 C2 _ H1 H2 H3 H4 H5 H6 S2.
  apply bool_decide_eq_true in S2. rewrite forallb_forall in F0.
  assert (shares s2 0x2000000 0x2006000 ∧ dframe s2 0x2006000 8197) as [Hsh Hd].
  { destruct (vmm_create_user_pml4 0%nat s1) as [q s2'| | |] eqn:Er; [|done..]. subst q.
    assert (s2' = s2) as -> by (rewrite E2; unfold run; by rewrite Er).
    refine (demo_steps s s0 s1 s2 _ _ eq_refl Hwf Hfit Htot Hfree E0 _ U0 _ E1 K1 P1 U1 _ Er); [lia| |lia].
    apply Forall_forall. intros j Hj. apply F0. by apply list_elem_of_In. }
  assert (elf_ok (mem s2) 0x2005000 124 2) as He by (apply one_segment_ok; congruence).
  rewrite C2. split_and!; [done|by apply pages_pointers| |done|done|].
  - split_and!; [lia..|]. intros x Hx. by replace (x / 4096) with 8197 by dlia.
  - intros i va [Hi _]. assert (i = 0) as -> by lia. unfold covers, ph_at. rewrite H1, Z.mul_0_r, Z.add_0_r, H4, H6.
    unfold off_kernel, bitmap_span. rewrite T2. change (page_floor 0x400078) with 0x400000.
    change (seg_end 0x400078 8) with 0x401000. change (4 * ((8208 + 31) / 32)) with 1028. intros Hva. dlia.
Qed.

(** ** Properties *)

(** C30. [elf_check_supported] accepts exactly the headers of 64-bit little-endian x86-64
    executables or shared objects, and changes nothing but the screen. *)
Theorem elf_check_supported_exact n s h :
  wp (elf_check_supported h) n s (λ r s',
    r = (if decide (supported (mem s) h) then 1 else 0) ∧ console_only s s').
Proof. by apply check_supported_wp. Qed.

(** C9. Loading a program makes its image.  For an ELF file in frames marked used, whose
    loadable segments lie in the file, share no page and stay off the memory the kernel uses,
    and a root that shares entry 0 with the active page tables: the loader returns the entry
    point, or 0 when the frames ran out; unless no frame is left, every address of every
    loadable segment's pages translates to a data frame and holds the file's byte there, or 0
    behind the file's part; no other page's translation changes, every data frame that
    existed keeps its contents, and kernel pointers still reach the addresses they name. *)
Theorem elf_load_file_image n s root file size :
  shares s (cr3 (cpu s)) root → kernel_pointers s →
  file_ok s root file size → supported (mem s) file → elf_ok (mem s) file size n →
  (∀ i va, loadable (mem s) file i → covers (mem s) (ph_at (mem s) file i) va → off_kernel s va) →
  wp (elf_load_file root file) n s (λ r s',
    (r = e_entry (mem s) file ∨ (r = 0 ∧ full s')) ∧ loads root s s' ∧ kernel_pointers s' ∧
    (∀ va, 0 ≤ va < 2 ^ 47 →
       (∀ i va', loadable (mem s) file i → covers (mem s) (ph_at (mem s) file i) va' → va' / 4096 ≠ va / 4096) →
       walk (mem s') root va = walk (mem s) root va) ∧
    (full s' ∨ ∀ i va, loadable (mem s) file i → covers (mem s) (ph_at (mem s) file i) va →
       loaded s' root va (ph_byte (mem s) file (ph_at (mem s) file i) va))).
Proof.
  intros Hsh Hk Hf Hs He Hoff. pose proof (sh_user _ _ _ Hsh) as Ht.
  assert (∀ s', loads root s s' → (∀ va, 0 ≤ va < 2 ^ 47 →
    (∀ i va', loadable (mem s) file i → covers (mem s) (ph_at (mem s) file i) va' → va' / 4096 ≠ va / 4096) →
    walk (mem s') root va = walk (mem s) root va) → kernel_pointers s') as Hkp.
  { intros s' L W. eapply kernel_pointers_loads; [done..|]. intros x Hx. apply W.
    - pose proof (kp_low _ Hk). pose proof (tr_fits _ _ Ht) as Hfit. unfold kernel_area, pmm_fits in *. lia.
    - intros i va Hl Hc. by eapply off_kernel_page; [apply (Hoff i)|]. }
  eapply load_file_wp; [done..| |].
  - intros s' [L W B].
    assert (∀ va, 0 ≤ va < 2 ^ 47 →
      (∀ i va', loadable (mem s) file i → covers (mem s) (ph_at (mem s) file i) va' → va' / 4096 ≠ va / 4096) →
      walk (mem s') root va = walk (mem s) root va) as W' by (intros va Hva Hne; apply W; [done|]; intros j va' _; apply Hne).
    split_and!; [by left|done|by apply Hkp|done|]. destruct B as [?|B]; [by left|right].
    intros i va Hl. apply B; [apply Hl|done].
  - intros s' L W Hfu. split_and!; [by right|done|by apply Hkp|done|by left].
Qed.

Lemma elf_load_file_image_witness :
  wp (elf_load_file 0x2006000 0x2005000) 2 elf_demo (λ r s',
    (r = e_entry (mem elf_demo) 0x2005000 ∨ (r = 0 ∧ full s')) ∧ loads 0x2006000 elf_demo s' ∧ kernel_pointers s' ∧
    (∀ va, 0 ≤ va < 2 ^ 47 →
       (∀ i va', loadable (mem elf_demo) 0x2005000 i → covers (mem elf_demo) (ph_at (mem elf_demo) 0x2005000 i) va' →
          va' / 4096 ≠ va / 4096) →
       walk (mem s') 0x2006000 va = walk (mem elf_demo) 0x2006000 va) ∧
    (full s' ∨ ∀ i va, loadable (mem elf_demo) 0x2005000 i → covers (mem elf_demo) (ph_at (mem elf_demo) 0x2005000 i) va →
       loaded s' 0x2006000 va (ph_byte (mem elf_demo) 0x2005000 (ph_at (mem elf_demo) 0x2005000 i) va))).
Proof.
  destruct (elf_demo_conditions small_demo elf_s0 elf_s1 elf_demo
    small_demo_wf small_demo_fits eq_refl small_demo_free eq_refl eq_refl eq_refl elf_view0 elf_view1 elf_view2)
    as (H1 & H2 & H3 & H4 & H5 & H6).
  exact (elf_load_file_image 2 elf_demo 0x2006000 0x2005000 124 H1 H2 H3 H4 H5 H6).
Defined.
