(* ===== verification/Shell.v ===== *)
(** src/kernel/memory.c and the shell of src/kernel/kernel.c ([user_input]).

    One definition per command, in the order of the else-if chain; [dispatch] is the chain.
    A command's result says whether [user_input] goes on to print the prompt: exec returns
    early once a process was created or could not be.  The local arrays of the function have
    the sizes of the source, and a write past them has no result. *)
From S2P Require Import Prelude Memory Hardware Machine Utils Screen Pmm Kheap Vmm Cpu Process Ata Buffers Fat Frames Elf.

(** ** memory.c *)

Definition print_entry (i : Z) : M unit :=
  kprint (str "Base: ");;
  base ← gets (λ s, e_base (mem s) i);
  kprint_hex 32 base;;
  kprint (str " Length: ");;
  len ← gets (λ s, e_length (mem s) i);
  kprint_hex 32 len;;
  kprint (str " Type: ");;
  type ← gets (λ s, Pmm.e_type (mem s) i);
  if decide (type = 1) then kprint (str "1 (Free)" ++ newline) else kprint (str "Other" ++ newline).

Definition print_memory_map : M unit :=
  count ← gets (λ s, entry_count (mem s));
  kprint (str "Memory Map Entries: ");;
  kprint_hex 32 count;;
  kprint newline;;
  for_unit (Z.to_nat count) 0 print_entry.

(** ** Helpers of the shell *)

(** [kprint] of a string in memory: one unit of fuel per character. *)
Definition kprint_mem (a : Z) : M unit := λ n s,
  match cstr_at n (mem s) a with
  | Some l => kprint l n s
  | None => NoFuel
  end.

Definition prompt : M unit :=
  kprint (str "OS_eojin:");;
  path ← fat_get_current_path;
  kprint (string_of path);;
  kprint (str "> ").

(** [char name[size]; int arg_offset = offset; if (!get_next_token(...)) usage; else body] *)
Definition with_arg (size : nat) (input : list Z) (offset : Z) (usage : list Z) (body : list Z → M bool) : M bool :=
  '(r, arg, _) ← from_option_ub (get_next_token input (replicate size 0) offset);
  if decide (r = 0) then kprint usage;; mret true else body arg.

(** The else-if chain on [strcmp(command, ...) == 0]. *)
Fixpoint dispatch (command : list Z) (cmds : list (string * M bool)) (unknown : M bool) : M bool :=
  match cmds with
  | [] => unknown
  | (name, body) :: rest =>
      r ← from_option_ub (strcmp command (cstr (str name)));
      if decide (r = 0) then body else dispatch command rest unknown
  end.

(** ** Commands *)

Definition help_lines : list string :=
  [ "Available commands:"; "    help            - Show this list"; "    clear           - Clear the screen";
    "    shutdown        - Power off the system"; "    memory          - Show Memory Map";
    "    echo [message]  - Print message"; "    write [data]    - Write Data to Disk";
    "    read            - Read Data from Disk"; "    mount           - Connect fat_init() and ATA Driver";
    "    ls              - List Root Directory"; "    cat [file]      - Print File Content";
    "    exec [file]     - Execute User Program"; "    cd [dir]        - Change Directory";
    "    touch [file]    - Create Empty File"; "    mkdir [dir]     - Create Directory";
    "    rm [file]       - Remove File"; "    rmdir [dir]     - Remove Directory" ]%string.

Fixpoint kprint_lines (lines : list string) : M unit :=
  match lines with
  | [] => mret tt
  | l :: rest => kprint (str l ++ newline);; kprint_lines rest
  end.

Definition cmd_help : M bool := kprint_lines help_lines;; mret true.
Definition cmd_clear : M bool := on_console clear_screen;; mret true.

Definition cmd_shutdown : M bool :=
  kprint (str "Shutting down..." ++ newline);;
  outw 0xB004 0x2000;;
  outw 0x604 0x2000;;
  kprint (str "It is now safe to turn off your computer." ++ newline);;
  modify (λ s, set_cpu (mkCpu (cr3 (cpu s)) (cr2 (cpu s)) (idtr (cpu s)) (gdtr (cpu s)) false) s);;
  halt.

Definition cmd_memory : M bool := print_memory_map;; mret true.

Definition cmd_echo (input : list Z) (offset : Z) : M bool :=
  offset ← from_option_ub (skip_spaces (drop (Z.to_nat offset) input) offset);
  kprint (string_of (drop (Z.to_nat offset) input));;
  kprint newline;;
  mret true.

Definition cmd_write (input : list Z) (offset : Z) : M bool :=
  buf ← kmalloc 512;
  memset buf 0 512;;
  '(r, arg, _) ← from_option_ub (get_next_token input (replicate 128 0) offset);
  (if decide (r = 0) then strcpy buf (cstr (str "TEST_DATA_DEFAULT")) else strcpy buf arg);;
  kprint (str "Writing to LBA 200: ");;
  kprint_mem buf;;
  kprint newline;;
  write_buf 200 buf;;
  kfree buf;;
  kprint (str "Write Done." ++ newline);;
  mret true.

Definition cmd_read : M bool :=
  buf ← kmalloc 512;
  memset buf 0 512;;
  kprint (str "Reading from LBA 200..." ++ newline);;
  read_buf 200 buf;;
  kprint (str "Data: ");;
  kprint_mem buf;;
  kprint newline;;
  kfree buf;;
  mret true.

Definition cmd_mount : M bool := fat_init;; mret true.
Definition cmd_ls : M bool := fat_list;; mret true.

(** [for (i = 0; i < 512 && size > 0; i++, size--)]: the size that is left. *)
Definition print_sector (buf size : Z) : M Z :=
  for_acc 512 0 size (λ i left,
    if decide (left > 0) then
      c ← load8 (buf + i);
      kprint (string_of [c; 0]);;
      mret (left - 1)
    else mret left).

Definition cat_step (buf : Z) (st : Z * Z) : M ((Z * Z) + unit) :=
  let '(size, cluster) := st in
  if decide (size > 0 ∧ cluster < 0xFFF8) then
    lba ← fat_lba_of_cluster cluster;
    read_buf lba buf;;
    size ← print_sector buf size;
    cluster ← fat_next_cluster cluster;
    mret (inl (size, cluster))
  else mret (inr tt).

Definition not_found (filename : list Z) : M bool :=
  kprint (str "File not found: ");;
  kprint (string_of filename);;
  kprint newline;;
  mret true.

Definition cmd_cat (input : list Z) (offset : Z) : M bool :=
  with_arg 32 input offset (str "Usage: cat <filename>" ++ newline) (λ filename,
    r ← fat_find_file filename;
    match r with
    | None => not_found filename
    | Some entry =>
        let cluster := e_first_cluster_low entry in
        let size := e_file_size entry in
        buf ← kmalloc 512;
        if decide (buf = 0) then kprint (str "cat: Memory allocation failed" ++ newline);; mret true
        else
          while_loop (cat_step buf) (size, cluster);;
          kprint newline;;
          kfree buf;;
          mret true
    end).

(** *** exec *)

Definition load_addr : Z := 0x4000000.

(** One cluster of the file, to [ptr]. *)
Definition exec_step (buf : Z) (st : Z * Z * Z) : M ((Z * Z * Z) + unit) :=
  let '(size, cluster, ptr) := st in
  if decide (size > 0 ∧ cluster < 0xFFF8) then
    lba ← fat_lba_of_cluster cluster;
    read_buf lba buf;;
    let copy_size := if decide (size > 512) then 512 else size in
    for_unit (Z.to_nat copy_size) 0 (λ i, b ← load8 (buf + i); store8 (ptr + i) b);;
    cluster ← fat_next_cluster cluster;
    mret (inl (size - copy_size, cluster, ptr + 512))
  else mret (inr tt).

(** One page of a flat binary; [false] is the return when no frame is left. *)
Definition flat_page (proc_pml4 size offset : Z) : M bool :=
  paddr ← pmm_alloc_block;
  if decide (paddr = 0) then kprint (str "exec: OOM for flat binary" ++ newline);; mret false
  else
    let copy_len := if decide (offset + PAGE_SIZE > size) then size - offset else PAGE_SIZE in
    memset paddr 0 PAGE_SIZE;;
    memcpy paddr (load_addr + offset) copy_len;;
    vmm_map_page proc_pml4 (0x10000000 + offset) paddr
      (Z.lor (Z.lor PAGING_FLAG_PRESENT PAGING_FLAG_WRITABLE) PAGING_FLAG_USER);;
    mret true.

Definition flat_step (proc_pml4 size offset : Z) : M (Z + bool) :=
  if decide (offset < size) then
    ok ← flat_page proc_pml4 size offset;
    mret (if ok : bool then inl (offset + PAGE_SIZE) else inr false)
  else mret (inr true).

(** The entry point of the program at [load_addr]; [None] is an early return. *)
Definition exec_image (proc_pml4 size : Z) : M (option Z) :=
  elf ← elf_check_file load_addr;
  if decide (elf ≠ 0) then
    entry_point ← elf_load_file proc_pml4 load_addr;
    if decide (entry_point = 0) then kprint (str "exec: ELF load failed." ++ newline);; mret None
    else mret (Some entry_point)
  else
    ok ← while_loop (flat_step proc_pml4 size) 0;
    mret (if ok : bool then Some 0x10000000 else None).

(** From "Spawning Process" on. *)
Definition exec_spawn (filename : list Z) (size : Z) : M unit :=
  kprint (str "Spawning Process for ");;
  kprint (string_of filename);;
  kprint (str "..." ++ newline);;
  proc_pml4 ← vmm_create_user_pml4;
  if decide (proc_pml4 = 0) then kprint (str "exec: Failed to create PML4" ++ newline)
  else
    entry_point ← exec_image proc_pml4 size;
    match entry_point with
    | None => mret tt
    | Some entry =>
        create_user_process entry proc_pml4;;
        kprint (str "Process Created." ++ newline)
    end.

Definition cmd_exec (input : list Z) (offset : Z) : M bool :=
  with_arg 32 input offset (str "Usage: exec <filename>" ++ newline) (λ filename,
    r ← fat_find_file filename;
    match r with
    | None => not_found filename
    | Some entry =>
        let cluster := e_first_cluster_low entry in
        let size := e_file_size entry in
        buf ← kmalloc 512;
        if decide (buf = 0) then kprint (str "exec: Memory allocation failed" ++ newline);; mret true
        else
          while_loop (exec_step buf) (size, cluster, load_addr);;
          kfree buf;;
          kprint (str "Loaded ");;
          size_buf ← from_option_ub (hex_to_ascii size (replicate 16 0));
          kprint (string_of size_buf);;
          kprint (str " bytes at 0x4000000" ++ newline);;
          exec_spawn filename size;;
          mret false
    end).

(** *** Directories and files *)

Definition cmd_cd (input : list Z) (offset : Z) : M bool :=
  with_arg 32 input offset (str "Usage: cd <dirname>" ++ newline) (λ dirname, fat_change_dir dirname;; mret true).

Definition cmd_touch (input : list Z) (offset : Z) : M bool :=
  with_arg 32 input offset (str "Usage: touch <filename>" ++ newline) (λ filename,
    r ← fat_create_entry filename 0 0 0;
    (if decide (r ≠ 0) then kprint (str "File created." ++ newline) else mret tt);;
    mret true).

(** The first sector of a new directory: its entries for itself and its parent. *)
Definition mkdir_sector (buf cluster : Z) : M unit :=
  memset buf 0 512;;
  memset buf 32 11;;
  store8 buf 46;;
  store8 (buf + 11) ATTR_DIRECTORY;;
  store16 (buf + 26) cluster;;
  memset (buf + 32) 32 11;;
  store8 (buf + 32) 46;;
  store8 (buf + 33) 46;;
  store8 (buf + 43) ATTR_DIRECTORY;;
  parent ← fat_get_current_cluster;
  store16 (buf + 58) parent.

Definition cmd_mkdir (input : list Z) (offset : Z) : M bool :=
  with_arg 32 input offset (str "Usage: mkdir <dirname>" ++ newline) (λ dirname,
    cluster ← fat_allocate_cluster;
    if decide (cluster = 0) then kprint (str "Disk full (No free clusters)." ++ newline);; mret true
    else
      buf ← kmalloc 512;
      mkdir_sector buf cluster;;
      lba ← fat_lba_of_cluster cluster;
      write_buf lba buf;;
      kfree buf;;
      r ← fat_create_entry dirname ATTR_DIRECTORY cluster 0;
      (if decide (r ≠ 0) then kprint (str "Directory created." ++ newline)
       else kprint (str "Failed to create entry." ++ newline));;
      mret true).

Definition cmd_rm (input : list Z) (offset : Z) : M bool :=
  with_arg 32 input offset (str "Usage: rm <filename>" ++ newline) (λ filename, fat_delete_file filename;; mret true).

Definition cmd_rmdir (input : list Z) (offset : Z) : M bool :=
  with_arg 32 input offset (str "Usage: rmdir <dirname>" ++ newline) (λ dirname, fat_delete_dir dirname;; mret true).

(** *** Tests *)

Definition cmd_alloc : M bool :=
  ptr ← pmm_alloc_block;
  (if decide (ptr = 0) then kprint (str "Allocation Failed (Out of Memory)" ++ newline)
   else kprint (str "Allocated at: ");; kprint_hex 32 ptr;; kprint newline);;
  mret true.

Definition print_ptr (what : list Z) (p : Z) : M unit := kprint what;; kprint_hex 32 p;; kprint newline.

Definition cmd_heap_test : M bool :=
  a ← kmalloc 64;
  print_ptr (str "Alloc A: ") a;;
  b ← kmalloc 64;
  print_ptr (str "Alloc B: ") b;;
  c ← kmalloc 64;
  print_ptr (str "Alloc C: ") c;;
  kprint (str "Free B..." ++ newline);;
  kfree b;;
  d ← kmalloc 64;
  print_ptr (str "Alloc D: ") d;;
  (if decide (d = b) then kprint (str "Heap Test Passed! (Address Reused)" ++ newline)
   else kprint (str "Heap Test Failed (Address Not Reused)" ++ newline));;
  kfree a;;
  kfree c;;
  kfree d;;
  mret true.

(** ** [user_input] *)

Definition unknown_command (input : list Z) : M bool :=
  kprint (str "Unknown command: ");;
  kprint (string_of input);;
  kprint newline;;
  mret true.

Definition commands (input : list Z) (offset : Z) : list (string * M bool) :=
  [ ("help", cmd_help); ("clear", cmd_clear); ("shutdown", cmd_shutdown); ("halt", cmd_shutdown);
    ("memory", cmd_memory); ("echo", cmd_echo input offset); ("write", cmd_write input offset);
    ("read", cmd_read); ("mount", cmd_mount); ("ls", cmd_ls); ("cat", cmd_cat input offset);
    ("exec", cmd_exec input offset); ("cd", cmd_cd input offset); ("touch", cmd_touch input offset);
    ("mkdir", cmd_mkdir input offset); ("rm", cmd_rm input offset); ("rmdir", cmd_rmdir input offset);
    ("alloc", cmd_alloc); ("heap_test", cmd_heap_test) ]%string.

Definition user_input (input : list Z) : M unit :=
  '(r, command, offset) ← from_option_ub (get_next_token input (replicate 32 0) 0);
  if decide (r = 0) then prompt
  else
    go_on ← dispatch command (commands input offset) (unknown_command input);
    if go_on : bool then prompt else mret tt.
