(* ===== verification/Exec.v ===== *)
(** The part of the exec command of src/kernel/kernel.c behind its message, composed from the
    specifications of its parts: a user root (src/kernel/vmm.c), the loader
    (src/kernel/elf.c) and a process (src/kernel/process/process.c); and the array the message
    does not fit. *)
From S2P Require Import Prelude Memory Hardware Machine Utils Screen Preserves Pmm Kheap Vmm Cpu Process Ata Buffers Fat Frames Elf Shell.

(** ** The file is all the loader looks at *)

Section same_file.
Context (m m' : gmap Z Z) (file size : Z).
Hypothesis Hsame : ∀ x, file ≤ x < file + size → byte_at m' x = byte_at m x.

Lemma same_load k a : file ≤ a → a + Z.of_nat k ≤ file + size → load k m' a = load k m a.
Proof. intros Ha Hk. apply load_ext. intros x Hx. apply Hsame. lia. Qed.

Lemma same_header : 64 ≤ size →
  e_phnum m' file = e_phnum m file ∧ e_phoff m' file = e_phoff m file ∧ e_entry m' file = e_entry m file.
Proof. intros Hs. split_and!; apply same_load; lia. Qed.

Lemma same_supported : 64 ≤ size → supported m file → supported m' file.
Proof.
  intros Hs. unfold supported, magic, e_ident, e_machine, eh_type.
  by rewrite !same_load by lia.
Qed.

(** Program headers inside the file. *)
Definition same_ph (p : Z) : Prop :=
  p_type m' p = p_type m p ∧ p_offset m' p = p_offset m p ∧ p_vaddr m' p = p_vaddr m p ∧
  p_filesz m' p = p_filesz m p ∧ p_memsz m' p = p_memsz m p.

Lemma same_phs p : file ≤ p → p + 56 ≤ file + size → same_ph p.
Proof. intros H1 H2. split_and!; apply same_load; lia. Qed.

Section elf.
Context (n : nat) (He : elf_ok m file size n).

Lemma same_ph_at i : ph_at m' file i = ph_at m file i.
Proof. unfold ph_at. destruct (same_header (eo_head _ _ _ _ He)) as (_ & -> & _). done. Qed.

Lemma ph_at_in i : 0 ≤ i < e_phnum m file → same_ph (ph_at m file i).
Proof.
  intros Hi. pose proof (eo_table _ _ _ _ He). pose proof (load_range 8 m (file + 32)) as Ho.
  fold (e_phoff m file) in Ho. apply same_phs; unfold ph_at; lia.
Qed.

Lemma same_loadable i : loadable m' file i ↔ loadable m file i.
Proof.
  unfold loadable. destruct (same_header (eo_head _ _ _ _ He)) as (-> & _ & _). rewrite same_ph_at.
  split; intros [Hi Ht]; (split; [done|]); destruct (ph_at_in i Hi) as (E & _); congruence.
Qed.

Lemma same_covers i va : loadable m file i → covers m' (ph_at m' file i) va ↔ covers m (ph_at m file i) va.
Proof.
  intros [Hi _]. rewrite same_ph_at. unfold covers. by destruct (ph_at_in i Hi) as (_ & _ & -> & _ & ->).
Qed.

Lemma same_byte i va : loadable m file i →
  ph_byte m' file (ph_at m' file i) va = ph_byte m file (ph_at m file i) va.
Proof.
  intros Hl. pose proof Hl as [Hi _]. pose proof (eo_seg _ _ _ _ He i Hl) as Hp. rewrite same_ph_at.
  unfold ph_byte. destruct (ph_at_in i Hi) as (_ & Eo & Ev & Ef & _). rewrite Ev, Ef, Eo. unfold seg_byte.
  case_decide; [|done]. pose proof (ph_file _ _ _ _ _ Hp).
  pose proof (load_range 8 m (ph_at m file i + 8)) as Ho. fold (p_offset m (ph_at m file i)) in Ho.
  apply Hsame. lia.
Qed.

Lemma same_elf_ok : elf_ok m' file size n.
Proof.
  destruct (same_header (eo_head _ _ _ _ He)) as (En & Eo & _). split.
  - apply He.
  - rewrite Eo, En. apply He.
  - intros i Hi%same_loadable. pose proof (eo_seg _ _ _ _ He i Hi) as [A B C D E]. rewrite same_ph_at.
    destruct (ph_at_in i (proj1 Hi)) as (_ & E1 & E2 & E3 & E4).
    split; rewrite ?E1, ?E2, ?E3, ?E4; done.
  - intros i j va va' Hi%same_loadable Hj%same_loadable Hne. rewrite !same_covers by done.
    by apply (eo_disjoint _ _ _ _ He).
  - rewrite En. apply He.
Qed.

End elf.
End same_file.

(** ** The new root *)

#[local] Opaque fill.

Section spawn.
Implicit Types (s : machine).

(** ** The new process *)

Lemma create_user_pmm x entry root : preserves (λ s, pmm s = x) (create_user_process entry root).
Proof. unfold create_user_process, push_frame, push_registers, push, print_created. preserve. Qed.

(** A program that is loaded stays loaded when its process is created. *)
Lemma created_loaded s s' root entry pml4 u k va b : tree s root → pmm s' = pmm s →
  user_created s s' entry pml4 u k → loaded s root va b → loaded s' root va b.
Proof.
  intros Ht Hp Hu (pa & Htr & Hd & Hb). destruct (uc_frames _ _ _ _ _ _ Hu) as (Huk & Fu & Fk & _ & _).
  pose proof Hd as (Hr & Hpu & Hn).
  assert (∀ j, 0 ≤ j < total_blocks (pmm s) → used s j = true → used s' j = true) as Hmono.
  { intros j Hj Hju. by rewrite (uc_used _ _ _ _ _ _ Hu), Hju. }
  assert (∀ x, 8192 ≤ x / 4096 → used s (x / 4096) = true → byte_at (mem s') x = byte_at (mem s) x) as Hm.
  { intros x Hx Hxu. apply (uc_mem _ _ _ _ _ _ Hu); [dlia|]. intros Hin.
    assert (x / 4096 = k) by dlia. congruence. }
  assert (pmm_wf s') as Hwf.
  { destruct (tr_pmm _ _ Ht) as [A B C]. split; rewrite ?Hp; [done..|]. intros i Hi. apply Hmono; [lia|by apply C]. }
  assert (pmm_fits s') as Hfit by (pose proof (tr_fits _ _ Ht) as H; unfold pmm_fits, bitmap_span in *; by rewrite Hp).
  destruct (tables_kept s s' root Ht Hwf Hfit Hp Hmono) as (_ & Hw & Hpath).
  { intros t x (i & -> & Hi & Hiu) _ Hx. apply Hm; replace (x / 4096) with i by dlia; [lia|done]. }
  exists pa. split_and!.
  - unfold translate in *. by rewrite Hw.
  - split; [by rewrite Hp|]. split; [apply Hmono; [lia|done]|].
    intros q t Hq Hqi. rewrite Hpath by done. by apply Hn.
  - rewrite Hm; [done|lia|done].
Qed.

(** What the program of the file at [load_addr] has when it can run. *)
Definition spawned s s' : Prop :=
  let i := process_count (proc s) in
  process_count (proc s') = i + 1 ∧
  ∃ p sp, tbl_get (processes (proc s')) i = Some p ∧ p_pid p = i ∧ p_state p = PROCESS_READY ∧
    read_regs (mem s') (p_rsp p) = mkRegs 0 (replicate 15 0) 0 0 (e_entry (mem s) load_addr) 0x23 0x202 sp 0x1B ∧
    ∀ j va, loadable (mem s) load_addr j → covers (mem s) (ph_at (mem s) load_addr j) va →
      loaded s' (p_pml4 p) va (ph_byte (mem s) load_addr (ph_at (mem s) load_addr j) va).

(** Creating the process of a loaded program. *)
Lemma spawn_wp n s s2 root (Q : unit → machine → Prop) :
  proc_wf s → process_count (proc s) < 16 → proc s2 = proc s → tree s2 root →
  (full s2 ∨ ∀ j va, loadable (mem s) load_addr j → covers (mem s) (ph_at (mem s) load_addr j) va →
     loaded s2 root va (ph_byte (mem s) load_addr (ph_at (mem s) load_addr j) va)) →
  (∀ s', full s' ∨ spawned s s' → Q tt s') →
  wp (create_user_process (e_entry (mem s) load_addr) root;; kprint (str "Process Created." ++ newline)) n s2 Q.
Proof.
  intros Hw Hc Ep Ht Hl HQ. apply wp_bind. pose proof (load_range 8 (mem s) (load_addr + 24)) as He.
  eapply wp_mono; [eapply wp_preserves; [apply create_user_pmm|reflexivity|]|].
  { apply (create_user_process_wp _ root n s2 (λ _ s', (∃ u k, user_created s2 s' (e_entry (mem s) load_addr) root u k) ∨ full s'));
      [by apply (proc_wf_eq s)|apply Ht|apply Ht|by rewrite Ep|exact He| |]; eauto. }
  intros [] s3 [Hp [(u & k & Hu)|Hf]]; apply wp_kprint; intros s4 Hc4; apply HQ.
  2:{ left. unfold full, used in *. by rewrite Hc4. }
  assert (mem s4 = mem s3 ∧ pmm s4 = pmm s3 ∧ proc s4 = proc s3) as (Em & Epm & Epr) by (by rewrite Hc4).
  destruct Hl as [Hf|Hl].
  { left. unfold full. rewrite Epm, Hp. intros j Hj. unfold used. rewrite Em, Epm. change (used s3 j = true).
    by rewrite (uc_used _ _ _ _ _ _ Hu), Hf. }
  right. unfold spawned. rewrite Epr, (uc_proc _ _ _ _ _ _ Hu), Ep, Em. cbn [process_count processes].
  pose proof (pw_cur _ Hw). pose proof (pw_len _ Hw). split; [done|]. eexists _, _.
  rewrite tbl_get_insert, decide_True by (done || lia). split; [done|]. split; [done|]. split; [done|].
  split; [apply (uc_regs _ _ _ _ _ _ Hu)|]. intros j va Hj Hv. cbn [p_pml4].
  destruct (created_loaded s2 s3 root _ _ _ _ _ _ Ht Hp Hu (Hl j va Hj Hv)) as (pa & H1 & (H2 & H3 & H4) & H5).
  exists pa. unfold dframe, used. by rewrite Em, Epm.
Qed.

(** The tail of exec, from its second message on, for a well-formed ELF file at the load
    address and a free slot: a new READY process whose trap frame starts at the file's entry
    point in ring 3, and through whose page tables the loadable segments are found; or all
    frames are in use.  The file's frames must be marked used, which the command does not do
    itself, and the command reaches this tail only if its first message stayed inside its
    array (Load.v: it does not). *)
Lemma exec_spawn_wp n s name size k :
  tree s k → kernel_pml4 (vmm s) = k → present (entry (mem s) k 0) = true →
  proc_wf s → process_count (proc s) < 16 →
  file_ok s k load_addr size → supported (mem s) load_addr → elf_ok (mem s) load_addr size n →
  e_entry (mem s) load_addr ≠ 0 →
  wp (exec_spawn name size) n s (λ _ s', full s' ∨ spawned s s').
Proof.
  intros Ht Hk Hpr Hw Hcnt Hf Hsup He Hent. unfold exec_spawn. wp_print.
  rename s'1 into s1. assert (console_only s s1) as HC1 by (by repeat (etrans; [eassumption|])).
  assert (mem s1 = mem s ∧ vmm s1 = vmm s ∧ proc s1 = proc s ∧ pmm s1 = pmm s) as (Em1 & Ev1 & Ep1 & Epm1) by (by rewrite HC1).
  destruct (console_loads k s s1 Ht HC1) as [L1 _]. pose proof (eo_head _ _ _ _ He) as Hh.
  apply (user_root_wp n s1 k); [apply L1|by rewrite Ev1|by rewrite Em1| |].
  2:{ intros s2 Hfu _. rewrite decide_True by done. apply wp_kprint. intros s3 Hc3. left.
      unfold full, used in *. by rewrite Hc3. }
  intros p s2 Hp0 Hsh2 L2 D2. pose proof (sh_user _ _ _ Hsh2) as Ht2. rewrite decide_False by done.
  assert (file_ok s2 p load_addr size) as Hf2.
  { destruct Hf as (A & B & C & D). split_and!; try done. intros x Hx. by apply D2, (ld_data _ _ _ L1), D. }
  assert (∀ x, load_addr ≤ x < load_addr + size → byte_at (mem s2) x = byte_at (mem s) x) as Hs2.
  { intros x Hx. rewrite <- Em1. destruct Hf as (_ & _ & _ & D). by apply (ld_mem _ _ _ L2), (ld_data _ _ _ L1), D. }
  pose proof (same_supported _ _ _ _ Hs2 Hh Hsup) as Hsup2. pose proof (same_elf_ok _ _ _ _ Hs2 n He) as He2.
  destruct (same_header _ _ _ _ Hs2 Hh) as (_ & _ & Een).
  assert (proc s2 = proc s) as Ep2 by (by rewrite (ld_only _ _ _ L2), <- Ep1).
  unfold exec_image. apply wp_bind, wp_bind, check_file_wp. intros s3 Hc3.
  rewrite (decide_True (P := magic _ _)) by (apply Hsup2). rewrite decide_True by done.
  destruct (console_loads p s2 s3 Ht2 Hc3) as [L3 _].
  assert (mem s3 = mem s2 ∧ proc s3 = proc s2) as (Em3 & Ep3) by (by rewrite Hc3).
  rewrite <- Em3 in Hsup2, He2, Een, Hs2.
  apply wp_bind, (load_file_wp n s3 p load_addr size); [apply L3|by apply (file_ok_loads _ _ _ _ _ L3)|done|done|..].
  2:{ intros s4 L4 _ Hfu. rewrite decide_True by done. apply wp_bind, wp_kprint. intros s5 Hc5.
      apply wp_ret, wp_ret. left. unfold full, used in *. by rewrite Hc5. }
  intros s4 U4. rewrite Een, decide_False by done. apply wp_ret.
  apply (spawn_wp n s s4 p); [done..| |apply (fu_loads _ _ _ _ _ U4)| |by auto].
  { by rewrite (ld_only _ _ _ (fu_loads _ _ _ _ _ U4)), <- Ep2, <- Ep3. }
  destruct (fu_bytes _ _ _ _ _ U4) as [?|Hb]; [by left|right]. intros j va Hj Hv.
  rewrite <- (same_byte _ _ _ _ Hs2 n He) by done.
  destruct (same_header _ _ _ _ Hs2 Hh) as (En & _). apply Hb.
  - rewrite En. apply Hj.
  - by apply (same_loadable _ _ _ _ Hs2 n He).
  - by apply (same_covers _ _ _ _ Hs2 n He).
Qed.

End spawn.

(** ** A machine to evaluate on *)

(** Two tables at 32 MiB, the second one empty, and the file of [elf_image] at [load_addr],
    all three frames in use. *)
Definition exec_mem : gmap Z Z :=
  store 1 (0x200000 + 1024) 3 (store 1 (0x200000 + 2048) 1 (store 8 0x2000000 0x2001007
    (put_bytes load_addr elf_image (fill 1024 0x200000 0xff ∅)))).

Definition exec_demo : machine :=
  set_vmm (mkVmm 0x2000000 0x2000000) (set_proc (proc proc_demo)
    (set_pmm (mkPmm 0x200000 16640 2080) (set_mem exec_mem boot_machine))).

Lemma exec_mem_zero x : 0x2000008 ≤ x < 0x2002000 → byte_at exec_mem x = 0.
Proof.
  intros Hx. unfold exec_mem. rewrite !byte_store_out by lia.
  rewrite byte_put_out by (unfold load_addr; lia). by rewrite byte_fill_out by lia.
Qed.

Lemma exec_mem_low i : 0 ≤ i < 8192 → bit_at exec_mem 0x200000 i = true.
Proof.
  intros Hi. rewrite bit_at_byte by lia. unfold exec_mem. rewrite !byte_store_out by dlia.
  rewrite byte_put_out by (unfold load_addr; dlia). rewrite byte_fill_in by dlia.
  change (u8 0xff) with (Z.ones 8). apply Z.ones_spec_low. dlia.
Qed.

Lemma exec_mem_bits : bit_at exec_mem 0x200000 8192 = true ∧ bit_at exec_mem 0x200000 8193 = true ∧
  bit_at exec_mem 0x200000 16384 = true ∧ entry exec_mem 0x2000000 0 = 0x2001007.
Proof. split_and!; vm_compute; reflexivity. Qed.

Lemma exec_mem_file : let m := exec_mem in let h := load_addr in
  (e_phoff m h, e_phnum m h) = (64, 1) ∧
  (p_offset m (h + 64), p_vaddr m (h + 64), p_filesz m (h + 64), p_memsz m (h + 64)) = (120, 0x400078, 4, 8) ∧
  e_entry m h = 0x400078 ∧ bool_decide (supported m h) = true.
Proof. split_and!; vm_compute; reflexivity. Qed.
#[local] Opaque exec_mem.

Lemma exec_entries j : idx_ok j →
  (j ≠ 0 → entry exec_mem 0x2000000 j = 0) ∧ entry exec_mem 0x2001000 j = 0.
Proof.
  assert (∀ a, 0x2000008 ≤ a → a + 8 ≤ 0x2002000 → load 8 exec_mem a = 0) as Hz.
  { intros a Ha Hb. rewrite !load_S, load_0, !exec_mem_zero by lia. done. }
  unfold idx_ok, entry. intros Hj. split; intros; apply Hz; lia.
Qed.

(** Memory with these two tables and the file's frame is a tree, in any machine. *)
Section two_tables.
Context (s : machine).
Hypothesis Hwf : pmm_wf s.
Hypothesis Hfits : pmm_fits s.
Hypothesis Htotal : total_blocks (pmm s) = 16640.
Hypothesis Hu1 : used s 8192 = true.
Hypothesis Hu2 : used s 8193 = true.
Hypothesis Hu3 : used s 16384 = true.
Hypothesis H0 : entry (mem s) 0x2000000 0 = 0x2001007.
Hypothesis Hz : ∀ j, idx_ok j → (j ≠ 0 → entry (mem s) 0x2000000 j = 0) ∧ entry (mem s) 0x2001000 j = 0.

Lemma two_paths q u : Forall idx_ok q → walk_path (mem s) 0x2000000 q = Some u →
  (q = [] ∧ u = 0x2000000) ∨ (q = [0] ∧ u = 0x2001000).
Proof.
  intros Hq. destruct q as [|i q]; [intros [= <-]; by left|]. apply Forall_cons in Hq as [Hi Hq].
  cbn [walk_path]. destruct (decide (i = 0)) as [->|Hne].
  2:{ destruct (Hz i Hi) as [-> _]; done. }
  rewrite H0. change (present 0x2001007) with true. change (frame_of 0x2001007) with 0x2001000. cbv iota.
  destruct q as [|j q]; [intros [= <-]; by right|]. apply Forall_cons in Hq as [Hj _]. cbn [walk_path].
  by destruct (Hz j Hj) as [_ ->].
Qed.

Lemma two_tree : tree s 0x2000000.
Proof.
  split; [done|done|..].
  - intros q u _ Hq Hw. destruct (two_paths q u Hq Hw) as [[_ ->]|[_ ->]];
      [exists 8192|exists 8193]; (split; [done|]; split; [lia|done]).
  - intros q r u _ _ Hq Hr Hqu Hru. destruct (two_paths q u Hq Hqu) as [[-> ->]|[-> ->]];
      destruct (two_paths r _ Hr Hru) as [[-> Eu]|[-> Eu]]; done || lia.
Qed.

Lemma two_file size : 0 ≤ size ≤ 4096 → file_ok s 0x2000000 load_addr size.
Proof.
  intros Hs. split_and!; [done|lia|unfold load_addr; lia|]. unfold load_addr. intros x Hx.
  replace (x / 4096) with 16384 by dlia. split; [lia|]. split; [done|].
  intros q u _ Hq Hw. destruct (two_paths q u Hq Hw) as [[_ ->]|[_ ->]]; lia.
Qed.

End two_tables.

Lemma exec_demo_ok : tree exec_demo 0x2000000 ∧ proc_wf exec_demo ∧ file_ok exec_demo 0x2000000 load_addr 124.
Proof.
  destruct exec_mem_bits as (E1 & E2 & E3 & E4).
  assert (pmm_wf exec_demo) as Hwf by (split; [cbn; lia|reflexivity|exact exec_mem_low]).
  assert (pmm_fits exec_demo) as Hfit by (vm_compute; congruence).
  split; [|split].
  - exact (two_tree exec_demo Hwf Hfit eq_refl E1 E2 E4 exec_entries).
  - by apply (proc_wf_eq proc_demo), proc_demo_wf.
  - exact (two_file exec_demo eq_refl E3 E4 exec_entries 124 ltac:(lia)).
Qed.

(** [exec_spawn_wp] at a machine. *)
Lemma exec_spawn_demo :
  wp (exec_spawn (str "HELLO.ELF" ++ [0]) 124) 2 exec_demo (λ _ s', full s' ∨ spawned exec_demo s').
Proof.
  destruct exec_demo_ok as (Ht & Hp & Hf). destruct exec_mem_file as (H1 & H2 & H3 & H4).
  destruct exec_mem_bits as (_ & _ & _ & E0). apply bool_decide_eq_true in H4.
  pose proof (one_segment_ok exec_mem load_addr H1 H2) as He.
  refine (exec_spawn_wp 2 exec_demo _ 124 0x2000000 Ht eq_refl _ Hp _ Hf H4 He _).
  - change (present (entry exec_mem 0x2000000 0) = true). rewrite E0. reflexivity.
  - cbn. lia.
  - change (e_entry exec_mem load_addr ≠ 0). rewrite H3. lia.
Qed.

(** The message of exec does not fit its array. *)
Lemma size_buf_overflow x : hex_to_ascii x (replicate 16 0) = None.
Proof.
  unfold hex_to_ascii. rewrite arr_set_Some by done. cbn [mbind option_bind].
  rewrite arr_set_Some by (rewrite length_insert; done). cbn [mbind option_bind hex_loop].
  destruct (arr_get hex_table (Z.land x 15)); [|done]. cbn [mbind option_bind].
  rewrite arr_set_None; [done|]. rewrite !length_insert, length_replicate. lia.
Qed.
