(* ===== verification/Load.v ===== *)
(** The commands cat and exec of src/kernel/kernel.c on a file: its cluster chain
    is read sector by sector through a heap buffer, and printed or copied to 64 MiB.  The
    specification is the content of the file, the sectors of its clusters in order: cat shows
    it on the terminal of Screen.v, and exec copies it before a message that does not fit its
    array. *)
From S2P Require Import Prelude Memory Hardware Machine Utils Screen Preserves Pmm Kheap Vmm Cpu Process Ata Buffers Fat FatTable FatNames FatDir Frames Elf Shell Exec.

(** ** Content of files *)

Definition cluster_lba (f : fat_vars) (c : Z) : Z :=
  u32 (data_start_sector f + (c - 2) * sectors_per_cluster (fat_info f)).

Definition cluster_data (d : ata_dev) (f : fat_vars) (c : Z) : list Z :=
  concat ((λ i, sector d (u32 (cluster_lba f c + Z.of_nat i))) <$> seq 0 (Z.to_nat (sectors_per_cluster (fat_info f)))).

(** The first [size] bytes of the clusters [cs]. *)
Definition file_data (d : ata_dev) (f : fat_vars) (cs : list Z) (size : Z) : list Z :=
  take (Z.to_nat size) (concat (cluster_data d f <$> cs)).

Section content.
Implicit Types (d : ata_dev) (f : fat_vars).

Lemma cluster_data_one d f c : sectors_per_cluster (fat_info f) = 1 → cluster_data d f c = sector d (cluster_lba f c).
Proof.
  intros E. unfold cluster_data. rewrite E. cbn [Z.to_nat seq fmap list_fmap concat].
  change (Z.to_nat 1) with 1%nat. cbn [seq fmap list_fmap concat]. rewrite app_nil_r, Z.add_0_r.
  f_equal. unfold cluster_lba. rewrite E. width. apply Z.mod_mod. lia.
Qed.

Lemma length_clusters d f cs : disk_wf d → sectors_per_cluster (fat_info f) = 1 →
  length (concat (cluster_data d f <$> cs)) = (512 * length cs)%nat.
Proof.
  intros Hd E. induction cs as [|y cs IH]; [done|]. cbn [fmap list_fmap concat length]. rewrite length_app.
  fold (cluster_data d f <$> cs). rewrite IH, cluster_data_one, (proj1 (Hd _)) by done. lia.
Qed.

(** Byte [i] of the cluster behind [dn]. *)
Lemma file_data_lookup d f dn x r (i : nat) : disk_wf d → sectors_per_cluster (fat_info f) = 1 → (i < 512)%nat →
  concat (cluster_data d f <$> (dn ++ x :: r)) !! (512 * length dn + i)%nat = sector d (cluster_lba f x) !! i.
Proof.
  intros Hd E Hi. rewrite fmap_app, concat_app. cbn [fmap list_fmap concat].
  pose proof (length_clusters d f dn Hd E) as El.
  rewrite lookup_app_r by lia. rewrite El. replace (512 * length dn + i - 512 * length dn)%nat with i by lia.
  rewrite lookup_app_l; rewrite cluster_data_one by done; [done|]. rewrite (proj1 (Hd _)). lia.
Qed.

End content.

(** The content depends on the disk alone. *)
Lemma chain_disk d d' f c cs : ata_disk d = ata_disk d' → chain d f c cs ↔ chain d' f c cs.
Proof.
  intros E. induction cs as [|x cs IH] in c |- *; [done|]. cbn [chain]. by rewrite (fat_entry_disk d d'), IH.
Qed.

Lemma file_data_disk d d' f cs size : ata_disk d = ata_disk d' → file_data d f cs size = file_data d' f cs size.
Proof. intros E. unfold file_data, cluster_data, sector. by rewrite E. Qed.

(** ** Writing above the heap *)

Section above.
Implicit Types (s : machine) (B : list blk).

Lemma lay_below lo hi a B : lay lo B hi → lo ≤ a → (∀ b, b ∈ B → b_end b ≤ a) → lay lo B a.
Proof.
  induction B as [|b B IH] in lo |- *; cbn [lay]; [done|]. intros (H1 & H2 & H3) Hlo Hb.
  split; [done|]. split; [done|]. apply IH; [done|apply Hb; set_solver|]. intros c Hc. apply Hb. set_solver.
Qed.

Lemma bufs_above j B n s s' a : bufs j B n s → 0x2000000 ≤ a → (∀ b, b ∈ B → b_end b ≤ a) →
  pmm s' = pmm s → heap_head s' = heap_head s → (∀ x, x < a → byte_at (mem s') x = byte_at (mem s) x) → bufs j B n s'.
Proof.
  intros [[hi [H1 H2 H3 H4 H5 H6]] T R F] Ha Hb Ep Eh Hm. split; [|done..]. exists hi.
  assert (low_same s s') as Hls by (split; [done|]; intros x Hx; apply Hm; lia).
  destruct (low_same_wf _ _ H5 H6 Hls) as [Hwf Hfit]. pose proof (lay_below _ _ _ _ H2 Ha Hb) as Hl.
  split; rewrite ?Eh, ?Ep; try done.
  - eapply seg_frame; [exact Hl| |done]. intros x Hx. symmetry. apply Hm. lia.
  - intros i Hi Hlt. rewrite (low_same_used s s'); [by apply H4|done..|]. right. lia.
Qed.

End above.

(** ** The copy *)

Section copy.
Context (N n : nat).
Implicit Types (s : machine) (B : list blk).

(** The inner loop: [k] bytes from the buffer to [ptr]. *)
Lemma copy_bytes_wp s buf ptr (k : nat) (Q : unit → machine → Prop) :
  buf + Z.of_nat k ≤ ptr →
  (∀ m', agree_out (mem s) m' ptr (Z.of_nat k) →
     (∀ i, 0 ≤ i < Z.of_nat k → byte_at m' (ptr + i) = byte_at (mem s) (buf + i)) → Q tt (set_mem m' s)) →
  wp (for_unit k 0 (λ i, b ← load8 (buf + i); store8 (ptr + i) b)) n s Q.
Proof.
  intros Hap HQ. apply (wp_for_unit (λ i s', s' = set_mem (mem s') s ∧ agree_out (mem s) (mem s') ptr i ∧
    ∀ x, 0 ≤ x < i → byte_at (mem s') (ptr + x) = byte_at (mem s) (buf + x))).
  - split; [by destruct s|]. split; [done|]. intros x Hx. lia.
  - intros i s' Hi (Es & Hag & Hc). unfold load8, store8, store_mem. wp_steps. cbn [mem set_mem]. rewrite load8_byte.
    split; [rewrite Es; by destruct s|]. split.
    + intros x Hx. rewrite byte_store_out by lia. apply Hag. lia.
    + intros x Hx. destruct (decide (x = i)) as [->|].
      * rewrite <- load8_byte, load_store_8 by apply byte_at_range. apply Hag. lia.
      * rewrite byte_store_out by lia. apply Hc. lia.
  - rewrite Z.add_0_l. intros s' (Es & Hag & Hc). rewrite Es. by apply HQ.
Qed.

(** One cluster of the file. *)
Lemma exec_step_wp B j s p size c ptr (Q : (Z * Z * Z) + unit → machine → Prop) :
  fs_ok (S j) B N n s → owns B p → (∀ b, b ∈ B → b_end b ≤ ptr) → 0x2000000 ≤ ptr →
  0 < size → 0 ≤ c < 0xFFF8 → 0 ≤ cluster_lba (fat s) c < 2 ^ 28 →
  (∀ s', fs_ok (S j) B N n s' → ata_disk (ata s') = ata_disk (ata s) → fat s' = fat s →
     (∀ x, (∀ b, b ∈ B → b_end b ≤ x) → x < ptr → byte_at (mem s') x = byte_at (mem s) x) →
     (∀ i, 0 ≤ i < Z.min size 512 →
        byte_at (mem s') (ptr + i) = default 0 (sector (ata s) (cluster_lba (fat s) c) !! Z.to_nat i)) →
     Q (inl (size - Z.min size 512, fat_entry (ata s) (fat s) c, ptr + 512)) s') →
  wp (exec_step p (size, c, ptr)) n s Q.
Proof.
  intros Hs Hp Hab Hptr Hsz Hc Hlba HQ. unfold exec_step. rewrite decide_True by lia.
  unfold fat_lba_of_cluster. wp_steps. fold (cluster_lba (fat s) c).
  apply (read_buf_wp N n B (S j)); [done..|]. intros s1 S1 D1 F1 K1 Hb. cbv zeta.
  assert ((if decide (size > 512) then 512 else size) = Z.min size 512) as -> by (case_decide; lia).
  set (k := Z.min size 512) in *. assert (0 ≤ k ≤ 512) as Hk by lia.
  assert (p + 512 ≤ ptr) as Hbuf.
  { destruct Hp as (b & Hbb & <- & _ & Hbs). specialize (Hab b Hbb). unfold b_end in Hab. lia. }
  apply wp_bind, copy_bytes_wp; [lia|]. intros m' Hag Hcp. rewrite Z2Nat.id in Hag, Hcp by lia.
  assert (fs_ok (S j) B N n (set_mem m' s1)) as S2.
  { destruct S1 as [A1 A2 A3 A4 A5]. split; try done. eapply bufs_above; [exact A1|exact Hptr|done..|].
    intros x Hx. apply Hag. lia. }
  apply wp_bind, (fat_next_cluster_wp N n B j); [done|lia|]. intros s3 S3 D3 F3 K3. apply wp_ret.
  cbn [ata fat set_mem mem] in *. rewrite F1, (fat_entry_disk _ (ata s)) by done.
  apply HQ; [done|by rewrite D3|by rewrite F3| |].
  - intros x Hx Hlt. rewrite (proj2 K3) by (by right). cbn [mem set_mem]. rewrite Hag by lia. apply K1; [by right|].
    destruct Hp as (b & Hbb & <- & _ & Hbs). specialize (Hx b Hbb). unfold b_end in Hx. lia.
  - intros i Hi. rewrite (proj2 K3) by (right; intros b Hbb; specialize (Hab b Hbb); lia). cbn [mem set_mem].
    rewrite Hcp by lia. rewrite <- Hb, lookup_bytes by lia. cbn. f_equal. lia.
Qed.

(** The whole chain. *)
Lemma exec_copy_wp B j s p c cs size (Q : unit → machine → Prop) :
  fs_ok (S j) B N n s → owns B p → (∀ b, b ∈ B → b_end b ≤ load_addr) → sectors_per_cluster (fat_info (fat s)) = 1 →
  chain (ata s) (fat s) c cs → Forall (λ x, 0 ≤ cluster_lba (fat s) x < 2 ^ 28) cs →
  0 ≤ size ≤ 512 * Z.of_nat (length cs) → (length cs < n)%nat →
  (∀ s', fs_ok (S j) B N n s' → ata_disk (ata s') = ata_disk (ata s) → fat s' = fat s →
     bytes (Z.to_nat size) (mem s') load_addr = file_data (ata s) (fat s) cs size → Q tt s') →
  wp (while_loop (exec_step p) (size, c, load_addr)) n s Q.
Proof.
  intros Hs Hp Hab Hspc Hch Hlba Hsize Hn HQ. set (data := concat (cluster_data (ata s) (fat s) <$> cs)).
  set (done_ dn := Z.min size (512 * Z.of_nat (length (dn : list Z)))).
  apply (wp_while_idx (λ k '(sz, cl, ptr) s', ∃ dn rest, cs = dn ++ rest ∧ k = length rest ∧
    ptr = load_addr + 512 * Z.of_nat (length dn) ∧ sz = size - done_ dn ∧ chain (ata s) (fat s) cl rest ∧
    fs_ok (S j) B N n s' ∧ ata_disk (ata s') = ata_disk (ata s) ∧ fat s' = fat s ∧
    ∀ i, 0 ≤ i < done_ dn → byte_at (mem s') (load_addr + i) = default 0 (data !! Z.to_nat i)) _ _ (length cs)); [|done|].
  { exists [], cs. unfold done_. cbn [length]. split_and!; try done; [lia..|]. intros i Hi. lia. }
  intros k [[sz cl] ptr] s1 (dn & rest & Ecs & -> & -> & -> & Hrest & S1 & D1 & F1 & Hby).
  assert (length cs = length dn + length rest)%nat as El by (by rewrite Ecs, length_app).
  destruct (decide (size ≤ 512 * Z.of_nat (length dn))) as [Hend|Hmore].
  - unfold exec_step. rewrite decide_False by (unfold done_; lia). apply wp_ret, HQ; [done..|].
    assert (done_ dn = size) as Ed by (unfold done_; lia). rewrite Ed in Hby. unfold file_data. fold data.
    apply list_eq. intros i. destruct (decide (i < Z.to_nat size)%nat) as [Hi|Hi].
    + rewrite lookup_bytes, lookup_take_lt, Hby by lia. rewrite Nat2Z.id.
      destruct (lookup_lt_is_Some_2 data i) as [b ->]; [|done]. unfold data.
      rewrite length_clusters by (done || apply Hs). lia.
    + rewrite !lookup_ge_None_2; [done|rewrite length_take; lia|rewrite length_bytes; lia].
  - destruct rest as [|x rest]; [cbn [length] in El; lia|]. destruct Hrest as (-> & Hx & Hrest).
    assert (0 ≤ cluster_lba (fat s) x < 2 ^ 28) as Hl.
    { rewrite Ecs in Hlba. apply Forall_app in Hlba as [_ Hlba]. by apply Forall_cons in Hlba as [? _]. }
    apply (exec_step_wp B j s1); [done|done|intros b Hb; specialize (Hab b Hb); lia|unfold load_addr; lia|unfold done_; lia|done|by rewrite F1|].
    rewrite F1, (fat_entry_disk (ata s1) (ata s)) by done. intros s2 S2 D2 F2 Hkeep Hnew.
    exists (length rest). split; [cbn [length]; lia|]. exists (dn ++ [x]), rest.
    assert (done_ (dn ++ [x]) = done_ dn + Z.min (size - done_ dn) 512) as Ed.
    { unfold done_. rewrite length_app. cbn [length]. lia. }
    split_and!; [by rewrite <- app_assoc|done|rewrite length_app; cbn [length]; lia|lia|done|done|by rewrite D2|by rewrite F2|].
    assert (done_ dn = 512 * Z.of_nat (length dn)) as Ed' by (unfold done_; lia). rewrite Ed, Ed' in *. intros i Hi.
    destruct (decide (i < 512 * Z.of_nat (length dn))) as [Hlt|Hge].
    + rewrite Hkeep; [apply Hby; lia|intros b Hb; specialize (Hab b Hb); lia|lia].
    + replace (load_addr + i) with (load_addr + 512 * Z.of_nat (length dn) + (i - 512 * Z.of_nat (length dn))) by lia.
      rewrite Hnew by lia. unfold data. rewrite Ecs.
      replace (Z.to_nat i) with (512 * length dn + Z.to_nat (i - 512 * Z.of_nat (length dn)))%nat by lia.
      rewrite file_data_lookup by (lia || done || apply Hs). unfold sector. by rewrite D1.
Qed.

End copy.

(** ** cat *)

(** The characters of a file that are printed: 0 is an empty string. *)
Definition printed (l : list Z) : list Z := filter (λ b, b ≠ 0) l.

Section cat.
Context (N n : nat).
Implicit Types (s : machine) (B : list blk) (t : terminal).

Lemma term_print_app a b t : term_print (a ++ b) t = term_print b (term_print a t).
Proof. apply foldl_app. Qed.

Lemma printed_app a b : printed (a ++ b) = printed a ++ printed b.
Proof. apply filter_app. Qed.

Lemma string_of_char c : string_of [c; 0] = printed [c].
Proof. unfold printed. cbn [string_of]. rewrite (decide_True (P := 0 = 0)) by done. by case_decide; cbn; case_decide. Qed.

Lemma print_sector_wp s t p size (Q : Z → machine → Prop) : 0 ≤ size → shows (cons s) t →
  (∀ s', console_only s s' →
     shows (cons s') (term_print (printed (take (Z.to_nat size) (bytes 512 (mem s) p))) t) →
     Q (size - Z.min size 512) s') →
  wp (print_sector p size) n s Q.
Proof.
  intros Hs Ht HQ. set (l := bytes 512 (mem s) p).
  apply (wp_for_acc (λ i left s', left = size - Z.min size i ∧ console_only s s' ∧
    shows (cons s') (term_print (printed (take (Z.to_nat (Z.min size i)) l)) t))).
  - rewrite Z.min_r by lia. split_and!; [lia|done|done].
  - intros i left s1 Hi (-> & Hc & Hsh). destruct (decide (i < size)) as [Hlt|Hge].
    + rewrite decide_True by lia. unfold load8. wp_steps. rewrite load8_byte.
      apply (kprint_shows _ s1 (term_print (printed (take (Z.to_nat (Z.min size i)) l)) t)); [done|].
      intros s2 Hc2 Hsh2. wp_steps. split; [lia|]. split; [by etrans|].
      replace (Z.to_nat (Z.min size (i + 1))) with (S (Z.to_nat i)) by lia.
      rewrite (take_S_r l (Z.to_nat i) (byte_at (mem s) (p + i))).
      2:{ unfold l. rewrite lookup_bytes by lia. do 2 f_equal. lia. }
      replace (Z.to_nat (Z.min size i)) with (Z.to_nat i) in Hsh2 by lia.
      rewrite printed_app, term_print_app, <- string_of_char. by rewrite Hc in Hsh2.
    + rewrite decide_False by lia. wp_steps. split; [lia|]. split; [done|].
      by replace (Z.min size (i + 1)) with (Z.min size i) by lia.
  - intros left s1 (-> & Hc & Hsh). apply HQ; [done|].
    destruct (decide (size ≤ 512)) as [Hle|Hgt]; [by replace size with (Z.min size (0 + Z.of_nat 512)) at 1 by lia|].
    rewrite take_ge in Hsh |- *; [done|unfold l; rewrite length_bytes; lia..].
Qed.

(** One cluster of the file. *)
Lemma cat_step_wp B j s t p size c (Q : (Z * Z) + unit → machine → Prop) :
  fs_ok (S j) B N n s → owns B p → 0 < size → 0 ≤ c < 0xFFF8 → 0 ≤ cluster_lba (fat s) c < 2 ^ 28 →
  shows (cons s) t →
  (∀ s', fs_ok (S j) B N n s' → ata_disk (ata s') = ata_disk (ata s) → fat s' = fat s →
     shows (cons s') (term_print (printed (take (Z.to_nat size) (sector (ata s) (cluster_lba (fat s) c)))) t) →
     Q (inl (size - Z.min size 512, fat_entry (ata s) (fat s) c)) s') →
  wp (cat_step p (size, c)) n s Q.
Proof.
  intros Hs Hp Hsz Hc Hlba Ht HQ. unfold cat_step. rewrite decide_True by lia.
  unfold fat_lba_of_cluster. wp_steps. fold (cluster_lba (fat s) c).
  apply (read_buf_wp N n B (S j)); [done..|]. intros s1 S1 D1 F1 [C1 _] Hb.
  apply wp_bind, (print_sector_wp s1 t); [lia|by rewrite C1|]. intros s2 Hc2 Hsh. rewrite Hb in Hsh.
  apply wp_bind, (fat_next_cluster_wp N n B j); [by eapply fs_console|lia|]. intros s3 S3 D3 F3 [C3 _]. apply wp_ret.
  assert (ata s2 = ata s1 ∧ fat s2 = fat s1) as [A2 F2] by (by rewrite Hc2).
  rewrite F2, F1, A2, (fat_entry_disk _ (ata s)) by done. rewrite A2 in D3. rewrite F2 in F3.
  apply HQ; [done|congruence|congruence|by rewrite C3].
Qed.

(** The whole chain. *)
Lemma cat_loop_wp B j s t p c cs size (Q : unit → machine → Prop) :
  fs_ok (S j) B N n s → owns B p → sectors_per_cluster (fat_info (fat s)) = 1 →
  chain (ata s) (fat s) c cs → Forall (λ x, 0 ≤ cluster_lba (fat s) x < 2 ^ 28) cs →
  0 ≤ size ≤ 512 * Z.of_nat (length cs) → (length cs < n)%nat → shows (cons s) t →
  (∀ s', fs_ok (S j) B N n s' → ata_disk (ata s') = ata_disk (ata s) → fat s' = fat s →
     shows (cons s') (term_print (printed (file_data (ata s) (fat s) cs size)) t) → Q tt s') →
  wp (while_loop (cat_step p) (size, c)) n s Q.
Proof.
  intros Hs Hp Hspc Hch Hlba Hsize Hn Ht HQ.
  set (left (dn : list Z) := size - Z.min size (512 * Z.of_nat (length dn))).
  apply (wp_while_idx (λ k '(sz, cl) s', ∃ dn rest, cs = dn ++ rest ∧ k = length rest ∧
    sz = left dn ∧ chain (ata s) (fat s) cl rest ∧ Forall (λ x, 0 ≤ cluster_lba (fat s) x < 2 ^ 28) rest ∧
    fs_ok (S j) B N n s' ∧ ata_disk (ata s') = ata_disk (ata s) ∧ fat s' = fat s ∧
    shows (cons s') (term_print (printed (file_data (ata s) (fat s) dn size)) t)) _ _ (length cs)); [|done|].
  { exists [], cs. unfold left, file_data. cbn [length fmap list_fmap concat]. rewrite take_nil. split_and!; try done. lia. }
  intros k [sz cl] s1 (dn & rest & Ecs & -> & -> & Hrest & Hlr & S1 & D1 & F1 & Hsh).
  assert (length cs = length dn + length rest)%nat as El by (by rewrite Ecs, length_app).
  destruct (decide (size ≤ 512 * Z.of_nat (length dn))) as [Hend|Hmore].
  - unfold cat_step. rewrite decide_False by (unfold left; lia). apply wp_ret, HQ; [done..|].
    unfold file_data in *. rewrite Ecs, fmap_app, concat_app, take_app_le; [done|].
    rewrite length_clusters by (done || apply Hs). lia.
  - destruct rest as [|x rest]; [cbn [length] in El; lia|]. destruct Hrest as (-> & Hx & Hrest).
    apply Forall_cons in Hlr as [Hl Hlr].
    eapply (cat_step_wp B j s1); [done|done|unfold left; lia|done|by rewrite F1|exact Hsh|].
    rewrite F1, (fat_entry_disk (ata s1) (ata s)) by done. intros s2 S2 D2 F2 Hsh2.
    exists (length rest). split; [cbn [length]; lia|]. exists (dn ++ [x]), rest.
    split_and!; [by rewrite <- app_assoc|done|unfold left; rewrite length_app; cbn [length]; lia|done|done|done
      |by rewrite D2|by rewrite F2|].
    rewrite <- term_print_app, <- printed_app in Hsh2. unfold file_data in *. rewrite fmap_app, concat_app.
    cbn [fmap list_fmap concat]. rewrite app_nil_r, cluster_data_one by done.
    rewrite (take_ge (concat _)) in Hsh2 by (rewrite length_clusters by (done || apply Hs); lia).
    rewrite take_app_ge by (rewrite length_clusters by (done || apply Hs); lia).
    rewrite length_clusters by (done || apply Hs). unfold left in Hsh2. unfold sector in Hsh2 |- *. rewrite D1 in Hsh2.
    by replace (Z.to_nat (size - Z.min size (512 * Z.of_nat (length dn)))) with (Z.to_nat size - 512 * length dn)%nat in Hsh2 by lia.
Qed.

End cat.

(** ** The commands *)

(** A command line whose argument names a file of the current directory, with the clusters [cs]. *)
Record file_arg (N n : nat) (B : list blk) (j : nat) (s : machine) (input : list Z) (offset : Z)
    (e : list Z) (cs : list Z) : Prop := {
  fa_fs : fs_ok (S (S j)) B N n s;
  fa_mounted : is_fat_initialized (fat s) ≠ 0;
  fa_dir : ∃ K, dir_ok (ata s) (fat s) (current_dir_cluster (fat s)) K ∧ (K < n)%nat ∧
    ∃ r name o, get_next_token input (replicate 32 0) offset = Some (r, name, o) ∧ r ≠ 0 ∧
      dir_search (ata s) (fat s) (current_dir_cluster (fat s)) K name = Some (Some e);
  fa_one : sectors_per_cluster (fat_info (fat s)) = 1;
  fa_chain : chain (ata s) (fat s) (e_first_cluster_low e) cs;
  fa_lba : Forall (λ x, 0 ≤ cluster_lba (fat s) x < 2 ^ 28) cs;
  fa_size : 0 ≤ e_file_size e ≤ 512 * Z.of_nat (length cs);
  fa_fuel : (length cs < n)%nat;
}.

Section commands.
Context (N n : nat).
Implicit Types (s : machine) (B : list blk).

(** The common start: the argument, the search and the buffer. *)
Lemma file_arg_wp B j s input offset usage e cs (k : list Z → option (list Z) → M bool) (Q : bool → machine → Prop) :
  file_arg N n B j s input offset e cs →
  (∀ name s', fs_ok (S (S j)) B N n s' → ata_disk (ata s') = ata_disk (ata s) → fat s' = fat s → cons s' = cons s →
     wp (k name (Some e)) n s' Q) →
  wp (with_arg 32 input offset usage (λ name, r ← fat_find_file name; k name r)) n s Q.
Proof.
  intros [Hs Hmt (K & Hd & Hn & r & name & o & Ht & Hr & Hf)] HQ. unfold with_arg. rewrite Ht. wp_steps.
  rewrite decide_False by done.
  apply wp_bind, (find_file_wp N n B j s K _ (Some e)); [done..|]. intros s1 [S1 D1 F1 [C1 _]]. by apply HQ.
Qed.

Lemma cat_wp B j s t input offset e cs : file_arg N n B j s input offset e cs → shows (cons s) t →
  wp (cmd_cat input offset) n s (λ go_on s', go_on = true ∧ fs_ok (S (S j)) B N n s' ∧
    ata_disk (ata s') = ata_disk (ata s) ∧ fat s' = fat s ∧
    shows (cons s') (term_print (printed (file_data (ata s) (fat s) cs (e_file_size e)) ++ newline) t)).
Proof.
  intros Ha Ht. apply (file_arg_wp B j s _ _ _ e cs); [done|]. intros name s1 S1 D1 F1 C1. cbv zeta.
  destruct Ha as [_ _ _ Hone Hch Hlba Hsize Hn].
  apply wp_bind, (fs_take_wp N n B (S j) s1); [done|]. intros p B' s2 Hm S2 [C2 _] A2 F2.
  pose proof (owns_new _ _ _ Hm) as Hp. pose proof (owns_range _ _ _ _ p (fs_bufs _ _ _ _ _ S2) Hp).
  rewrite decide_False by lia.
  assert (ata_disk (ata s2) = ata_disk (ata s) ∧ fat s2 = fat s ∧ cons s2 = cons s) as (D2' & F2' & C2') by (split_and!; congruence).
  apply wp_bind, (cat_loop_wp N n B' j s2 t p _ cs); rewrite ?F2', ?C2'; [done..| |done|done|done|done|].
  { by rewrite (chain_disk _ (ata s)). }
  intros s3 S3 D3 F3 Hsh. apply wp_bind, (kprint_shows _ s3 _ _ _ Hsh). intros s4 Hc4 Hsh4.
  assert (ata s4 = ata s3 ∧ fat s4 = fat s3) as [A4 F4] by (by rewrite Hc4).
  apply wp_bind, (fs_return_wp N n B (S j) B' s1 s4 p); [done..|by eapply fs_console|].
  intros s5 S5 [C5 _] A5 F5. apply wp_ret. split_and!; [done|done|congruence|congruence|].
  rewrite C5, term_print_app. rewrite (file_data_disk _ (ata s)) in Hsh4 by done. exact Hsh4.
Qed.

(** exec up to its message: [true] is a file that was read to [load_addr]. *)
Definition exec_start (input : list Z) (offset : Z) : M bool :=
  with_arg 32 input offset (str "Usage: exec <filename>" ++ newline) (λ filename,
    r ← fat_find_file filename;
    match r with
    | None => not_found filename;; mret false
    | Some entry =>
        buf ← kmalloc 512;
        if decide (buf = 0) then kprint (str "exec: Memory allocation failed" ++ newline);; mret false
        else
          while_loop (exec_step buf) (e_file_size entry, e_first_cluster_low entry, load_addr);;
          kfree buf;;
          mret true
    end).

(** The buffer, the copy and the buffer's return, in front of [k]. *)
Lemma exec_read_wp B j s e cs (k : M bool) (Q : bool → machine → Prop) :
  fs_ok (S (S j)) B N n s → (∀ b, b ∈ B → b_end b ≤ load_addr) → sectors_per_cluster (fat_info (fat s)) = 1 →
  chain (ata s) (fat s) (e_first_cluster_low e) cs → Forall (λ x, 0 ≤ cluster_lba (fat s) x < 2 ^ 28) cs →
  0 ≤ e_file_size e ≤ 512 * Z.of_nat (length cs) → (length cs < n)%nat →
  (∀ s', fs_ok (S (S j)) B N n s' → ata_disk (ata s') = ata_disk (ata s) → fat s' = fat s →
     bytes (Z.to_nat (e_file_size e)) (mem s') load_addr = file_data (ata s) (fat s) cs (e_file_size e) → wp k n s' Q) →
  wp (buf ← kmalloc 512;
      if decide (buf = 0) then kprint (str "exec: Memory allocation failed" ++ newline);; mret false
      else
        while_loop (exec_step buf) (e_file_size e, e_first_cluster_low e, load_addr);;
        kfree buf;;
        k) n s Q.
Proof.
  intros Hs Hab Hone Hch Hlba Hsize Hn HQ.
  apply wp_bind, (fs_take_wp N n B (S j) s); [done|]. intros p B' s2 Hm S2 _ A2 F2.
  pose proof (owns_new _ _ _ Hm) as Hp. pose proof (owns_range _ _ _ _ p (fs_bufs _ _ _ _ _ S2) Hp).
  rewrite decide_False by lia.
  apply wp_bind, (exec_copy_wp N n B' j s2 p _ cs); rewrite ?F2, ?A2; [done|done|by eapply malloc_ends|done..|].
  intros s3 S3 D3 F3 Hby. apply wp_bind, (fs_return_wp N n B (S j) B' s s3 p); [done..|].
  intros s4 S4 [_ K4] A4 F4. apply HQ; [done|by rewrite A4|by rewrite F4|].
  rewrite <- Hby. apply bytes_ext. intros x Hx. apply K4. right. intros b Hb. specialize (Hab b Hb). lia.
Qed.

(** What [m] cannot return from, after it did what [P] says. *)
Lemma undef_after {A C} (m : M A) (k : A → M C) s (P : A → machine → Prop) :
  wp m n s P → (∀ a s', P a s' → k a n s' = Undef) → (m ≫= k) n s = Undef.
Proof. intros (a & s' & E & HP)%wp_run Hk. unfold mbind, M_bind. rewrite E. by apply Hk. Qed.

Lemma exec_start_wp B j s input offset e cs : file_arg N n B j s input offset e cs → (∀ b, b ∈ B → b_end b ≤ load_addr) →
  wp (exec_start input offset) n s (λ ok s', ok = true ∧ fs_ok (S (S j)) B N n s' ∧
    bytes (Z.to_nat (e_file_size e)) (mem s') load_addr = file_data (ata s) (fat s) cs (e_file_size e)).
Proof.
  intros Ha Hab. apply (file_arg_wp B j s _ _ _ e cs); [done|]. intros name s1 S1 D1 F1 C1.
  destruct Ha as [_ _ _ Hone Hch Hlba Hsize Hn].
  apply (exec_read_wp B j s1 e cs); rewrite ?F1; [done..| |done|done|done|].
  { by rewrite (chain_disk _ (ata s)). }
  intros s2 S2 D2 F2 Hby. apply wp_ret. split_and!; [done|done|]. by rewrite (file_data_disk _ (ata s)) in Hby.
Qed.

(** The message behind the copy. *)
Lemma exec_message size filename s :
  (kprint (str "Loaded ");;
   size_buf ← from_option_ub (hex_to_ascii size (replicate 16 0));
   kprint (string_of size_buf);;
   kprint (str " bytes at 0x4000000" ++ newline);;
   exec_spawn filename size;;
   mret false) n s = Undef.
Proof. rewrite size_buf_overflow. reflexivity. Qed.

Lemma exec_undef B j s input offset e cs : file_arg N n B j s input offset e cs → (∀ b, b ∈ B → b_end b ≤ load_addr) →
  cmd_exec input offset n s = Undef.
Proof.
  intros [Hs Hmt (K & Hd & Hk & r & name & o & Ht & Hr & Hf) Hone Hch Hlba Hsize Hn] Hab.
  unfold cmd_exec, with_arg. rewrite Ht. eapply (undef_after _ _ _ (λ x s', x = (r, name, o) ∧ s' = s)); [by apply wp_ret|]. intros ? ? [-> ->].
  rewrite decide_False by done.
  eapply undef_after; [by apply (find_file_wp N n B j s K _ (Some e) (λ x s', x = Some e ∧ walking N n (S (S j)) B B s s'))|].
  intros ? s1 [-> [S1 D1 F1 _]]. cbv zeta.
  eapply undef_after.
  { apply (fs_take_wp N n B (S j) s1 (λ p s', ∃ B', malloc_list 512 B = Some (p, B') ∧ fs_ok (S j) B' N n s' ∧
      ata s' = ata s1 ∧ fat s' = fat s1)); [done|]. intros p B' s'. eauto. }
  intros p s2 (B' & Hm & S2 & A2 & F2). pose proof (owns_new _ _ _ Hm) as Hp.
  pose proof (owns_range _ _ _ _ p (fs_bufs _ _ _ _ _ S2) Hp). rewrite decide_False by lia.
  eapply undef_after.
  { apply (exec_copy_wp N n B' j s2 p _ cs _ (λ _ s', fs_ok (S j) B' N n s')); rewrite ?F2, ?F1, ?A2;
      [done|done|by eapply malloc_ends|done|by rewrite (chain_disk _ (ata s))|done..]. }
  intros a3 s3 S3. cbn beta in S3. clear a3. eapply undef_after; [by apply (fs_return_wp N n B (S j) B' s1 s3 p (λ _ _, True))|].
  intros _ s4 _. apply exec_message.
Qed.

End commands.

(** A disk with the file HELLO.TXT of 5 bytes in cluster 2, whose entry in the table ends the chain. *)
Definition file_disk : gmap Z (list Z) :=
  <[1 := replicate 4 0 ++ [0xFF; 0xFF] ++ replicate 506 0]>
  (<[600 := dir_entry (str "HELLO   TXT") 0x20 2 5 ++ replicate 480 0]>
  (<[601 := str "Hello" ++ replicate 507 0]> ∅)).

Lemma file_demo_arg input offset o :
  get_next_token input (replicate 32 0) offset = Some (1, str "hello.txt" ++ replicate 23 0, o) →
  file_arg 1 5 [mkBlk 0x2000000 4072 true] 1 (disk_machine file_disk) input offset
    (dir_entry (str "HELLO   TXT") 0x20 2 5) [2].
Proof.
  intros Ht. split.
  - apply disk_machine_ok. unfold file_disk.
    repeat (apply map_Forall_insert_2; [by vm_compute|]). apply map_Forall_empty.
  - by vm_compute.
  - exists 1%nat. split.
    { split; [cbn; lia|by vm_compute|by vm_compute|by vm_compute| |intros; lia].
      intros i Hi. assert (i = 0) as -> by lia. eexists. split; [by vm_compute|]. cbn. lia. }
    split; [lia|]. eexists _, _, _. split; [exact Ht|]. split; [lia|]. vm_compute. reflexivity.
  - reflexivity.
  - split; [by vm_compute|]. split; [lia|]. vm_compute. discriminate.
  - repeat constructor; by vm_compute.
  - by vm_compute.
  - cbn. lia.
Qed.

(** The terminal a screen shows. *)
Definition seen (c : console) : terminal :=
  mkTerminal (λ i, (byte_at (vga c) (2 * i), byte_at (vga c) (2 * i + 1))) (cursor_pos c).

Lemma shows_seen c : (0 <=? cursor_pos c) = true → (cursor_pos c <? 2000) = true → shows c (seen c).
Proof. intros H1 H2. split; [cbn; lia|done]. Qed.

Lemma heap_demo_screen : shows (cons heap_demo) (seen (cons heap_demo)).
Proof. apply shows_seen; vm_compute; reflexivity. Qed.

Lemma set_fat_ata_cons f a s : cons (set_fat f (set_ata a s)) = cons s.
Proof. reflexivity. Qed.

Lemma disk_machine_screen d : shows (cons (disk_machine d)) (seen (cons heap_demo)).
Proof. unfold disk_machine. rewrite set_fat_ata_cons. exact heap_demo_screen. Qed.

(** ** Properties *)

(** C3. cat, from the command line to the screen: when the argument names a file of the
    current directory whose cluster chain covers its size, on a mounted volume with one sector
    per cluster and a drive that answers in time and without error, the command returns to the
    prompt with the terminal showing the bytes of the file in order, the 0 bytes left out,
    and a newline; the disk, the file system's variables and the heap's blocks are as before. *)
Theorem cat_prints_file N n B j s t input offset e cs :
  file_arg N n B j s input offset e cs → shows (cons s) t →
  wp (cmd_cat input offset) n s (λ go_on s', go_on = true ∧ fs_ok (S (S j)) B N n s' ∧
    ata_disk (ata s') = ata_disk (ata s) ∧ fat s' = fat s ∧
    shows (cons s') (term_print (printed (file_data (ata s) (fat s) cs (e_file_size e)) ++ newline) t)).
Proof. apply cat_wp. Qed.

Lemma cat_prints_file_witness :
  wp (cmd_cat (str "cat hello.txt" ++ [0]) 3) 5 (disk_machine file_disk) (λ go_on s', go_on = true ∧
    fs_ok 3 [mkBlk 0x2000000 4072 true] 1 5 s' ∧
    ata_disk (ata s') = file_disk ∧ fat s' = fat (disk_machine file_disk) ∧
    shows (cons s') (term_print (str "Hello" ++ newline) (seen (cons heap_demo)))).
Proof.
  apply (cat_prints_file 1 5 [mkBlk 0x2000000 4072 true] 1 (disk_machine file_disk)
    (seen (cons heap_demo)) (str "cat hello.txt" ++ [0]) 3 _ [2] (file_demo_arg (str "cat hello.txt" ++ [0]) 3 13 eq_refl)).
  apply disk_machine_screen.
Defined.

(** C40. exec of a file leaves its own array: when the argument names a file of the current
    directory as in [cat_prints_file] and the heap ends below 64 MiB, the command copies the
    whole file to 64 MiB and returns its buffer, and the run then has no defined result,
    because the 19 characters of the size it prints next do not fit the 16 bytes of
    [size_buf]; no process is ever started within C's rules. *)
Theorem exec_size_overflow N n B j s input offset e cs :
  file_arg N n B j s input offset e cs → (∀ b, b ∈ B → b_end b ≤ load_addr) →
  wp (exec_start input offset) n s (λ ok s', ok = true ∧ fs_ok (S (S j)) B N n s' ∧
    bytes (Z.to_nat (e_file_size e)) (mem s') load_addr = file_data (ata s) (fat s) cs (e_file_size e)) ∧
  hex_to_ascii (e_file_size e) (replicate 16 0) = None ∧
  cmd_exec input offset n s = Undef.
Proof.
  intros Ha Hab. split; [by apply exec_start_wp|]. split; [apply size_buf_overflow|by eapply exec_undef].
Qed.

Lemma exec_size_overflow_witness :
  wp (exec_start (str "exec hello.txt" ++ [0]) 4) 5 (disk_machine file_disk) (λ ok s', ok = true ∧
    fs_ok 3 [mkBlk 0x2000000 4072 true] 1 5 s' ∧ bytes 5%nat (mem s') load_addr = str "Hello") ∧
  hex_to_ascii 5 (replicate 16 0) = None ∧
  cmd_exec (str "exec hello.txt" ++ [0]) 4 5%nat (disk_machine file_disk) = Undef.
Proof.
  apply (exec_size_overflow 1 5 [mkBlk 0x2000000 4072 true] 1 (disk_machine file_disk) (str "exec hello.txt" ++ [0]) 4 _ [2]
    (file_demo_arg (str "exec hello.txt" ++ [0]) 4 14 eq_refl)).
  intros b Hb. apply list_elem_of_singleton in Hb as ->. unfold b_end, load_addr. cbn [b_addr b_size]. lia.
Defined.
