(* ===== verification/Keyboard.v ===== *)
(** src/drivers/keyboard.c: scancodes to characters, the line buffer, and the call of the
    shell when a line is complete. *)
From S2P Require Import Prelude Memory Hardware Machine Utils Screen Pmm Kheap Vmm Cpu Process Ata Buffers Fat Frames Elf Shell.

Definition SC_MAX : Z := 57.

(** The characters of the two tables between the zeros, by rows of the source. *)
Definition ascii_low : list Z :=
  [0; 0] ++ str "1234567890-=" ++ [0] ++
  [0] ++ str "qwertyuiop[]" ++ [0] ++
  [0] ++ str "asdfghjkl;'`" ++
  [0] ++ str "\zxcvbnm,./" ++ [0] ++ str "*" ++ [0] ++ str " ".

Definition ascii_shift : list Z :=
  [0; 0] ++ str "!@#$%^&*()_+" ++ [0] ++
  [0] ++ str "QWERTYUIOP{}" ++ [0] ++
  [0] ++ str "ASDFGHJKL:" ++ [34] ++ str "~" ++
  [0] ++ str "|ZXCVBNM<>?" ++ [0] ++ str "*" ++ [0] ++ str " ".

(** [is_shift ? ascii_shift : ascii_low] *)
Definition key_table (shift : Z) : list Z := if decide (shift ≠ 0) then ascii_shift else ascii_low.

Definition set_is_shift (v : Z) : M unit := modify (λ s, set_kbd (mkKbd v (key_buffer (kbd s)) (buffer_index (kbd s))) s).
Definition set_buffer_index (v : Z) : M unit := modify (λ s, set_kbd (mkKbd (is_shift (kbd s)) (key_buffer (kbd s)) v) s).

(** [key_buffer[i] = v] *)
Definition put_key (i v : Z) : M unit :=
  k ← gets kbd;
  l ← from_option_ub (arr_set (key_buffer k) i v);
  modify (set_kbd (mkKbd (is_shift k) l (buffer_index k))).

Definition key_letter (letter : Z) : M unit :=
  kprint (string_of [letter; 0]);;
  i ← gets (λ s, buffer_index (kbd s));
  set_buffer_index (i + 1);;
  put_key i letter;;
  put_key (i + 1) 0.

Definition key_backspace : M unit :=
  i ← gets (λ s, buffer_index (kbd s));
  if decide (i > 0) then
    set_buffer_index (i - 1);;
    put_key (i - 1) 0;;
    on_console kprint_backspace
  else mret tt.

Definition key_enter : M unit :=
  kprint newline;;
  input ← gets (λ s, key_buffer (kbd s));
  user_input input;;
  set_buffer_index 0;;
  put_key 0 0.

Definition keyboard_handler : M unit :=
  scancode ← inb 0x60;
  if decide (scancode = 0x2a ∨ scancode = 0x36) then set_is_shift 1
  else if decide (scancode = 0xaa ∨ scancode = 0xb6) then set_is_shift 0
  else if decide (Z.land scancode 0x80 ≠ 0) then mret tt
  else if decide (scancode > SC_MAX) then mret tt
  else
    shift ← gets (λ s, is_shift (kbd s));
    letter ← from_option_ub (arr_get (key_table shift) scancode);
    if decide (letter ≠ 0) then key_letter letter
    else if decide (scancode = 0x0e) then key_backspace
    else if decide (scancode = 0x1c) then key_enter
    else mret tt.

(** ** The line editor the driver implements *)

Inductive key :=
| KShift (down : bool)
| KChar (c : Z)
| KBackspace
| KEnter
| KNone.

#[export] Instance key_eq_dec : EqDecision key.
Proof. solve_decision. Defined.

(** The US layout in scancode set 1: the keys of a row have consecutive codes from the first
    on; each row is what is printed on its keys, without and with shift. *)
Definition us_layout : list (Z * list Z * list Z) :=
  [ (2, str "1234567890-=", str "!@#$%^&*()_+");
    (16, str "qwertyuiop[]", str "QWERTYUIOP{}");
    (30, str "asdfghjkl;'`", str "ASDFGHJKL:" ++ [34] ++ str "~");
    (43, str "\zxcvbnm,./", str "|ZXCVBNM<>?");
    (55, str "*", str "*");
    (57, str " ", str " ") ].

Definition key_char (shift sc : Z) : option Z :=
  head (omap (λ '(first, plain, shifted),
    if decide (first ≤ sc) then (if decide (shift ≠ 0) then shifted else plain) !! Z.to_nat (sc - first) else None)
    us_layout).

(** The key of a scancode, in the shift state [shift]: make and break codes of the two shift
    keys, Backspace, Enter, and the keys that print. *)
Definition decode (shift sc : Z) : key :=
  if decide (sc = 0x2a ∨ sc = 0x36) then KShift true
  else if decide (sc = 0xaa ∨ sc = 0xb6) then KShift false
  else if decide (sc = 0x0e) then KBackspace
  else if decide (sc = 0x1c) then KEnter
  else match key_char shift sc with Some c => KChar c | None => KNone end.

Definition edit (k : key) (t : list Z) : list Z :=
  match k with
  | KChar c => t ++ [c]
  | KBackspace => removelast t
  | _ => t
  end.

Definition shift_after (k : key) (shift : Z) : Z :=
  match k with KShift true => 1 | KShift false => 0 | _ => shift end.

(** The buffer holds the line [t], with its 0 inside the array. *)
Record line (s : machine) (t : list Z) : Prop := {
  ln_buf : ∃ rest, key_buffer (kbd s) = t ++ 0 :: rest;
  ln_len : length (key_buffer (kbd s)) = 256%nat;
  ln_text : is_text t;
  ln_idx : buffer_index (kbd s) = Z.of_nat (length t);
}.

(** The keyboard sends [sc] and the interrupt is served. *)
Definition press (sc : Z) : M unit := modify (set_kbd_data sc);; keyboard_handler.

Fixpoint press_all (scs : list Z) : M unit :=
  match scs with
  | [] => mret tt
  | sc :: rest => press sc;; press_all rest
  end.

(** Shift state and line after a key; [None] is a character behind 255 others. *)
Definition type_key (st : Z * list Z) (sc : Z) : option (Z * list Z) :=
  let k := decode (st.1) sc in
  match k with
  | KChar _ => if decide (length (st.2) = 255%nat) then None else Some (shift_after k (st.1), edit k (st.2))
  | _ => Some (shift_after k (st.1), edit k (st.2))
  end.

Fixpoint type_all (st : Z * list Z) (scs : list Z) : option (Z * list Z) :=
  match scs with
  | [] => Some st
  | sc :: rest => st' ← type_key st sc; type_all st' rest
  end.

Section keyboard.
Implicit Types (s : machine) (t : list Z).

Lemma key_table_length shift : length (key_table shift) = 58%nat.
Proof. unfold key_table. by case_decide. Qed.

(** The driver's tables are the layout, with 0 where a key prints nothing. *)
Lemma key_table_layout shift sc : 0 ≤ sc < 256 →
  key_char shift sc = c ← key_table shift !! Z.to_nat sc; if decide (c ≠ 0) then Some c else None.
Proof.
  assert (∀ b, key_char b sc = key_char (if decide (b ≠ 0) then 1 else 0) sc ∧
    key_table b = key_table (if decide (b ≠ 0) then 1 else 0)) as Hb.
  { intros b. unfold key_char, key_table. by destruct (decide (b ≠ 0)). }
  destruct (Hb shift) as [-> ->]. intros Hsc.
  assert (∀ b, b = 0 ∨ b = 1 → forallb (λ i, bool_decide (key_char b (Z.of_nat i) =
    c ← key_table b !! i; if decide (c ≠ 0) then Some c else None)) (seq 0 256) = true) as H
    by (intros b [->| ->]; by vm_compute).
  specialize (H (if decide (shift ≠ 0) then 1 else 0)). rewrite forallb_forall in H.
  specialize (H ltac:(case_decide; lia) (Z.to_nat sc) ltac:(apply in_seq; lia)).
  apply bool_decide_eq_true in H. by rewrite Z2Nat.id in H by lia.
Qed.

Lemma key_char_range shift sc c : key_char shift sc = Some c → 0 < c < 256.
Proof.
  assert (Forall (λ '(_, plain, shifted), Forall (λ c, 0 < c < 256) plain ∧ Forall (λ c, 0 < c < 256) shifted) us_layout) as H.
  { unfold us_layout. repeat (apply Forall_cons; split; [split; apply (bool_decide_unpack _); by vm_compute|]). constructor. }
  unfold key_char. intros Hh%head_Some_elem_of. apply list_elem_of_omap in Hh as ([[f p] q] & Hin & E).
  rewrite Forall_forall in H. destruct (H _ Hin) as [Hp Hq]. destruct (decide (f ≤ sc)); [|done].
  destruct (decide (shift ≠ 0)); [exact (Forall_lookup_1 _ _ _ _ Hq E)|exact (Forall_lookup_1 _ _ _ _ Hp E)].
Qed.

Lemma decode_char shift sc c : decode shift sc = KChar c → 0 < c < 256.
Proof.
  unfold decode. repeat (case_decide; [done|]). destruct (key_char shift sc) as [d|] eqn:E; [|done].
  intros [= <-]. by eapply key_char_range.
Qed.

(** What the driver does for a key. *)
Definition on_key (k : key) : M unit :=
  match k with
  | KShift d => set_is_shift (if d then 1 else 0)
  | KChar c => key_letter c
  | KBackspace => key_backspace
  | KEnter => key_enter
  | KNone => mret tt
  end.

(** The handler's tests are the decoder's. *)
Lemma handler_decode n s : 0 ≤ kbd_data s < 256 →
  keyboard_handler n s = on_key (decode (is_shift (kbd s)) (kbd_data s)) n s.
Proof.
  intros Hk. unfold keyboard_handler.
  assert (∀ A (k : Z → M A), (inb 0x60 ≫= k) n s = k (kbd_data s) n s) as ->.
  { intros A k. unfold mbind at 1, M_bind. change (inb 0x60 n s) with (Ret (u8 (kbd_data s)) s). by rewrite u8_small. }
  set (sc := kbd_data s) in *. clearbody sc. unfold decode.
  destruct (decide (sc = 0x2a ∨ sc = 0x36)); [done|]. destruct (decide (sc = 0xaa ∨ sc = 0xb6)); [done|].
  assert (Z.land sc 0x80 ≠ 0 ↔ 128 ≤ sc) as Hb.
  { rewrite (land_bit_zero sc 7) by lia. rewrite not_false_iff_true, Z.testbit_true by lia. dlia. }
  pose proof (key_table_layout (is_shift (kbd s)) sc Hk) as El. pose proof (key_table_length (is_shift (kbd s))) as Hlen.
  assert (58 ≤ sc → key_char (is_shift (kbd s)) sc = None) as Hhigh.
  { intros Hge. rewrite El, lookup_ge_None_2; [done|rewrite Hlen; lia]. }
  unfold SC_MAX. destruct (decide (Z.land sc 0x80 ≠ 0)) as [H3|H3].
  { apply Hb in H3. rewrite !decide_False by lia. by rewrite Hhigh by lia. }
  destruct (decide (sc > 57)); [rewrite !decide_False by lia; by rewrite Hhigh by lia|].
  unfold mbind at 1, M_bind, gets.
  destruct (lookup_lt_is_Some_2 (key_table (is_shift (kbd s))) (Z.to_nat sc)) as [c Hc]; [rewrite Hlen; lia|].
  assert (arr_get (key_table (is_shift (kbd s))) sc = Some c) as ->.
  { unfold arr_get. by rewrite decide_True by lia. }
  rewrite Hc in El. cbn [mbind option_bind] in El. rewrite El.
  assert (sc = 0x0e ∨ sc = 0x1c → c = 0) as H0.
  { intros [->| ->]; clear -Hc; revert Hc; unfold key_table; case_decide; vm_compute; congruence. }
  cbn [from_option_ub]. unfold mbind, M_bind, mret, M_ret.
  destruct (decide (c ≠ 0)); [by rewrite !decide_False by (intros ?; tauto)|]. by repeat case_decide.
Qed.

Lemma put_key_wp i v n s (Q : unit → machine → Prop) :
  0 ≤ i < Z.of_nat (length (key_buffer (kbd s))) →
  Q tt (set_kbd (mkKbd (is_shift (kbd s)) (<[Z.to_nat i := u8 v]> (key_buffer (kbd s))) (buffer_index (kbd s))) s) →
  wp (put_key i v) n s Q.
Proof. intros Hi HQ. unfold put_key. wp_steps. rewrite arr_set_Some by done. by wp_steps. Qed.

Lemma line_room s t : line s t → (length t < 256)%nat.
Proof. intros [[r E] Hl _ _]. rewrite E, length_app in Hl. cbn [length] in Hl. lia. Qed.

(** A line in a state that differs in nothing but the screen and the keyboard's variables. *)
Lemma line_intro s t rest b : key_buffer (kbd s) = t ++ 0 :: rest → length (key_buffer (kbd s)) = 256%nat →
  is_text t → b = Z.of_nat (length t) → buffer_index (kbd s) = b → line s t.
Proof. intros E Hl Ht -> Eb. split; [by exists rest|done..]. Qed.

Lemma key_letter_wp c n s t (Q : unit → machine → Prop) : line s t → 0 < c < 256 → (length t < 255)%nat →
  (∀ s', line s' (t ++ [c]) → is_shift (kbd s') = is_shift (kbd s) → kbd_data s' = kbd_data s → Q tt s') →
  wp (key_letter c) n s Q.
Proof.
  intros [[r E] Hl Ht Hi] Hc Hlt HQ. unfold key_letter, set_buffer_index. apply wp_bind, wp_kprint. intros s1 Hc1.
  assert (kbd s1 = kbd s ∧ kbd_data s1 = kbd_data s) as [Ek Ed] by (by rewrite Hc1).
  wp_steps. rewrite Ek, Hi.
  apply put_key_wp; [cbn [kbd set_kbd key_buffer]; rewrite Hl; lia|]. cbn [kbd set_kbd key_buffer is_shift buffer_index].
  apply put_key_wp; [cbn [kbd set_kbd key_buffer]; rewrite length_insert, Hl; lia|].
  cbn [kbd set_kbd key_buffer is_shift buffer_index]. apply HQ; [|done|done].
  rewrite (u8_small c) by lia. replace (Z.to_nat (Z.of_nat (length t) + 1)) with (S (length t)) by lia. rewrite Nat2Z.id.
  destruct r as [|x r]; [rewrite E, length_app in Hl; cbn in Hl; lia|].
  apply (line_intro _ _ r (Z.of_nat (length t) + 1)); cbn [kbd set_kbd key_buffer buffer_index].
  - rewrite E, insert_app_r_alt, Nat.sub_diag by lia. cbn [insert list_insert].
    rewrite insert_app_r_alt by lia. replace (S (length t) - length t)%nat with 1%nat by lia.
    rewrite <- app_assoc. done.
  - by rewrite !length_insert.
  - apply Forall_app. split; [done|]. constructor; [lia|constructor].
  - rewrite length_app. cbn [length]. lia.
  - done.
Qed.

(** A letter behind 255 others. *)
Lemma key_letter_full n s t c : line s t → length t = 255%nat → key_letter c n s = Undef.
Proof.
  intros [[r E] Hl Ht Hi] Hlen.
  unfold key_letter, kprint, on_console, set_buffer_index, put_key, mbind, M_bind, modify, gets.
  cbn [kbd set_cons set_kbd key_buffer buffer_index]. rewrite Hi, Hlen.
  rewrite arr_set_Some by (rewrite Hl; lia). cbn [from_option_ub mret M_ret kbd set_kbd key_buffer].
  rewrite arr_set_None; [done|]. rewrite length_insert, Hl. lia.
Qed.

Lemma removelast_length t : length (removelast t) = pred (length t).
Proof. by rewrite (removelast_firstn_len t), length_take, Nat.min_l by lia. Qed.

Lemma key_backspace_wp n s t (Q : unit → machine → Prop) : line s t →
  (∀ s', line s' (removelast t) → is_shift (kbd s') = is_shift (kbd s) → kbd_data s' = kbd_data s → Q tt s') →
  wp key_backspace n s Q.
Proof.
  intros H HQ. pose proof H as [[r E] Hl Ht Hi]. unfold key_backspace, set_buffer_index. wp_steps. rewrite Hi.
  destruct t as [|c t _] using rev_ind; [by apply HQ|]. rewrite length_app in *. cbn [length] in *.
  rewrite decide_True by lia. rewrite removelast_last in HQ. wp_steps.
  apply put_key_wp; [cbn [kbd set_kbd key_buffer]; rewrite Hl; rewrite E, !length_app in Hl; cbn [length] in Hl; lia|].
  cbn [kbd set_kbd key_buffer is_shift buffer_index]. unfold on_console. wp_steps.
  apply HQ; [|done|done]. apply Forall_app in Ht as [Ht _].
  apply (line_intro _ _ (0 :: r) (Z.of_nat (length t))); cbn [kbd set_kbd set_cons key_buffer buffer_index].
  - rewrite E, <- app_assoc. replace (Z.to_nat (Z.of_nat (length t + 1) - 1)) with (length t) by lia.
    by rewrite insert_app_r_alt, Nat.sub_diag by lia.
  - by rewrite length_insert.
  - done.
  - done.
  - lia.
Qed.

End keyboard.

(** ** Properties *)

Section properties.
Implicit Types (s : machine) (t : list Z).

Lemma decode_enter shift sc : decode shift sc = KEnter → sc = 0x1c.
Proof.
  unfold decode. repeat (case_decide; [done|]). by destruct (key_char shift sc).
Qed.

Lemma press_wp sc n s t st (Q : unit → machine → Prop) :
  line s t → 0 ≤ sc < 256 → sc ≠ 0x1c → type_key (is_shift (kbd s), t) sc = Some st →
  (∀ s', line s' st.2 → is_shift (kbd s') = st.1 → Q tt s') →
  wp (press sc) n s Q.
Proof.
  intros Hl Hsc Hne Hst HQ. unfold press. wp_steps. unfold wp. rewrite handler_decode by done.
  cbn [kbd kbd_data set_kbd_data]. fold (wp (on_key (decode (is_shift (kbd s)) sc)) n (set_kbd_data sc s) Q).
  unfold type_key in Hst. cbn [fst snd] in Hst. pose proof (line_room s t Hl) as Hroom.
  assert (line (set_kbd_data sc s) t) as Hl1 by (destruct Hl as [A B C D]; by split).
  destruct (decode (is_shift (kbd s)) sc) as [d|c| | |] eqn:E; cbn [edit shift_after] in Hst; cbn [on_key].
  - injection Hst as <-. apply wp_modify, HQ; [|by destruct d]. destruct Hl as [A B C D]. by split.
  - destruct (decide (length t = 255%nat)); [done|]. injection Hst as <-.
    apply (key_letter_wp _ _ _ t); [done|by eapply decode_char|lia|]. intros s' H1 H2 _. by apply HQ.
  - injection Hst as <-. apply (key_backspace_wp _ _ t); [done|]. intros s' H1 H2 _. by apply HQ.
  - by apply decode_enter in E.
  - injection Hst as <-. by apply wp_ret, HQ.
Qed.

Lemma press_full sc n s t : line s t → 0 ≤ sc < 256 → type_key (is_shift (kbd s), t) sc = None → press sc n s = Undef.
Proof.
  intros Hl Hsc Hst. unfold press, mbind, M_bind, modify. rewrite handler_decode by done.
  cbn [kbd kbd_data set_kbd_data]. unfold type_key in Hst. cbn [fst snd] in Hst.
  destruct (decode (is_shift (kbd s)) sc) as [d|c| | |]; try done. destruct (decide (length t = 255%nat)); [|done].
  apply (key_letter_full _ _ t); [|done]. destruct Hl as [A B C D]. by split.
Qed.

End properties.

(** C11. Typing is line editing, exactly: for any sequence of scancodes without Enter the driver
    does what a line editor with the US layout does.  Unless a character is typed behind 255
    others, the buffer holds the line that the characters and backspaces spell, shifted as
    the shift keys say, terminated by its 0 inside the array; if one is, the driver writes
    past its array. *)
Theorem typing_refines_editor scs n s t :
  line s t → Forall (λ sc, 0 ≤ sc < 256 ∧ sc ≠ 0x1c) scs →
  match type_all (is_shift (kbd s), t) scs with
  | Some (shift, t') => wp (press_all scs) n s (λ _ s', line s' t' ∧ is_shift (kbd s') = shift)
  | None => press_all scs n s = Undef
  end.
Proof.
  intros Hl Hs. induction Hs as [|sc scs [Hsc Hne] Hs IH] in s, t, Hl |- *; cbn [press_all type_all].
  - by apply wp_ret.
  - destruct (type_key (is_shift (kbd s), t) sc) as [[sh1 t1]|] eqn:E; cbn [mbind option_bind].
    2:{ unfold mbind, M_bind. by rewrite (press_full sc n s t). }
    assert (wp (press sc) n s (λ _ s', line s' t1 ∧ is_shift (kbd s') = sh1)) as H1.
    { apply (press_wp sc n s t (sh1, t1)); [done..|]. by intros s' ??. }
    apply wp_run in H1 as ([] & s1 & E1 & Hl1 & Hs1). specialize (IH s1 t1 Hl1). rewrite Hs1 in IH.
    destruct (type_all (sh1, t1) scs) as [[sh2 t2]|]; unfold wp in *; unfold mbind, M_bind; by rewrite E1.
Qed.

Lemma typing_refines_editor_witness :
  wp (press_all [0x2a; 0x23; 0xaa; 0x17; 0x31; 0x0e]) 0 boot_machine (λ _ s',
    line s' (str "Hi") ∧ is_shift (kbd s') = 0) ∧
  press_all (replicate 256 0x1e) 0%nat boot_machine = Undef.
Proof.
  assert (line boot_machine []) as Hl by (split; [by exists (replicate 255 0)|done|constructor|done]).
  split.
  - pose proof (typing_refines_editor [0x2a; 0x23; 0xaa; 0x17; 0x31; 0x0e] 0 boot_machine [] Hl) as H.
    assert (type_all (is_shift (kbd boot_machine), []) [0x2a; 0x23; 0xaa; 0x17; 0x31; 0x0e] = Some (0, str "Hi")) as E
      by (vm_compute; reflexivity).
    rewrite E in H. apply H. apply (bool_decide_unpack _). by vm_compute.
  - pose proof (typing_refines_editor (replicate 256 0x1e) 0 boot_machine [] Hl) as H.
    assert (type_all (is_shift (kbd boot_machine), []) (replicate 256 0x1e) = None) as E by (vm_compute; reflexivity).
    rewrite E in H. apply H. apply Forall_replicate. lia.
Defined.


