(* ===== verification/Isr.v ===== *)
(** src/kernel/isr.c: the dispatch of interrupts, faults and system calls.

    [r] is the address of the trap frame on the kernel stack; the result is the stack pointer
    the return path loads.  The faults that stop the processor run with interrupts disabled,
    so their [hlt] is [halt].  A system call's string is read through the page tables of the
    interrupted process, which are still loaded; a fault there runs the page fault branch. *)
From S2P Require Import Prelude Memory Hardware Machine Utils Screen Preserves Pmm Kheap Vmm Cpu Process Ata Buffers Fat Frames Elf Shell Keyboard.

(** The registers of the trap frame. *)
Definition frame (r : Z) : M registers_t := gets (λ s, read_regs (mem s) r).
Definition r_rax (f : registers_t) : Z := default 0 (r_gprs f !! 0%nat).
Definition r_rbx (f : registers_t) : Z := default 0 (r_gprs f !! 1%nat).

Definition gp_fault (f : registers_t) : M Z :=
  kprint (str "GP Fault! Halting." ++ newline);;
  kprint (str "RIP: ");;
  kprint_hex 32 (r_rip f);;
  kprint (str "  Err: ");;
  kprint_hex 32 (r_err_code f);;
  kprint newline;;
  halt.

Definition page_fault {A} : M A :=
  cr2 ← gets (λ s, cr2 (cpu s));
  kprint (str "Page Fault! Halting." ++ newline);;
  kprint (str "CR2: ");;
  kprint_hex 32 cr2;;
  kprint newline;;
  halt.

(** The processor's fault on an access to [va]. *)
Definition fault_at {A} (va : Z) : M A :=
  modify (λ s, set_cpu (mkCpu (cr3 (cpu s)) va (idtr (cpu s)) (gdtr (cpu s)) (iflag (cpu s))) s);;
  page_fault.

(** The characters of a string of the loaded address space, and the address of the fault if
    one of them is not mapped. *)
Definition user_char (st : Z * list Z) : M ((Z * list Z) + (list Z * option Z)) :=
  let '(a, acc) := st in
  gets (λ s,
    match translate (mem s) (cr3 (cpu s)) a with
    | None => inr (acc, Some a)
    | Some pa => if decide (byte_at (mem s) pa = 0) then inr (acc, None)
                 else inl (u64 (a + 1), acc ++ [byte_at (mem s) pa])
    end).

(** [kprint(msg)] for a pointer of the user program. *)
Definition kprint_user (msg : Z) : M unit :=
  '(l, fault) ← while_loop user_char (msg, []);
  kprint l;;
  match fault with
  | Some a => fault_at a
  | None => mret tt
  end.

Definition syscall (f : registers_t) (r : Z) : M Z :=
  if decide (r_rax f = 0) then
    kill_current_process;;
    schedule r
  else if decide (r_rax f = 1) then
    kprint_user (r_rbx f);;
    mret r
  else mret r.

Definition isr_handler (r : Z) : M Z :=
  f ← frame r;
  if decide (r_int_no f = 32) then
    timer_handler;;
    outb 0x20 0x20;;
    schedule r
  else if decide (r_int_no f = 33) then
    keyboard_handler;;
    outb 0x20 0x20;;
    mret r
  else if decide (r_int_no f = 0) then
    kprint (str "Divide by Zero!" ++ newline);;
    mret r
  else if decide (r_int_no f = 8) then
    kprint (str "Double Fault! Halting." ++ newline);;
    halt
  else if decide (r_int_no f = 13) then gp_fault f
  else if decide (r_int_no f = 14) then page_fault
  else if decide (r_int_no f = 128) then syscall f r
  else mret r.

(** ** Lemmas *)

(** The string at [a] in the address space [root]: its characters [l], and how it ends, with
    its 0 or at an address that is not mapped. *)
Inductive user_text (m : gmap Z Z) (root : Z) : Z → list Z → option Z → Prop :=
| text_end a pa : translate m root a = Some pa → byte_at m pa = 0 → user_text m root a [] None
| text_fault a : translate m root a = None → user_text m root a [] (Some a)
| text_char a pa c l e :
    translate m root a = Some pa → byte_at m pa = c → c ≠ 0 →
    user_text m root (u64 (a + 1)) l e → user_text m root a (c :: l) e.

(** [isr_handler] on a frame with a given vector. *)
Definition on_vector (m : gmap Z Z) (r v : Z) : Prop := r_int_no (read_regs m r) = v.

Section isr.
Implicit Types (s : machine).

(** The characters that are read are the string's, in order. *)
Lemma user_chars_run k n s a acc l e : user_text (mem s) (cr3 (cpu s)) a l e → (length l < k)%nat →
  iter_fuel k user_char (a, acc) n s = Ret (acc ++ l, e) s.
Proof.
  intros H. induction H as [a pa Ht Hb|a Ht|a pa c l e Ht Hb Hc H IH] in k, acc |- *;
    intros Hk; (destruct k as [|k]; [lia|]); cbn [iter_fuel length] in *;
    unfold mbind, M_bind, user_char, gets; rewrite Ht.
  - rewrite Hb, decide_True by done. by rewrite app_nil_r.
  - by rewrite app_nil_r.
  - rewrite Hb, decide_False by done. rewrite IH by lia. by rewrite <- app_assoc.
Qed.

Lemma kprint_user_run n s a l : user_text (mem s) (cr3 (cpu s)) a l None → (length l < n)%nat →
  kprint_user a n s = kprint l n s.
Proof.
  intros H Hn. unfold kprint_user, while_loop. unfold mbind at 1, M_bind.
  by rewrite (user_chars_run _ _ _ _ [] l None).
Qed.

Lemma kprint_hex_run size x n s : 0 ≤ x → (19 ≤ size)%nat →
  ∃ c, kprint_hex size x n s = Ret tt (set_cons c s).
Proof.
  intros Hx Hs. assert (wp (kprint_hex size x) n s (λ _ s', console_only s s')) as H.
  { by apply wp_kprint_hex. }
  apply wp_run in H as ([] & s' & E & Hc). exists (cons s'). rewrite E. by rewrite <- Hc.
Qed.

(** A fault stops the processor with the faulting address in CR2 and nothing changed but the
    screen. *)
Lemma fault_at_run {A} a n s : 0 ≤ a →
  ∃ c, fault_at (A := A) a n s =
    Halt (set_cons c (set_cpu (mkCpu (cr3 (cpu s)) a (idtr (cpu s)) (gdtr (cpu s)) (iflag (cpu s))) s)).
Proof.
  intros Ha. unfold fault_at, page_fault, kprint, on_console, modify, gets, mbind, M_bind.
  cbn [cpu set_cpu set_cons cr2].
  match goal with |- context [kprint_hex 32 a n ?s0] =>
    destruct (kprint_hex_run 32 a n s0 Ha ltac:(lia)) as [c E] end.
  rewrite E. eexists. reflexivity.
Qed.

Lemma fault_text m root a l x : 0 ≤ a < 2 ^ 64 → user_text m root a l (Some x) → 0 ≤ x < 2 ^ 64.
Proof.
  intros Ha H. remember (Some x) as e eqn:E. induction H as [| |a pa c l e Ht Hb Hc H IH]; [done| |].
  - by injection E as <-.
  - apply IH; [apply u64_range|done].
Qed.

Lemma kprint_user_fault n s a l x : 0 ≤ a < 2 ^ 64 →
  user_text (mem s) (cr3 (cpu s)) a l (Some x) → (length l < n)%nat →
  ∃ s', kprint_user a n s = Halt s' ∧ cr2 (cpu s') = x ∧ mem s' = mem s ∧ proc s' = proc s.
Proof.
  intros Ha H Hn. unfold kprint_user, while_loop. unfold mbind at 1, M_bind.
  rewrite (user_chars_run _ _ _ _ [] l (Some x)) by done.
  unfold mbind, M_bind, kprint, on_console, modify.
  match goal with |- context [fault_at x n ?s0] =>
    destruct (fault_at_run (A := unit) x n s0) as [c E]; [by apply (fault_text _ _ _ _ _ Ha H)|] end.
  rewrite E. eexists. split; [reflexivity|done].
Qed.

(** The branch of the handler that a vector takes. *)
Lemma syscall_branch r n s : on_vector (mem s) r 128 →
  isr_handler r n s = syscall (read_regs (mem s) r) r n s.
Proof.
  unfold on_vector. intros Hv. unfold isr_handler, frame, gets. unfold mbind at 1, M_bind. by rewrite Hv.
Qed.

Lemma timer_branch r n s : on_vector (mem s) r 32 →
  isr_handler r n s = (timer_handler;; outb 0x20 0x20;; schedule r) n s.
Proof.
  unfold on_vector. intros Hv. unfold isr_handler, frame, gets. unfold mbind at 1, M_bind. by rewrite Hv.
Qed.

(** The machine after the timer's tick and the acknowledgement of its interrupt. *)
Definition ticked s : machine :=
  let p := pic_master (pics s) in
  set_pics (mkPics (mkPic (pic_step p) (pic_offset p) (pic_icw3 p) (pic_icw4 p) (pic_mask p) (S (pic_eoi p)))
    (pic_slave (pics s))) (set_tick (u32 (tick s + 1)) s).

Lemma tick_run {A} (k : M A) n s : (timer_handler;; outb 0x20 0x20;; k) n s = k n (ticked s).
Proof. done. Qed.

(** The search of the scheduler changes nothing. *)
Lemma schedule_scan_keeps I k next : preserves I (schedule_scan k next).
Proof. induction k as [|k IH] in next |- *; cbn [schedule_scan]; preserve. Qed.
#[local] Hint Resolve schedule_scan_keeps : keep.

Lemma schedule_frame_wp rsp n s (Q : Z → machine → Prop) : proc_wf s →
  (∀ p s', tbl_get (saved (processes (proc s)) (current_pid (proc s)) rsp) (next_pid s rsp) = Some p →
     proc_wf s' → proc s' = mkProc (switched s rsp) (next_pid s rsp) (process_count (proc s)) →
     switch_regs s s' p → tick s' = tick s → pics s' = pics s → Q (p_rsp p) s') →
  wp (schedule rsp) n s Q.
Proof.
  intros Hwf HQ.
  assert (preserves (λ s', tick s' = tick s ∧ pics s' = pics s) (schedule rsp)) as Hp.
  { unfold schedule. preserve. }
  pose proof (schedule_wp rsp n s (λ r s', ∃ p,
    tbl_get (saved (processes (proc s)) (current_pid (proc s)) rsp) (next_pid s rsp) = Some p ∧
    proc s' = mkProc (switched s rsp) (next_pid s rsp) (process_count (proc s)) ∧
    switch_regs s s' p ∧ r = p_rsp p) Hwf ltac:(by intros; eexists)) as Hw.
  eapply wp_mono; [eapply wp_preserves; [exact Hp|done|exact Hw]|].
  intros r s' [[Ht Hpi] (p & H1 & H2 & H3 & ->)]. apply HQ; try done. by eapply schedule_keeps_wf.
Qed.

End isr.

(** ** Properties *)

(** A trap frame at 0x9000 with vector [v], rax [ax] and rbx [bx]; page tables from 0x1000
    that map the page at 0x400000 to the frame 0x5000, and the string "Hi" at its end. *)
Definition trap_mem (v ax bx : Z) : gmap Z Z :=
  store 8 (0x9000 + 128) v (store 8 (0x9000 + 8) ax (store 8 (0x9000 + 16) bx
    (store 8 0x1000 0x2007 (store 8 0x2000 0x3007 (store 8 (0x3000 + 16) 0x4007 (store 8 0x4000 0x5007
      (store 1 0x5ffd 72 (store 1 0x5ffe 105 ∅)))))))).

Definition trap_demo (v ax bx : Z) : machine :=
  set_mem (trap_mem v ax bx)
    (set_cpu (mkCpu 0x1000 0 (0, 0) (0, 0) false) (set_proc (proc proc_demo) boot_machine)).

Lemma trap_demo_wf v ax bx : proc_wf (trap_demo v ax bx).
Proof. by apply (proc_wf_eq proc_demo), proc_demo_wf. Qed.

(** C14. The exit system call ends the process for good while another one can run: the caller
    is DEAD and no longer current, the next runnable process is RUNNING with its page tables
    and kernel stack loaded, and the handler returns on that process's saved stack. *)
Theorem syscall_exit_switches r n s i :
  proc_wf s → on_vector (mem s) r 128 → r_rax (read_regs (mem s) r) = 0 →
  0 ≤ i < process_count (proc s) → i ≠ current_pid (proc s) → runnable (processes (proc s)) i →
  wp (isr_handler r) n s (λ r' s',
    let cur := current_pid (proc s) in let next := current_pid (proc s') in
    proc_wf s' ∧ next ≠ cur ∧
    state_of (processes (proc s')) cur = Some PROCESS_DEAD ∧
    state_of (processes (proc s')) next = Some PROCESS_RUNNING ∧
    ∃ p, tbl_get (processes (proc s)) next = Some p ∧ p_state p = PROCESS_READY ∧
      r' = p_rsp p ∧ switch_regs s s' p).
Proof.
  intros Hwf Hv Hax Hi Hne Hr. pose proof (pw_cur _ Hwf) as Hc. unfold wp. rewrite syscall_branch by done.
  unfold syscall. rewrite decide_True by done. fold (wp (kill_current_process;; schedule r) n s).
  apply wp_bind, kill_current_process_wp; [done|]. intros s1 Hc1.
  assert (proc s1 = proc (killed s)) as E1 by (by rewrite Hc1).
  pose proof (proc_wf_eq _ _ E1 (killed_wf s Hwf)) as Hwf1.
  assert (runnable (processes (proc s1)) i) as Hr1.
  { unfold runnable. rewrite E1, killed_state, decide_False by (done || lia). done. }
  assert (process_count (proc s1) = process_count (proc s)) as Ecount by (by rewrite E1).
  assert (current_pid (proc s1) = current_pid (proc s)) as Ecur by (by rewrite E1).
  apply schedule_frame_wp; [done|]. intros p s' Hp Hwf' E' Hreg _ _. cbv zeta. rewrite E'. cbn [current_pid processes].
  destruct (switched_dead s1 r i (current_pid (proc s))) as [Hn Hd]; [done|lia|done|lia| |].
  { rewrite E1, killed_state by (done || lia). by rewrite decide_True. }
  pose proof (next_pid_range s1 r Hwf1) as Hrange.
  pose proof (next_pid_ready s1 r i Hwf1 ltac:(lia) Hr1) as Hst.
  split_and!; [done..| |].
  - rewrite switched_state by (done || lia). by rewrite decide_True.
  - rewrite saved_get in Hp by lia. exists p. split_and!; [| |done|].
    + rewrite E1 in Hp. cbn [killed proc set_proc processes] in Hp. rewrite tbl_get_lookup in * by lia.
      rewrite list_lookup_alter_ne in Hp by lia. done.
    + unfold state_of in Hst. rewrite saved_get, Hp in Hst by lia. by injection Hst.
    + revert Hreg. unfold switch_regs. by rewrite Hc1.
Qed.

Lemma syscall_exit_switches_witness :
  let s := trap_demo 128 0 0 in
  wp (isr_handler 0x9000) 0 s (λ r' s',
    let cur := current_pid (proc s) in let next := current_pid (proc s') in
    proc_wf s' ∧ next ≠ cur ∧
    state_of (processes (proc s')) cur = Some PROCESS_DEAD ∧
    state_of (processes (proc s')) next = Some PROCESS_RUNNING ∧
    ∃ p, tbl_get (processes (proc s)) next = Some p ∧ p_state p = PROCESS_READY ∧
      r' = p_rsp p ∧ switch_regs s s' p).
Proof.
  intros s. apply (syscall_exit_switches 0x9000 0 s 2); [apply trap_demo_wf|by vm_compute|by vm_compute|cbn; lia|done|by left].
Defined.

(** C24. The timer interrupt counts one tick, modulo 2^32, acknowledges the interrupt to the
    master controller once, and switches to the next READY process in cyclic order,
    returning on its stack. *)
Theorem timer_interrupt_switches r n s :
  proc_wf s → on_vector (mem s) r 32 →
  wp (isr_handler r) n s (λ r' s',
    proc_wf s' ∧ tick s' = (tick s + 1) mod 2 ^ 32 ∧
    pic_eoi (pic_master (pics s')) = S (pic_eoi (pic_master (pics s))) ∧
    pic_mask (pic_master (pics s')) = pic_mask (pic_master (pics s)) ∧
    pic_slave (pics s') = pic_slave (pics s) ∧
    current_pid (proc s') = next_pid s r ∧ processes (proc s') = switched s r ∧
    ∃ p, tbl_get (saved (processes (proc s)) (current_pid (proc s)) r) (next_pid s r) = Some p ∧
      r' = p_rsp p ∧ switch_regs s s' p).
Proof.
  intros Hwf Hv. unfold wp. rewrite timer_branch, tick_run by done. fold (wp (schedule r) n (ticked s)).
  apply schedule_frame_wp; [by apply (proc_wf_eq s)|]. intros p s' Hp Hwf' E' Hreg Et Ep.
  rewrite E', Et, Ep. split_and!; [done..|]. by exists p.
Qed.

Lemma timer_interrupt_switches_witness :
  let s := trap_demo 32 0 0 in
  wp (isr_handler 0x9000) 0 s (λ r' s',
    proc_wf s' ∧ tick s' = (tick s + 1) mod 2 ^ 32 ∧
    pic_eoi (pic_master (pics s')) = S (pic_eoi (pic_master (pics s))) ∧
    pic_mask (pic_master (pics s')) = pic_mask (pic_master (pics s)) ∧
    pic_slave (pics s') = pic_slave (pics s) ∧
    current_pid (proc s') = next_pid s 0x9000 ∧ processes (proc s') = switched s 0x9000 ∧
    ∃ p, tbl_get (saved (processes (proc s)) (current_pid (proc s)) 0x9000) (next_pid s 0x9000) = Some p ∧
      r' = p_rsp p ∧ switch_regs s s' p).
Proof. intros s. apply (timer_interrupt_switches 0x9000 0 s); [apply trap_demo_wf|by vm_compute]. Defined.

(** C25. The print system call prints the caller's string as its own page tables translate it,
    and changes nothing else; at a character that is not mapped the page fault stops the
    processor with that character's address in CR2. *)
Theorem syscall_print_string r n s l e :
  on_vector (mem s) r 128 → r_rax (read_regs (mem s) r) = 1 →
  0 ≤ r_rbx (read_regs (mem s) r) < 2 ^ 64 →
  user_text (mem s) (cr3 (cpu s)) (r_rbx (read_regs (mem s) r)) l e → (length l < n)%nat →
  match e with
  | None => isr_handler r n s = Ret r (set_cons (kprint_at l (-1) (-1) (cons s)) s)
  | Some x => ∃ s', isr_handler r n s = Halt s' ∧ cr2 (cpu s') = x ∧ mem s' = mem s ∧ proc s' = proc s
  end.
Proof.
  intros Hv Hax Hbx Ht Hn. rewrite syscall_branch by done. unfold syscall.
  rewrite Hax, decide_False, decide_True by done. unfold mbind, M_bind. destruct e as [x|].
  - destruct (kprint_user_fault n s _ l x Hbx Ht Hn) as (s' & E & H). exists s'. by rewrite E.
  - by rewrite (kprint_user_run n s _ l Ht Hn).
Qed.

Lemma syscall_print_string_witness :
  (let s := trap_demo 128 1 0x400ffd in
   isr_handler 0x9000 5%nat s = Ret 0x9000 (set_cons (kprint_at (str "Hi") (-1) (-1) (cons s)) s)) ∧
  (let s := trap_demo 128 1 0x401000 in
   ∃ s', isr_handler 0x9000 5%nat s = Halt s' ∧ cr2 (cpu s') = 0x401000 ∧ mem s' = mem s ∧ proc s' = proc s).
Proof.
  split; intros s.
  - apply (syscall_print_string 0x9000 5 s (str "Hi") None); [by vm_compute|by vm_compute| |..].
    + assert (r_rbx (read_regs (mem s) 0x9000) = 0x400ffd) as -> by (by vm_compute). lia.
    + assert (r_rbx (read_regs (mem s) 0x9000) = 0x400ffd) as -> by (by vm_compute).
      eapply text_char; [by vm_compute|by vm_compute|done|].
      eapply text_char; [by vm_compute|by vm_compute|done|].
      eapply text_end; by vm_compute.
    + cbn. lia.
  - apply (syscall_print_string 0x9000 5 s [] (Some 0x401000)); [by vm_compute|by vm_compute| |..].
    + assert (r_rbx (read_regs (mem s) 0x9000) = 0x401000) as -> by (by vm_compute). lia.
    + assert (r_rbx (read_regs (mem s) 0x9000) = 0x401000) as -> by (by vm_compute).
      apply text_fault. by vm_compute.
    + cbn. lia.
Defined.
