(* ===== verification/Kernel.v ===== *)
(** The start of the kernel, [main] of src/kernel/kernel.c, and the system that runs
    afterwards: boot order, interrupts, and what holds in every reachable state. *)
From S2P Require Import Prelude Memory Hardware Machine Utils Screen Pmm Kheap Vmm Cpu Process Ata Buffers Fat Frames Elf Shell Keyboard Isr.

Definition sti : M unit :=
  modify (λ s, set_cpu (mkCpu (cr3 (cpu s)) (cr2 (cpu s)) (idtr (cpu s)) (gdtr (cpu s)) true) s).

(** The registrations at the start of [main]. *)
Definition set_gates `{Linker} : M unit :=
  set_idt_gate 0 (addr_isr 0) 0x8e;;
  set_idt_gate 8 (addr_isr 8) 0x8e;;
  set_idt_gate 13 (addr_isr 13) 0x8e;;
  set_idt_gate 14 (addr_isr 14) 0x8e;;
  set_idt_gate 32 (addr_isr 32) 0x8e;;
  set_idt_gate 33 (addr_isr 33) 0x8e;;
  set_idt_gate 128 (addr_isr 128) 0xee.

(** [main] up to its idle loop. *)
Definition main `{Linker} : M unit :=
  on_console (kprint_at (str "Kernel loaded." ++ newline) 0 10);;
  set_gates;;
  load_idt;;
  outb 0x20 0x11;;
  pic_remap;;
  kprint (str "init & remap" ++ newline);;
  init_gdt;;
  init_pmm;;
  vmm_init;;
  init_kheap;;
  init_multitasking;;
  outb 0x21 0xfc;;
  sti;;
  init_timer 50;;
  prompt.
