(* ===== verification/System.v ===== *)
(** The running system: which state the shell and the interrupts can change, and what holds
    in every state the kernel reaches after its start.

    [Quiet I] is the interface between an invariant and the shell: the invariant may depend
    on nothing the commands change, memory, screen, drive, heap head, unclaimed ports and the
    file system's variables apart from the length of the path.  The commands are proved once
    against it. *)
From S2P Require Import Prelude Memory Hardware Machine Utils Screen Preserves Pmm Kheap Vmm Cpu Process Ata Buffers Fat Frames Elf Shell Exec Keyboard Isr Kernel.

Class Quiet (I : machine → Prop) := {
  quiet_mem : ∀ m s, I s → I (set_mem m s);
  quiet_cons : ∀ c s, I s → I (set_cons c s);
  quiet_ata : ∀ d s, I s → I (set_ata d s);
  quiet_head : ∀ h s, I s → I (set_heap_head h s);
  quiet_log : ∀ l s, I s → I (set_port_log l s);
  quiet_fat : ∀ f s, I s → length (current_path f) = length (current_path (fat s)) → I (set_fat f s);
}.

(** Ports of the interrupt controllers and the timer. *)
Definition is_irq_port (port : Z) : bool := is_pic_port port || is_pit_port port.

(** ** Programs that do not return *)

Definition never_returns {A} (m : M A) : Prop := ∀ n s a s', m n s ≠ Ret a s'.

Section never.
Context {A B : Type}.

Lemma never_halt : never_returns (halt (A := A)).
Proof. by intros n s a s'. Qed.

Lemma never_bind (m : M A) (k : A → M B) : (∀ a, never_returns (k a)) → never_returns (m ≫= k).
Proof.
  intros Hk n s b s'. unfold mbind, M_bind. destruct (m n s) as [a s1| | |]; try done. apply Hk.
Qed.

Lemma preserves_never I (m : M A) : never_returns m → preserves I m.
Proof. intros Hm n s a s' _ E. by apply Hm in E. Qed.

End never.

Ltac never := repeat (apply never_halt || (apply never_bind; intros ?)).

(** ** Lengths of the path *)

Lemma cut_last_length k l l' : cut_last k l = Some l' → length l' = length l.
Proof.
  induction k as [|k IH]; cbn [cut_last]; [by intros [= <-]|].
  destruct (arr_get l _) as [c|]; [|done]. cbn [mbind option_bind].
  repeat case_decide; [apply arr_set_length..|done].
Qed.

Lemma copy_at_length src l pos l' : copy_at src l pos = Some l' → length l' = length l.
Proof.
  induction src as [|c src IH] in l, pos |- *; cbn [copy_at]; [by intros [= <-]|].
  destruct (arr_set l pos c) as [l1|] eqn:E; [|done]. cbn [mbind option_bind]. intros H.
  rewrite (IH _ _ H). by eapply arr_set_length.
Qed.

Lemma update_path_length dirname name l l' : update_path dirname name l = Some l' → length l' = length l.
Proof.
  unfold update_path. intros H. simplify_option_eq; try done;
    try (by eapply cut_last_length); repeat case_match; simplify_option_eq;
    repeat match goal with
    | H : arr_set _ _ _ = Some _ |- _ => apply arr_set_length in H
    | H : copy_at _ _ _ = Some _ |- _ => apply copy_at_length in H
    end; congruence.
Qed.

(** ** The shell *)

Section quiet.
Context (I : machine → Prop) {HI : Quiet I}.

Lemma keeps_kprint msg : preserves I (kprint msg).
Proof. intros n s a s' H [= <- <-]. by apply quiet_cons. Qed.

Lemma keeps_on_console f : preserves I (on_console f).
Proof. intros n s a s' H [= <- <-]. by apply quiet_cons. Qed.

Lemma keeps_store k a v : preserves I (store_mem k a v).
Proof. intros n s x s' H [= <- <-]. by apply quiet_mem. Qed.

Lemma io_out_keeps port v s : is_irq_port port = false → I s → I (io_out port v s).
Proof.
  unfold is_irq_port, io_out. intros [Hp Ht]%orb_false_iff H. rewrite Hp, Ht.
  destruct (is_ata_port port); [by apply quiet_ata|]. destruct (is_crtc_port port); [by apply quiet_cons|].
  by apply quiet_log.
Qed.

Lemma keeps_outb port v : is_irq_port port = false → preserves I (outb port v).
Proof. intros Hp n s a s' H [= <- <-]. by apply io_out_keeps. Qed.

Lemma keeps_outw port v : is_irq_port port = false → preserves I (outw port v).
Proof. intros Hp n s a s' H [= <- <-]. by apply io_out_keeps. Qed.

Lemma keeps_io_read port : is_irq_port port = false → preserves I (io_read port).
Proof.
  unfold is_irq_port, io_read, io_in. intros [Hp _]%orb_false_iff n s a s' H. rewrite Hp.
  destruct (is_ata_port port).
  { destruct (port_in port (ata s)) as [v d]. intros [= <- <-]. by apply quiet_ata. }
  destruct (is_crtc_port port).
  { destruct (port_in port (cons s)) as [v d]. intros [= <- <-]. by apply quiet_cons. }
  case_decide; by intros [= <- <-].
Qed.

Lemma keeps_kprint_mem a : preserves I (kprint_mem a).
Proof.
  intros n s x s' H. unfold kprint_mem. destruct (cstr_at n (mem s) a); [|done]. by apply keeps_kprint.
Qed.

#[local] Hint Resolve keeps_kprint keeps_on_console keeps_store keeps_outb keeps_outw keeps_io_read
  keeps_kprint_mem : keep.
#[local] Hint Extern 1 (is_irq_port _ = false) => reflexivity : keep.

(** State changes the walk leaves: memory, and the variables of the file system. *)
Ltac quiet := preserve; try first [by apply quiet_mem | by apply quiet_head | by apply quiet_fat].

Lemma keeps_alloc : preserves I pmm_alloc_block.
Proof. quiet. Qed.
#[local] Hint Resolve keeps_alloc : keep.

Lemma keeps_kmalloc size : preserves I (kmalloc size).
Proof. quiet. Qed.
Lemma keeps_kfree p : preserves I (kfree p).
Proof. quiet. Qed.
#[local] Hint Resolve keeps_kmalloc keeps_kfree : keep.

Lemma keeps_read_buf lba p : preserves I (read_buf lba p).
Proof. quiet. Qed.
Lemma keeps_write_buf lba p : preserves I (write_buf lba p).
Proof. quiet. Qed.
#[local] Hint Resolve keeps_read_buf keeps_write_buf : keep.

Lemma keeps_next_cluster c : preserves I (fat_next_cluster c).
Proof. quiet. Qed.
Lemma keeps_write_entry c v : preserves I (fat_write_fat_entry c v).
Proof. quiet. Qed.
#[local] Hint Resolve keeps_next_cluster keeps_write_entry : keep.

Lemma keeps_read_dir c i b : preserves I (fat_read_dir_sector c i b).
Proof. quiet. Qed.
#[local] Hint Resolve keeps_read_dir : keep.

Lemma keeps_find name : preserves I (fat_find_file name).
Proof. quiet. Qed.
#[local] Hint Resolve keeps_find : keep.

(** The update of the path in [fat_change_dir]. *)
Lemma keeps_path dirname name : preserves I (
  path ← fat_get_current_path;
  path' ← from_option_ub (update_path dirname name path);
  fat_vars_upd (λ f, mkFat (fat_info f) (fat_start_sector f) (root_dir_sector f)
    (data_start_sector f) (current_dir_cluster f) path' (is_fat_initialized f))).
Proof.
  intros n s a s' H. unfold fat_get_current_path, gets, mbind, M_bind.
  destruct (update_path _ _ _) as [path'|] eqn:E; [|done]. intros [= <- <-].
  apply quiet_fat; [done|]. by eapply update_path_length.
Qed.
#[local] Hint Resolve keeps_path : keep.

Lemma keeps_change_dir name : preserves I (fat_change_dir name).
Proof. quiet. Qed.

Lemma keeps_fat_init : preserves I fat_init.
Proof. quiet. Qed.
Lemma keeps_list : preserves I fat_list.
Proof. quiet. Qed.
Lemma keeps_create name attr c size : preserves I (fat_create_entry name attr c size).
Proof. quiet. Qed.
Lemma keeps_allocate : preserves I fat_allocate_cluster.
Proof. quiet. Qed.
Lemma keeps_free_chain c : preserves I (fat_free_cluster_chain c).
Proof. quiet. Qed.
#[local] Hint Resolve keeps_free_chain : keep.
Lemma keeps_delete_file name : preserves I (fat_delete_file name).
Proof. quiet. Qed.
Lemma keeps_delete_dir name : preserves I (fat_delete_dir name).
Proof. quiet. Qed.
#[local] Hint Resolve keeps_change_dir keeps_fat_init keeps_list keeps_create keeps_allocate
  keeps_delete_file keeps_delete_dir : keep.

Lemma keeps_map_page root va pa fl : preserves I (vmm_map_page root va pa fl).
Proof. quiet. Qed.
#[local] Hint Resolve keeps_map_page : keep.

Lemma keeps_elf_load root b : preserves I (elf_load_file root b).
Proof. quiet. Qed.
#[local] Hint Resolve keeps_elf_load : keep.

Lemma keeps_lines l : preserves I (kprint_lines l).
Proof. induction l; cbn [kprint_lines]; quiet. Qed.
#[local] Hint Resolve keeps_lines : keep.

Lemma keeps_shutdown : preserves I cmd_shutdown.
Proof. apply preserves_never. unfold cmd_shutdown. never. Qed.
#[local] Hint Resolve keeps_shutdown : keep.

(** The one command that changes the process table. *)
Hypothesis HC : ∀ entry root, preserves I (create_user_process entry root).
#[local] Hint Resolve HC : keep.

Lemma keeps_dispatch command cmds unknown :
  Forall (λ c, preserves I c.2) cmds → preserves I unknown → preserves I (dispatch command cmds unknown).
Proof.
  intros Hc Hu. induction Hc as [|[name body] cmds Hb Hc IH]; cbn [dispatch]; [done|].
  cbn [snd] in Hb. quiet.
Qed.

Lemma keeps_commands input offset : Forall (λ c, preserves I c.2) (commands input offset).
Proof. unfold commands. repeat constructor; cbn [snd]; quiet. Qed.

Lemma keeps_user_input input : preserves I (user_input input).
Proof.
  unfold user_input. preserve. apply keeps_dispatch; [apply keeps_commands|quiet].
Qed.

End quiet.

(** ** The invariant of the running system *)

(** What no interrupt and no command changes: the frame allocator's variables, the kernel's
    page table root, the descriptor tables and their registers, the interrupt flag, the timer
    and the vectors and masks of the interrupt controllers. *)
Definition pic_config (p : pic_chip) : Z * Z * Z * Z * Z :=
  (pic_step p, pic_offset p, pic_icw3 p, pic_icw4 p, pic_mask p).

Definition fixed (s : machine) :=
  (pmm s, kernel_pml4 (vmm s), idt s, (gdt_entries (gdt s), gdt_ptr (gdt s), task_reg (gdt s)),
   (idtr (cpu s), gdtr (cpu s), iflag (cpu s)), pit s,
   (pic_config (pic_master (pics s)), pic_config (pic_slave (pics s)))).

(** All but the line buffer and the process table. *)
Definition rest_ok (s0 s : machine) : Prop :=
  0 ≤ kbd_data s < 256 ∧ length (current_path (fat s)) = 256%nat ∧ fixed s = fixed s0.

Definition sys_ok (s0 s : machine) : Prop := proc_wf s ∧ (∃ t, line s t) ∧ rest_ok s0 s.

(** What programs and devices do between two interrupts: memory, the drive, the scancode at
    the keyboard's port and the fault address may change.  The kernel's variables do not: that
    programs leave them alone is assumed, for the page tables do not enforce it
    (src/kernel/vmm.c maps the kernel's memory writable from ring 3). *)
Definition runs (s s' : machine) : Prop :=
  s' = set_mem (mem s') (set_ata (ata s') (set_kbd_data (kbd_data s')
         (set_cpu (mkCpu (cr3 (cpu s)) (cr2 (cpu s')) (idtr (cpu s)) (gdtr (cpu s)) (iflag (cpu s))) s))) ∧
  0 ≤ kbd_data s' < 256.

(** A step is a handler run that returns, or a run of programs and devices.  A run that leaves
    an array, or stops the processor, leads nowhere. *)
Inductive step : machine → machine → Prop :=
| step_interrupt r n r' s s' : isr_handler r n s = Ret r' s' → step s s'
| step_run s s' : runs s s' → step s s'.

#[export] Instance quiet_eq {X} (f : machine → X) x :
  (∀ m s, f (set_mem m s) = f s) → (∀ c s, f (set_cons c s) = f s) → (∀ d s, f (set_ata d s) = f s) →
  (∀ h s, f (set_heap_head h s) = f s) → (∀ l s, f (set_port_log l s) = f s) →
  (∀ v s, f (set_fat v s) = f s) → Quiet (λ s, f s = x).
Proof. intros H1 H2 H3 H4 H5 H6. split; intros; congruence. Qed.

#[export] Instance quiet_rest s0 : Quiet (rest_ok s0).
Proof. split; intros x s (H1 & H2 & H3); try done. intros E. split; [done|]. split; [|done]. cbn. congruence. Qed.

#[export] Instance quiet_proc : Quiet proc_wf.
Proof. split; intros x s H; try intros _; by apply (proc_wf_eq s). Qed.

#[export] Instance quiet_and I J : Quiet I → Quiet J → Quiet (λ s, I s ∧ J s).
Proof.
  intros H1 H2. split; intros x s [A B];
    try (split; first [by apply quiet_mem | by apply quiet_cons | by apply quiet_ata
                      | by apply quiet_head | by apply quiet_log]).
  intros E. split; by apply quiet_fat.
Qed.

#[export] Hint Extern 1 (Quiet _) => solve [typeclasses eauto] : keep.

(** ** Creation of processes *)

(** What [m] establishes when it returns. *)
Definition hoare {A} (P : machine → Prop) (m : M A) (Q : machine → Prop) : Prop :=
  ∀ n s a s', P s → m n s = Ret a s' → Q s'.

Lemma hoare_bind {A B} P R Q (m : M A) (k : A → M B) :
  hoare P m R → (∀ a, hoare R (k a) Q) → hoare P (m ≫= k) Q.
Proof.
  intros Hm Hk n s b s' H. unfold mbind, M_bind. destruct (m n s) as [a s1| | |] eqn:E; try done.
  intros E'. eapply Hk; [|exact E']. by eapply Hm.
Qed.

Lemma hoare_weaken {A} P Q (m : M A) : preserves P m → (∀ s, P s → Q s) → hoare P m Q.
Proof. intros Hm HQ n s a s' H E. apply HQ. by eapply Hm. Qed.

Lemma hoare_keep {A B} P Q (m : M A) (k : A → M B) :
  preserves P m → (∀ a, hoare P (k a) Q) → hoare P (m ≫= k) Q.
Proof. apply hoare_bind. Qed.

(** The process being created, in the slot behind the others. *)
Definition creating (c : Z) (s : machine) : Prop :=
  proc_wf s ∧ process_count (proc s) = c ∧ c < 16.
Definition created (c : Z) (s : machine) : Prop :=
  creating c s ∧ state_of (processes (proc s)) c = Some PROCESS_READY.

Section creation.
Implicit Types (s : machine).

#[local] Instance quiet_count c : Quiet (λ s, process_count (proc s) = c ∧ c < 16).
Proof. split; by intros x s H. Qed.

#[local] Instance quiet_creating c : Quiet (creating c).
Proof. apply quiet_and; apply _. Qed.

#[local] Instance quiet_created c : Quiet (created c).
Proof. apply quiet_and; [apply _|]. by apply quiet_eq. Qed.

(** An update of the slot behind the others. *)
Lemma upd_slot c f n s a s' : creating c s → upd_proc c f n s = Ret a s' →
  creating c s' ∧ ∃ p, tbl_get (processes (proc s)) c = Some p ∧ state_of (processes (proc s')) c = Some (p_state (f p)).
Proof.
  intros (Hwf & Hc & Hlt) E. pose proof (pw_len _ Hwf) as Hlen. pose proof (pw_cur _ Hwf) as Hcur.
  destruct (tbl_get_Some (processes (proc s)) c) as [p Hp]; [lia|].
  assert (wp (upd_proc c f) n s (λ _ s', only_table s s' (<[Z.to_nat c := f p]> (processes (proc s))))) as H.
  { by eapply upd_proc_wp. }
  unfold wp in H. rewrite E in H. destruct H as [_ H].
  assert (∀ i, 0 ≤ i → state_of (processes (proc s')) i =
    if decide (c = i) then Some (p_state (f p)) else state_of (processes (proc s)) i) as Hst.
  { intros i Hi. unfold state_of. rewrite H. cbn [processes]. rewrite tbl_get_insert by lia. by case_decide. }
  split; [|exists p; split; [done|]; rewrite Hst by lia; by rewrite decide_True].
  split; [|by rewrite H]. split; [by rewrite H; cbn; rewrite length_insert|by rewrite H|rewrite H; cbn; lia|].
  intros i Hi Hrun. rewrite H in Hi. cbn [process_count] in Hi. rewrite Hst, decide_False in Hrun by lia.
  rewrite H. by apply (pw_run _ Hwf).
Qed.

Lemma keeps_creating c f : preserves (creating c) (upd_proc c f).
Proof. intros n s a s' H E. by apply (upd_slot c f n s a s' H E). Qed.

Lemma keeps_created c f : (∀ p, p_state (f p) = p_state p) → preserves (created c) (upd_proc c f).
Proof.
  intros Hf n s a s' [H1 H2] E. destruct (upd_slot c f n s a s' H1 E) as (H3 & p & Hp & H4).
  split; [done|]. rewrite H4, Hf. unfold state_of in H2. by rewrite Hp in H2.
Qed.

Lemma start_ready c : hoare (creating c) (upd_proc c (with_state PROCESS_READY)) (created c).
Proof.
  intros n s a s' H E. destruct (upd_slot c _ n s a s' H E) as (H3 & p & _ & H4). by split.
Qed.

(** Counting it. *)
Lemma count_wf c : hoare (created c) (modify (set_process_count (c + 1))) proc_wf.
Proof.
  intros n s a s' [(Hwf & Hc & Hlt) Hr] [= <- <-]. pose proof (pw_cur _ Hwf). split; cbn.
  - apply Hwf.
  - lia.
  - lia.
  - intros i Hi Hrun. destruct (decide (i = c)) as [->|]; [congruence|]. apply (pw_run _ Hwf); [lia|done].
Qed.

Lemma created_wf c s : created c s → proc_wf s.
Proof. by intros [[? _] _]. Qed.

#[local] Hint Resolve keeps_kprint keeps_store keeps_alloc : keep.
#[local] Hint Extern 1 (preserves (created _) (upd_proc _ _)) => apply keeps_created; reflexivity : keep.

Lemma keeps_push_frame c rsp a b d e f : preserves (created c) (push_frame rsp a b d e f).
Proof. unfold push_frame, push_registers, push. preserve. Qed.
#[local] Hint Resolve keeps_push_frame : keep.

(** Run a step that keeps the created process. *)
Ltac keep_step := apply hoare_keep; [solve [preserve]|intros ?].

(** The part of [create_user_process] behind its guard. *)
Lemma create_user_slot c entry root :
  hoare (creating c) (
    upd_proc c (with_pid (u64 c));;
    upd_proc c (with_state PROCESS_READY);;
    user_stack ← pmm_alloc_block;
    if decide (user_stack = 0) then kprint (str "Proc Alloc Fail: User Stack" ++ newline)
    else
      upd_proc c (with_stack user_stack);;
      let user_rsp := u64 (user_stack + STACK_SIZE) in
      kernel_stack ← pmm_alloc_block;
      if decide (kernel_stack = 0) then kprint (str "Proc Alloc Fail: Kernel Stack" ++ newline)
      else
        upd_proc c (with_kstack kernel_stack (u64 (kernel_stack + STACK_SIZE)));;
        upd_proc c (with_pml4 root);;
        let k_rsp := u64 (kernel_stack + STACK_SIZE) in
        k_rsp ← push_frame k_rsp 0x1B user_rsp 0x202 0x23 entry;
        upd_proc c (with_rsp k_rsp);;
        modify (set_process_count (c + 1));;
        print_created (str "Created User Process PID ") (u64 c)) proc_wf.
Proof.
  apply (hoare_bind _ (creating c)); [apply keeps_creating|intros _].
  apply (hoare_bind _ (created c)); [apply start_ready|intros _].
  keep_step. case_decide; [apply hoare_weaken; [preserve|apply created_wf]|].
  keep_step. cbv zeta. keep_step. case_decide; [apply hoare_weaken; [preserve|apply created_wf]|].
  do 4 keep_step. apply (hoare_bind _ proc_wf); [apply count_wf|intros _].
  apply hoare_weaken; [|done]. unfold print_created. preserve.
Qed.

Lemma create_user_wf entry root : preserves proc_wf (create_user_process entry root).
Proof.
  intros n s x s' Hwf. unfold create_user_process. unfold mbind at 1, M_bind, gets.
  case_decide as Hc; [by apply keeps_kprint; [apply _|]|].
  apply create_user_slot. unfold MAX_PROCESSES in Hc. split; [done|split; [done|lia]].
Qed.

End creation.

(** ** Interrupts *)

Section interrupts.
Implicit Types (s : machine).

#[local] Hint Resolve keeps_kprint keeps_on_console keeps_store keeps_alloc keeps_io_read keeps_user_input
  create_user_wf schedule_scan_keeps : keep.
#[local] Hint Extern 1 (is_irq_port _ = false) => reflexivity : keep.

(** What a process creation keeps. *)
Lemma create_user_rest s0 entry root : preserves (rest_ok s0) (create_user_process entry root).
Proof. unfold create_user_process, push_frame, push_registers, push, print_created. preserve. Qed.

#[local] Instance quiet_kbd v : Quiet (λ s, kbd s = v).
Proof. by apply quiet_eq. Qed.

Lemma create_user_kbd v entry root : preserves (λ s, kbd s = v) (create_user_process entry root).
Proof. unfold create_user_process, push_frame, push_registers, push, print_created. preserve. Qed.

#[local] Hint Resolve create_user_rest create_user_kbd : keep.

Lemma user_input_kbd v input : preserves (λ s, kbd s = v) (user_input input).
Proof. by apply keeps_user_input, create_user_kbd. Qed.

Lemma keyboard_wf : preserves proc_wf keyboard_handler.
Proof.
  unfold keyboard_handler, key_letter, key_backspace, key_enter, put_key. preserve;
    by eapply proc_wf_eq; [|eassumption].
Qed.

Lemma keyboard_rest s0 : preserves (rest_ok s0) keyboard_handler.
Proof.
  unfold keyboard_handler, key_letter, key_backspace, key_enter, put_key. preserve.
Qed.

(** The line buffer through the keyboard's interrupt. *)
Lemma keyboard_line n s a s' t : line s t → 0 ≤ kbd_data s < 256 →
  keyboard_handler n s = Ret a s' → ∃ t', line s' t'.
Proof.
  intros Hl Hd. rewrite handler_decode by done. destruct (decode _ _) as [d|c| | |] eqn:E; cbn [on_key].
  - intros [= <- <-]. exists t. destruct Hl as [A B C D]. by split.
  - pose proof (line_room s t Hl). destruct (decide (length t = 255%nat)) as [Hf|Hf].
    { by rewrite (key_letter_full n s t). }
    intros Hr. assert (wp (key_letter c) n s (λ _ s', line s' (t ++ [c]))) as H1.
    { apply (key_letter_wp _ _ _ t); [done|by eapply decode_char|lia|done]. }
    unfold wp in H1. rewrite Hr in H1. eauto.
  - intros Hr. assert (wp key_backspace n s (λ _ s', line s' (removelast t))) as H1.
    { by apply (key_backspace_wp _ _ t). }
    unfold wp in H1. rewrite Hr in H1. eauto.
  - unfold key_enter. unfold mbind, M_bind, kprint, on_console, gets. cbn [modify kbd set_cons].
    destruct (user_input _ _ _) as [x s1| | |] eqn:Eu; try done.
    assert (kbd s1 = kbd s) as Ek.
    { refine (keeps_user_input _ (create_user_kbd (kbd s)) _ _ _ _ _ _ Eu). done. }
    unfold set_buffer_index, put_key, mbind, M_bind, modify, gets. cbn [kbd set_kbd key_buffer]. rewrite Ek.
    destruct Hl as [_ B _ _]. rewrite arr_set_Some by (rewrite B; lia). intros [= <- <-]. exists [].
    destruct (key_buffer (kbd s)) as [|b l] eqn:El; [done|]. split; cbn; [by exists l|done|constructor|done].
  - intros [= <- <-]. by exists t.
Qed.

(** The line buffer as an invariant. *)
Definition line_ok s : Prop := 0 ≤ kbd_data s < 256 ∧ ∃ t, line s t.

Lemma line_ok_eq s s' : kbd s' = kbd s → kbd_data s' = kbd_data s → line_ok s → line_ok s'.
Proof. intros E1 E2 (Hd & t & [A B C D]). split; [by rewrite E2|]. exists t. split; by rewrite ?E1. Qed.

#[local] Instance quiet_line : Quiet line_ok.
Proof. split; intros x s H; try intros _; by apply (line_ok_eq s). Qed.

Lemma keyboard_data v : preserves (λ s, kbd_data s = v) keyboard_handler.
Proof.
  assert (Quiet (λ s, kbd_data s = v)) as HQ by (by apply quiet_eq).
  assert (∀ entry root, preserves (λ s, kbd_data s = v) (create_user_process entry root)) as HC.
  { intros. unfold create_user_process, push_frame, push_registers, push, print_created. preserve. }
  unfold keyboard_handler, key_letter, key_backspace, key_enter, put_key. preserve.
Qed.

Lemma keyboard_line_ok : preserves line_ok keyboard_handler.
Proof.
  intros n s a s' (Hd & t & Hl) E. split; [by rewrite (keyboard_data (kbd_data s) n s a s' eq_refl E)|].
  by eapply keyboard_line.
Qed.

(** The scheduler. *)
Lemma preserves_wp {A} I (m : M A) : (∀ n s, I s → wp m n s (λ _, I)) → preserves I m.
Proof. intros Hm n s a s' H E. specialize (Hm n s H). unfold wp in Hm. by rewrite E in Hm. Qed.

Lemma schedule_wf rsp : preserves proc_wf (schedule rsp).
Proof. apply preserves_wp. intros n s H. apply schedule_wp; [done|]. intros. by eapply schedule_keeps_wf. Qed.

Lemma kill_wf : preserves proc_wf kill_current_process.
Proof.
  apply preserves_wp. intros n s H. apply kill_current_process_wp; [done|]. intros s' Hc.
  apply (proc_wf_eq (killed s)); [by rewrite Hc|by apply killed_wf].
Qed.

#[local] Hint Resolve keyboard_wf keyboard_rest keyboard_line_ok schedule_wf kill_wf : keep.

Lemma isr_wf r : preserves proc_wf (isr_handler r).
Proof. unfold isr_handler. preserve; by eapply proc_wf_eq; [|eassumption]. Qed.

Lemma isr_rest s0 r : preserves (rest_ok s0) (isr_handler r).
Proof. unfold isr_handler. preserve. Qed.

Lemma isr_line r : preserves line_ok (isr_handler r).
Proof. unfold isr_handler. preserve; by eapply line_ok_eq; [..|eassumption]. Qed.

Lemma step_ok s0 s s' : sys_ok s0 s → step s s' → sys_ok s0 s'.
Proof.
  intros Hok Hs. destruct Hs as [r n r' s1 s1' E|s1 s1' [E Hd]]; destruct Hok as (Hp & Hl & Hr).
  - split; [exact (isr_wf _ _ _ _ _ Hp E)|]. split; [|exact (isr_rest _ _ _ _ _ _ Hr E)].
    refine (proj2 (isr_line _ _ _ _ _ _ E)). split; [apply Hr|done].
  - split; [apply (proc_wf_eq s1); [by rewrite E|done]|]. split.
    + assert (kbd s1' = kbd s1) as Ek by (by rewrite E). destruct Hl as [t [A B C D]].
      exists t. by split; rewrite ?Ek.
    + destruct Hr as (_ & H2 & H3). split; [done|]. split; [by rewrite E|]. rewrite <- H3, E. done.
Qed.

Lemma steps_ok s0 s s' : sys_ok s0 s → rtc step s s' → sys_ok s0 s'.
Proof. intros H Hs. induction Hs as [|s1 s2 s3 Hs _ IH]; [done|]. apply IH. by eapply step_ok. Qed.

End interrupts.
