(* ===== verification/Serve.v ===== *)
(** Service of interrupts: which interrupts [isr_handler] returns from, and that it returns in
    a state of System.v's invariant.

    The handler stops the processor on a double fault, a general protection fault and a page
    fault, and on the page fault of a print system call.  It leaves its arrays on the 256th
    character of a line and on a first word of 32 characters.  What a command line with the
    name of a disk, heap or power command does depends on devices and heap and is the subject
    of the other files.  Every other interrupt is served. *)
From S2P Require Import Prelude Memory Hardware Machine Utils Screen Preserves Pmm Kheap Vmm Cpu Process Ata Buffers Fat FatNames Frames Elf Shell Keyboard Isr Kernel System.

(** Programs that return, whatever the state. *)
Definition total {A} (m : M A) : Prop := ∀ n s, wp m n s (λ _ _, True).

Section total.
Context {A B : Type}.

Lemma total_ret (a : A) : total (mret a).
Proof. intros n s. by apply wp_ret. Qed.

Lemma total_bind (m : M A) (k : A → M B) : total m → (∀ a, total (k a)) → total (m ≫= k).
Proof. intros Hm Hk n s. apply wp_bind. eapply wp_mono; [apply Hm|]. intros a s' _. apply Hk. Qed.

Lemma total_gets (f : machine → A) (k : A → M B) : (∀ s, total (k (f s))) → total (gets f ≫= k).
Proof. intros Hk n s. apply wp_bind, wp_gets, Hk. Qed.

Lemma total_option (a : A) (k : A → M B) : total (k a) → total (from_option_ub (Some a) ≫= k).
Proof. intros Hk n s. apply wp_bind, wp_ret, Hk. Qed.

Lemma total_modify f : total (modify f).
Proof. intros n s. by apply wp_modify. Qed.

Lemma total_kprint msg : total (kprint msg).
Proof. intros n s. by apply wp_kprint. Qed.

Lemma total_kprint_hex size x : 0 ≤ x → (19 ≤ size)%nat → total (kprint_hex size x).
Proof. intros Hx Hs n s. by apply wp_kprint_hex. Qed.

Lemma total_for_unit k i body : (∀ j, total (body j)) → total (for_unit k i body).
Proof. intros Hb n s. apply (wp_for_unit (λ _ _, True)); [done| |done]. intros j s' _ _. apply Hb. Qed.

End total.

Create HintDb total.
#[export] Hint Resolve total_ret total_modify total_kprint total_for_unit : total.

Ltac total := repeat first
  [ solve [auto with total]
  | apply total_gets; intros ?
  | apply total_bind; [|intros ?]
  | case_decide ].

(** ** Command lines *)

(** The names of the else-if chain, and those whose commands need neither disk nor heap nor power. *)
Definition command_names : list string := (commands [] 0).*1.
Definition plain_names : list string := ["help"; "clear"; "memory"; "echo"]%string.

(** A line whose first word is empty, one of these, or not a command, and fits its array. *)
Definition plain_line (t : list Z) : Prop :=
  let w := word (strip t) in
  (length w < 32)%nat ∧ (w ∈ str <$> plain_names ∨ w ∉ str <$> command_names).

Section lines.
Implicit Types (t : list Z).

Lemma prompt_total : total prompt.
Proof. unfold prompt, fat_get_current_path. total. Qed.

Lemma help_total : total cmd_help.
Proof.
  unfold cmd_help. apply total_bind; [|intros; apply total_ret].
  induction help_lines as [|l ls IH]; cbn [kprint_lines]; total.
Qed.

Lemma memory_total : total cmd_memory.
Proof.
  unfold cmd_memory, print_memory_map. apply total_bind; [|intros; apply total_ret].
  apply total_gets. intros s. apply total_bind; [apply total_kprint|intros _].
  apply total_bind; [apply total_kprint_hex; [apply entry_count_range|lia]|intros _].
  apply total_bind; [apply total_kprint|intros _]. apply total_for_unit. intros i. unfold print_entry.
  apply total_bind; [apply total_kprint|intros _]. apply total_gets. intros s1.
  apply total_bind; [apply total_kprint_hex; [apply e_base_range|lia]|intros _].
  apply total_bind; [apply total_kprint|intros _]. apply total_gets. intros s2.
  apply total_bind; [apply total_kprint_hex; [apply e_length_range|lia]|intros _]. total.
Qed.

Lemma echo_total t tl (off : nat) : is_text t → (off ≤ length t)%nat → total (cmd_echo (t ++ 0 :: tl) (Z.of_nat off)).
Proof.
  intros Ht Ho. unfold cmd_echo. rewrite Nat2Z.id, drop_app_le by lia.
  rewrite skip_spaces_text by (by apply Forall_drop). apply total_option. total.
Qed.

(** The else-if chain on a word: the body of the command with that name, if there is one. *)
Lemma dispatch_total w tl cmds unknown : is_text w → Forall (λ c, is_text (str c.1)) cmds →
  Forall (λ c, w = str c.1 → total c.2) cmds → (w ∉ (str ∘ fst) <$> cmds → total unknown) →
  total (dispatch (w ++ 0 :: tl) cmds unknown).
Proof.
  intros Hw Hn Hb Hu. induction cmds as [|[name body] cmds IH]; cbn [dispatch].
  - apply Hu. set_solver.
  - apply Forall_cons in Hn as [Hn1 Hn]. apply Forall_cons in Hb as [Hb1 Hb]. cbn [fst snd] in *.
    destruct (strcmp_text w (str name) tl Hw Hn1) as (z & -> & Hz).
    apply total_option. case_decide as Hd; [by apply Hb1, Hz|]. apply IH; [done..|]. intros Hin. apply Hu.
    rewrite fmap_cons, not_elem_of_cons. split; [|done]. intros ->. by apply Hd, Hz.
Qed.

Lemma commands_text input off : Forall (λ c, is_text (str c.1)) (commands input off).
Proof. unfold commands. repeat (apply Forall_cons; split; [by chars|]). constructor. Qed.

(** The commands of [plain_names]. *)
Lemma plain_total t tl (off : nat) w : is_text t → (off ≤ length t)%nat →
  w ∈ str <$> plain_names ∨ w ∉ str <$> command_names →
  Forall (λ c, w = str c.1 → total c.2) (commands (t ++ 0 :: tl) (Z.of_nat off)).
Proof.
  intros Ht Ho Hw.
  assert (∀ name, name ∈ command_names → w = str name → w ∉ str <$> plain_names → False) as Hno.
  { intros name Hn -> Hp. destruct Hw as [?|Hc]; [done|]. apply Hc, list_elem_of_fmap. by exists name. }
  unfold commands. repeat (apply Forall_cons; split; [cbn [fst snd]; intros E|]); [..|by constructor];
    try (exfalso; eapply Hno; [|exact E|]; [apply (bool_decide_unpack _); by vm_compute
      |rewrite E; apply (bool_decide_unpack _); by vm_compute]).
  - apply help_total.
  - unfold cmd_clear, on_console. total.
  - apply memory_total.
  - by apply echo_total.
Qed.

Lemma user_input_total t tl : is_text t → plain_line t → total (user_input (t ++ 0 :: tl)).
Proof.
  intros Ht [Hlen Hw]. unfold user_input.
  pose proof (next_token t tl (replicate 32 0) 0 Ht ltac:(lia)) as Et. change (Z.of_nat 0) with 0 in Et. rewrite Et. clear Et.
  cbv zeta. rewrite drop_0, length_replicate. set (w := word (strip t)) in *.
  destruct (decide (strip t = [])) as [Hn|Hn].
  { apply total_option. rewrite decide_True by done. apply prompt_total. }
  rewrite decide_True by done. apply total_option. rewrite decide_False by done.
  apply total_bind; [|intros []; [apply prompt_total|apply total_ret]].
  unfold overlay. cbn [take app]. rewrite <- app_assoc.
  pose proof (strip_length t). pose proof (word_length (strip t)) as Hwl. fold w in Hwl.
  apply dispatch_total.
  - apply word_text. rewrite <- drop_strip. by apply Forall_drop.
  - apply commands_text.
  - apply plain_total; [done|lia|done].
  - intros _. unfold unknown_command. total.
Qed.

End lines.

(** ** Interrupts *)

(** A key the driver has room for, and a line it can carry out without devices. *)
Definition typable (s : machine) (t : list Z) : Prop :=
  match decode (is_shift (kbd s)) (kbd_data s) with
  | KChar _ => (length t < 255)%nat
  | KEnter => plain_line t
  | _ => True
  end.

(** An interrupt that is no fault: the timer, a key, a system call, or any other vector.  The
    fuel [n] bounds the string of a print system call. *)
Definition servable (n : nat) (s : machine) (r : Z) : Prop :=
  let f := read_regs (mem s) r in
  (r_int_no f ∉ [8; 13; 14]) ∧
  (r_int_no f = 33 → ∃ t, line s t ∧ typable s t) ∧
  (r_int_no f = 128 → r_rax f = 1 → ∃ l, user_text (mem s) (cr3 (cpu s)) (r_rbx f) l None ∧ (length l < n)%nat).

Section serve.
Implicit Types (s : machine).

Lemma keyboard_serves n s t : 0 ≤ kbd_data s < 256 → line s t → typable s t → wp keyboard_handler n s (λ _ _, True).
Proof.
  intros Hd Hl Ht. unfold wp. rewrite handler_decode by done.
  fold (wp (on_key (decode (is_shift (kbd s)) (kbd_data s))) n s (λ _ _, True)). unfold typable in Ht.
  destruct (decode _ _) as [d|c| | |] eqn:E; cbn [on_key].
  - by apply wp_modify.
  - by apply (key_letter_wp _ _ _ t); [|eapply decode_char|..].
  - by apply (key_backspace_wp _ _ t).
  - destruct Hl as [[rest Eb] Hlen Htx _]. unfold key_enter. apply wp_bind, wp_kprint. intros s1 Hc1.
    assert (kbd s1 = kbd s) as Ek by (by rewrite Hc1). wp_steps. rewrite Ek, Eb.
    eapply wp_mono; [eapply wp_preserves; [apply (user_input_kbd (kbd s))|done|by apply user_input_total]|].
    intros [] s2 [Ek2 _]. unfold set_buffer_index. wp_steps.
    apply put_key_wp; [|done]. cbn [kbd set_kbd key_buffer]. rewrite Ek2, Hlen. lia.
  - by apply wp_ret.
Qed.

Lemma serves n s r : proc_wf s → 0 ≤ kbd_data s < 256 → servable n s r → wp (isr_handler r) n s (λ _ _, True).
Proof.
  intros Hp Hd (Hv & Hk & Hsc). unfold isr_handler, frame. wp_steps. set (f := read_regs (mem s) r) in *.
  repeat rewrite not_elem_of_cons in Hv. destruct Hv as (H8 & H13 & H14 & _).
  destruct (decide (r_int_no f = 32)).
  { unfold wp. rewrite tick_run. fold (wp (schedule r) n (ticked s) (λ _ _, True)).
    apply schedule_frame_wp; [by apply (proc_wf_eq s)|done]. }
  destruct (decide (r_int_no f = 33)) as [E|_].
  { destruct (Hk E) as (t & Hl & Ht). apply wp_bind. eapply wp_mono; [by apply (keyboard_serves n s t)|].
    intros [] s1 _. unfold outb. by wp_steps. }
  destruct (decide (r_int_no f = 0)); [by apply wp_bind, wp_kprint; intros; apply wp_ret|].
  rewrite !(decide_False (P := r_int_no f = _)) by done.
  destruct (decide (r_int_no f = 128)) as [E|_]; [|by apply wp_ret]. unfold syscall.
  destruct (decide (r_rax f = 0)).
  { apply wp_bind, kill_current_process_wp; [done|]. intros s1 Hc1.
    apply schedule_frame_wp; [|done]. apply (proc_wf_eq (killed s)); [by rewrite Hc1|by apply killed_wf]. }
  destruct (decide (r_rax f = 1)) as [Ex|_]; [|by apply wp_ret].
  destruct (Hsc E Ex) as (l & Hl & Hn). apply wp_bind. unfold wp. rewrite (kprint_user_run _ _ _ l) by done.
  fold (wp (kprint l) n s (λ _ s', wp (mret r) n s' (λ _ _, True))). apply wp_kprint. intros. by apply wp_ret.
Qed.

(** The timer's interrupt is one, in any state. *)
Lemma timer_servable n s r : on_vector (mem s) r 32 → servable n s r.
Proof. unfold on_vector, servable. cbv zeta. intros ->. split; [set_solver|done]. Qed.

(** Every such interrupt returns, and the invariant holds again. *)
Lemma serves_ok n s0 s r : sys_ok s0 s → servable n s r → wp (isr_handler r) n s (λ _ s', sys_ok s0 s').
Proof.
  intros Hok Hr. pose proof Hok as (Hp & _ & Hd & _).
  destruct (wp_run _ _ _ _ (serves n s r Hp Hd Hr)) as (r' & s' & E & _).
  unfold wp. rewrite E. eapply step_ok; [done|]. by eapply step_interrupt.
Qed.

End serve.
