(* ===== verification/Boot.v ===== *)
(** The start of the kernel: [main] brings the machine from what the boot loader leaves to a
    state in which the invariant of System.v holds; from there no interrupt that returns breaks
    it, and the interrupts of Serve.v do return. *)
From S2P Require Import Prelude Memory Hardware Machine Utils Screen Preserves Pmm Kheap Vmm Cpu Process Ata Buffers Fat Frames Elf Shell Keyboard Isr Kernel System Serve.

(** What the boot loader leaves: the kernel's arrays with their declared sizes, an empty line
    buffer, and an E820 table with some usable memory above 32 MiB and none above 512 GiB. *)
Record boots (s : machine) : Prop := {
  bt_procs : length (processes (proc s)) = 16%nat;
  bt_gates : length (idt_gates (idt s)) = 256%nat;
  bt_gdt : length (gdt_entries (gdt s)) = 7%nat;
  bt_line : line s [];
  bt_data : 0 ≤ kbd_data s < 256;
  bt_path : length (current_path (fat s)) = 256%nat;
  bt_e820 : ∀ e, 0 ≤ e < entry_count (mem s) → Pmm.e_type (mem s) e = 1 →
    e_base (mem s) e + e_length (mem s) e ≤ 2 ^ 39;
  bt_usable : ∃ i, 8192 ≤ i ∧ usable (mem s) i;
}.

Lemma wp_and {A} (m : M A) n s (P Q : A → machine → Prop) :
  wp m n s P → wp m n s Q → wp m n s (λ a s', P a s' ∧ Q a s').
Proof. unfold wp. by destruct (m n s). Qed.

Section boot.
Implicit Types (s : machine).

(** The variables that the memory initialisation keeps. *)
Definition early s :=
  (kbd s, kbd_data s, fat s, idt s, gdt s, (idtr (cpu s), gdtr (cpu s)), pics s, processes (proc s)).

Lemma early_pmm x : preserves (λ s, early s = x) init_pmm.
Proof. unfold init_pmm. preserve. Qed.

Lemma early_vmm x : preserves (λ s, early s = x) vmm_init.
Proof. unfold vmm_init. preserve. Qed.

Lemma early_kheap x : preserves (λ s, early s = x) init_kheap.
Proof. unfold init_kheap. preserve. Qed.

(** [init_kheap] keeps the page tables. *)
Lemma init_kheap_tree n s root : tree s root →
  wp init_kheap n s (λ _ s', tree s' root ∧ same_walks root s s' ∧ vmm s' = vmm s ∧ cpu s' = cpu s ∧ pmm s' = pmm s ∧
    ∀ j, 0 ≤ j < total_blocks (pmm s) → used s j = true → used s' j = true).
Proof.
  intros Ht. unfold init_kheap. apply wp_bind, alloc_frame_wp; [apply Ht| |].
  2:{ intros s1 Hall Hc1. rewrite decide_True by done. wp_print.
      assert (console_only s s') as Hcs by (by etrans). destruct (console_loads root s s' Ht Hcs) as [Hl Hw].
      split; [apply Hl|]. split; [done|]. by rewrite Hcs. }
  intros f s1 Hal. destruct (allocated_loads root s s1 f Ht Hal) as (Hl1 & Hw1 & Hd1 & _).
  pose proof (al_range _ _ _ Hal). rewrite decide_False by lia.
  unfold BLOCK_SIZE, sizeof_header. unfold_hdr. wp_steps.
  match goal with |- wp _ _ (set_mem ?m _) _ => set (m' := m) end.
  assert (agree_out (mem s1) m' (f * 4096) 4096) as Hag.
  { intros x Hx. subst m'. cbn [mem set_mem set_heap_head]. by rewrite !byte_store_out by lia. }
  clearbody m'. destruct (frame_write root s1 m' f (ld_tree _ _ _ Hl1) Hd1 Hag) as (Ht2 & Hw2 & Hu2 & _).
  wp_print. assert (mem s' = m' ∧ pmm s' = pmm s1 ∧ vmm s' = vmm s1 ∧ cpu s' = cpu s1) as (Em & Ep & Ev & Ec) by (by rewrite Hc).
  assert (pmm s1 = pmm s ∧ vmm s1 = vmm s ∧ cpu s1 = cpu s) as (Ep1 & Ev1 & Ec1) by (by rewrite (al_frame _ _ _ Hal)).
  split; [by apply (tree_same (set_mem m' s1))|]. split.
  { intros va. rewrite Em, <- Hw1. apply Hw2. }
  split_and!; [congruence..|]. intros j Hj Hu. unfold used. rewrite Em, Ep.
  change (used (set_mem m' s1) j = true). rewrite Hu2 by (by rewrite Ep1). by apply (ld_used _ _ _ Hl1).
Qed.

(** Memory after the start: the page tables are loaded, and unless every frame is in use
    they are the identity map of the first 512 MiB and the heap is one free block. *)
Definition memory_up s : Prop :=
  let root := kernel_pml4 (vmm s) in
  tree s root ∧ cr3 (cpu s) = root ∧
  (full s ∨
   ((∀ va, 0 ≤ va < 2 ^ 48 →
       walk (mem s) root va = if decide (va / 4096 < 131072) then Some (identity_entry va) else None) ∧
    ∃ f, heap_inv s [mkBlk (f * 4096) 4072 true] (f * 4096 + 4096))).

Lemma init_pmm_boot n s : (∀ e, 0 ≤ e < entry_count (mem s) → Pmm.e_type (mem s) e = 1 →
    e_base (mem s) e + e_length (mem s) e ≤ 2 ^ 39) → (∃ i, 8192 ≤ i ∧ usable (mem s) i) →
  wp init_pmm n s (λ _ s', pmm_wf s' ∧ pmm_fits s' ∧ ∃ j, 0 ≤ j < total_blocks (pmm s') ∧ used s' j = false).
Proof.
  intros He (i & Hi & Hus). eapply wp_mono; [apply init_pmm_wp|].
  intros _ s' (Hwf & _ & Hu & Hin & Hmax & _). split; [done|].
  assert (total_blocks (pmm s') ≤ 2 ^ 39 / 4096) as Ht.
  { apply Hmax; [done|]. intros e Hr Hty. specialize (He e Hr Hty). unfold range_end.
    pose proof (e_base_range (mem s) e). pose proof (e_length_range (mem s) e). rewrite u64_small; lia. }
  split.
  - unfold pmm_fits, bitmap_span. change (2 ^ 39 / 4096) with 134217728 in Ht. dlia.
  - exists i. split.
    + split; [lia|]. apply Hin; [|done]. intros e Hr Hty. specialize (He e Hr Hty). lia.
    + destruct (used s' i) eqn:E; [|done]. apply Hu in E; [|lia]. destruct E as [?|[_ ?]]; [lia|done].
Qed.

Lemma init_kheap_boot n s root : init_progress root 131072 s → current_pml4 (vmm s) = root → cr3 (cpu s) = root →
  wp init_kheap n s (λ _ s', memory_up s').
Proof.
  intros (Ht & Hk & Hw) Hcur Hcr.
  eapply wp_mono; [apply wp_and; [by apply (init_kheap_tree n s root)|]|].
  - apply (init_kheap_wp n s (λ _ s', (∃ f, heap_inv s' [mkBlk (f * 4096) 4072 true] (f * 4096 + 4096)) ∨ full s));
      [apply Ht..| |].
    + intros i s' _ _ H. left. by exists i.
    + intros s' H _. by right.
  - intros [] s' [(Ht' & Hsame & Ev & Ec & Ep & Hu) Hheap]. unfold memory_up. rewrite Ev, Ec, Hk, Hcr.
    split; [done|]. split; [done|].
    assert (full s → full s') as Hfull. { intros Hf j. rewrite Ep. intros Hj. apply Hu; [done|by apply Hf]. }
    destruct Hw as [Hf|Hw]; [left; auto|]. destruct Hheap as [Hheap|Hf]; [|left; auto].
    right. split; [|done]. intros va Hva. by rewrite Hsame, Hw.
Qed.


(** *** Tables and devices *)

(** The gate [set_idt_gate] stores. *)
Definition gate_of (handler flags : Z) : idt_gate_t :=
  mkGate (u16 handler) 0x08 0 flags (u16 (Z.shiftr handler 16)) (u32 (Z.shiftr handler 32)) 0.

Lemma gate_of_handler handler flags : 0 ≤ handler < 2 ^ 64 → gate_handler (gate_of handler flags) = handler.
Proof.
  intros Hh. unfold gate_handler, gate_of. cbn [i_low_offset i_mid_offset i_high_offset].
  rewrite !Z.shiftr_div_pow2 by lia. width. dlia.
Qed.

Lemma set_idt_gate_wp i handler flags n s (Q : unit → machine → Prop) :
  0 ≤ i < Z.of_nat (length (idt_gates (idt s))) →
  Q tt (set_idt (mkIdt (<[Z.to_nat i := gate_of handler flags]> (idt_gates (idt s))) (idt_reg (idt s))) s) →
  wp (set_idt_gate i handler flags) n s Q.
Proof. intros Hi HQ. unfold set_idt_gate. wp_steps. rewrite tbl_set_Some by done. by wp_steps. Qed.

(** The vectors with a handler, and the privilege their gates ask for. *)
Definition vectors : list (Z * Z) :=
  [(0, 0x8e); (8, 0x8e); (13, 0x8e); (14, 0x8e); (32, 0x8e); (33, 0x8e); (128, 0xee)].

Definition gates_up `{Linker} (l : list idt_gate_t) : Prop :=
  length l = 256%nat ∧
  ∀ v fl, (v, fl) ∈ vectors → l !! Z.to_nat v = Some (gate_of (addr_isr v) fl).

Lemma set_gates_wp `{Linker} n s (Q : unit → machine → Prop) : length (idt_gates (idt s)) = 256%nat →
  (∀ l, gates_up l → Q tt (set_idt (mkIdt l (idt_reg (idt s))) s)) → wp set_gates n s Q.
Proof.
  intros Hl HQ. unfold set_gates.
  do 6 (apply wp_bind, set_idt_gate_wp; [cbn [idt set_idt idt_gates]; rewrite ?length_insert, Hl; lia|]).
  apply set_idt_gate_wp; [cbn [idt set_idt idt_gates]; rewrite ?length_insert, Hl; lia|].
  apply HQ. cbn [idt set_idt idt_gates]. split; [by rewrite !length_insert|].
  assert (∀ i (x : idt_gate_t) (l' : list idt_gate_t), (Z.to_nat i < length l')%nat → <[Z.to_nat i := x]> l' !! Z.to_nat i = Some x) as Hget
    by (intros; by apply list_lookup_insert_eq).
  unfold vectors. intros v fl Hin. set_unfold in Hin.
  repeat destruct Hin as [[= -> ->]|Hin]; [..|done];
    repeat (rewrite list_lookup_insert_ne by lia); apply Hget; rewrite ?length_insert, Hl; lia.
Qed.

(** Everything before the memory initialisation. *)
Record tables_up `{Linker} (s : machine) : Prop := {
  tu_gates : gates_up (idt_gates (idt s));
  tu_idtr : idtr (cpu s) = (4095, addr_idt);
  tu_gdt : gdt_entries (gdt s) = gdt_table addr_tss_entry;
  tu_task : task_reg (gdt s) = 0x28;
  tu_gdtr : gdtr (cpu s) = (55, addr_gdt_entries);
  tu_master : pic_config (pic_master (pics s)) = (0, 32, 4, 1, 0xff);
  tu_slave : pic_config (pic_slave (pics s)) = (0, 40, 2, 1, 0xff);
}.

(** What the tables are set up for keeps: memory, keyboard, paths and processes. *)
Definition others s := (mem s, kbd s, kbd_data s, fat s, processes (proc s)).

(** The first statements of [main], before [k]. *)
Definition start_tables `{Linker} (k : M unit) : M unit :=
  on_console (kprint_at (str "Kernel loaded." ++ newline) 0 10);;
  set_gates;;
  load_idt;;
  outb 0x20 0x11;;
  pic_remap;;
  kprint (str "init & remap" ++ newline);;
  init_gdt;;
  k.

(** The next three. *)
Definition start_memory (k : M unit) : M unit := init_pmm;; vmm_init;; init_kheap;; k.

(** [pic_remap] on any controllers. *)
Lemma pic_remap_wp n s (Q : unit → machine → Prop) :
  (∀ p, pic_config (pic_master p) = (0, 32, 4, 1, 0xff) → pic_config (pic_slave p) = (0, 40, 2, 1, 0xff) →
     Q tt (set_pics p s)) → wp pic_remap n s Q.
Proof.
  intros HQ. destruct s as [? ? ? [[m1 m2 m3 m4 m5 m6] [l1 l2 l3 l4 l5 l6]] ? ? ? ? ? ? ? ? ? ? ? ? ?].
  apply (HQ (mkPics (mkPic 0 32 4 1 0xff m6) (mkPic 0 40 2 1 0xff l6))); reflexivity.
Qed.

Lemma init_gdt_keeps `{Linker} x : preserves (λ s, (others s, idt s, idtr (cpu s), pics s) = x) init_gdt.
Proof. unfold init_gdt. preserve. Qed.

Lemma start_tables_wp `{Linker} k n s (Q : unit → machine → Prop) :
  length (idt_gates (idt s)) = 256%nat → length (gdt_entries (gdt s)) = 7%nat →
  (∀ s', tables_up s' → others s' = others s → wp k n s' Q) → wp (start_tables k) n s Q.
Proof.
  intros Hi Hg HQ. unfold start_tables. apply wp_bind, wp_modify, wp_bind, set_gates_wp; [exact Hi|].
  intros l Hl. unfold load_idt, outb. wp_steps. apply pic_remap_wp. intros p Hm Hs.
  unfold kprint, on_console. wp_steps.
  match goal with |- wp _ _ ?x _ => set (s1 := x) end.
  eapply wp_mono; [eapply wp_preserves; [apply init_gdt_keeps|reflexivity|]|].
  - apply (init_gdt_wp n s1 (λ _ s', gdt s' = mkGdt (gdt_table addr_tss_entry) (55, addr_gdt_entries)
      (mkTss 0 sizeof_tss) 0x28 ∧ gdtr (cpu s') = (55, addr_gdt_entries))); [exact Hg|by auto].
  - intros [] s2 (E & Eg & Er). injection E as E1 E2 E3 E4 E5 E6 E7 E8. apply HQ.
    + split; rewrite ?E6, ?E7, ?E8, ?Eg, ?Er; done.
    + unfold others. by rewrite E1, E2, E3, E4, E5.
Qed.

(** [memory_up] looks at memory, the allocator's variables and the roots. *)
Lemma memory_up_eq s s' : mem s' = mem s → pmm s' = pmm s → vmm s' = vmm s → heap_head s' = heap_head s →
  cr3 (cpu s') = cr3 (cpu s) → memory_up s → memory_up s'.
Proof.
  intros Em Ep Ev Eh Ec (Ht & Hc & H). unfold memory_up. rewrite Ev, Ec, Em.
  assert (∀ i, used s' i = used s i) as Eu by (intros i; unfold used; by rewrite Em, Ep).
  split; [by apply (tree_same s)|]. split; [done|]. destruct H as [H|[H (f & Hf)]].
  - left. intros j. rewrite Ep, Eu. apply H.
  - right. split; [done|]. exists f. destruct Hf as [A B C D E F]. destruct (tree_same s s' _ Em Ep Ht) as [G1 G2 _ _].
    split; rewrite ?Em, ?Eh, ?Ep; try done. intros i. rewrite Eu. apply D.
Qed.

Lemma memory_wp k n s (Q : unit → machine → Prop) :
  (∀ e, 0 ≤ e < entry_count (mem s) → Pmm.e_type (mem s) e = 1 →
    e_base (mem s) e + e_length (mem s) e ≤ 2 ^ 39) → (∃ i, 8192 ≤ i ∧ usable (mem s) i) →
  (∀ s', memory_up s' → early s' = early s → wp k n s' Q) → wp (start_memory k) n s Q.
Proof.
  intros He Hu HQ. apply wp_bind.
  eapply wp_mono; [eapply wp_preserves; [apply early_pmm|reflexivity|by apply init_pmm_boot]|].
  intros [] s1 (E1 & Hwf & Hfit & Hfree). apply wp_bind.
  eapply wp_mono; [eapply wp_preserves; [apply early_vmm|reflexivity|]|].
  { apply (vmm_init_wp n s1 (λ _ s', init_progress (kernel_pml4 (vmm s')) 131072 s' ∧
      current_pml4 (vmm s') = kernel_pml4 (vmm s') ∧ cr3 (cpu s') = kernel_pml4 (vmm s'))); [done..|]. by auto. }
  intros [] s2 (E2 & Hp & Hc & Hr). apply wp_bind.
  eapply wp_mono; [eapply wp_preserves; [apply early_kheap|reflexivity|by eapply init_kheap_boot]|].
  intros [] s3 [E3 H3]. apply HQ; [done|]. congruence.
Qed.

(** *** The first process *)

(** The kernel itself runs as process 0, and no other slot is in use. *)
Definition first_process s : Prop :=
  length (processes (proc s)) = 16%nat ∧ current_pid (proc s) = 0 ∧ process_count (proc s) = 1 ∧
  state_of (processes (proc s)) 0 = Some PROCESS_RUNNING ∧
  ∀ i, 0 < i < 16 → state_of (processes (proc s)) i = Some PROCESS_WAITING.

Lemma first_process_wf s : first_process s → proc_wf s.
Proof. intros (Hl & Hc & Hn & _ & _). split; rewrite ?Hn, ?Hc; [done|lia|lia|]. intros. lia. Qed.

(** An update of a slot, as what it does to the states. *)
Lemma upd_state_wp i f n s (Q : unit → machine → Prop) :
  length (processes (proc s)) = 16%nat → 0 ≤ i < 16 →
  (∀ s' ps p, only_table s s' ps → length ps = 16%nat → tbl_get (processes (proc s)) i = Some p →
     (∀ j, 0 ≤ j → state_of ps j = if decide (i = j) then Some (p_state (f p)) else state_of (processes (proc s)) j) →
     Q tt s') →
  wp (upd_proc i f) n s Q.
Proof.
  intros Hl Hi HQ. destruct (tbl_get_Some (processes (proc s)) i) as [p Hp]; [lia|].
  eapply upd_proc_wp; [exact Hp|]. intros s' Hs. eapply HQ; [exact Hs|by rewrite length_insert|done|].
  intros j Hj. unfold state_of. rewrite tbl_get_insert by lia. by case_decide.
Qed.

Lemma only_table_procs s s' ps : only_table s s' ps → processes (proc s') = ps.
Proof. intros [_ E]. by rewrite E. Qed.

Definition waiting_upto i s : Prop :=
  length (processes (proc s)) = 16%nat ∧
  ∀ j, 0 ≤ j < i → state_of (processes (proc s)) j = Some PROCESS_WAITING.

Lemma init_multitasking_wp n s : length (processes (proc s)) = 16%nat →
  wp init_multitasking n s (λ _ s', first_process s').
Proof.
  intros Hl. unfold init_multitasking. apply wp_bind, (wp_for_unit waiting_upto).
  - split; [done|]. intros j Hj. lia.
  - intros i s1 Hi [Hl1 H1]. change (Z.of_nat (Z.to_nat MAX_PROCESSES)) with 16 in Hi.
    apply upd_state_wp; [done|lia|]. intros s2 ps p Ht Hps _ Hst. apply only_table_procs in Ht.
    split; rewrite Ht; [done|]. intros j Hj. rewrite Hst by lia. case_decide; [done|]. apply H1. lia.
  - change (0 + Z.of_nat (Z.to_nat MAX_PROCESSES)) with 16. intros s1 [Hl1 H1].
    apply wp_bind, upd_state_wp; [done|lia|]. intros s2 ps2 p2 Ht2 Hps2 _ Hst2. apply only_table_procs in Ht2.
    apply wp_bind, upd_state_wp; [by rewrite Ht2|lia|]. intros s3 ps3 p3 Ht3 Hps3 _ Hst3. apply only_table_procs in Ht3.
    wp_steps. wp_print. unfold first_process. rewrite Hc. cbn [proc set_cons set_current_pid set_process_count set_proc processes current_pid process_count].
    rewrite Ht3. split_and!; try done; [by rewrite Hst3|]. intros i Hi.
    rewrite Hst3, decide_False, Ht2, Hst2, decide_False by lia. apply H1. lia.
Qed.

(** *** [main] *)

(** Everything the memory and the processes do not concern. *)
Definition kept_devices s := (kbd s, kbd_data s, fat s, idt s, gdt s, (idtr (cpu s), gdtr (cpu s)), pics s).

Lemma init_multitasking_keeps x : preserves (λ s, (kept_devices s, mem s, pmm s, vmm s, heap_head s, cr3 (cpu s)) = x) init_multitasking.
Proof. unfold init_multitasking. preserve. Qed.

(** The machine is up. *)
Record booted `{Linker} (s : machine) : Prop := {
  bo_gates : gates_up (idt_gates (idt s));
  bo_idtr : idtr (cpu s) = (4095, addr_idt);
  bo_gdt : gdt_entries (gdt s) = gdt_table addr_tss_entry;
  bo_gdtr : gdtr (cpu s) = (55, addr_gdt_entries);
  bo_task : task_reg (gdt s) = 0x28;
  bo_irq : pic_config (pic_master (pics s)) = (0, 32, 4, 1, 0xfc) ∧
           pic_config (pic_slave (pics s)) = (0, 40, 2, 1, 0xff);
  bo_timer : pit_mode (pit s) = 0x36 ∧ pit_divisor (pit s) = 23863;
  bo_if : iflag (cpu s) = true;
  bo_memory : memory_up s;
  bo_process : first_process s;
}.

(** From the first process on. *)
Lemma finish_boot_wp n s (Q : unit → machine → Prop) :
  pic_step (pic_master (pics s)) = 0 →
  (∀ s', (kbd s', kbd_data s', fat s', idt s', gdt s', mem s', pmm s', vmm s', proc s', heap_head s') =
         (kbd s, kbd_data s, fat s, idt s, gdt s, mem s, pmm s, vmm s, proc s, heap_head s) →
     cpu s' = mkCpu (cr3 (cpu s)) (cr2 (cpu s)) (idtr (cpu s)) (gdtr (cpu s)) true →
     pics s' = mkPics (mkPic 0 (pic_offset (pic_master (pics s))) (pic_icw3 (pic_master (pics s)))
       (pic_icw4 (pic_master (pics s))) 0xfc (pic_eoi (pic_master (pics s)))) (pic_slave (pics s)) →
     pit_mode (pit s') = 0x36 → pit_divisor (pit s') = 23863 → Q tt s') →
  wp (outb 0x21 0xfc;; sti;; init_timer 50;; prompt) n s Q.
Proof.
  intros Hst HQ. unfold outb at 1, sti. wp_steps.
  match goal with |- wp _ _ (set_cpu _ ?x) _ => assert (pics x = mkPics (pic_data 0xfc (pic_master (pics s))) (pic_slave (pics s))) as Ep by reflexivity end.
  unfold pic_data in Ep. rewrite Hst in Ep. rewrite !(decide_False (P := 0 = _)) in Ep by lia.
  unfold init_timer, outb, kprint, on_console, prompt, fat_get_current_path.
  rewrite decide_False by lia. unfold kprint, on_console. wp_steps.
  apply HQ; [reflexivity|reflexivity|exact Ep|reflexivity|reflexivity].
Qed.

Lemma main_phases `{Linker} :
  main = start_tables (start_memory (init_multitasking;; (outb 0x21 0xfc;; sti;; init_timer 50;; prompt))).
Proof. reflexivity. Qed.

Lemma main_wp `{Linker} n s : boots s → wp main n s (λ _ s', booted s' ∧ sys_ok s' s').
Proof.
  intros Hb. rewrite main_phases. apply start_tables_wp; [apply Hb..|]. intros s1 T1 O1.
  injection O1 as Em Ek Ed Ef Epr. apply memory_wp.
  { rewrite Em. apply (bt_e820 _ Hb). }
  { rewrite Em. apply (bt_usable _ Hb). }
  intros s2 M2 E2. injection E2 as Ek2 Ed2 Ef2 Ei2 Eg2 Er2 Egr2 Ep2 Epr2.
  apply wp_bind. eapply wp_mono; [eapply wp_preserves; [apply init_multitasking_keeps|reflexivity|apply init_multitasking_wp]|].
  { rewrite Epr2, Epr. apply Hb. }
  intros [] s3 [E3 F3]. injection E3 as Ek3 Ed3 Ef3 Ei3 Eg3 Er3 Egr3 Ep3 Em3 Epm3 Ev3 Eh3 Ec3.
  destruct T1 as [T1 T2 T3 T4 T5 T6 T7]. unfold pic_config in T6, T7. injection T6 as P1 P2 P3 P4 P5.
  apply finish_boot_wp; [by rewrite Ep3, Ep2|]. intros s4 E4 Ec4 Ep4 Ht1 Ht2.
  injection E4 as Ek4 Ed4 Ef4 Ei4 Eg4 Em4 Epm4 Ev4 Epr4 Eh4.
  assert (first_process s4) as F4 by (unfold first_process; by rewrite Epr4).
  split.
  - split; rewrite ?Ei4, ?Ei3, ?Ei2, ?Eg4, ?Eg3, ?Eg2, ?Ec4; cbn [idtr gdtr iflag]; try done; try congruence.
    + rewrite Ep4, Ep3, Ep2. unfold pic_config. cbn. rewrite P2, P3, P4. by rewrite T7.
    + by apply (memory_up_eq s2); rewrite ?Ec4; cbn [cr3]; congruence.
  - split; [by apply first_process_wf|]. split.
    + exists []. destruct (bt_line _ Hb) as [A B C D]. assert (kbd s4 = kbd s) as E by congruence.
      split; by rewrite ?E.
    + split; [rewrite Ed4, Ed3, Ed2, Ed; apply Hb|]. split; [|done]. rewrite Ef4, Ef3, Ef2, Ef. apply Hb.
Qed.

End boot.

(** ** Properties *)

(** A machine with 128 MiB: one usable range from 1 MiB on. *)
Definition boot_demo : machine :=
  set_mem (store 2 0x5000 1 (store 8 0x5004 0x100000 (store 8 0x500c 0x7f00000 (store 4 0x5014 1 ∅)))) boot_machine.

Lemma boot_demo_boots : boots boot_demo.
Proof.
  assert (entry_count (mem boot_demo) = 1 ∧ Pmm.e_type (mem boot_demo) 0 = 1 ∧
    e_base (mem boot_demo) 0 = 0x100000 ∧ e_length (mem boot_demo) 0 = 0x7f00000) as (Ec & Et & Eb & El)
    by (by vm_compute).
  split; try done.
  - split; [by exists (replicate 255 0)|done|constructor|done].
  - rewrite Ec. intros e He _. assert (e = 0) as -> by lia. rewrite Eb, El. lia.
  - exists 8192. split; [lia|]. exists 0. rewrite Ec, Et, Eb, El. split; [lia|]. split; [done|].
    by vm_compute.
Qed.

(** C13. The start of the kernel terminates, on any machine whose E820 table has usable memory
    above 32 MiB and none above 512 GiB: afterwards the seven vectors lead to their stubs, in
    gates only the system call's of which user code may use, the descriptor tables are
    loaded, the interrupt controllers deliver timer and keyboard and nothing else on vectors
    32 and 33, the timer divides for 50 Hz, interrupts are enabled, the kernel is process 0
    and the only one, and, unless the frames ran out, the first 512 MiB are mapped to
    themselves and the heap is one free block. *)
Theorem main_boots `{Linker} n s :
  boots s →
  wp main n s (λ _ s',
    (∀ v fl, (v, fl) ∈ vectors → ∃ g, idt_gates (idt s') !! Z.to_nat v = Some g ∧
       gate_handler g = addr_isr v ∧ i_flags g = fl) ∧
    booted s').
Proof.
  intros Hb. eapply wp_mono; [by apply main_wp|]. intros [] s' [Hup _]. split; [|done].
  intros v fl Hin. eexists. split; [by apply (bo_gates _ Hup)|]. split; [apply gate_of_handler, linker_isr|done].
Qed.

Lemma main_boots_witness :
  let _ := demo_linker in
  wp main 0 boot_demo (λ _ s',
    (∀ v fl, (v, fl) ∈ vectors → ∃ g, idt_gates (idt s') !! Z.to_nat v = Some g ∧
       gate_handler g = addr_isr v ∧ i_flags g = fl) ∧
    booted s').
Proof. apply (@main_boots demo_linker 0 boot_demo boot_demo_boots). Defined.

(** C1. The running system keeps its invariant and goes on being served.  In every state that
    is reached from the start by handlers that return and by programs and devices that change
    memory, the drive, the scancode and the fault address but not the kernel's variables, the
    process table is well formed, the line buffer holds a terminated line inside its array,
    the path has its array, and descriptor tables, frame allocator variables, kernel page
    table root, timer and interrupt controllers are as the start left them; and there the
    handler does return, with the invariant again, from every interrupt that is servable: the
    timer, every key but a character behind 255 others and Enter on a line that names a disk,
    heap or power command or starts with a word of 32 characters, every system call but the
    print of a string that is not mapped, the division fault and unknown vectors. *)
Theorem system_invariant `{Linker} n s :
  boots s →
  wp main n s (λ _ s0, ∀ s', rtc step s0 s' → sys_ok s0 s' ∧
    ∀ k r, servable k s' r → wp (isr_handler r) k s' (λ _ s'', sys_ok s0 s'')).
Proof.
  intros Hb. eapply wp_mono; [by apply main_wp|]. intros [] s0 [_ Hok] s' Hs.
  pose proof (steps_ok _ _ _ Hok Hs) as H'. split; [done|]. intros k r. by apply serves_ok.
Qed.

Lemma system_invariant_witness :
  let _ := demo_linker in
  wp main 0 boot_demo (λ _ s0, ∀ s', rtc step s0 s' → sys_ok s0 s' ∧
    ∀ k r, servable k s' r → wp (isr_handler r) k s' (λ _ s'', sys_ok s0 s'')).
Proof. apply (@system_invariant demo_linker 0 boot_demo boot_demo_boots). Defined.
